(* ===== verification/_CoqProject ===== *)
-Q . S2P
Prelude.v
GoStrings.v
CashBits.v
Cashaddr.v
Convert.v
Amounts.v
Progress.v
Timestamps.v
Pagination.v
Config.v
Log.v
Connection.v
Helpers.v
Scripts.v
Retry.v
Files.v
Csv.v
Json.v
JsonText.v
JsonHoles.v
Rpc.v
Eth.v
Etherscan.v
Utxo.v
NodeJson.v
ConfigJson.v
BlockTable.v
Store.v
Postgres.v
Ledger.v
Indexer.v
InsightTypes.v
EasyJson.v
EasyJsonModel.v
InsightJson.v
InsightSchema.v
Insight.v
InsightApi.v
Pipeline.v
Sync.v
Node.v
TxValidator.v
Follow.v
Tracking.v
Unspent.v
Reorg.v
Zmq.v
BlockValidator.v
Monitor.v
Xpub.v
Server.v
Services.v
AddressAudit.v
Utilities.v
HealthCheck.v
Template.v
DeployTemplates.v
Stack.v
CoinGen.v
