(* ===== verification/Prelude.v ===== *)
(** * A verification of coinquery: indexing a UTXO chain

    The system (src/V2) keeps a PostgreSQL copy of the chain of a bitcoin-like
    coin and answers queries on it.  The indexer (cmd/indexer) reads blocks and
    mempool transactions from a node and writes them through the client of
    pkg/postgres, which calls PL/pgSQL functions deployed from
    build/ingester-sql-ddl.  Two periodic jobs keep the copy right: the block
    validator (cmd/blockvalidator) compares it with the node and repairs it, the
    transaction validator (cmd/txvalidator) removes pending transactions that
    left the mempool.  The monitor (cmd/monitor) removes the transactions of
    orphaned blocks.  The API server (cmd/api) routes requests to the insight
    API (pkg/api/insight), which answers from the store, and to an Ethereum
    proxy (pkg/api/etherscan).  Announcements of the node arrive over pkg/zmq,
    calls of the node go through pkg/http.  Small packages serve all of them:
    amounts (internal/convert), repetition of failing calls (internal/retry),
    the log (internal/log), the configuration (config) and the bitcoin cash
    address format (pkg/cashaddr).  Beside the system stand reporting tools
    (cmd/util, src/services/blockbuster) and, of the previous one (src/V1), the
    health checks and the generator of its deployments.

    ** Conventions

    A Go call is a value of [gores]: it returned ([Val]), returned an error
    ([Err]), panicked ([Panic]) or ended the process through [log.Fatal]
    ([Exit]).  Integers are [Z] with the wrap-around of their width written out
    ([int64], [uint64], [uint8]) where the code computes with them; strings are
    Stdlib strings, byte slices lists of [Z].  Definitions keep the names of the
    source, prefixed by the type where two fields share a name.  Code with
    effects passes its state, in the monad [act] where it is threaded through
    many calls; goroutines are step relations in which whatever can move may
    move next.

    Code that is not in the repository enters as the data of a class
    ([Chaincfg], [Txscript], [JsonNumbers], [SortSlice], [SortAny], [Btcutil],
    [AddressMakers], [Hdkeychain], [FloatText], [Jwriter], [Jlexer], [Zmq4],
    [Chi], [Sql]) and, where a theorem relies on its documented behaviour, a
    class of laws ([TxscriptLaws], [SortSliceLaws], [SortAnyLaws],
    [JwriterLaws], [JlexerLaws], [Zmq4Laws], [ChiLaws], [SqlLaws]), with an
    instance that satisfies them.  [RowOrder] is the order in which the database
    returns the rows of a query without [ORDER BY]: any permutation, another one
    for each query and each of its arguments; theorems hold for every instance.

    ** The files

    - [GoStrings]: the functions of [strings], [strconv] and [encoding/hex] in
      use, with round trips of decimal and hexadecimal texts.
    - [CashBits], [Cashaddr]: pkg/cashaddr/cashaddr.go.  The unrolled checksum
      is the remainder of a polynomial division over GF(32) and detects every
      burst of up to eight symbols; the base conversion is a bijection; what an
      address encodes to is decoded to the address, with or without prefix;
      what is decoded is the encoding of a version byte and the hash, and
      re-encodes to the same text for the versions in use; payment scripts
      give their address back.  Malformed addresses that panic are exhibited.
    - [Convert], [Helpers], [Retry]: the internal packages of these names.
      Amounts are converted exactly or refused; the attempts and the sleeps of
      the retry loops are counted.
    - [Amounts], [Timestamps]: the rest of internal/convert.  Amounts as
      [float64] and their text, with the exact bound below which no satoshi is
      lost; RFC 3339 times and the calendar of package time, whose formatting
      and parsing are inverse.
    - [Scripts]: internal/btcscriptparser, addresses cut out of standard
      scripts.
    - [Files], [Csv]: files as the tools use them, and the reader and writer of
      package encoding/csv: records written are read back, rows of uneven
      length are refused, and reading ends on every text.
    - [Pagination], [Config], [ConfigJson]: pkg/api/helpers.go and
      config/config.go, from the file to the records.
    - [Log], [Progress]: internal/log/log.go, whose custom fields requests
      share, and the percentage in single precision that [Info] reports.
    - [Json], [JsonText], [Rpc]: decoding as package encoding/json does it, the
      texts it writes and reads, and pkg/http/http.go: calls, batches, retries,
      from the text of a request to the decoded response.  What is written is
      read back.  A [format] pairs the decoder of a Go type with the JSON that
      stands for its values; decoding recovers the value, also after the detour
      through [interface{}] of a batch.
    - [JsonHoles]: JSON texts with holes.  Where the holes stand apart in
      strings, parsing the filled text is filling the parsed one.
    - [Utxo], [NodeJson]: the records of pkg/blockchain/utxo/types.go and their
      formats.
    - [BlockTable]: the table of blocks and [block_insert].  [table_ok]: unique
      ids and keys and at most one block of the main chain per height, kept by
      every insertion; [block_insert_keeps_chain]: the main chain stays linked
      through reorganisations of any depth, under the condition that the block
      is new or sits where it was; three histories outside the condition, in
      which the chain breaks, are evaluated.
    - [Store]: the tables of transactions, inputs, outputs and metadata with
      their functions; [store_ok] is kept by every statement.
    - [Postgres]: the methods of [Database].  A statement that writes runs over
      a connection that may lose requests and replies; [InsertTx] and
      [InsertBlock] take effect exactly once all the same.
    - [Connection]: [New], [Close] and the monitor of the connection, and the
      tokens that bound the statements under way.
    - [Ledger]: what the queries answer: unspent outputs, histories of
      addresses with their pages, blocks read back after insertion.
    - [Indexer]: cmd/indexer/main.go, the choice of heights and the restoring
      of their order.
    - [Insight]: pkg/api/insight/helpers.go.  The goroutines of [getTxs] agree
      with a sequential reference, whatever the order of their results.
    - [InsightTypes], [EasyJson], [EasyJsonModel], [InsightJson],
      [InsightSchema]: pkg/api/insight/types.go and the generated
      types_easyjson.go.  What every encoder writes has the members of the
      tags with the values of the fields, and the decoders read it back; [EasyJsonModel] is a writer and a lexer
      that satisfy the laws.
    - [InsightApi]: pkg/api/insight/insight.go, the handlers and middlewares:
      pages of histories and blocks, unspent outputs, address formats.  A page
      of a block has the right size and number; that the pages of a long block
      show each transaction once needs a database that keeps to one order.
    - [Pipeline]: the goroutines of [initialSync] as a step relation over
      unbuffered channels; every run writes blocks in order and each transaction
      after its block, and every run ends with everything written.
    - [Sync]: the pipeline on the store: the abstract specification is the chain
      the node serves, and at rest the store answers with that chain.
    - [Node]: pkg/blockchain/utxo/utxo.go.  Behind a network that fails fewer
      times in a row than the client tries, [GetBlocks] returns the blocks of the
      node's chain, as [Sync] assumes.
    - [Zmq], [Follow], [Tracking]: the indexer after the initial
      synchronisation.  Every announced hash is passed on; the mempool is worked
      off, with at most eleven calls for each transaction; and [Tracking] composes the goroutines of [staySynced] with the
      store: from an empty schema on, whenever nothing is under way the store
      holds the node's chain up to its tip.  An interleaving in which the
      indexer ends itself is exhibited.
    - [Unspent]: what the balances of the followed chain are.  Whenever the
      indexer is at rest, the unspent outputs the store answers for an address
      are those a scan of the node's chain finds.
    - [Reorg]: the rounds of [syncToTip] when the node changes its branch, with
      blocks of earlier branches stored or not: two announcements recover from
      a fork of up to three blocks, and no number of them from a deeper one.
    - [TxValidator], [BlockValidator]: the transaction validator, and the block
      validator with its repairs, after which the block is on the main chain
      with all its transactions, and its termination signal.
    - [Eth], [Etherscan]: pkg/blockchain/eth/eth.go and
      pkg/api/etherscan/etherscan.go, the Ethereum client and its API: balances
      from the query to the response, the data of contract calls.
    - [Monitor]: cmd/monitor/main.go, the removal of orphaned transactions.
    - [Xpub]: internal/xpubutil, the discovery of the used addresses of an
      extended key by concurrent batches of twenty.
    - [Server], [Services]: the routes, the middlewares and the handler [Info]
      of cmd/api, pkg/api/server and internal/middleware, the routes of the
      monitor, and the constructors and [main] functions of all services: they
      start with a good configuration and a database that answers, and end for
      no other reasons than a bad one; the node is not contacted.
    - [AddressAudit], [Utilities], [HealthCheck]: src/services/blockbuster with
      the file it leaves, the comparer and the rate reporter of cmd/util, and
      the health checks and the task killer of src/V1.
    - [Template], [DeployTemplates], [Stack], [CoinGen]: the generator of
      src/V1/deploy/gen.  [Template] is the part of text/template in use,
      [DeployTemplates] the templates as they stand in the source, [Stack] the
      references of a stack description that must resolve, those of its
      conditions included, and its dependencies.  [coin_generated]: for every
      name of letters and digits [gen_coin] writes such a stack and the rule
      that creates it, and [gen_deploy] the script that makes the rules.

    ** Interfaces

    [Pipeline] is proved against the class [Database], the interface of the same
    name in cmd/indexer/main.go; [Sync] gives the instance made of [InsertBlock]
    and [InsertTx] of [Postgres].  [Sync] assumes of the node that it serves a
    chain ([serves_chain]); [Node] shows that the client provides it.
    [Tracking] starts where [Sync] ends and uses the client directly, as the
    validators do.  The handlers of [InsightApi] and [Etherscan] are proved for
    any carrier of replies ([Replies]); [Server] routes to them.

    ** Fuel

    Loops whose recursion is not structural carry fuel.  [cb_emit] gets the
    number of bits held, of which each round removes at least one.
    [activate] and [orphan_children] of [block_insert] get a number above the
    number of rows; [activate_total] and [orphan_children_total] prove it
    enough on every consistent table.  [Simple] and [Backoff] get the number of
    attempts, the rounds they make.  [processBlockHeights] gets the rounds it
    may make, and [processBlockHeights_covers] states how many are enough.
    [send_results] gets the number of results held.  [parse_value] gets twice
    the length of the text, and the lemmas on the texts written show it
    enough; the decoders of [InsightJson] get the number of tokens, and
    [replace_all] the length of the text.  [derive_loop] gets its
    rounds, and [deriveAddresses_discovers] states how many are enough.
    [ReadAll] of [Csv] gets one more than the number of lines and a record the
    number of bytes left, enough on every text ([ReadAll_total]).
    [schedule] gets the number of resources, one of which each round starts,
    and the parser gets four hundred levels for the stack template, on which it
    is evaluated.  Reaching a bound is the value [FuelExhausted], which no theorem accepts as
    success.

    ** Not modelled

    Of the transport to the node: the construction of URLs (a parameter of
    [Rpc]), connections and their time limits.  Concurrent statements inside
    the database server: a statement is atomic.  The id gaps aborted statements
    leave.  [InsertBlock] returns the id its closure assigned, the order of
    evaluation the compiler chooses where the language leaves it open.  While
    [Tracking] runs, the node's chain only grows; in [Reorg], which is about
    the changes of branch, announcements do not overlap and no attempt fails.
    The middlewares of chi itself, which pass requests on, the listening
    sockets, and the ticker of the monitor.  The declarations of interfaces,
    which the classes stand for, and of command line flags, whose values are
    arguments.  The exported wrappers of types_easyjson.go, which only call the
    encoders and decoders modelled.  Of text/template: everything the templates
    do not use.  Debugging output (internal/pretty) and the mocks of the
    tests. *)

From stdpp Require Import base list strings gmap sorting numbers.
From Stdlib Require Import ZArith Lia.

Declare Scope go_scope.
Delimit Scope go_scope with go.

Local Open Scope Z_scope.

(** ** Results of Go calls *)

(** A Go error value.  [ENew] is the result of [errors.New] / [fmt.Errorf]: two
    of them are never the same pointer.  [ESentinel] is a package level error
    variable, compared by identity; [EWrap] is [errors.Wrap]. *)
Inductive gerror :=
| ENew (msg : string)
| ESentinel (name : string)
| EWrap (msg : string) (cause : gerror).

(** The run-time panics the modelled code can raise. *)
Inductive gopanic :=
| IndexOutOfRange
| SliceBounds
| NegativeRepeat
| NilDereference
| InvalidArgument
| CloseOfClosed
| NegativeChanSize
| SendOnClosed
| PanicError (e : gerror)  (** [panic(err)], [log.Panic(err)] *)
| FuelExhausted.  (** the model's bound on a loop was reached: no Go or SQL error *)

(** [Val]: the call returned with a nil error; [Err]: it returned an error;
    [Panic]: it panicked; [Exit]: it called [log.Fatal], which ends the
    process. *)
Inductive gores (A : Type) :=
| Val (a : A)
| Err (e : gerror)
| Panic (p : gopanic)
| Exit (e : gerror).
Arguments Val {A} a.
Arguments Err {A} e.
Arguments Panic {A} p.
Arguments Exit {A} e.

#[global] Instance gerror_eq_dec : EqDecision gerror.
Proof. solve_decision. Defined.
#[global] Instance gopanic_eq_dec : EqDecision gopanic.
Proof. solve_decision. Defined.
#[global] Instance gores_eq_dec {A} `{EqDecision A} : EqDecision (gores A).
Proof. solve_decision. Defined.

#[global] Instance gores_ret : MRet gores := fun A a => Val a.
#[global] Instance gores_bind : MBind gores := fun A B f m =>
  match m with
  | Val a => f a
  | Err e => Err e
  | Panic p => Panic p
  | Exit e => Exit e
  end.

#[global] Instance gores_fmap : FMap gores := fun A B f m =>
  match m with
  | Val a => Val (f a)
  | Err e => Err e
  | Panic p => Panic p
  | Exit e => Exit e
  end.

(** [if err != nil { return ..., errors.Wrap(err, msg) }] *)
Definition wrap_err {A} (msg : string) (m : gores A) : gores A :=
  match m with Err e => Err (EWrap msg e) | _ => m end.

(** [if err != nil { log.Fatal(err, ...) }] *)
Definition fatal_err {A} (m : gores A) : gores A :=
  match m with Err e => Exit e | _ => m end.

(** The call returned: neither a panic nor a process exit. *)
Definition returned {A} (m : gores A) : Prop :=
  match m with Val _ | Err _ => True | _ => False end.

Lemma bind_Val {A B} (m : gores A) (f : A → gores B) b :
  (m ≫= f) = Val b ↔ ∃ a, m = Val a ∧ f a = Val b.
Proof.
  destruct m; cbn; split; try (by eauto); try (by intros (? & [=] & ?)).
  by intros (? & [= ->] & ?).
Qed.

(** A call that acts on the outside world *)
Definition act (W A : Type) : Type := W → gores A * W.

Definition act_bind {W A B} (m : act W A) (f : A → act W B) : act W B := fun w =>
  match m w with
  | (Val a, w) => f a w
  | (Err e, w) => (Err e, w)
  | (Panic p, w) => (Panic p, w)
  | (Exit e, w) => (Exit e, w)
  end.

(** [if err != nil { return errors.Wrap(err, msg) }] *)
Definition act_wrap {W A} (msg : string) (m : act W A) : act W A := fun w => let '(r, w) := m w in (wrap_err msg r, w).

(** A result that acts on nothing *)
Definition act_val {W A} (r : gores A) : act W A := fun w => (r, w).

(** [if err != nil { log.Fatal(err, ...) }] and [if err != nil { log.Panic(err) }] *)
Definition act_fatal {W A} (m : act W A) : act W A := fun w => let '(r, w) := m w in (fatal_err r, w).
Definition act_panic {W A} (m : act W A) : act W A := fun w =>
  let '(r, w) := m w in (match r with Err e => Panic (PanicError e) | _ => r end, w).

(** ** Fields of records *)

(** A record as its constructor applied to its fields *)
Class Settable (R : Type) := eta_record : R → R.

(** An assignment to a field *)
Class Setter {R T} (f : R → T) := set_field : T → R → R.
Arguments set_field {R T} f {_} _ _.

Ltac build_setter R f :=
  let e := constr:(eta_record (R := R)) in
  let e := eval cbv delta [eta_record] in e in
  let e := match e with ?inst => let i := eval hnf in inst in i end in
  intros v x;
  let b := eval cbv beta in (e x) in
  let b := eval pattern (f x) in b in
  match b with ?g _ => let r := eval cbv beta in (g v) in exact r end.

#[export] Hint Extern 0 (@Setter ?R _ ?f) => (hnf; build_setter R f) : typeclass_instances.

(** ** Machine integers *)

Definition two63 : Z := 9223372036854775808.
Definition two64 : Z := 18446744073709551616.

(** Go's [int] and [int64] (64-bit two's complement), [uint]/[uint64], [byte]. *)
Definition int64 (z : Z) : Z := (z + two63) mod two64 - two63.
Definition uint64 (z : Z) : Z := z mod two64.
Definition uint8 (z : Z) : Z := z mod 256.
Definition uint32 (z : Z) : Z := z mod 4294967296.

Definition in_int64 (z : Z) : Prop := - two63 ≤ z < two63.
Definition is_byte (z : Z) : Prop := 0 ≤ z < 256.

Lemma int64_id z : in_int64 z → int64 z = z.
Proof. unfold in_int64, int64, two63, two64. intros. rewrite Z.mod_small; lia. Qed.

Lemma int64_range z : in_int64 (int64 z).
Proof.
  unfold in_int64, int64, two63, two64.
  pose proof (Z.mod_pos_bound (z + 9223372036854775808) 18446744073709551616). lia.
Qed.

Lemma int64_add_l a b : int64 (int64 a + b) = int64 (a + b).
Proof.
  unfold int64. f_equal. replace ((a + two63) mod two64 - two63 + b + two63) with ((a + two63) mod two64 + b) by lia.
  rewrite Zplus_mod_idemp_l. f_equal. lia.
Qed.

Lemma int64_sub a b : int64 (int64 a - int64 b) = int64 (a - b).
Proof.
  unfold Z.sub at 1. rewrite int64_add_l. unfold int64. f_equal.
  replace (a + - ((b + two63) mod two64 - two63) + two63) with (a + two63 + two63 - (b + two63) mod two64) by lia.
  rewrite Zminus_mod_idemp_r. f_equal. lia.
Qed.

Lemma uint64_id z : 0 ≤ z < two64 → uint64 z = z.
Proof. intros. apply Z.mod_small. done. Qed.

Lemma uint8_id z : is_byte z → uint8 z = z.
Proof. intros. apply Z.mod_small. done. Qed.

Lemma uint8_byte z : is_byte (uint8 z).
Proof. apply Z.mod_pos_bound. lia. Qed.

(** A boolean property checked on every integer of a range by evaluation. *)
Lemma forallb_range (f : Z → bool) (lo n x : Z) :
  forallb f (seqZ lo n) = true → lo ≤ x < lo + n → f x = true.
Proof.
  intros Hf Hx. rewrite forallb_forall in Hf. apply Hf, list_elem_of_In, elem_of_seqZ. lia.
Qed.

(** ** Lists *)

(** In a list without duplicate keys the key determines the element. *)
Lemma NoDup_map_inj {A B} (f : A → B) (l : list A) x y :
  NoDup (map f l) → x ∈ l → y ∈ l → f x = f y → x = y.
Proof.
  induction l as [|z l IH]; [by intros _ ?%elem_of_nil|]. cbn.
  intros [Hz Hl]%list.NoDup_cons Hx Hy Hk.
  apply elem_of_cons in Hx as [->|Hx], Hy as [->|Hy]; [done|..].
  - destruct Hz. rewrite Hk. by apply (list_elem_of_fmap_2 f).
  - destruct Hz. rewrite <-Hk. by apply (list_elem_of_fmap_2 f).
  - by apply IH.
Qed.

Lemma StronglySorted_weaken {A} (R R' : A → A → Prop) l :
  (∀ a b, R a b → R' a b) → StronglySorted R l → StronglySorted R' l.
Proof. intros H. induction 1 as [|a l _ IH Hall]; constructor; [done|]. eapply Forall_impl; [|exact Hall]. auto. Qed.

(** Closes [Forall P l] for closed [l] where [P] is an integer range. *)
Ltac closed_ranges :=
  solve [vm_compute; repeat (constructor; [split; [discriminate|reflexivity]|]); constructor].
