(* ===== verification/GoStrings.v ===== *)
(** Go strings: byte views, and the functions of [strings], [strconv] and
    [encoding/hex] the modelled packages call.  A Go string is a sequence of
    bytes; it is a Stdlib [string] here, with [bytes] and [of_bytes] as the
    conversions to and from [[]byte]. *)

From stdpp Require Import base list strings numbers.
From Stdlib Require Import ZArith Lia Ascii.
From S2P Require Import Prelude.

Local Open Scope Z_scope.

(** ** Bytes of a string *)

Definition byte_of_ascii (a : ascii) : Z := Z.of_N (N_of_ascii a).
Definition ascii_of_byte (z : Z) : ascii := ascii_of_N (Z.to_N (uint8 z)).

Fixpoint bytes (s : string) : list Z :=
  match s with
  | EmptyString => []
  | String a s => byte_of_ascii a :: bytes s
  end.

Fixpoint of_bytes (l : list Z) : string :=
  match l with
  | [] => EmptyString
  | z :: l => String (ascii_of_byte z) (of_bytes l)
  end.

(** [len(s)] *)
Definition slen (s : string) : Z := Z.of_nat (String.length s).

Lemma byte_of_ascii_byte a : is_byte (byte_of_ascii a).
Proof. unfold is_byte, byte_of_ascii. pose proof (N_ascii_bounded a). lia. Qed.

Lemma byte_ascii_byte z : is_byte z → byte_of_ascii (ascii_of_byte z) = z.
Proof.
  intros H. unfold byte_of_ascii, ascii_of_byte. rewrite uint8_id by done.
  destruct H. rewrite N_ascii_embedding by lia. lia.
Qed.

Lemma ascii_byte_ascii a : ascii_of_byte (byte_of_ascii a) = a.
Proof.
  unfold ascii_of_byte. rewrite uint8_id by apply byte_of_ascii_byte.
  unfold byte_of_ascii. rewrite N2Z.id. apply ascii_N_embedding.
Qed.

Lemma bytes_of_bytes l : Forall is_byte l → bytes (of_bytes l) = l.
Proof. induction 1; cbn; [done|]. by rewrite byte_ascii_byte, IHForall. Qed.

Lemma of_bytes_bytes s : of_bytes (bytes s) = s.
Proof. induction s; cbn; [done|]. by rewrite ascii_byte_ascii, IHs. Qed.

Lemma bytes_is_byte s : Forall is_byte (bytes s).
Proof. induction s; constructor; auto using byte_of_ascii_byte. Qed.

Lemma append_cons a s t : (String a s ++ t)%string = String a (s ++ t)%string.
Proof. reflexivity. Qed.

Lemma append_nil_l t : (EmptyString ++ t)%string = t.
Proof. reflexivity. Qed.

Lemma append_nil_r s : (s ++ EmptyString)%string = s.
Proof. induction s; [done|]. by rewrite append_cons, IHs. Qed.

Lemma append_assoc s t u : (s ++ t ++ u)%string = ((s ++ t) ++ u)%string.
Proof. induction s; [done|]. by rewrite !append_cons, IHs. Qed.

Lemma bytes_app s t : bytes (s ++ t)%string = bytes s ++ bytes t.
Proof. induction s; [done|]. rewrite append_cons. cbn. by rewrite IHs. Qed.

Lemma of_bytes_app l k : of_bytes (l ++ k) = (of_bytes l ++ of_bytes k)%string.
Proof. induction l; [done|]. cbn. by rewrite append_cons, IHl. Qed.

Lemma length_bytes s : length (bytes s) = String.length s.
Proof. induction s; cbn; lia. Qed.

Lemma bytes_inj s t : bytes s = bytes t → s = t.
Proof. intros H. rewrite <-(of_bytes_bytes s), <-(of_bytes_bytes t). by rewrite H. Qed.

(** ** Package strings *)

(** [strings.HasPrefix] *)
Fixpoint HasPrefix (s prefix : string) : bool :=
  match prefix, s with
  | EmptyString, _ => true
  | String p prefix, String a s => Ascii.eqb p a && HasPrefix s prefix
  | String _ _, EmptyString => false
  end.

Lemma HasPrefix_app s t : HasPrefix (s ++ t)%string s = true.
Proof. induction s as [|a s IH]; [by destruct t|]. rewrite append_cons. cbn. by rewrite Ascii.eqb_refl. Qed.

(** [strings.Split(s, sep)] for a separator of one byte. *)
Fixpoint Split (sep : ascii) (s : string) : list string :=
  match s with
  | EmptyString => [EmptyString]
  | String a s =>
      if Ascii.eqb a sep then EmptyString :: Split sep s
      else match Split sep s with
           | [] => [String a EmptyString]
           | h :: t => String a h :: t
           end
  end.

(** [strings.Replace(s, old, "", 1)] for an old string of one byte. *)
Fixpoint RemoveFirst (old : ascii) (s : string) : string :=
  match s with
  | EmptyString => EmptyString
  | String a s => if Ascii.eqb a old then s else String a (RemoveFirst old s)
  end.

(** [strings.Repeat], which panics on a negative count. *)
Fixpoint repeat_string (n : nat) (s : string) : string :=
  match n with O => EmptyString | S n => (s ++ repeat_string n s)%string end.

Definition Repeat (s : string) (count : Z) : gores string :=
  if count <? 0 then Panic NegativeRepeat else Val (repeat_string (Z.to_nat count) s).

(** [strings.ToUpper] and [strings.ToLower] on ASCII letters. *)
Definition upper_byte (c : Z) : Z := if (97 <=? c) && (c <=? 122) then c - 32 else c.
Definition lower_byte (c : Z) : Z := if (65 <=? c) && (c <=? 90) then c + 32 else c.
Definition ToUpper (s : string) : string := of_bytes (map upper_byte (bytes s)).
Definition ToLower (s : string) : string := of_bytes (map lower_byte (bytes s)).

Lemma upper_byte_byte c : is_byte c → is_byte (upper_byte c).
Proof.
  unfold is_byte, upper_byte. intros H. destruct ((97 <=? c) && (c <=? 122)) eqn:E; [|done].
  apply andb_true_iff in E. lia.
Qed.

Lemma Forall_upper_byte l : Forall is_byte l → Forall (λ c, is_byte (upper_byte c)) l.
Proof. intros H. eapply Forall_impl; [|exact H]. apply upper_byte_byte. Qed.

(** What follows a prefix *)
Fixpoint strip (p l : list Z) : option (list Z) :=
  match p, l with
  | [], _ => Some l
  | a :: p, b :: l => if a =? b then strip p l else None
  | _ :: _, [] => None
  end.

Lemma strip_app p l r : strip p l = Some r → l = p ++ r.
Proof.
  revert l. induction p as [|a p IH]; intros l; cbn; [by intros [= ->]|]. destruct l as [|b l]; [done|].
  destruct (Z.eqb_spec a b) as [<-|]; [|done]. by intros ->%IH.
Qed.

(** The UTF-8 encodings of the white space of package unicode *)
Definition spaces : list (list Z) :=
  [[9]; [10]; [11]; [12]; [13]; [32]; [194; 133]; [194; 160]; [225; 154; 128]; [226; 128; 128]; [226; 128; 129];
   [226; 128; 130]; [226; 128; 131]; [226; 128; 132]; [226; 128; 133]; [226; 128; 134]; [226; 128; 135];
   [226; 128; 136]; [226; 128; 137]; [226; 128; 138]; [226; 128; 168]; [226; 128; 169]; [226; 128; 175];
   [226; 129; 159]; [227; 128; 128]].

(** [strings.Join] *)
Fixpoint Join (l : list string) (sep : string) : string :=
  match l with
  | [] => EmptyString
  | [x] => x
  | x :: l => (x ++ sep ++ Join l sep)%string
  end.

(** ** Package strconv *)

Inductive numerr := ErrSyntax | ErrRange.

Definition is_digit (c : Z) : bool := (48 <=? c) && (c <=? 57).

(** The digit loop of [strconv.ParseUint(s, 10, 64)]: a byte that is not a
    digit is a syntax error, and the first digit that makes the value leave 64
    bits a range error, before the rest is looked at. *)
Fixpoint parse_digits (acc : Z) (l : list Z) : Z + numerr :=
  match l with
  | [] => inl acc
  | c :: l =>
      if negb (is_digit c) then inr ErrSyntax
      else let n := acc * 10 + (c - 48) in
           if two64 <=? n then inr ErrRange else parse_digits n l
  end.

Definition ParseUint (l : list Z) : Z + numerr :=
  match l with [] => inr ErrSyntax | _ => parse_digits 0 l end.

(** [strconv.ParseInt(s, 10, 64)]: the value and the error; on a range error
    the value is the nearest [int64], on a syntax error it is 0. *)
Definition ParseInt (s : string) : Z * option numerr :=
  let l := bytes s in
  let '(neg, l) :=
    match l with
    | c :: l' => if c =? 43 then (false, l') else if c =? 45 then (true, l') else (false, l)
    | [] => (false, [])
    end in
  match l with
  | [] => (0, Some ErrSyntax)
  | _ =>
    match ParseUint l with
    | inr ErrSyntax => (0, Some ErrSyntax)
    | inr ErrRange => (if neg then - two63 else two63 - 1, Some ErrRange)
    | inl un =>
        if negb neg && (two63 <=? un) then (two63 - 1, Some ErrRange)
        else if neg && (two63 <? un) then (- two63, Some ErrRange)
        else (if neg then - un else un, None)
    end
  end.

Lemma parse_digits_nonneg acc l un : 0 ≤ acc → parse_digits acc l = inl un → 0 ≤ un.
Proof.
  revert acc. induction l as [|c l IH]; intros acc Hacc; cbn [parse_digits]; [by intros [= <-]|].
  unfold is_digit. destruct ((48 <=? c) && (c <=? 57)) eqn:Hc; cbn [negb]; [|done]. case_match; [done|]. apply IH. lia.
Qed.

Lemma ParseInt_in_int64 s : in_int64 (ParseInt s).1.
Proof.
  unfold ParseInt. destruct (match bytes s with [] => _ | _ => _ end) as [neg l].
  unfold in_int64, two63. destruct l as [|c l]; [cbn; lia|].
  destruct (ParseUint (c :: l)) as [un|[]] eqn:Hu; [|cbn; lia|destruct neg; cbn; lia].
  pose proof (parse_digits_nonneg 0 (c :: l) un ltac:(lia) Hu).
  destruct neg; cbn [negb andb]; case_match; cbn; unfold two63 in *; lia.
Qed.

(** [strconv.Atoi] *)
Definition Atoi (s : string) : Z * option numerr := ParseInt s.

(** Decimal digits of a natural number, most significant first. *)
Fixpoint dec_digits (fuel : nat) (n : Z) : list Z :=
  match fuel with
  | O => []
  | S fuel => if n <? 10 then [n] else dec_digits fuel (n / 10) ++ [n mod 10]
  end.

Definition digits_of (n : Z) : list Z := dec_digits (S (Z.to_nat (Z.log2 n))) n.

Definition string_of_digits (l : list Z) : string := of_bytes (map (fun d => d + 48) l).

(** [strconv.Itoa] *)
Definition Itoa (z : Z) : string :=
  if z <? 0 then ("-" ++ string_of_digits (digits_of (- z)))%string
  else string_of_digits (digits_of z).

(** ** Package encoding/hex *)

(** [hex.DecodeString]: a byte that is no hex digit is an error, found before
    an odd length is. *)
Definition from_hex_char (c : Z) : option Z :=
  if (48 <=? c) && (c <=? 57) then Some (c - 48)
  else if (97 <=? c) && (c <=? 102) then Some (c - 97 + 10)
  else if (65 <=? c) && (c <=? 70) then Some (c - 65 + 10)
  else None.

Fixpoint hex_decode (l : list Z) : option (list Z) :=
  match l with
  | a :: b :: l =>
      match from_hex_char a, from_hex_char b, hex_decode l with
      | Some x, Some y, Some r => Some (16 * x + y :: r)
      | _, _, _ => None
      end
  | [] => Some []
  | _ => None
  end.

Definition DecodeString (s : string) : option (list Z) := hex_decode (bytes s).

Definition hex_char (n : Z) : Z := if n <? 10 then n + 48 else n - 10 + 97.

(** [hex.EncodeToString] *)
Definition EncodeToString (l : list Z) : string :=
  of_bytes (flat_map (fun b => [hex_char (b / 16); hex_char (b mod 16)]) l).

Lemma hex_char_range n : 0 ≤ n < 16 → is_byte (hex_char n) ∧ from_hex_char (hex_char n) = Some n.
Proof.
  intros Hn. unfold hex_char, from_hex_char, is_byte. destruct (Z.ltb_spec n 10).
  - rewrite !(proj2 (Z.leb_le _ _)) by lia. cbn. split; [lia|f_equal; lia].
  - rewrite (proj2 (Z.leb_le 48 _)), (proj2 (Z.leb_gt _ 57)), (proj2 (Z.leb_le 97 _)), (proj2 (Z.leb_le _ 102)) by lia.
    cbn. split; [lia|f_equal; lia].
Qed.

Lemma DecodeString_EncodeToString l : Forall is_byte l → DecodeString (EncodeToString l) = Some l.
Proof.
  intros Hl. unfold DecodeString, EncodeToString. rewrite bytes_of_bytes.
  - induction Hl as [|b l Hb _ IH]; [done|]. cbn [flat_map app hex_decode].
    unfold is_byte in Hb.
    rewrite (proj2 (hex_char_range (b / 16) ltac:(split; [apply Z.div_pos|apply Z.div_lt_upper_bound]; lia))).
    rewrite (proj2 (hex_char_range (b mod 16) ltac:(apply Z.mod_pos_bound; lia))).
    rewrite IH. do 2 f_equal. pose proof (Z.div_mod b 16). lia.
  - induction Hl as [|b l Hb _ IH]; cbn; [constructor|]. unfold is_byte in Hb.
    constructor; [|constructor; [|done]]; apply hex_char_range; [|apply Z.mod_pos_bound; lia].
    split; [apply Z.div_pos; lia|apply Z.div_lt_upper_bound; lia].
Qed.

(** ** Decimal digits: printing and parsing *)

Definition dec_val (acc : Z) (l : list Z) : Z := fold_left (fun a d => a * 10 + d) l acc.

Definition digits (l : list Z) : Prop := Forall (fun d => 0 ≤ d < 10) l.

Lemma dec_val_app acc l k : dec_val acc (l ++ k) = dec_val (dec_val acc l) k.
Proof. apply fold_left_app. Qed.

Lemma dec_val_ge acc l : 0 ≤ acc → digits l → acc ≤ dec_val acc l.
Proof.
  intros Hacc Hl. revert acc Hacc.
  induction Hl as [|d l Hd Hl IH]; intros acc Hacc; unfold dec_val in *; cbn; [lia|].
  etransitivity; [|apply IH]; lia.
Qed.

Lemma dec_val_scale acc l :
  dec_val acc l = acc * 10 ^ Z.of_nat (length l) + dec_val 0 l.
Proof.
  revert acc. unfold dec_val.
  induction l as [|d l IH]; intros acc; cbn [fold_left length]; [lia|].
  rewrite IH, (IH (0 * 10 + d)), Nat2Z.inj_succ, Z.pow_succ_r by lia. lia.
Qed.

Lemma dec_val_zeros acc n : dec_val acc (replicate n 0) = acc * 10 ^ Z.of_nat n.
Proof.
  rewrite dec_val_scale, length_replicate.
  assert (dec_val 0 (replicate n 0) = 0) as ->; [|lia].
  induction n as [|n IH]; unfold dec_val in *; cbn; [done|exact IH].
Qed.

Lemma dec_digits_spec fuel n :
  0 ≤ n < 10 ^ Z.of_nat fuel →
  dec_val 0 (dec_digits fuel n) = n ∧ digits (dec_digits fuel n) ∧
  (fuel ≠ O → dec_digits fuel n ≠ []).
Proof.
  revert n. induction fuel as [|fuel IH]; intros n Hn; cbn [dec_digits].
  - change (10 ^ Z.of_nat 0) with 1 in Hn. split; [cbn; lia|]. split; [constructor|done].
  - rewrite Nat2Z.inj_succ, Z.pow_succ_r in Hn by lia.
    destruct (Z.ltb_spec n 10).
    + split; [done|]. split; [constructor; [lia|constructor]|done].
    + destruct (IH (n / 10)) as (Hv & Hd & _).
      { split; [apply Z.div_pos; lia|]. apply Z.div_lt_upper_bound; lia. }
      split; [|split].
      * rewrite dec_val_app, Hv. unfold dec_val; cbn. pose proof (Z.div_mod n 10). lia.
      * apply Forall_app. split; [done|]. constructor; [|constructor].
        apply Z.mod_pos_bound. lia.
      * intros _ Hnil. apply app_eq_nil in Hnil as [_ [=]].
Qed.

Lemma log2_fuel n : 0 ≤ n → 0 ≤ n < 10 ^ Z.of_nat (S (Z.to_nat (Z.log2 n))).
Proof.
  intros Hn. split; [done|]. rewrite Nat2Z.inj_succ, Z2Nat.id by apply Z.log2_nonneg.
  destruct (decide (n = 0)) as [->|]; [done|].
  pose proof (Z.log2_spec n ltac:(lia)). pose proof (Z.log2_nonneg n).
  pose proof (Z.pow_le_mono_l 2 10 (Z.succ (Z.log2 n))). lia.
Qed.

Lemma digits_of_spec n :
  0 ≤ n → dec_val 0 (digits_of n) = n ∧ digits (digits_of n) ∧ digits_of n ≠ [].
Proof.
  intros Hn. destruct (dec_digits_spec _ n (log2_fuel n Hn)) as (? & ? & H).
  split; [done|]. split; [done|]. by apply H.
Qed.

Lemma dec_digits_length fuel n (k : nat) :
  0 ≤ n < 10 ^ Z.of_nat k → (0 < k)%nat → (length (dec_digits fuel n) ≤ k)%nat.
Proof.
  revert fuel n. induction k as [|k IH]; [lia|]. intros [|fuel] n Hn _; [cbn; lia|]. cbn [dec_digits].
  destruct (Z.ltb_spec n 10) as [|Hge]; [cbn; lia|]. rewrite length_app. cbn [length].
  rewrite Nat2Z.inj_succ, Z.pow_succ_r in Hn by lia.
  destruct k as [|k]; [cbn in Hn; lia|].
  enough (length (dec_digits fuel (n / 10)) ≤ S k)%nat by lia. apply IH; [|lia].
  split; [apply Z.div_pos; lia|]. apply Z.div_lt_upper_bound; lia.
Qed.

Lemma is_digit_add d : 0 ≤ d < 10 → is_digit (d + 48) = true.
Proof. unfold is_digit. lia. Qed.

Lemma parse_digits_ok acc l :
  0 ≤ acc → digits l → dec_val acc l < two64 →
  parse_digits acc (map (fun d => d + 48) l) = inl (dec_val acc l).
Proof.
  intros Hacc Hl. revert acc Hacc. induction Hl as [|d l Hd Hl IH]; intros acc Hacc Hlt; [done|].
  cbn [parse_digits map]. rewrite is_digit_add by done. cbn [negb].
  replace (acc * 10 + (d + 48 - 48)) with (acc * 10 + d) by lia.
  change (dec_val acc (d :: l)) with (dec_val (acc * 10 + d) l) in *.
  pose proof (dec_val_ge (acc * 10 + d) l ltac:(lia) Hl).
  destruct (Z.leb_spec two64 (acc * 10 + d)); [lia|]. apply IH; lia.
Qed.

Lemma bytes_string_of_digits l :
  digits l → bytes (string_of_digits l) = map (fun d => d + 48) l.
Proof.
  intros Hl. apply bytes_of_bytes. apply Forall_map. eapply Forall_impl; [|exact Hl].
  unfold is_byte. cbn. lia.
Qed.

(** What [ParseInt] does to an optional sign and decimal digits. *)
Lemma ParseInt_digits (neg : bool) (s : string) l :
  bytes s = (if neg then [45] else []) ++ map (fun d => d + 48) l →
  digits l → l ≠ [] → in_int64 (if neg then - dec_val 0 l else dec_val 0 l) →
  ParseInt s = (if neg then - dec_val 0 l else dec_val 0 l, None).
Proof.
  intros Hs Hl Hne Hr. unfold ParseInt. rewrite Hs.
  destruct l as [|d l]; [done|]. pose proof (Forall_inv Hl) as Hd. cbn in Hd.
  pose proof (dec_val_ge 0 (d :: l) ltac:(lia) Hl).
  assert (Hp : parse_digits 0 (map (fun d => d + 48) (d :: l)) = inl (dec_val 0 (d :: l))).
  { apply parse_digits_ok; [lia|done|]. unfold in_int64, two63, two64 in *. destruct neg; lia. }
  unfold in_int64 in Hr. destruct neg; cbn [app map].
  - change (45 =? 43) with false. change (45 =? 45) with true. cbn iota.
    unfold ParseUint. cbn [map] in Hp. rewrite Hp. cbn [negb andb].
    destruct (Z.ltb_spec two63 (dec_val 0 (d :: l))); [lia|done].
  - destruct (Z.eqb_spec (d + 48) 43); [lia|]. destruct (Z.eqb_spec (d + 48) 45); [lia|].
    unfold ParseUint. cbn [map] in Hp. rewrite Hp. cbn [negb andb].
    destruct (Z.leb_spec two63 (dec_val 0 (d :: l))); [lia|done].
Qed.

Lemma parse_digits_range acc l :
  0 ≤ acc < two64 → digits l → two64 ≤ dec_val acc l →
  parse_digits acc (map (fun d => d + 48) l) = inr ErrRange.
Proof.
  intros Hacc Hl. revert acc Hacc. induction Hl as [|d l Hd Hl IH]; intros acc Hacc Hge; cbn [map parse_digits].
  - unfold dec_val in Hge. cbn in Hge. lia.
  - rewrite is_digit_add by done. cbn [negb]. replace (d + 48 - 48) with d by lia.
    destruct (Z.leb_spec two64 (acc * 10 + d)); [done|]. apply IH; [lia|done].
Qed.

(** Digits whose value leaves [int64] are a range error. *)
Lemma ParseInt_range (neg : bool) (s : string) l :
  bytes s = (if neg then [45] else []) ++ map (fun d => d + 48) l →
  digits l → l ≠ [] → ¬ in_int64 (if neg then - dec_val 0 l else dec_val 0 l) →
  (ParseInt s).2 = Some ErrRange.
Proof.
  intros Hs Hl Hne Hr. unfold ParseInt. rewrite Hs.
  destruct l as [|d l]; [done|]. pose proof (Forall_inv Hl) as Hd. cbn in Hd.
  pose proof (dec_val_ge 0 (d :: l) ltac:(lia) Hl).
  assert (Hp : ParseUint (map (fun d => d + 48) (d :: l)) =
    if two64 <=? dec_val 0 (d :: l) then inr ErrRange else inl (dec_val 0 (d :: l))).
  { unfold ParseUint. cbn [map]. change (d + 48 :: map _ l) with (map (fun d => d + 48) (d :: l)).
    destruct (Z.leb_spec two64 (dec_val 0 (d :: l))).
    - apply parse_digits_range; [unfold two64; lia|done|done].
    - apply parse_digits_ok; [lia|done|done]. }
  unfold in_int64 in Hr. destruct neg; cbn [app map].
  - change (45 =? 43) with false. change (45 =? 45) with true. cbn iota.
    cbn [map] in Hp. rewrite Hp. destruct (Z.leb_spec two64 (dec_val 0 (d :: l))); [done|]. cbn [negb andb].
    destruct (Z.ltb_spec two63 (dec_val 0 (d :: l))); [done|]. unfold two63 in *. lia.
  - destruct (Z.eqb_spec (d + 48) 43); [lia|]. destruct (Z.eqb_spec (d + 48) 45); [lia|].
    cbn [map] in Hp. rewrite Hp. destruct (Z.leb_spec two64 (dec_val 0 (d :: l))); [done|]. cbn [negb andb].
    destruct (Z.leb_spec two63 (dec_val 0 (d :: l))); [done|]. unfold two63 in *. lia.
Qed.

Lemma Atoi_Itoa z : in_int64 z → Atoi (Itoa z) = (z, None).
Proof.
  intros Hz. unfold Atoi, Itoa. destruct (Z.ltb_spec z 0).
  - destruct (digits_of_spec (- z) ltac:(lia)) as (Hv & Hd & Hne).
    rewrite (ParseInt_digits true _ (digits_of (- z))), Hv; try done.
    + f_equal. lia.
    + rewrite bytes_app, bytes_string_of_digits by done. done.
    + rewrite Hv. by rewrite Z.opp_involutive.
  - destruct (digits_of_spec z ltac:(lia)) as (Hv & Hd & Hne).
    rewrite (ParseInt_digits false _ (digits_of z)), Hv; try done.
    + by rewrite bytes_string_of_digits.
    + by rewrite Hv.
Qed.

(** [string(c)] for a byte [c]: the UTF-8 encoding of the code point [c]. *)
Definition string_of_byte (c : Z) : list Z :=
  if c <? 128 then [c] else [Z.lor 0xC0 (Z.shiftr c 6); Z.lor 0x80 (Z.land c 0x3f)].

(** ** Splitting *)

Lemma sep_not_in_cons sep a s :
  byte_of_ascii sep ∉ bytes (String a s) → Ascii.eqb a sep = false ∧ byte_of_ascii sep ∉ bytes s.
Proof.
  cbn. intros [H1 H2]%not_elem_of_cons. split; [|done]. apply Ascii.eqb_neq. by intros ->.
Qed.

Lemma Split_app sep x y :
  byte_of_ascii sep ∉ bytes x → Split sep (x ++ String sep y) = x :: Split sep y.
Proof.
  induction x as [|a x IH].
  - intros _. rewrite append_nil_l. cbn. by rewrite Ascii.eqb_refl.
  - intros [Ha Hx]%sep_not_in_cons. rewrite append_cons. cbn [Split]. by rewrite Ha, IH.
Qed.

Lemma Split_none sep x : byte_of_ascii sep ∉ bytes x → Split sep x = [x].
Proof.
  induction x as [|a x IH]; [done|]. intros [Ha Hx]%sep_not_in_cons. cbn [Split]. by rewrite Ha, IH.
Qed.

Lemma RemoveFirst_app sep x y :
  byte_of_ascii sep ∉ bytes x → RemoveFirst sep (x ++ String sep y) = (x ++ y)%string.
Proof.
  induction x as [|a x IH].
  - intros _. rewrite !append_nil_l. cbn. by rewrite Ascii.eqb_refl.
  - intros [Ha Hx]%sep_not_in_cons. rewrite !append_cons. cbn [RemoveFirst]. by rewrite Ha, IH.
Qed.

Lemma RemoveFirst_none sep x : byte_of_ascii sep ∉ bytes x → RemoveFirst sep x = x.
Proof.
  induction x as [|a x IH]; [done|]. intros [Ha Hx]%sep_not_in_cons. cbn [RemoveFirst]. by rewrite Ha, IH.
Qed.

(** Splitting what was joined. *)
Lemma Split_Join sep l :
  l ≠ [] → Forall (fun s => byte_of_ascii sep ∉ bytes s) l → Split sep (Join l (String sep "")) = l.
Proof.
  intros Hne Hl. induction Hl as [|x l Hx Hl IH]; [done|]. destruct l as [|y l].
  - by apply Split_none.
  - change (Join (x :: y :: l) (String sep "")) with (x ++ String sep "" ++ Join (y :: l) (String sep ""))%string.
    rewrite append_cons, append_nil_l, Split_app by done. f_equal. by apply IH.
Qed.
