(* ===== verification/CashBits.v ===== *)
(** The bit level of package cashaddr (src/V2/pkg/cashaddr/cashaddr.go): the
    40-bit BCH checksum ([PolyMod], [VerifyChecksum], [CreateChecksum]) and the
    base conversion [convertBits], with the algebra both rest on: the checksum
    register is linear over xor and its step injective, and [convertBits]
    regroups one big-endian number. *)

From stdpp Require Import base list strings numbers.
From Stdlib Require Import ZArith Lia.
From S2P Require Import Prelude GoStrings.

Local Open Scope Z_scope.

(** ** Source definitions *)

(** [type data []byte] *)
Abbreviation data := (list Z).

(** [func Cat(x, y data) data] *)
Definition Cat (x y : data) : data := x ++ y.

(** The body of [PolyMod]'s loop: [c] is the uint64 register, [d] the byte. *)
Definition PolyMod_step (c d : Z) : Z :=
  let c0 := uint8 (Z.shiftr c 35) in
  let c := Z.lxor (uint64 (Z.shiftl (Z.land c 0x07ffffffff) 5)) d in
  let c := if Z.land c0 0x01 >? 0 then Z.lxor c 0x98f2bc8e61 else c in
  let c := if Z.land c0 0x02 >? 0 then Z.lxor c 0x79b76d99e2 else c in
  let c := if Z.land c0 0x04 >? 0 then Z.lxor c 0xf33e5fb3c4 else c in
  let c := if Z.land c0 0x08 >? 0 then Z.lxor c 0xae2eabe2a8 else c in
  let c := if Z.land c0 0x10 >? 0 then Z.lxor c 0x1e4f43e470 else c in
  c.

(** [func PolyMod(v data) uint64] *)
Definition PolyMod (v : data) : Z := Z.lxor (fold_left PolyMod_step v 1) 1.

(** [func LowerCase(c byte) byte] *)
Definition LowerCase (c : Z) : Z := Z.lor c 0x20.

(** [func ExpandPrefix(prefix string) data] *)
Definition ExpandPrefix (prefix : string) : data :=
  map (fun c => Z.land c 0x1f) (bytes prefix) ++ [0].

(** [func VerifyChecksum(prefix string, payload data) bool] *)
Definition VerifyChecksum (prefix : string) (payload : data) : bool :=
  PolyMod (Cat (ExpandPrefix prefix) payload) =? 0.

(** [func CreateChecksum(prefix string, payload data) data] *)
Definition CreateChecksum (prefix : string) (payload : data) : data :=
  let enc := Cat (ExpandPrefix prefix) payload in
  let enc := Cat enc [0; 0; 0; 0; 0; 0; 0; 0] in
  let m := PolyMod enc in
  map (fun i => uint8 (Z.land (Z.shiftr m (5 * (7 - i))) 0x1f)) [0; 1; 2; 3; 4; 5; 6; 7].

(** The inner loop of [convertBits]: [for bits >= tobits].  It takes at most
    [bits] rounds when [tobits] is positive ([cb_emit_done]). *)
Fixpoint cb_emit (fuel : nat) (acc tobits maxv bits : Z) (ret : list Z) : Z * list Z :=
  match fuel with
  | O => (bits, ret)
  | S fuel =>
      if bits >=? tobits then
        let bits := bits - tobits in
        cb_emit fuel acc tobits maxv bits (ret ++ [Z.land (Z.shiftr acc bits) maxv])
      else (bits, ret)
  end.

(** One round of the outer loop of [convertBits]. *)
Definition cb_step (fromBits tobits maxv maxAcc : Z)
    (st : Z * Z * list Z) (value : Z) : Z * Z * list Z :=
  let '(acc, bits, ret) := st in
  let acc := Z.land (Z.lor (uint64 (Z.shiftl acc fromBits)) value) maxAcc in
  let bits := uint64 (bits + fromBits) in
  let '(bits, ret) := cb_emit (Z.to_nat bits) acc tobits maxv bits ret in
  (acc, bits, ret).

(** [func convertBits(data data, fromBits uint, tobits uint, pad bool) (data, error)] *)
Definition convertBits (d : data) (fromBits tobits : Z) (pad : bool) : gores data :=
  let maxv := uint64 (uint64 (Z.shiftl 1 tobits) - 1) in
  let maxAcc := uint64 (uint64 (Z.shiftl 1 (fromBits + tobits - 1)) - 1) in
  let '(acc, bits, ret) := fold_left (cb_step fromBits tobits maxv maxAcc) d (0, 0, []) in
  if pad then
    if bits >? 0
    then Val (map uint8 (ret ++ [Z.land (uint64 (Z.shiftl acc (tobits - bits))) maxv]))
    else Val (map uint8 ret)
  else if (bits >=? fromBits)
          || negb (Z.land (uint64 (Z.shiftl acc (tobits - bits))) maxv =? 0)
  then Err (ENew "encoding padding error")
  else Val (map uint8 ret).

(** ** Bit lemmas *)

Lemma lt_pow2_bits a n : 0 ≤ n → 0 ≤ a → (∀ i, n ≤ i → Z.testbit a i = false) → a < 2 ^ n.
Proof.
  intros Hn Ha Hb. destruct (decide (a = 0)) as [->|]; [by apply Z.pow_pos_nonneg|].
  apply Z.log2_lt_pow2; [lia|]. destruct (Z.lt_ge_cases (Z.log2 a) n); [done|].
  specialize (Hb (Z.log2 a)). rewrite Z.bit_log2 in Hb by lia. by discriminate Hb.
Qed.

Lemma testbit_high a n i : 0 ≤ a < 2 ^ n → 0 ≤ n ≤ i → Z.testbit a i = false.
Proof.
  intros Ha Hi. rewrite <-(Z.mod_small a (2 ^ n)) by done. apply Z.mod_pow2_bits_high. lia.
Qed.

Lemma lxor_bound a b n : 0 ≤ n → 0 ≤ a < 2 ^ n → 0 ≤ b < 2 ^ n → 0 ≤ Z.lxor a b < 2 ^ n.
Proof.
  intros Hn Ha Hb. assert (0 ≤ Z.lxor a b) by (apply Z.lxor_nonneg; lia).
  split; [done|]. apply lt_pow2_bits; [done..|]. intros i Hi.
  rewrite Z.lxor_spec, (testbit_high a n), (testbit_high b n) by lia. done.
Qed.

Lemma land_pow2 x i : 0 ≤ i → Z.land x (2 ^ i) = if Z.testbit x i then 2 ^ i else 0.
Proof.
  intros Hi. apply Z.bits_inj'. intros n Hn. rewrite Z.land_spec, Z.pow2_bits_eqb by done.
  destruct (Z.testbit x i) eqn:E; rewrite ?Z.testbit_0_l, ?Z.pow2_bits_eqb by done;
    destruct (Z.eqb_spec i n) as [->|]; rewrite ?E, ?andb_false_r; done.
Qed.

Lemma land_pow2_gtb x i : 0 ≤ i → (Z.land x (2 ^ i) >? 0) = Z.testbit x i.
Proof.
  intros Hi. rewrite land_pow2 by done. destruct (Z.testbit x i); [|done].
  pose proof (Z.pow_pos_nonneg 2 i). lia.
Qed.

Lemma land_lxor_l a b m : Z.land (Z.lxor a b) m = Z.lxor (Z.land a m) (Z.land b m).
Proof.
  apply Z.bits_inj'. intros n _. rewrite !Z.lxor_spec, !Z.land_spec, Z.lxor_spec.
  by destruct (Z.testbit a n), (Z.testbit b n), (Z.testbit m n).
Qed.

Lemma shiftl_land_low a d n : 0 ≤ n → 0 ≤ d < 2 ^ n → Z.land (Z.shiftl a n) d = 0.
Proof.
  intros Hn Hd. apply Z.bits_inj'. intros i Hi. rewrite Z.land_spec, Z.shiftl_spec, Z.testbit_0_l by done.
  destruct (Z.lt_ge_cases i n).
  - by rewrite Z.testbit_neg_r by lia.
  - by rewrite (testbit_high d n), andb_false_r by lia.
Qed.

Lemma shiftl_lxor_add a d n : 0 ≤ n → 0 ≤ d < 2 ^ n → Z.lxor (Z.shiftl a n) d = a * 2 ^ n + d.
Proof.
  intros Hn Hd. rewrite <-Z.add_nocarry_lxor, Z.shiftl_mul_pow2 by (done || by apply shiftl_land_low). done.
Qed.

Lemma shiftl_lor_add a d n : 0 ≤ n → 0 ≤ d < 2 ^ n → Z.lor (Z.shiftl a n) d = a * 2 ^ n + d.
Proof.
  intros Hn Hd. rewrite <-Z.lxor_lor by (by apply shiftl_land_low). by apply shiftl_lxor_add.
Qed.

Lemma land_mask35 a : Z.land a 0x07ffffffff = a mod 2 ^ 35.
Proof. apply (Z.land_ones a 35). lia. Qed.

Lemma land_mask5 a : Z.land a 31 = a mod 32.
Proof. apply (Z.land_ones a 5). lia. Qed.

Lemma lxor_swap a b c d : Z.lxor (Z.lxor a b) (Z.lxor c d) = Z.lxor (Z.lxor a c) (Z.lxor b d).
Proof. by rewrite !Z.lxor_assoc, <-(Z.lxor_assoc b c d), (Z.lxor_comm b c), !Z.lxor_assoc. Qed.

(** ** The checksum register *)

(** The multiples of the generator the step adds for the five bits that leave
    the register: [{2^n}k(x)] of the source's comments. *)
Definition gen (x : Z) : Z :=
  Z.lxor (if Z.testbit x 0 then 0x98f2bc8e61 else 0)
 (Z.lxor (if Z.testbit x 1 then 0x79b76d99e2 else 0)
 (Z.lxor (if Z.testbit x 2 then 0xf33e5fb3c4 else 0)
 (Z.lxor (if Z.testbit x 3 then 0xae2eabe2a8 else 0)
         (if Z.testbit x 4 then 0x1e4f43e470 else 0)))).

Definition is_reg (c : Z) : Prop := 0 ≤ c < 2 ^ 40.
Definition is5 (d : Z) : Prop := 0 ≤ d < 32.

Lemma is5_byte d : is5 d → is_byte d.
Proof. unfold is5, is_byte. lia. Qed.

Lemma reg_high c : is_reg c → 0 ≤ Z.shiftr c 35 < 32.
Proof.
  unfold is_reg. intros Hc. rewrite Z.shiftr_div_pow2 by lia.
  split; [apply Z.div_pos; lia|]. apply Z.div_lt_upper_bound; lia.
Qed.

Lemma reg_low c : 0 ≤ Z.shiftl (Z.land c 0x07ffffffff) 5 < 2 ^ 40.
Proof.
  rewrite land_mask35, Z.shiftl_mul_pow2 by lia.
  pose proof (Z.mod_pos_bound c (2 ^ 35)). lia.
Qed.

Lemma PolyMod_step_gen c d :
  is_reg c →
  PolyMod_step c d =
  Z.lxor (Z.lxor (Z.shiftl (Z.land c 0x07ffffffff) 5) d) (gen (Z.shiftr c 35)).
Proof.
  intros Hc. unfold PolyMod_step, gen. pose proof (reg_high c Hc) as Hh. pose proof (reg_low c) as Hl.
  rewrite uint8_id, uint64_id by (unfold is_byte, two64; lia).
  set (x := Z.shiftr c 35) in *. set (y := Z.lxor _ d). clear Hc Hh Hl.
  rewrite (land_pow2_gtb x 0 ltac:(lia) : (Z.land x 0x01 >? 0) = _),
    (land_pow2_gtb x 1 ltac:(lia) : (Z.land x 0x02 >? 0) = _),
    (land_pow2_gtb x 2 ltac:(lia) : (Z.land x 0x04 >? 0) = _),
    (land_pow2_gtb x 3 ltac:(lia) : (Z.land x 0x08 >? 0) = _),
    (land_pow2_gtb x 4 ltac:(lia) : (Z.land x 0x10 >? 0) = _).
  destruct (Z.testbit x 0), (Z.testbit x 1), (Z.testbit x 2), (Z.testbit x 3), (Z.testbit x 4);
    rewrite ?Z.lxor_0_l, ?Z.lxor_0_r, ?Z.lxor_assoc; done.
Qed.

Lemma if_xorb (a b : bool) (g : Z) :
  (if xorb a b then g else 0) = Z.lxor (if a then g else 0) (if b then g else 0).
Proof. destruct a, b; rewrite ?Z.lxor_nilpotent, ?Z.lxor_0_l, ?Z.lxor_0_r; done. Qed.

Lemma gen_lxor x y : gen (Z.lxor x y) = Z.lxor (gen x) (gen y).
Proof.
  unfold gen. rewrite !Z.lxor_spec, !if_xorb. symmetry.
  do 4 (rewrite lxor_swap; f_equal).
Qed.

Lemma gen_bound x : 0 ≤ gen x < 2 ^ 40.
Proof. unfold gen. repeat apply lxor_bound; try lia; case_match; lia. Qed.

(** The low five bits of [gen x] give back [x]: the constant term of [k(x)] is 1. *)
Lemma gen_low x : is5 x → Z.land (gen x) 31 = x.
Proof.
  intros Hx. apply Z.eqb_eq, (forallb_range (fun x => Z.land (gen x) 31 =? x) 0 32);
    [by vm_compute|exact Hx].
Qed.

Lemma PolyMod_step_reg c d : is_reg c → is_byte d → is_reg (PolyMod_step c d).
Proof.
  intros Hc Hd. rewrite PolyMod_step_gen by done. unfold is_reg, is_byte in *.
  pose proof (reg_low c). pose proof (gen_bound (Z.shiftr c 35)).
  apply lxor_bound; [lia|apply lxor_bound; lia|lia].
Qed.

Lemma PolyMod_step_lxor c c' d d' :
  is_reg c → is_reg c' →
  PolyMod_step (Z.lxor c c') (Z.lxor d d') = Z.lxor (PolyMod_step c d) (PolyMod_step c' d').
Proof.
  intros Hc Hc'. assert (is_reg (Z.lxor c c')) by (apply lxor_bound; [lia|done..]).
  rewrite !PolyMod_step_gen by done. rewrite Z.shiftr_lxor, gen_lxor.
  rewrite land_lxor_l, Z.shiftl_lxor, (lxor_swap _ _ d d'). apply lxor_swap.
Qed.

(** No two registers step to the same one on the same input. *)
Lemma PolyMod_step_inj c c' d :
  is_reg c → is_reg c' → PolyMod_step c d = PolyMod_step c' d → c = c'.
Proof.
  intros Hc Hc' Heq. apply Z.lxor_eq. set (e := Z.lxor c c').
  assert (He : is_reg e) by (apply lxor_bound; [lia|done..]).
  assert (H0 : PolyMod_step e 0 = 0).
  { unfold e. rewrite <-(Z.lxor_nilpotent d) at 1. rewrite PolyMod_step_lxor, Heq by done.
    apply Z.lxor_nilpotent. }
  rewrite PolyMod_step_gen, Z.lxor_0_r in H0 by done. apply Z.lxor_eq in H0.
  assert (Hx : Z.shiftr e 35 = 0).
  { rewrite <-(gen_low (Z.shiftr e 35)), <-H0 by (by apply reg_high).
    rewrite land_mask5, Z.shiftl_mul_pow2 by lia. apply Z.mod_mul. lia. }
  rewrite Hx in H0. change (gen 0) with 0 in H0.
  rewrite land_mask35, Z.shiftl_mul_pow2 in H0 by lia.
  rewrite Z.shiftr_div_pow2 in Hx by lia. pose proof (Z.div_mod e (2 ^ 35)). lia.
Qed.

(** ** Runs of the register *)

Definition run (c : Z) (l : data) : Z := fold_left PolyMod_step l c.

Lemma run_cons c d l : run c (d :: l) = run (PolyMod_step c d) l.
Proof. done. Qed.

Lemma run_app c l k : run c (l ++ k) = run (run c l) k.
Proof. apply fold_left_app. Qed.

Lemma run_reg c l : is_reg c → Forall is_byte l → is_reg (run c l).
Proof.
  intros Hc Hl. revert c Hc. induction Hl; intros c Hc; [done|].
  rewrite run_cons. auto using PolyMod_step_reg.
Qed.

Lemma run_lxor c c' l l' :
  is_reg c → is_reg c' → Forall is_byte l → Forall is_byte l' → length l = length l' →
  run (Z.lxor c c') (zip_with Z.lxor l l') = Z.lxor (run c l) (run c' l').
Proof.
  intros Hc Hc' Hl. revert l' c c' Hc Hc'.
  induction Hl as [|d l Hd Hl IH]; intros [|d' l'] c c' Hc Hc' Hl' Hlen; try done.
  apply list.Forall_cons in Hl' as [Hd' Hl']. cbn [zip_with]. rewrite !run_cons, PolyMod_step_lxor by done.
  apply IH; auto using PolyMod_step_reg.
Qed.

Lemma run_inj c c' l :
  is_reg c → is_reg c' → Forall is_byte l → run c l = run c' l → c = c'.
Proof.
  intros Hc Hc' Hl. revert c c' Hc Hc'. induction Hl as [|d l Hd Hl IH]; intros c c' Hc Hc' Heq; [done|].
  rewrite !run_cons in Heq. apply IH in Heq; [|by apply PolyMod_step_reg..].
  by eapply PolyMod_step_inj.
Qed.

(** Big-endian value of a list of digits in base [2^w]. *)
Definition be_val (w : Z) (l : list Z) : Z := fold_left (fun a d => a * 2 ^ w + d) l 0.

Lemma be_val_snoc w l d : be_val w (l ++ [d]) = be_val w l * 2 ^ w + d.
Proof. unfold be_val. by rewrite fold_left_app. Qed.

Lemma be_val_app w l k :
  0 ≤ w → be_val w (l ++ k) = be_val w l * 2 ^ (w * Z.of_nat (length k)) + be_val w k.
Proof.
  intros Hw. induction k as [|d k IH] using rev_ind.
  - rewrite app_nil_r. cbn. rewrite Z.mul_0_r. lia.
  - rewrite app_assoc, !be_val_snoc, IH, length_app, Nat2Z.inj_add, Z.mul_add_distr_l, Z.pow_add_r by lia.
    cbn [length]. rewrite Z.mul_1_r. lia.
Qed.

Lemma be_val_bound w l :
  0 ≤ w → Forall (fun d => 0 ≤ d < 2 ^ w) l → 0 ≤ be_val w l < 2 ^ (w * Z.of_nat (length l)).
Proof.
  intros Hw. induction l as [|d l IH] using rev_ind; intros Hl; [cbn; lia|].
  apply Forall_app in Hl as [Hl [Hd _]%list.Forall_cons]. specialize (IH Hl).
  rewrite be_val_snoc, length_app. cbn [length].
  replace (w * Z.of_nat (length l + 1)) with (w * Z.of_nat (length l) + w) by lia.
  rewrite Z.pow_add_r by lia. nia.
Qed.

Lemma be_val_inj w l k :
  0 ≤ w → Forall (fun d => 0 ≤ d < 2 ^ w) l → Forall (fun d => 0 ≤ d < 2 ^ w) k →
  length l = length k → be_val w l = be_val w k → l = k.
Proof.
  intros Hw. revert k. induction l as [|d l IH] using rev_ind; intros k Hl Hk Hlen Heq.
  { by destruct k. }
  destruct k as [|e k _] using rev_ind; [rewrite length_app in Hlen; cbn in Hlen; lia|].
  rewrite !length_app in Hlen. cbn in Hlen.
  apply Forall_app in Hl as [Hl [Hd _]%list.Forall_cons].
  apply Forall_app in Hk as [Hk [He _]%list.Forall_cons].
  rewrite !be_val_snoc in Heq. assert (be_val w l = be_val w k ∧ d = e) as [Hv ->].
  { apply (Z.div_mod_unique (2 ^ w)); lia. }
  f_equal. apply IH; auto. lia.
Qed.

(** Fewer than eight 5-bit values fill the zero register without reduction. *)
Lemma run_zero l : Forall is5 l → (length l ≤ 8)%nat → run 0 l = be_val 5 l.
Proof.
  induction l as [|d l IH] using rev_ind; intros Hl Hlen; [done|].
  rewrite length_app in Hlen; cbn in Hlen. apply Forall_app in Hl as [Hl [Hd _]%list.Forall_cons].
  rewrite run_app, be_val_snoc, IH by (done || lia). cbn [run fold_left].
  pose proof (be_val_bound 5 l ltac:(lia) Hl) as Hb.
  assert (be_val 5 l < 2 ^ 35).
  { eapply Z.lt_le_trans; [apply Hb|]. apply Z.pow_le_mono_r; lia. }
  assert (Hs : Z.shiftr (be_val 5 l) 35 = 0) by (rewrite Z.shiftr_div_pow2 by lia; apply Z.div_small; lia).
  rewrite PolyMod_step_gen, Hs by (unfold is_reg; lia). change (gen 0) with 0.
  rewrite Z.lxor_0_r, land_mask35, Z.mod_small by lia.
  by apply (shiftl_lxor_add _ d 5).
Qed.

(** Any values in the last (at most eight) positions add their packed value to
    the register that zeros would leave. *)
Lemma run_zeros_xor c l :
  is_reg c → Forall is5 l → (length l ≤ 8)%nat →
  run c l = Z.lxor (run c (replicate (length l) 0)) (be_val 5 l).
Proof.
  intros Hc Hl Hlen. rewrite <-run_zero by done.
  rewrite <-run_lxor; [|done|unfold is_reg; lia|..].
  - rewrite Z.lxor_0_r. f_equal. clear. induction l as [|d l IH]; [done|].
    cbn. by rewrite Z.lxor_0_l, <-IH.
  - apply Forall_replicate. unfold is_byte. lia.
  - eapply Forall_impl; [|done]. apply is5_byte.
  - apply length_replicate.
Qed.

Lemma Forall_is5_byte l : Forall is5 l → Forall is_byte l.
Proof. intros H. eapply Forall_impl; [|exact H]. apply is5_byte. Qed.

Lemma is5_land x : is5 (Z.land x 31).
Proof. rewrite land_mask5. apply Z.mod_pos_bound. lia. Qed.

Lemma ExpandPrefix_is5 prefix : Forall is5 (ExpandPrefix prefix).
Proof.
  apply Forall_app. split; [|repeat constructor; unfold is5; lia].
  apply Forall_map, Forall_true. intros. apply is5_land.
Qed.

Lemma PolyMod_bound v : Forall is_byte v → 0 ≤ PolyMod v < 2 ^ 40.
Proof.
  intros Hv. apply lxor_bound; [lia| |lia]. apply run_reg; [unfold is_reg; lia|done].
Qed.

Lemma PolyMod_zero_iff v : PolyMod v = 0 ↔ run 1 v = 1.
Proof.
  unfold PolyMod. split; [apply Z.lxor_eq|].
  intros H. change (Z.lxor (run 1 v) 1 = 0). rewrite H. done.
Qed.

(** ** Base-32 digits of the register *)

Lemma be_val_digits8 m :
  0 ≤ m < 2 ^ 40 →
  be_val 5 (map (fun i => uint8 (Z.land (Z.shiftr m (5 * (7 - i))) 0x1f)) [0; 1; 2; 3; 4; 5; 6; 7]) = m.
Proof.
  intros Hm. cbn [map].
  assert (Hd : ∀ k, uint8 (Z.land (Z.shiftr m k) 31) = Z.shiftr m k mod 32).
  { intros k. rewrite uint8_id by (apply is5_byte, is5_land). apply land_mask5. }
  rewrite !Hd.
  assert (Hs : ∀ k, 0 ≤ k → Z.shiftr m (k + 5) = Z.shiftr m k / 32).
  { intros k Hk. rewrite <-Z.shiftr_shiftr, (Z.shiftr_div_pow2 _ 5) by lia. done. }
  pose proof (Hs 0 ltac:(lia)) as H1. pose proof (Hs 5 ltac:(lia)) as H2.
  pose proof (Hs 10 ltac:(lia)) as H3. pose proof (Hs 15 ltac:(lia)) as H4.
  pose proof (Hs 20 ltac:(lia)) as H5. pose proof (Hs 25 ltac:(lia)) as H6.
  pose proof (Hs 30 ltac:(lia)) as H7. pose proof (Z.shiftr_0_r m) as H0.
  assert (H8 : Z.shiftr m 35 < 32).
  { rewrite Z.shiftr_div_pow2 by lia. apply Z.div_lt_upper_bound; lia. }
  unfold be_val. cbn [fold_left]. clear Hd Hs.
  repeat match goal with |- context [Z.shiftr m ?k] =>
    let k' := eval vm_compute in k in progress change k with k' end.
  change (0 + 5) with 5 in H1. change (5 + 5) with 10 in H2. change (10 + 5) with 15 in H3.
  change (15 + 5) with 20 in H4. change (20 + 5) with 25 in H5. change (25 + 5) with 30 in H6.
  change (30 + 5) with 35 in H7.
  Z.to_euclidean_division_equations. lia.
Qed.

(** The checksum [CreateChecksum] appends makes [VerifyChecksum] succeed. *)
Lemma CreateChecksum_verifies prefix payload :
  Forall is_byte payload →
  VerifyChecksum prefix (payload ++ CreateChecksum prefix payload) = true.
Proof.
  intros Hp. apply Z.eqb_eq, PolyMod_zero_iff. unfold Cat, CreateChecksum.
  unfold Cat. set (enc := ExpandPrefix prefix ++ payload).
  set (m := PolyMod (enc ++ [0; 0; 0; 0; 0; 0; 0; 0])).
  rewrite app_assoc. fold enc. rewrite run_app.
  assert (He : Forall is_byte enc).
  { apply Forall_app. split; [apply Forall_is5_byte, ExpandPrefix_is5|done]. }
  assert (Hm : 0 ≤ m < 2 ^ 40).
  { apply PolyMod_bound. apply Forall_app. split; [done|]. repeat constructor; unfold is_byte; lia. }
  rewrite run_zeros_xor; [|apply run_reg; [unfold is_reg; lia|done]| |cbn; lia].
  2:{ apply Forall_map, Forall_true. intros x.
      rewrite uint8_id by (apply is5_byte, is5_land). apply is5_land. }
  rewrite be_val_digits8 by done. rewrite <-run_app. cbn [length map replicate].
  unfold m, PolyMod. fold (run 1 (enc ++ [0; 0; 0; 0; 0; 0; 0; 0])).
  by rewrite <-Z.lxor_assoc, Z.lxor_nilpotent, Z.lxor_0_l.
Qed.

(** Two verified words that agree outside a window of eight symbols are equal:
    the window is determined by the register before and after it. *)
Lemma checksum_window prefix (a w w' b : data) :
  Forall is5 a → Forall is5 b → Forall is5 w → Forall is5 w' →
  length w = length w' → (length w ≤ 8)%nat →
  VerifyChecksum prefix (a ++ w ++ b) = true →
  VerifyChecksum prefix (a ++ w' ++ b) = true → w = w'.
Proof.
  intros Ha Hb Hw Hw' Hlen H8 HV HV'.
  unfold VerifyChecksum, Cat in *. apply Z.eqb_eq, PolyMod_zero_iff in HV, HV'.
  rewrite !run_app in HV, HV'. set (c := run (run 1 (ExpandPrefix prefix)) a) in *.
  assert (Hc : is_reg c).
  { apply run_reg; [|by apply Forall_is5_byte].
    apply run_reg; [unfold is_reg; lia|apply Forall_is5_byte, ExpandPrefix_is5]. }
  assert (Hr : run c w = run c w').
  { apply (run_inj _ _ b); [by apply run_reg, Forall_is5_byte..|by apply Forall_is5_byte|congruence]. }
  rewrite (run_zeros_xor c w), (run_zeros_xor c w'), <-Hlen in Hr by (done || lia).
  apply (be_val_inj 5); [lia|done..|].
  apply (f_equal (Z.lxor (run c (replicate (length w) 0)))) in Hr.
  by rewrite <-!Z.lxor_assoc, Z.lxor_nilpotent, !Z.lxor_0_l in Hr.
Qed.

(** ** convertBits regroups one number *)

Section convert.
Context (f t : Z) (Hf : 1 ≤ f ≤ 8) (Ht : 1 ≤ t ≤ 8).

Definition sym (w d : Z) : Prop := 0 ≤ d < 2 ^ w.

(** [acc] and [bits] hold the part of the input not emitted yet. *)
Definition cb_inv (p : data) (st : Z * Z * list Z) : Prop :=
  let '(acc, bits, ret) := st in
  0 ≤ acc < 2 ^ (f + t - 1) ∧ 0 ≤ bits ∧ Forall (sym t) ret ∧
  f * Z.of_nat (length p) = t * Z.of_nat (length ret) + bits ∧
  be_val f p = be_val t ret * 2 ^ bits + acc mod 2 ^ bits.

Lemma maxv_ones w : 1 ≤ w ≤ 16 → uint64 (uint64 (Z.shiftl 1 w) - 1) = Z.ones w.
Proof.
  intros Hw. rewrite Z.ones_equiv, Z.shiftl_mul_pow2, Z.mul_1_l by lia.
  pose proof (Z.pow_le_mono_r 2 w 16). pose proof (Z.pow_le_mono_r 2 1 w).
  rewrite !(uint64_id (2 ^ w)), uint64_id by (unfold two64; lia). lia.
Qed.

Lemma cb_emit_inv fuel p acc bits ret :
  cb_inv p (acc, bits, ret) →
  let '(bits', ret') := cb_emit fuel acc t (Z.ones t) bits ret in cb_inv p (acc, bits', ret').
Proof.
  revert bits ret. induction fuel as [|fuel IH]; intros bits ret Hinv; [done|]. cbn [cb_emit].
  rewrite Z.geb_leb. destruct (Z.leb_spec t bits) as [Hge|]; [|done]. apply IH.
  destruct Hinv as (Ha & Hb & Hret & Hlen & Hv). rewrite Z.land_ones, Z.shiftr_div_pow2 by lia.
  pose proof (Z.mod_pos_bound (acc / 2 ^ (bits - t)) (2 ^ t) ltac:(apply Z.pow_pos_nonneg; lia)).
  split; [done|]. split; [lia|]. split.
  { apply Forall_app. split; [done|]. by apply Forall_singleton. }
  split; [rewrite length_app; cbn; lia|].
  rewrite be_val_snoc, Hv. replace bits with ((bits - t) + t) at 1 2 by lia.
  rewrite !Z.pow_add_r, Z.rem_mul_r by lia || (pose proof (Z.pow_pos_nonneg 2 (bits - t)); pose proof (Z.pow_pos_nonneg 2 t); lia).
  lia.
Qed.

Lemma cb_emit_done fuel acc maxv bits ret :
  0 ≤ bits ≤ Z.of_nat fuel → (cb_emit fuel acc t maxv bits ret).1 < t.
Proof.
  revert bits ret. induction fuel as [|fuel IH]; intros bits ret Hb; cbn [cb_emit fst]; [lia|].
  rewrite Z.geb_leb. destruct (Z.leb_spec t bits) as [Hge|]; [|cbn; lia]. apply IH. lia.
Qed.

Lemma cb_step_inv p v acc bits ret :
  sym f v → bits < t → cb_inv p (acc, bits, ret) →
  let st := cb_step f t (Z.ones t) (Z.ones (f + t - 1)) (acc, bits, ret) v in
  cb_inv (p ++ [v]) st ∧ st.1.2 < t.
Proof.
  intros Hv Hbt (Ha & Hb & Hret & Hlen & Heq). unfold cb_step.
  assert (H64 : 2 ^ (f + t - 1) * 2 ^ f ≤ two64).
  { rewrite <-Z.pow_add_r by lia. change two64 with (2 ^ 64). apply Z.pow_le_mono_r; lia. }
  pose proof (Z.pow_pos_nonneg 2 f ltac:(lia) ltac:(lia)) as Hpf.
  rewrite (uint64_id (Z.shiftl acc f)) by (rewrite Z.shiftl_mul_pow2 by lia; nia).
  rewrite uint64_id by (unfold two64; lia).
  rewrite shiftl_lor_add, Z.land_ones by (lia || done).
  set (acc' := (acc * 2 ^ f + v) mod 2 ^ (f + t - 1)).
  assert (Hinv : cb_inv (p ++ [v]) (acc', bits + f, ret)).
  { assert (0 ≤ acc' < 2 ^ (f + t - 1)) by (apply Z.mod_pos_bound, Z.pow_pos_nonneg; lia).
    split; [done|]. split; [lia|]. split; [done|].
    split; [rewrite length_app; cbn; lia|]. rewrite be_val_snoc, Heq.
    assert (Hm : acc' mod 2 ^ (bits + f) = acc mod 2 ^ bits * 2 ^ f + v).
    { unfold acc'. rewrite Z.mod_mod_divide.
      2:{ exists (2 ^ (f + t - 1 - (bits + f))). rewrite <-Z.pow_add_r by lia. f_equal. lia. }
      rewrite (Z.add_comm bits), Z.pow_add_r, Z.rem_mul_r by lia.
      rewrite Z.div_add_l, (Z.div_small v), Z.add_0_r by (lia || done).
      rewrite (Z.add_comm (acc * _)), Z.mod_add, Z.mod_small by (lia || done). lia. }
    rewrite Hm, Z.pow_add_r by lia. lia. }
  pose proof (cb_emit_inv (Z.to_nat (bits + f)) _ _ _ _ Hinv) as He.
  pose proof (cb_emit_done (Z.to_nat (bits + f)) acc' (Z.ones t) (bits + f) ret ltac:(lia)).
  by destruct (cb_emit _ _ _ _ _ _).
Qed.

Lemma cb_fold_inv p :
  Forall (sym f) p →
  let st := fold_left (cb_step f t (Z.ones t) (Z.ones (f + t - 1))) p (0, 0, []) in
  cb_inv p st ∧ st.1.2 < t.
Proof.
  induction p as [|v p IH] using rev_ind; intros Hp.
  - cbn. split; [|lia]. pose proof (Z.pow_pos_nonneg 2 (f + t - 1)).
    split_and!; [lia|lia|lia|constructor|lia|done].
  - apply Forall_app in Hp as [Hp Hv]. apply list.Forall_cons in Hv as [Hv _].
    rewrite fold_left_app. cbn [fold_left].
    specialize (IH Hp). destruct (fold_left _ p _) as [[acc bits] ret]. cbn in IH.
    destruct IH. by apply cb_step_inv.
Qed.

Lemma shifted_tail acc bits :
  0 ≤ acc < 2 ^ (f + t - 1) → 0 ≤ bits < t →
  Z.land (uint64 (Z.shiftl acc (t - bits))) (Z.ones t) = acc mod 2 ^ bits * 2 ^ (t - bits).
Proof.
  intros Ha Hb. rewrite Z.land_ones, Z.shiftl_mul_pow2 by lia.
  pose proof (Z.pow_le_mono_r 2 (t - bits) 8). pose proof (Z.pow_le_mono_r 2 (f + t - 1) 15).
  pose proof (Z.pow_pos_nonneg 2 (t - bits)).
  rewrite uint64_id by (unfold two64; nia).
  replace t with (bits + (t - bits)) at 2 by lia.
  rewrite Z.pow_add_r, Z.mul_mod_distr_r; lia || (pose proof (Z.pow_pos_nonneg 2 bits); lia).
Qed.

Lemma uint8_syms l : Forall (sym t) l → map uint8 l = l.
Proof.
  induction 1 as [|d l Hd _ IH]; [done|]. cbn. rewrite IH, uint8_id; [done|].
  pose proof (Z.pow_le_mono_r 2 t 8). unfold sym, is_byte in *. lia.
Qed.

(** With padding the number is scaled to a whole number of output digits. *)
Lemma convertBits_pad p :
  Forall (sym f) p →
  ∃ r k, convertBits p f t true = Val r ∧ Forall (sym t) r ∧ 0 ≤ k < t ∧
    f * Z.of_nat (length p) + k = t * Z.of_nat (length r) ∧
    be_val t r = be_val f p * 2 ^ k.
Proof.
  intros Hp. unfold convertBits. rewrite !maxv_ones by lia.
  pose proof (cb_fold_inv p Hp) as H.
  destruct (fold_left _ p _) as [[acc bits] ret]. cbn in H.
  destruct H as ((Ha & Hb & Hret & Hlen & Hv) & Hbt).
  rewrite Z.gtb_ltb. destruct (Z.ltb_spec 0 bits) as [Hpos|].
  - rewrite shifted_tail by lia.
    pose proof (Z.mod_pos_bound acc (2 ^ bits) ltac:(apply Z.pow_pos_nonneg; lia)).
    assert (Hpw : 2 ^ t = 2 ^ bits * 2 ^ (t - bits)).
    { rewrite <-Z.pow_add_r by lia. f_equal. lia. }
    assert (Hs : sym t (acc mod 2 ^ bits * 2 ^ (t - bits))).
    { unfold sym. rewrite Hpw. pose proof (Z.pow_pos_nonneg 2 (t - bits)). nia. }
    assert (Hr : Forall (sym t) (ret ++ [acc mod 2 ^ bits * 2 ^ (t - bits)])).
    { apply Forall_app. split; [done|]. by apply Forall_singleton. }
    eexists _, (t - bits). rewrite uint8_syms by done.
    split_and!; [done|done|lia|lia|rewrite length_app; cbn; lia|].
    rewrite be_val_snoc, Hv, Hpw. lia.
  - assert (bits = 0) as -> by lia. eexists _, 0. rewrite uint8_syms by done.
    split_and!; [done|done|lia|lia|lia|]. rewrite Hv, Z.mod_1_r. lia.
Qed.

(** Without padding the leftover bits must be fewer than an input digit and zero. *)
Lemma convertBits_nopad p :
  Forall (sym f) p →
  ∃ r bits, Forall (sym t) r ∧ 0 ≤ bits < t ∧
    f * Z.of_nat (length p) = t * Z.of_nat (length r) + bits ∧
    be_val t r = be_val f p / 2 ^ bits ∧
    convertBits p f t false =
      if (bits >=? f) || negb (be_val f p mod 2 ^ bits =? 0)
      then Err (ENew "encoding padding error") else Val r.
Proof.
  intros Hp. unfold convertBits. rewrite !maxv_ones by lia.
  pose proof (cb_fold_inv p Hp) as H.
  destruct (fold_left _ p _) as [[acc bits] ret]. cbn in H.
  destruct H as ((Ha & Hb & Hret & Hlen & Hv) & Hbt).
  exists ret, bits. rewrite shifted_tail, uint8_syms by (lia || done).
  pose proof (Z.pow_pos_nonneg 2 bits ltac:(lia) ltac:(lia)) as H2.
  pose proof (Z.pow_pos_nonneg 2 (t - bits) ltac:(lia) ltac:(lia)).
  pose proof (Z.mod_pos_bound acc _ H2).
  assert (be_val f p / 2 ^ bits = be_val t ret) as ->.
  { rewrite Hv, Z.div_add_l, Z.div_small by lia. lia. }
  assert (be_val f p mod 2 ^ bits = acc mod 2 ^ bits) as ->.
  { rewrite Hv, Z.add_comm, Z.mod_add, Z.mod_mod by lia. done. }
  split_and!; [done|lia|lia|lia|done|].
  destruct (Z.eqb_spec (acc mod 2 ^ bits) 0) as [->|]; [done|].
  by rewrite (proj2 (Z.eqb_neq (_ * _) 0)) by nia.
Qed.

End convert.

(** Regrouping into narrower digits and back is the identity ... *)
Lemma convertBits_pad_nopad f t p q :
  1 ≤ t ≤ f → f ≤ 8 → Forall (sym f) p →
  convertBits p f t true = Val q → convertBits q t f false = Val p.
Proof.
  intros Ht Hf Hp Hq.
  destruct (convertBits_pad f t ltac:(lia) ltac:(lia) p Hp) as (q' & k & Hq' & Hs & Hk & Hlen & Hv).
  assert (q' = q) as -> by congruence.
  destruct (convertBits_nopad t f ltac:(lia) ltac:(lia) q Hs) as (r & bits & Hr & Hb & Hlen' & Hv' & ->).
  destruct (Z.div_mod_unique f (Z.of_nat (length r)) (Z.of_nat (length p)) bits k) as [Hlr ->]; [lia..|].
  apply Nat2Z.inj in Hlr.
  pose proof (Z.pow_pos_nonneg 2 k ltac:(lia) ltac:(lia)).
  rewrite Hv, Z.div_mul in Hv' by lia.
  rewrite Hv, Z.mod_mul, Z.geb_leb, (proj2 (Z.leb_gt t k)) by lia. cbn. f_equal.
  by apply (be_val_inj f); [lia|..].
Qed.

(** ... and a digit string that converts without padding is the padded form of its value. *)
Lemma convertBits_nopad_pad f t p q :
  1 ≤ t ≤ f → f ≤ 8 → Forall (sym t) q →
  convertBits q t f false = Val p → Forall (sym f) p ∧ convertBits p f t true = Val q.
Proof.
  intros Ht Hf Hq.
  destruct (convertBits_nopad t f ltac:(lia) ltac:(lia) q Hq) as (r & bits & Hr & Hb & Hlen & Hv & ->).
  destruct (Z.geb_spec bits t); cbn; [done|].
  destruct (Z.eqb_spec (be_val t q mod 2 ^ bits) 0) as [Hm|]; cbn; [|done].
  intros [= ->]. split; [done|].
  destruct (convertBits_pad f t ltac:(lia) ltac:(lia) p Hr) as (q' & k & -> & Hs & Hk & Hlen' & Hv').
  destruct (Z.div_mod_unique t (Z.of_nat (length q')) (Z.of_nat (length q)) bits k) as [Hlq <-]; [lia..|].
  apply Nat2Z.inj in Hlq.
  f_equal. apply (be_val_inj t); [lia|done..|].
  rewrite Hv', Hv, Z.mul_comm. pose proof (Z.pow_pos_nonneg 2 bits).
  rewrite (Z.div_mod (be_val t q) (2 ^ bits)) at 2 by lia. lia.
Qed.

(** ** The checksum as polynomial division over GF(32)

    The reference the comment before [PolyMod] describes: symbols are elements
    of GF(32) with [a^5 + a^3 + 1 = 0], a word is a polynomial, and the checksum
    is its remainder modulo [x^8 + 19x^7 + 3x^6 + 25x^5 + 11x^4 + 25x^3 + 3x^2 + 19x + 1]. *)

(** Multiplication by [a]. *)
Definition gf_double (x : Z) : Z := if Z.testbit x 4 then Z.lxor (2 * x) 41 else 2 * x.

(** Multiplication, one bit of [y] at a time. *)
Definition gf_mul (x y : Z) : Z :=
  fold_right (fun i r => Z.lxor (if Z.testbit y i then x else 0) (gf_double r)) 0 [0; 1; 2; 3; 4].

(** The generator without its leading coefficient, highest degree first. *)
Definition generator : list Z := [19; 3; 25; 11; 25; 3; 19; 1].

(** One step of schoolbook division: bring down [d], subtract the leading
    coefficient times the generator. *)
Definition div_step (r : list Z) (d : Z) : list Z :=
  match r with
  | lead :: low => zip_with Z.lxor (low ++ [d]) (map (gf_mul lead) generator)
  | [] => []
  end.

Definition poly_rem (p : list Z) : list Z := fold_left div_step p (replicate 8 0).

Lemma be_val_lxor w l k :
  0 ≤ w → Forall (fun d => 0 ≤ d < 2 ^ w) l → Forall (fun d => 0 ≤ d < 2 ^ w) k →
  length l = length k → be_val w (zip_with Z.lxor l k) = Z.lxor (be_val w l) (be_val w k).
Proof.
  intros Hw. revert k. induction l as [|d l IH] using rev_ind; intros k Hl Hk Hlen.
  - by destruct k.
  - destruct k as [|e k _] using rev_ind; [rewrite length_app in Hlen; cbn in Hlen; lia|].
    rewrite !length_app in Hlen. cbn in Hlen.
    apply Forall_app in Hl as [Hl Hd], Hk as [Hk He].
    apply list.Forall_cons in Hd as [Hd _], He as [He _].
    rewrite zip_with_app by lia. cbn. rewrite !be_val_snoc, IH by (done || lia).
    pose proof (lxor_bound d e w Hw Hd He).
    rewrite <-!shiftl_lxor_add, Z.shiftl_lxor by done. apply lxor_swap.
Qed.

Lemma gen_generator x : is5 x → be_val 5 (map (gf_mul x) generator) = gen x.
Proof.
  intros Hx.
  pose proof (forallb_range (fun x => be_val 5 (map (gf_mul x) generator) =? gen x) 0 32 x
    ltac:(vm_compute; reflexivity) ltac:(unfold is5 in Hx; lia)) as H.
  by apply Z.eqb_eq in H.
Qed.

Lemma gf_mul_is5 x y : is5 x → is5 y → is5 (gf_mul x y).
Proof.
  intros Hx Hy.
  pose proof (forallb_range (fun x => forallb (fun y => (0 <=? gf_mul x y) && (gf_mul x y <? 32)) (seqZ 0 32))
    0 32 x ltac:(vm_compute; reflexivity) ltac:(unfold is5 in Hx; lia)) as H.
  apply (forallb_range _ 0 32 y) in H; [|unfold is5 in Hy; lia].
  apply andb_true_iff in H as [H1 H2]. unfold is5. lia.
Qed.

Lemma Forall_zip_lxor l k : Forall is5 l → Forall is5 k → Forall is5 (zip_with Z.lxor l k).
Proof.
  intros Hl. revert k. induction Hl as [|d l Hd Hl IH]; intros k Hk; [constructor|].
  destruct Hk as [|e k He Hk]; [constructor|]. cbn. constructor; [|by apply IH].
  by apply (lxor_bound _ _ 5).
Qed.

(** The 40-bit register holds the eight coefficients of the remainder. *)
Lemma div_step_PolyMod r d :
  length r = 8%nat → Forall is5 r → is5 d →
  length (div_step r d) = 8%nat ∧ Forall is5 (div_step r d) ∧
  PolyMod_step (be_val 5 r) d = be_val 5 (div_step r d).
Proof.
  intros Hlen Hr Hd. pose proof (be_val_bound 5 r ltac:(lia) Hr) as Hreg. rewrite Hlen in Hreg.
  destruct r as [|lead low]; [done|]. apply list.Forall_cons in Hr as [Hlead Hlow].
  assert (Hll : length low = 7%nat) by (cbn in Hlen; lia).
  assert (Hg : Forall is5 (map (gf_mul lead) generator)).
  { apply Forall_map. unfold generator.
    repeat (constructor; [apply gf_mul_is5; [done|unfold is5; lia]|]). constructor. }
  assert (Hld : Forall is5 (low ++ [d])).
  { apply Forall_app. split; [done|]. by apply Forall_singleton. }
  cbn [div_step]. split_and!.
  - rewrite length_zip_with, length_app, length_map, Hll. done.
  - by apply Forall_zip_lxor.
  - assert (Hcat : be_val 5 (lead :: low) = lead * 2 ^ 35 + be_val 5 low).
    { pose proof (be_val_app 5 [lead] low ltac:(lia)) as H. rewrite Hll in H. exact H. }
    pose proof (be_val_bound 5 low ltac:(lia) Hlow) as Hlb. rewrite Hll in Hlb.
    rewrite PolyMod_step_gen by done.
    rewrite be_val_lxor by (rewrite ?length_app, ?length_map, ?Hll; lia || done).
    rewrite gen_generator, be_val_snoc by done.
    rewrite land_mask35, Z.shiftr_div_pow2, Hcat by lia.
    rewrite Z.div_add_l, Z.div_small, Z.add_0_r by lia.
    rewrite Z.add_comm, Z.mod_add, Z.mod_small by lia.
    by rewrite shiftl_lxor_add.
Qed.

Lemma poly_rem_run r v :
  length r = 8%nat → Forall is5 r → Forall is5 v →
  run (be_val 5 r) v = be_val 5 (fold_left div_step v r).
Proof.
  intros Hlen Hr Hv. revert r Hlen Hr. induction Hv as [|d v Hd Hv IH]; intros r Hlen Hr; [done|].
  destruct (div_step_PolyMod r d) as (Hl' & Hr' & Heq); [done..|].
  rewrite run_cons, Heq. by apply IH.
Qed.

(** ** Properties *)

(** C32. [PolyMod] computes the BCH checksum: over 5-bit symbols it is the
    remainder, by schoolbook division in GF(32)[x], of the word with a leading
    one, packed five bits per coefficient and xored with one. *)
Theorem PolyMod_is_polynomial_remainder (v : data) :
  Forall is5 v → PolyMod v = Z.lxor (be_val 5 (poly_rem (1 :: v))) 1.
Proof.
  intros Hv. unfold PolyMod. f_equal. fold (run 1 v).
  change (run 1 v) with (run (be_val 5 [0; 0; 0; 0; 0; 0; 0; 1]) v).
  rewrite poly_rem_run; [done..| |done].
  repeat (constructor; [unfold is5; lia|]). constructor.
Qed.

Lemma PolyMod_is_polynomial_remainder_witness :
  PolyMod [2; 9; 31; 0; 7; 1; 3; 12; 5] = Z.lxor (be_val 5 (poly_rem (1 :: [2; 9; 31; 0; 7; 1; 3; 12; 5]))) 1.
Proof.
  apply PolyMod_is_polynomial_remainder. closed_ranges.
Defined.

(** C33. Every error confined to a window of at most eight consecutive symbols
    is detected: of two words that differ only there, at most one passes
    [VerifyChecksum]. *)
Theorem VerifyChecksum_detects_bursts prefix (a w w' b : data) :
  Forall is5 a → Forall is5 b → Forall is5 w → Forall is5 w' →
  length w = length w' → (length w ≤ 8)%nat → w ≠ w' →
  VerifyChecksum prefix (a ++ w ++ b) = true →
  VerifyChecksum prefix (a ++ w' ++ b) = false.
Proof.
  intros Ha Hb Hw Hw' Hlen H8 Hne HV. apply not_true_is_false. intros HV'. apply Hne.
  by apply (checksum_window prefix a w w' b).
Qed.

Lemma VerifyChecksum_detects_bursts_witness :
  VerifyChecksum "bitcoincash" ([1; 2] ++ [30; 4] ++ CreateChecksum "bitcoincash" [1; 2; 3; 4]) = false.
Proof.
  apply (VerifyChecksum_detects_bursts _ [1; 2] [3; 4]);
    first [done | closed_ranges | by vm_compute; lia].
Defined.

(** C34. The regrouping of bytes into 5-bit symbols with padding, and of 5-bit
    symbols into bytes without, are inverse to each other: [p] regroups to [q]
    exactly when [q] regroups to [p], so no address payload has two
    spellings and every byte string survives the trip. *)
Theorem convertBits_bijection (p q : data) :
  Forall is_byte p → Forall is5 q →
  convertBits p 8 5 true = Val q ↔ convertBits q 5 8 false = Val p.
Proof.
  intros Hp Hq. split; intros H.
  - by apply (convertBits_pad_nopad 8 5 p q).
  - by apply (convertBits_nopad_pad 8 5 p q).
Qed.

Lemma convertBits_bijection_witness :
  convertBits [63; 128] 8 5 true = Val [7; 30; 0; 0] ↔ convertBits [7; 30; 0; 0] 5 8 false = Val [63; 128].
Proof.
  apply convertBits_bijection; closed_ranges.
Defined.
