(* ===== verification/Cashaddr.v ===== *)
(** * Cashaddr: bitcoin cash addresses

    The rest of src/V2/pkg/cashaddr/cashaddr.go: the textual encoding and its
    decoder, the version byte, the two address types with their constructors
    and methods, and the payment scripts.  [chaincfg.Params] and the
    [txscript] script builder are third-party code and enter as parameters. *)

From stdpp Require Import base list strings gmap numbers.
From Stdlib Require Import ZArith Lia.
From S2P Require Import Prelude GoStrings CashBits.

Local Open Scope Z_scope.

(** ** Errors, constants and types *)

Definition ErrChecksumMismatch : gerror := ESentinel "checksum mismatch".
Definition ErrUnknownAddressType : gerror := ESentinel "unknown address type".

(** [type AddressType int] *)
Definition AddressType := Z.
Definition P2PKH : AddressType := 0.
Definition P2SH : AddressType := 1.

(** [ripemd160.Size] *)
Definition ripemd160_Size : Z := 20.

Definition CHARSET : string := "qpzry9x8gf2tvdw0s3jn54khce6mua7l".

Definition CHARSET_REV : list Z := [
  -1; -1; -1; -1; -1; -1; -1; -1; -1; -1; -1; -1; -1; -1; -1; -1; -1; -1; -1;
  -1; -1; -1; -1; -1; -1; -1; -1; -1; -1; -1; -1; -1; -1; -1; -1; -1; -1; -1;
  -1; -1; -1; -1; -1; -1; -1; -1; -1; -1; 15; -1; 10; 17; 21; 20; 26; 30; 7;
  5; -1; -1; -1; -1; -1; -1; -1; 29; -1; 24; 13; 25; 9; 8; 23; -1; 18; 22;
  31; 27; 19; -1; 1; 0; 3; 16; 11; 28; 12; 14; 6; 4; 2; -1; -1; -1; -1;
  -1; -1; 29; -1; 24; 13; 25; 9; 8; 23; -1; 18; 22; 31; 27; 19; -1; 1; 0;
  3; 16; 11; 28; 12; 14; 6; 4; 2; -1; -1; -1; -1; -1 ].

(** The three networks of [chaincfg] that [init] registers.  [Name] is the only
    field of [chaincfg.Params] the package reads. *)
Record Params := { Name : string }.

Class Chaincfg := {
  MainNetParams : Params;
  TestNet3Params : Params;
  RegressionNetParams : Params;
}.

(** [func init()] *)
Definition Prefixes `{Chaincfg} : gmap string string :=
  <[Name RegressionNetParams := "bchreg"]>
  (<[Name TestNet3Params := "bchtest"]>
  (<[Name MainNetParams := "bitcoincash"]> ∅)).

(** ** Encoding *)

(** The body of the loop of [Encode]: [ret += string(CHARSET[c])]. *)
Fixpoint encode_symbols (combined : data) : gores (list Z) :=
  match combined with
  | [] => Val []
  | c :: combined =>
      match bytes CHARSET !! Z.to_nat c with
      | Some b => rest ← encode_symbols combined; Val (string_of_byte b ++ rest)
      | None => Panic IndexOutOfRange
      end
  end.

(** [func Encode(prefix string, payload data) string] *)
Definition Encode (prefix : string) (payload : data) : gores string :=
  let checksum := CreateChecksum prefix payload in
  let combined := Cat payload checksum in
  ret ← encode_symbols combined;
  Val (of_bytes ret).

(** [func packAddressData(addrType AddressType, addrHash data) (data, error)] *)
Definition packAddressData (addrType : AddressType) (addrHash : data) : gores data :=
  if negb (addrType =? P2PKH) && negb (addrType =? P2SH) then Err (ENew "invalid addrtype")
  else
    let versionByte := uint64 (Z.shiftl (uint64 addrType) 3) in
    let encodedSize := uint64 (Z.of_nat (length addrHash) - 20) / 4 in
    if negb (Z.rem (Z.of_nat (length addrHash) - 20) 4 =? 0) then Err (ENew "invalid addrhash size")
    else if (encodedSize <? 0) || (encodedSize >? 8) then Err (ENew "encoded size out of valid range")
    else
      let versionByte := Z.lor versionByte encodedSize in
      convertBits (uint8 versionByte :: addrHash) 8 5 true.

(** [func CheckEncodeCashAddress(input []byte, prefix string, t AddressType) string] *)
Definition CheckEncodeCashAddress (input : data) (prefix : string) (t : AddressType) : gores string :=
  match packAddressData t input with
  | Val k => Encode prefix k
  | Err _ => Val ""
  | Panic p => Panic p
  | Exit e => Exit e
  end.

(** [func encodeCashAddress(hash160 []byte, prefix string, t AddressType) string] *)
Definition encodeCashAddress (hash160 : data) (prefix : string) (t : AddressType) : gores string :=
  if Z.of_nat (length hash160) <? ripemd160_Size then Panic SliceBounds
  else CheckEncodeCashAddress (take (Z.to_nat ripemd160_Size) hash160) prefix t.

(** ** Decoding *)

Definition between (lo hi c : Z) : bool := (lo <=? c) && (c <=? hi).

(** The scan of [DecodeCashAddress] at index [i], with the variables [lower],
    [upper] and [prefixSize]. *)
Fixpoint scan (i : Z) (lower upper : bool) (prefixSize : Z) (str : list Z) : gores (bool * bool * Z) :=
  match str with
  | [] => Val (lower, upper, prefixSize)
  | c :: str =>
      if between 97 122 c then scan (i + 1) true upper prefixSize str
      else if between 65 90 c then scan (i + 1) lower true prefixSize str
      else if between 48 57 c then
        if prefixSize =? 0 then Err (ENew "Addresses cannot have numbers in the prefix")
        else scan (i + 1) lower upper prefixSize str
      else if c =? 58 then
        if (i =? 0) || negb (prefixSize =? 0)
        then Err (ENew "The separator must not be the first character")
        else scan (i + 1) lower upper i str
      else Err (ENew "Unexpected character")
  end.

(** The loop that fills [values]. *)
Fixpoint decode_values (str : list Z) : gores data :=
  match str with
  | [] => Val []
  | c :: str =>
      let v := default (-1) (CHARSET_REV !! Z.to_nat c) in
      if (c >? 127) || (v =? -1) then Err (ENew "Invalid character")
      else rest ← decode_values str; Val (uint8 v :: rest)
  end.

(** [func DecodeCashAddress(str string) (string, data, error)] *)
Definition DecodeCashAddress (s : string) : gores (string * data) :=
  let str := bytes s in
  '(lower, upper, prefixSize) ← scan 0 false false 0 str;
  if prefixSize =? 0 then Err (ENew "Address must have a prefix")
  else if upper && lower
  then Err (ENew "Addresses cannot use both upper and lower case characters")
  else
    let prefix := of_bytes (flat_map (fun c => string_of_byte (LowerCase c)) (take (Z.to_nat prefixSize) str)) in
    values ← decode_values (drop (Z.to_nat (prefixSize + 1)) str);
    if negb (VerifyChecksum prefix values) then Err ErrChecksumMismatch
    else if Z.of_nat (length values) <? 8 then Panic SliceBounds
    else Val (prefix, take (length values - 8) values).

(** [func CheckDecodeCashAddress(input string) (result []byte, prefix string, t AddressType, err error)] *)
Definition CheckDecodeCashAddress (input : string) : gores (data * string * AddressType) :=
  '(prefix, d) ← DecodeCashAddress input;
  d ← convertBits d 5 8 false;
  match d with
  | version :: hash =>
      if negb (length d =? 21)%nat then Err (ENew "Incorrect data length")
      else
        let t := if version =? 0x00 then P2PKH else if version =? 0x08 then P2SH else 0 in
        Val (hash, prefix, t)
  | [] => Err (ENew "Incorrect data length")
  end.

(** ** Addresses *)

(** [CashAddressPubKeyHash] and [CashAddressScriptHash] have the same fields;
    the constructor is the dynamic type of the [btcutil.Address]. *)
Inductive Address :=
| CashAddressPubKeyHash (hash : data) (prefix : string)
| CashAddressScriptHash (hash : data) (prefix : string).

#[global] Instance Address_eq_dec : EqDecision Address.
Proof. solve_decision. Defined.

Section addresses.
Context {cfg : Chaincfg}.

(** [func newCashAddressPubKeyHash(pkHash []byte, net *chaincfg.Params)], which
    the exported [NewCashAddressPubKeyHash] forwards to *)
Definition newCashAddressPubKeyHash (pkHash : data) (net : Params) : gores Address :=
  if negb (Z.of_nat (length pkHash) =? ripemd160_Size) then Err (ENew "pkHash must be 20 bytes")
  else match Prefixes !! Name net with
       | None => Err (ENew "unknown network parameters")
       | Some prefix => Val (CashAddressPubKeyHash pkHash prefix)
       end.

(** [func newCashAddressScriptHashFromHash(scriptHash []byte, net *chaincfg.Params)],
    which the exported [NewCashAddressScriptHashFromHash] forwards to *)
Definition newCashAddressScriptHashFromHash (scriptHash : data) (net : Params) : gores Address :=
  if negb (Z.of_nat (length scriptHash) =? ripemd160_Size) then Err (ENew "scriptHash must be 20 bytes")
  else match Prefixes !! Name net with
       | None => Err (ENew "unknown network parameters")
       | Some pre => Val (CashAddressScriptHash scriptHash pre)
       end.

Definition NewCashAddressPubKeyHash := newCashAddressPubKeyHash.
Definition NewCashAddressScriptHashFromHash := newCashAddressScriptHashFromHash.

(** [func NewCashAddressScriptHash(serializedScript []byte, net *chaincfg.Params)];
    [Hash160] is [btcutil.Hash160] *)
Definition NewCashAddressScriptHash (Hash160 : data → data) (serializedScript : data) (net : Params) :
    gores Address :=
  newCashAddressScriptHashFromHash (Hash160 serializedScript) net.

(** The [EncodeAddress] and [String] methods of both types *)
Definition EncodeAddress (a : Address) : gores string :=
  match a with
  | CashAddressPubKeyHash hash prefix => encodeCashAddress hash prefix P2PKH
  | CashAddressScriptHash hash prefix => encodeCashAddress hash prefix P2SH
  end.

(** The [ScriptAddress] methods; [Hash160] returns the same array *)
Definition ScriptAddress (a : Address) : data :=
  match a with CashAddressPubKeyHash hash _ | CashAddressScriptHash hash _ => hash end.

Definition address_prefix (a : Address) : string :=
  match a with CashAddressPubKeyHash _ prefix | CashAddressScriptHash _ prefix => prefix end.

(** The [IsForNet] methods *)
Definition IsForNet (a : Address) (net : Params) : bool :=
  match Prefixes !! Name net with
  | None => false
  | Some checkPre => bool_decide (address_prefix a = checkPre)
  end.

(** [func DecodeAddress(addr string, defaultNet *chaincfg.Params) (btcutil.Address, error)] *)
Definition DecodeAddress (addr : string) (defaultNet : Params) : gores Address :=
  match Prefixes !! Name defaultNet with
  | None => Err (ENew "unknown network parameters")
  | Some pre =>
      let n := (String.length pre + 1)%nat in
      let addr :=
        if (n <=? String.length addr)%nat && negb (bool_decide (take n (bytes addr) = bytes (pre ++ ":")))
        then (pre ++ ":" ++ addr)%string else addr in
      match CheckDecodeCashAddress addr with
      | Err err =>
          if bool_decide (err = ErrChecksumMismatch) then Err ErrChecksumMismatch
          else Err (ENew "decoded address is of unknown format")
      | Panic p => Panic p
      | Exit e => Exit e
      | Val (decoded, _, typ) =>
          if Z.of_nat (length decoded) =? ripemd160_Size then
            if typ =? P2PKH then newCashAddressPubKeyHash decoded defaultNet
            else if typ =? P2SH then newCashAddressScriptHashFromHash decoded defaultNet
            else Err ErrUnknownAddressType
          else Err (ENew "decoded address is of unknown size")
      end
  end.

(** [func ExtractPkScriptAddrs(pkScript []byte, chainParams *chaincfg.Params) (btcutil.Address, error)] *)
Definition ExtractPkScriptAddrs (pkScript : data) (chainParams : Params) : gores Address :=
  let at_ i := default 0 (pkScript !! i) in
  if (length pkScript =? 1 + 1 + 20 + 1)%nat && (at_ 0%nat =? 0xa9) && (at_ 1%nat =? 0x14) && (at_ 22%nat =? 0x87)
  then NewCashAddressScriptHashFromHash (take 20 (drop 2 pkScript)) chainParams
  else if (length pkScript =? 1 + 1 + 1 + 20 + 1 + 1)%nat && (at_ 0%nat =? 0x76) && (at_ 1%nat =? 0xa9)
          && (at_ 2%nat =? 0x14) && (at_ 23%nat =? 0x88) && (at_ 24%nat =? 0xac)
  then NewCashAddressPubKeyHash (take 20 (drop 3 pkScript)) chainParams
  else Err (ENew "unknown script type").

End addresses.

(** ** Payment scripts *)

(** The part of [txscript] the package calls: a script builder and opcodes. *)
Class Txscript := {
  ScriptBuilder : Type;
  NewScriptBuilder : ScriptBuilder;
  AddOp : ScriptBuilder → Z → ScriptBuilder;
  AddData : ScriptBuilder → data → ScriptBuilder;
  Script : ScriptBuilder → gores data;
  OP_DUP : Z;
  OP_HASH160 : Z;
  OP_EQUALVERIFY : Z;
  OP_CHECKSIG : Z;
  OP_EQUAL : Z;
}.

(** What its documentation promises: the script is the operations in the order
    they were added, data of 2 to 75 bytes pushed behind its length byte, while
    the script stays within the maximum size; and the opcode values. *)
Class TxscriptLaws `{Txscript} : Prop := {
  Script_new : Script NewScriptBuilder = Val [];
  Script_AddOp b s op :
    Script b = Val s → Z.of_nat (length s) < 10000 → Script (AddOp b op) = Val (s ++ [op]);
  Script_AddData b s d :
    Script b = Val s → (2 ≤ length d ≤ 75)%nat → Z.of_nat (length s + length d) < 10000 →
    Script (AddData b d) = Val (s ++ Z.of_nat (length d) :: d);
  opcodes : OP_DUP = 0x76 ∧ OP_HASH160 = 0xa9 ∧ OP_EQUALVERIFY = 0x88 ∧ OP_CHECKSIG = 0xac ∧ OP_EQUAL = 0x87;
}.

(** A value of the interface [btcutil.Address] as the type switch sees it: an
    address of this package, a nil pointer of one of its types, or another type. *)
Inductive AnyAddress :=
| CashAddr (a : Address)
| NilCashAddr
| OtherAddr (typ : string).

Section scripts.
Context {txs : Txscript}.

(** [func payToPubKeyHashScript(pubKeyHash []byte) ([]byte, error)] *)
Definition payToPubKeyHashScript (pubKeyHash : data) : gores data :=
  Script (AddOp (AddOp (AddData (AddOp (AddOp NewScriptBuilder OP_DUP) OP_HASH160) pubKeyHash)
    OP_EQUALVERIFY) OP_CHECKSIG).

(** [func payToScriptHashScript(scriptHash []byte) ([]byte, error)] *)
Definition payToScriptHashScript (scriptHash : data) : gores data :=
  Script (AddOp (AddData (AddOp NewScriptBuilder OP_HASH160) scriptHash) OP_EQUAL).

(** [func cashPayToAddrScript(addr btcutil.Address) ([]byte, error)] *)
Definition cashPayToAddrScript (addr : AnyAddress) : gores data :=
  match addr with
  | CashAddr (CashAddressPubKeyHash _ _ as addr) => payToPubKeyHashScript (ScriptAddress addr)
  | CashAddr (CashAddressScriptHash _ _ as addr) => payToScriptHashScript (ScriptAddress addr)
  | NilCashAddr => Err (ENew "unable to generate payment script for nil address")
  | OtherAddr _ => Err (ENew "unable to generate payment script for unsupported address type %T")
  end.

End scripts.

(** ** The character set *)

Definition charset (x : Z) : Z := default 0 (bytes CHARSET !! Z.to_nat x).
Definition charset_rev (c : Z) : Z := default (-1) (CHARSET_REV !! Z.to_nat c).

Definition is_lower (c : Z) : bool := between 97 122 c.
Definition is_upper (c : Z) : bool := between 65 90 c.
Definition is_letter (c : Z) : bool := is_lower c || is_upper c.
Definition is_alnum (c : Z) : bool := is_letter c || between 48 57 c.
Definition is_lower_alnum (c : Z) : bool := is_lower c || between 48 57 c.

Definition charset_ok (x : Z) : bool :=
  match bytes CHARSET !! Z.to_nat x with
  | Some b => is_lower_alnum b && (charset_rev b =? x)
  | None => false
  end.

Lemma charset_spec x :
  is5 x → bytes CHARSET !! Z.to_nat x = Some (charset x) ∧ is_lower_alnum (charset x) = true ∧
          charset_rev (charset x) = x.
Proof.
  intros Hx.
  pose proof (forallb_range charset_ok 0 32 x
    ltac:(vm_compute; reflexivity) ltac:(unfold is5 in Hx; lia)) as H.
  unfold charset_ok in H. unfold charset. destruct (bytes CHARSET !! Z.to_nat x); [|done].
  apply andb_true_iff in H as [H1 H2%Z.eqb_eq]. done.
Qed.

Lemma charset_rev_spec c :
  0 ≤ c < 128 → charset_rev c ≠ -1 → is5 (charset_rev c) ∧ charset (charset_rev c) = lower_byte c.
Proof.
  intros Hc Hr.
  pose proof (forallb_range (fun c => (charset_rev c =? -1) || ((0 <=? charset_rev c) && (charset_rev c <? 32) &&
    (charset (charset_rev c) =? lower_byte c))) 0 128 c ltac:(vm_compute; reflexivity) ltac:(lia)) as H.
  apply orb_true_iff in H as [H%Z.eqb_eq|H]; [done|].
  apply andb_true_iff in H as [[H1 H2]%andb_true_iff H3%Z.eqb_eq]. unfold is5. split; [lia|done].
Qed.

Lemma lower_alnum_range c : is_lower_alnum c = true → 48 ≤ c ≤ 122 ∧ c ≠ 58 ∧ is_upper c = false.
Proof.
  unfold is_lower_alnum, is_lower, is_upper, between. intros [H|H]%orb_true_iff; apply andb_true_iff in H; lia.
Qed.

Lemma string_of_byte_ascii c : c < 128 → string_of_byte c = [c].
Proof. intros H. unfold string_of_byte. by rewrite (proj2 (Z.ltb_lt _ _) H). Qed.

Lemma LowerCase_letter c : 0 ≤ c → is_letter c = true → LowerCase c = lower_byte c ∧ lower_byte c < 128.
Proof.
  intros H0 Hc.
  assert (Hr : 0 ≤ c < 0 + 128).
  { unfold is_letter, is_lower, is_upper, between in Hc.
    apply orb_true_iff in Hc as [Hc|Hc]; apply andb_true_iff in Hc; lia. }
  pose proof (forallb_range (fun c => implb (is_letter c) ((LowerCase c =? lower_byte c) && (lower_byte c <? 128)))
    0 128 c ltac:(vm_compute; reflexivity) Hr) as H. cbv beta in H.
  rewrite Hc in H. apply andb_true_iff in H as [? ?]. lia.
Qed.

Lemma encode_symbols_ok l : Forall is5 l → encode_symbols l = Val (map charset l).
Proof.
  induction 1 as [|x l Hx Hl IH]; [done|]. destruct (charset_spec x Hx) as (H1 & H2 & _).
  cbn [encode_symbols]. rewrite H1, IH. apply lower_alnum_range in H2. cbn.
  by rewrite string_of_byte_ascii by lia.
Qed.

Lemma decode_values_ok l : Forall is5 l → decode_values (map charset l) = Val l.
Proof.
  induction 1 as [|x l Hx Hl IH]; [done|]. destruct (charset_spec x Hx) as (_ & H2 & H3).
  cbn [map decode_values]. fold (charset_rev (charset x)). rewrite H3, IH.
  apply lower_alnum_range in H2. unfold is5 in Hx.
  rewrite (proj2 (Z.eqb_neq x (-1))), Z.gtb_ltb, (proj2 (Z.ltb_ge _ _)) by lia. cbn.
  rewrite uint8_id; [done|]. unfold is_byte. lia.
Qed.

Lemma decode_values_inv s v :
  Forall is_byte s → decode_values s = Val v → Forall is5 v ∧ map charset v = map lower_byte s.
Proof.
  intros Hs. revert v. induction Hs as [|c s Hc Hs IH]; intros v; cbn [decode_values].
  - intros [= <-]. done.
  - fold (charset_rev c). rewrite Z.gtb_ltb.
    destruct (Z.ltb_spec 127 c); cbn; [done|]. destruct (Z.eqb_spec (charset_rev c) (-1)); [done|].
    intros (rest & Hrest & [= <-])%bind_Val. destruct (IH _ Hrest) as [H1 H2].
    unfold is_byte in Hc. destruct (charset_rev_spec c) as [H5 H6]; [lia|done|].
    rewrite uint8_id by by apply is5_byte. cbn. rewrite H6, H2. by split; [constructor|].
Qed.

(** ** The scan *)

Definition flags (lo up : bool) (s : list Z) : bool * bool :=
  (lo || existsb is_lower s, up || existsb is_upper s).

(** The four character classes the scan distinguishes. *)
Inductive char_class (c : Z) : Prop :=
| CLower (_ : between 97 122 c = true) (_ : is_lower c = true) (_ : is_upper c = false)
| CUpper (_ : between 97 122 c = false) (_ : between 65 90 c = true) (_ : is_lower c = false) (_ : is_upper c = true)
| CDigit (_ : between 97 122 c = false) (_ : between 65 90 c = false) (_ : between 48 57 c = true)
    (_ : is_lower c = false) (_ : is_upper c = false)
| COther (_ : between 97 122 c = false) (_ : between 65 90 c = false) (_ : between 48 57 c = false)
    (_ : is_lower c = false) (_ : is_upper c = false).

Lemma char_classP c : char_class c.
Proof.
  destruct (between 97 122 c) eqn:H1.
  - apply CLower; [done|done|]. unfold is_upper, between in *. apply andb_true_iff in H1. lia.
  - destruct (between 65 90 c) eqn:H2; [by apply CUpper|].
    destruct (between 48 57 c) eqn:H3; [by apply CDigit|by apply COther].
Qed.

Ltac by_class c :=
  destruct (char_classP c);
  repeat match goal with
  | H : between _ _ c = _ |- _ => rewrite H in *; clear H
  | H : is_lower c = _ |- _ => rewrite H in *; clear H
  | H : is_upper c = _ |- _ => rewrite H in *; clear H
  end; rewrite ?orb_true_r, ?orb_false_r, ?orb_true_l, ?orb_false_l in *.

Lemma scan_rest i lo up ps s r :
  ps ≠ 0 →
  scan i lo up ps s = Val r ↔ forallb is_alnum s = true ∧ r = (flags lo up s, ps).
Proof.
  intros Hps. revert i lo up. induction s as [|c s IH]; intros i lo up; cbn.
  - unfold flags. rewrite !orb_false_r. split; [by intros [= <-]|by intros [_ ->]].
  - unfold flags, is_alnum, is_letter. cbn. rewrite (proj2 (Z.eqb_neq ps 0) Hps), orb_true_r.
    specialize (IH (i + 1)).
    by_class c; cbn; [rewrite IH; unfold flags; cbn; by rewrite ?orb_true_r..|].
    destruct (c =? 58); (split; [done|by intros [[=] _]]).
Qed.

Lemma scan_rest_ok i lo up ps s :
  ps ≠ 0 → forallb is_alnum s = true → scan i lo up ps s = Val (flags lo up s, ps).
Proof. intros Hps Hs. by apply scan_rest. Qed.

Lemma scan_prefix_ok i lo up pre rest :
  0 ≤ i → 0 < i + Z.of_nat (length pre) → forallb is_letter pre = true →
  scan i lo up 0 (pre ++ 58 :: rest) =
  scan (i + Z.of_nat (length pre) + 1) (flags lo up pre).1 (flags lo up pre).2 (i + Z.of_nat (length pre)) rest.
Proof.
  revert i lo up. induction pre as [|c pre IH]; intros i lo up Hi Hlen Hpre; cbn.
  - cbn in Hlen. rewrite (proj2 (Z.eqb_neq i 0)) by lia. cbn. rewrite Z.add_0_r, !orb_false_r. done.
  - cbn in Hpre. unfold is_letter in Hpre at 1.
    replace (i + Z.of_nat (S (length pre))) with (i + 1 + Z.of_nat (length pre)) by lia.
    by_class c; cbn in *; try done; rewrite IH by (lia || done); unfold flags; cbn; by rewrite ?orb_true_r.
Qed.

Lemma scan_prefix_inv i lo up s r :
  0 ≤ i → scan i lo up 0 s = Val r → r.2 ≠ 0 →
  ∃ pre rest, s = pre ++ 58 :: rest ∧ forallb is_letter pre = true ∧ forallb is_alnum rest = true ∧
    r = (flags lo up (pre ++ rest), i + Z.of_nat (length pre)).
Proof.
  revert i lo up. induction s as [|c s IH]; intros i lo up Hi; cbn.
  - intros [= <-] H. done.
  - intros Hs Hr.
    assert (Hcons : ∀ lo' up', scan (i + 1) lo' up' 0 s = Val r → is_letter c = true →
      (lo', up') = (lo || is_lower c, up || is_upper c) →
      ∃ pre rest, c :: s = pre ++ 58 :: rest ∧ forallb is_letter pre = true ∧ forallb is_alnum rest = true ∧
        r = (flags lo up (pre ++ rest), i + Z.of_nat (length pre))).
    { intros lo' up' Hs' Hc [= -> ->]. destruct (IH (i + 1) _ _ ltac:(lia) Hs' Hr) as (pre & rest & -> & Hp & Hre & ->).
      exists (c :: pre), rest. cbn. rewrite Hc, Hp. split_and!; [done..|].
      unfold flags. cbn. rewrite !orb_assoc. f_equal. lia. }
    unfold is_letter in Hcons. by_class c; [by eapply Hcons..|done|].
    destruct (Z.eqb_spec c 58) as [->|]; [|done].
    destruct (Z.eqb_spec i 0); cbn in Hs; [done|].
    apply scan_rest in Hs as [Ha ->]; [|done]. exists [], s. rewrite Z.add_0_r. done.
Qed.

(** ** Encoding and decoding words *)

Lemma CreateChecksum_is5 prefix payload : Forall is5 (CreateChecksum prefix payload).
Proof.
  apply Forall_map, Forall_true. intros x.
  rewrite uint8_id by (apply is5_byte, is5_land). apply is5_land.
Qed.

Lemma length_CreateChecksum prefix payload : length (CreateChecksum prefix payload) = 8%nat.
Proof. done. Qed.

Lemma encoded_is5 prefix payload :
  Forall is5 payload → Forall is5 (payload ++ CreateChecksum prefix payload).
Proof. intros H. apply Forall_app. split; [done|apply CreateChecksum_is5]. Qed.

Lemma Encode_ok prefix payload :
  Forall is5 payload →
  Encode prefix payload = Val (of_bytes (map charset (payload ++ CreateChecksum prefix payload))).
Proof. intros H. unfold Encode, Cat. by rewrite encode_symbols_ok by by apply encoded_is5. Qed.

(** A prefix the decoder gives back: a nonempty string of lower-case letters. *)
Definition prefix_ok (prefix : string) : Prop :=
  forallb is_lower (bytes prefix) = true ∧ prefix ≠ "".

Lemma map_charset_alnum l : Forall is5 l → forallb is_lower_alnum (map charset l) = true.
Proof.
  induction 1 as [|x l Hx Hl IH]; [done|]. cbn. rewrite IH.
  by destruct (charset_spec x Hx) as (_ & -> & _).
Qed.

Lemma lower_no_upper (P : Z → bool) l :
  (∀ c, P c = true → is_upper c = false) → forallb P l = true → existsb is_upper l = false.
Proof.
  intros HP. induction l as [|c l IH]; [done|]. cbn. intros [H1 H2]%andb_true_iff.
  by rewrite (HP c H1), IH.
Qed.

Lemma forallb_mono (P Q : Z → bool) l :
  (∀ c, P c = true → Q c = true) → forallb P l = true → forallb Q l = true.
Proof.
  intros H. induction l as [|c l IH]; [done|]. cbn. intros [H1 H2]%andb_true_iff.
  by rewrite (H c H1), IH.
Qed.

Lemma lower_prefix_bytes l :
  forallb is_letter l = true → Forall is_byte l →
  flat_map (fun c => string_of_byte (LowerCase c)) l = map lower_byte l.
Proof.
  intros Hl Hb. induction Hb as [|c l Hc Hb IH]; [done|]. cbn in *.
  apply andb_true_iff in Hl as [H1 H2]. unfold is_byte in Hc.
  destruct (LowerCase_letter c) as [-> ?]; [lia|done|].
  rewrite string_of_byte_ascii by done. cbn. by rewrite IH.
Qed.

Lemma lower_byte_id c : is_upper c = false → lower_byte c = c.
Proof. unfold lower_byte, is_upper, between. by intros ->. Qed.

Lemma map_lower_id l : existsb is_upper l = false → map lower_byte l = l.
Proof.
  induction l as [|c l IH]; [done|]. cbn. intros [H1 H2]%orb_false_iff.
  by rewrite lower_byte_id, IH.
Qed.

Lemma is_lower_upper c : is_lower c = true → is_upper c = false.
Proof. unfold is_lower, is_upper, between. intros [? ?]%andb_true_iff. lia. Qed.

Lemma of_bytes_charset_bytes l : Forall is5 l → bytes (of_bytes (map charset l)) = map charset l.
Proof.
  intros H. apply bytes_of_bytes. apply Forall_map. eapply Forall_impl; [|exact H].
  intros x Hx. destruct (charset_spec x Hx) as (_ & Ha & _). apply lower_alnum_range in Ha.
  unfold is_byte. cbn. lia.
Qed.

(** What the decoder does with a well-formed prefix and a string of character
    set symbols: it accepts exactly the verified words. *)
Lemma DecodeCashAddress_word prefix v :
  prefix_ok prefix → Forall is5 v →
  DecodeCashAddress (prefix ++ ":" ++ of_bytes (map charset v)) =
    if negb (VerifyChecksum prefix v) then Err ErrChecksumMismatch
    else if Z.of_nat (length v) <? 8 then Panic SliceBounds
    else Val (prefix, take (length v - 8) v).
Proof.
  intros [Hp Hne] Hv. unfold DecodeCashAddress.
  rewrite !bytes_app, of_bytes_charset_bytes by done. change (bytes ":") with [58]. cbn [app].
  assert (Hlen : 0 < Z.of_nat (length (bytes prefix))).
  { rewrite length_bytes. destruct prefix; [done|]. cbn. lia. }
  assert (Hlet : forallb is_letter (bytes prefix) = true).
  { eapply forallb_mono; [|exact Hp]. intros c Hc. unfold is_letter. by rewrite Hc. }
  pose proof (map_charset_alnum v Hv) as Hal.
  assert (Hup : existsb is_upper (bytes prefix) = false) by (eapply lower_no_upper; [apply is_lower_upper|done]).
  rewrite scan_prefix_ok by (done || lia). rewrite Z.add_0_l.
  assert (Hps : Z.of_nat (length (bytes prefix)) ≠ 0) by lia.
  rewrite scan_rest_ok; [|done|]; cycle 1.
  { eapply forallb_mono; [|exact Hal].
    intros c. unfold is_alnum, is_lower_alnum, is_letter. by intros [->| ->]%orb_true_iff; rewrite ?orb_true_r. }
  unfold flags. cbn [fst snd]. rewrite Hup.
  rewrite (lower_no_upper is_lower_alnum (map charset v)) by (done || (intros c Hc; by apply lower_alnum_range in Hc as (_ & _ & ?))).
  cbn [orb andb mbind gores_bind fst snd].
  rewrite (proj2 (Z.eqb_neq _ 0)) by lia. cbn [orb andb].
  rewrite Z2Nat.inj_add, !Nat2Z.id, take_app_length by lia.
  rewrite lower_prefix_bytes, map_lower_id, of_bytes_bytes by (done || apply bytes_is_byte).
  change (Z.to_nat 1) with 1%nat.
  rewrite <-drop_drop, drop_app_length. cbn [skipn].
  by rewrite drop_0, decode_values_ok.
Qed.

Lemma DecodeCashAddress_Encode prefix payload enc :
  prefix_ok prefix → Forall is5 payload → Encode prefix payload = Val enc →
  DecodeCashAddress (prefix ++ ":" ++ enc) = Val (prefix, payload).
Proof.
  intros Hp Hv. rewrite Encode_ok by done. intros [= <-].
  rewrite DecodeCashAddress_word by (done || by apply encoded_is5).
  rewrite CreateChecksum_verifies by by apply Forall_is5_byte.
  rewrite length_app, length_CreateChecksum. cbn [negb].
  rewrite (proj2 (Z.ltb_ge _ 8)) by lia.
  by rewrite Nat.add_sub, take_app_length.
Qed.

(** Eight symbols after the payload verify only if they are its checksum. *)
Lemma checksum_unique prefix payload cs :
  Forall is5 payload → Forall is5 cs → length cs = 8%nat →
  VerifyChecksum prefix (payload ++ cs) = true → cs = CreateChecksum prefix payload.
Proof.
  intros Hp Hcs Hlen HV.
  apply (checksum_window prefix payload cs (CreateChecksum prefix payload) []);
    rewrite ?app_nil_r; try done; try lia.
  - apply CreateChecksum_is5.
  - apply CreateChecksum_verifies. by apply Forall_is5_byte.
Qed.

Lemma existsb_app_false (P : Z → bool) l k :
  existsb P (l ++ k) = false ↔ existsb P l = false ∧ existsb P k = false.
Proof. rewrite existsb_app. apply orb_false_iff. Qed.

Lemma no_lower_letters l : existsb is_lower l = false → map upper_byte l = l.
Proof.
  induction l as [|c l IH]; [done|]. cbn. intros [H1 H2]%orb_false_iff. rewrite IH by done.
  f_equal. unfold upper_byte. unfold is_lower, between in H1. by rewrite H1.
Qed.

Lemma letter_lower c : is_letter c = true → is_lower (lower_byte c) = true.
Proof.
  unfold is_letter, lower_byte, is_lower, is_upper, between. intros H.
  destruct ((65 <=? c) && (c <=? 90)) eqn:E; [|by rewrite orb_false_r in H].
  apply andb_true_iff in E. apply andb_true_iff. lia.
Qed.

Lemma lower_byte_byte c : is_byte c → is_byte (lower_byte c).
Proof.
  unfold is_byte, lower_byte. intros H. destruct ((65 <=? c) && (c <=? 90)) eqn:E; [|done].
  apply andb_true_iff in E. lia.
Qed.

(** A decoded string is, up to case, the encoding of what was decoded. *)
Lemma DecodeCashAddress_inv s prefix payload :
  DecodeCashAddress s = Val (prefix, payload) →
  prefix_ok prefix ∧ Forall is5 payload ∧
  (∃ enc, Encode prefix payload = Val enc ∧ ToLower s = (prefix ++ ":" ++ enc)%string) ∧
  (ToLower s = s ∨ ToUpper s = s).
Proof.
  unfold DecodeCashAddress. intros ([[lo up] ps] & Hscan & H)%bind_Val.
  destruct (Z.eqb_spec ps 0) as [|Hps]; [done|].
  destruct (up && lo) eqn:Hul; [done|]. apply bind_Val in H as (v & Hv & H).
  apply scan_prefix_inv in Hscan as (pre & rest & Hs & Hpre & Hrest & Hr); [|lia|done].
  assert (Hb := bytes_is_byte s). rewrite Hs in Hb.
  apply Forall_app in Hb as [Hbp Hbr]. apply list.Forall_cons in Hbr as [_ Hbr].
  rewrite Z.add_0_l in Hr. injection Hr as Hlo Hup ->.
  rewrite Hs, Z2Nat.inj_add, Nat2Z.id, <-drop_drop, drop_app_length in Hv by lia.
  cbn [skipn] in Hv. change (Z.to_nat 1) with 1%nat in Hv. cbn [skipn] in Hv. rewrite ?drop_0 in Hv.
  destruct (decode_values_inv _ _ Hbr Hv) as [Hv5 Hmap].
  rewrite Hs, Nat2Z.id, take_app_length, lower_prefix_bytes in H by done.
  set (pfx := of_bytes (map lower_byte pre)) in *.
  destruct (VerifyChecksum pfx v) eqn:HV; [|done]. cbn in H.
  destruct (Z.ltb_spec (Z.of_nat (length v)) 8) as [|H8]; [done|]. injection H as <- <-.
  assert (Hbl : Forall is_byte (map lower_byte pre)).
  { apply Forall_map. eapply Forall_impl; [|exact Hbp]. apply lower_byte_byte. }
  pose proof (take_drop (length v - 8) v) as Htd.
  assert (H5 : Forall is5 (take (length v - 8) v) ∧ Forall is5 (drop (length v - 8) v)).
  { split; [by apply Forall_take|by apply Forall_drop]. }
  destruct H5 as [H5 H5'].
  rewrite <-Htd in HV. apply checksum_unique in HV; [|done..|rewrite length_drop; lia].
  split_and!.
  - split; [|destruct pre; [done|discriminate]].
    unfold pfx. rewrite bytes_of_bytes by done. clear -Hpre.
    induction pre as [|c pre IH]; [done|]. cbn in *. apply andb_true_iff in Hpre as [? ?].
    by rewrite letter_lower, IH.
  - done.
  - eexists. split; [by apply Encode_ok|]. rewrite <-HV, Htd, Hmap.
    unfold ToLower, pfx. rewrite Hs, map_app. cbn. by rewrite of_bytes_app.
  - unfold ToLower, ToUpper. destruct up; [right|left].
    + cbn in Hul. subst lo. cbn in Hul. apply existsb_app_false in Hul as [Hl1 Hl2].
      rewrite <-(of_bytes_bytes s) at 2. f_equal. rewrite Hs, no_lower_letters; [done|].
      apply existsb_app_false. by split; [|cbn].
    + symmetry in Hup. cbn in Hup. apply existsb_app_false in Hup as [Hl1 Hl2].
      rewrite <-(of_bytes_bytes s) at 2. f_equal. rewrite Hs, map_lower_id; [done|].
      apply existsb_app_false. by split; [|cbn].
Qed.

Lemma lower_no_colon l : forallb is_lower l = true → 58 ∉ l.
Proof. rewrite forallb_forall. intros H Hin%list_elem_of_In%H. done. Qed.

Lemma split_at_colon (l l' r r' : list Z) :
  58 ∉ l → 58 ∉ l' → l ++ [58] ++ r = l' ++ [58] ++ r' → l = l' ∧ r = r'.
Proof.
  revert l'. induction l as [|c l IH]; intros [|c' l'] H H'; cbn; intros Heq.
  - by injection Heq.
  - injection Heq as Hc _. by apply not_elem_of_cons in H' as [? _].
  - injection Heq as Hc _. by apply not_elem_of_cons in H as [? _].
  - injection Heq as Hc Ht. apply not_elem_of_cons in H as [_ H], H' as [_ H'].
    destruct (IH l') as [-> ->]; [done..|]. by subst.
Qed.

(** A string that starts with a well-formed lower-case prefix decodes only if
    the rest is exactly an encoding under that prefix. *)
Lemma DecodeCashAddress_exact pre rest prefix q :
  prefix_ok pre → DecodeCashAddress (pre ++ ":" ++ rest) = Val (prefix, q) →
  prefix = pre ∧ Encode pre q = Val rest.
Proof.
  intros Hok Hdec. apply DecodeCashAddress_inv in Hdec as (Hok' & H5 & (enc & Henc & Hlow) & Hcase).
  assert (Hs : ToLower (pre ++ ":" ++ rest) = (pre ++ ":" ++ rest)%string).
  { destruct Hcase as [|Hup]; [done|]. exfalso. destruct Hok as [Hl Hne].
    destruct pre as [|a pre]; [done|]. apply (f_equal bytes) in Hup. revert Hup.
    unfold ToUpper. rewrite bytes_of_bytes by (apply Forall_map, Forall_upper_byte, bytes_is_byte).
    rewrite append_cons. cbn. intros [= Ha _]. cbn in Hl. apply andb_true_iff in Hl as [Hl _].
    unfold upper_byte in Ha. unfold is_lower, between in Hl. rewrite Hl in Ha. lia. }
  rewrite Hs in Hlow. apply (f_equal bytes) in Hlow. rewrite !bytes_app in Hlow.
  apply (split_at_colon (bytes pre)) in Hlow as [Hp Hr]; [|apply lower_no_colon, Hok|apply lower_no_colon, Hok'].
  apply bytes_inj in Hp, Hr. by subst.
Qed.

(** ** Addresses of 20-byte hashes *)

Definition hash_ok (hash : data) : Prop := length hash = 20%nat ∧ Forall is_byte hash.

Lemma packAddressData_ok t hash :
  t = P2PKH ∨ t = P2SH → hash_ok hash →
  ∃ q, packAddressData t hash = Val q ∧ Forall is5 q ∧ length q = 34%nat ∧
    convertBits q 5 8 false = Val (8 * t :: hash).
Proof.
  intros Ht [Hlen Hb]. unfold packAddressData. rewrite Hlen.
  assert (Hd : Forall is_byte (8 * t :: hash)).
  { constructor; [|done]. unfold is_byte, P2PKH, P2SH in *. lia. }
  destruct (convertBits_pad 8 5 ltac:(lia) ltac:(lia) _ Hd) as (q & k & Hq & Hs & Hk & Hl & _).
  exists q. cbn [length] in Hl. rewrite Hlen in Hl.
  split_and!; [by destruct Ht as [-> | ->]|done|lia|].
  by apply (convertBits_pad_nopad 8 5 (8 * t :: hash)).
Qed.

Lemma CheckDecode_Encode prefix t hash q enc :
  prefix_ok prefix → t = P2PKH ∨ t = P2SH → hash_ok hash →
  Forall is5 q → convertBits q 5 8 false = Val (8 * t :: hash) → Encode prefix q = Val enc →
  CheckDecodeCashAddress (prefix ++ ":" ++ enc) = Val (hash, prefix, t).
Proof.
  intros Hp Ht [Hlen Hb] Hq Hc Henc. unfold CheckDecodeCashAddress.
  rewrite (DecodeCashAddress_Encode _ q) by done. cbn [mbind gores_bind]. rewrite Hc.
  cbn [mbind gores_bind length]. rewrite Hlen. by destruct Ht as [-> | ->].
Qed.

Section nets.
Context {cfg : Chaincfg}.

Lemma Prefixes_inv n pre :
  Prefixes !! n = Some pre → pre = "bitcoincash" ∨ pre = "bchtest" ∨ pre = "bchreg".
Proof.
  unfold Prefixes. rewrite !lookup_insert_Some, lookup_empty.
  intros [[_ <-]|[_ [[_ <-]|[_ [[_ <-]|[_ [=]]]]]]]; auto.
Qed.

Lemma Prefixes_ok n pre : Prefixes !! n = Some pre → prefix_ok pre ∧ (String.length pre ≤ 11)%nat.
Proof.
  intros [-> |[-> | ->]]%Prefixes_inv; (split; [|cbn; lia]); split; [vm_compute; done|discriminate| | | |];
    try (vm_compute; done); discriminate.
Qed.

(** The string [DecodeAddress] passes on once the network prefix is in place. *)
Definition qualify (pre addr : string) : string :=
  let n := (String.length pre + 1)%nat in
  if (n <=? String.length addr)%nat && negb (bool_decide (take n (bytes addr) = bytes (pre ++ ":")))
  then (pre ++ ":" ++ addr)%string else addr.

Lemma qualify_prefixed pre s : qualify pre (pre ++ ":" ++ s) = (pre ++ ":" ++ s)%string.
Proof.
  unfold qualify. rewrite bool_decide_true; [by rewrite andb_false_r|].
  rewrite !bytes_app, app_assoc. apply take_app_length'.
  rewrite length_app, length_bytes. cbn. lia.
Qed.

Lemma qualify_bare pre enc :
  (String.length pre + 1 ≤ String.length enc)%nat → 58 ∉ bytes enc →
  qualify pre enc = (pre ++ ":" ++ enc)%string.
Proof.
  intros Hlen H58. unfold qualify. rewrite (proj2 (Nat.leb_le _ _)) by done.
  rewrite bool_decide_false; [done|]. intros Heq. apply H58.
  apply (subseteq_take (String.length pre + 1) (bytes enc)). rewrite Heq, bytes_app. set_solver.
Qed.

Lemma encoded_no_colon q : Forall is5 q → 58 ∉ bytes (of_bytes (map charset q)).
Proof.
  intros Hq. rewrite of_bytes_charset_bytes by done.
  intros (x & Hx & Hin)%list_elem_of_fmap. rewrite list.Forall_forall in Hq.
  destruct (charset_spec x (Hq x Hin)) as (_ & Ha & _). apply lower_alnum_range in Ha. lia.
Qed.

Lemma length_of_bytes l : String.length (of_bytes l) = length l.
Proof. induction l; cbn; congruence. Qed.

Lemma DecodeAddress_qualified net pre addr t hash :
  Prefixes !! Name net = Some pre → t = P2PKH ∨ t = P2SH → hash_ok hash →
  CheckDecodeCashAddress (qualify pre addr) = Val (hash, pre, t) →
  DecodeAddress addr net =
    Val (if t =? P2PKH then CashAddressPubKeyHash hash pre else CashAddressScriptHash hash pre).
Proof.
  intros Hpre Ht [Hlen _] Hd. unfold DecodeAddress. rewrite Hpre. fold (qualify pre addr).
  rewrite Hd, Hlen. destruct Ht as [-> | ->]; cbn;
    unfold newCashAddressPubKeyHash, newCashAddressScriptHashFromHash; by rewrite Hlen, Hpre.
Qed.

Lemma encodeCashAddress_ok pre t hash :
  prefix_ok pre → t = P2PKH ∨ t = P2SH → hash_ok hash →
  ∃ q enc, encodeCashAddress hash pre t = Val enc ∧ Forall is5 q ∧
    convertBits q 5 8 false = Val (8 * t :: hash) ∧
    Encode pre q = Val enc ∧ String.length enc = 42%nat ∧ 58 ∉ bytes enc.
Proof.
  intros Hp Ht Hh. destruct (packAddressData_ok t hash Ht Hh) as (q & Hq & H5 & Hlen & Hc).
  destruct Hh as [Hl _]. unfold encodeCashAddress, CheckEncodeCashAddress.
  rewrite Hl. change (Z.to_nat ripemd160_Size) with 20%nat. rewrite take_ge by lia. cbn. rewrite Hq.
  pose proof (encoded_is5 pre q H5) as He. eexists q, _. rewrite Encode_ok by done.
  split_and!; try done; [|by apply encoded_no_colon].
  rewrite length_of_bytes, length_map, length_app, Hlen. done.
Qed.

Lemma scan_returned i lo up ps s : returned (scan i lo up ps s).
Proof.
  revert i lo up ps. induction s as [|c s IH]; intros i lo up ps; cbn; [done|].
  repeat case_match; done || apply IH.
Qed.

Lemma decode_values_returned s : returned (decode_values s).
Proof.
  induction s as [|c s IH]; cbn [decode_values]; [done|]. case_match; [done|].
  by destruct (decode_values s).
Qed.

(** No word of fewer than eight symbols verifies under a registered prefix. *)
Definition short_word_fails (pre : string) (n : nat) : bool :=
  2 ^ (5 * Z.of_nat n) <=? Z.lxor (run (run 1 (ExpandPrefix pre)) (replicate n 0)) 1.

Lemma short_words pre v :
  forallb (short_word_fails pre) (seq 0 8) = true → Forall is5 v →
  VerifyChecksum pre v = true → (8 ≤ length v)%nat.
Proof.
  intros Hf Hv HV. destruct (decide (8 ≤ length v)%nat) as [|Hs]; [done|]. exfalso.
  rewrite forallb_forall in Hf. specialize (Hf (length v) ltac:(apply in_seq; lia)).
  unfold short_word_fails in Hf. apply Z.leb_le in Hf.
  apply Z.eqb_eq, PolyMod_zero_iff in HV. unfold Cat in HV. rewrite run_app, run_zeros_xor in HV; [|..|lia].
  - pose proof (be_val_bound 5 v ltac:(lia) Hv) as Hb.
    set (R := run _ (replicate _ _)) in *. clearbody R.
    rewrite <-HV, <-Z.lxor_assoc, Z.lxor_nilpotent, Z.lxor_0_l in Hf. lia.
  - apply run_reg; [unfold is_reg; lia|apply Forall_is5_byte, ExpandPrefix_is5].
  - done.
Qed.

Lemma registered_short_words n pre :
  Prefixes !! n = Some pre → forallb (short_word_fails pre) (seq 0 8) = true.
Proof. intros [-> |[-> | ->]]%Prefixes_inv; vm_compute; reflexivity. Qed.

Lemma DecodeCashAddress_prefixed_returned n pre rest :
  Prefixes !! n = Some pre → returned (DecodeCashAddress (pre ++ ":" ++ rest)).
Proof.
  intros Hpre. destruct (Prefixes_ok _ _ Hpre) as [[Hlow Hne] _].
  assert (Hlet : forallb is_letter (bytes pre) = true).
  { eapply forallb_mono; [|exact Hlow]. intros c Hc. unfold is_letter. by rewrite Hc. }
  assert (Hlen : 0 < Z.of_nat (length (bytes pre))).
  { rewrite length_bytes. destruct pre; [done|]. cbn. lia. }
  assert (Hup : existsb is_upper (bytes pre) = false) by (eapply lower_no_upper; [apply is_lower_upper|done]).
  unfold DecodeCashAddress. rewrite !bytes_app. change (bytes ":") with [58]. cbn [app].
  rewrite scan_prefix_ok, Z.add_0_l by (done || lia).
  pose proof (scan_returned (Z.of_nat (length (bytes pre)) + 1) (flags false false (bytes pre)).1
    (flags false false (bytes pre)).2 (Z.of_nat (length (bytes pre))) (bytes rest)) as Hr.
  destruct (scan _ _ _ _ _) as [r|e|p|e] eqn:Hs; [|done..].
  apply scan_rest in Hs as [_ ->]; [|lia]. cbn [mbind gores_bind flags].
  rewrite (proj2 (Z.eqb_neq _ 0)) by lia. case_match; [done|].
  rewrite Nat2Z.id, take_app_length, lower_prefix_bytes, map_lower_id, of_bytes_bytes
    by (done || apply bytes_is_byte).
  pose proof (decode_values_returned (drop (Z.to_nat (Z.of_nat (length (bytes pre)) + 1)) (bytes pre ++ 58 :: bytes rest))) as Hd.
  destruct (decode_values _) as [v|e|p|e] eqn:Hv; [|done..]. cbn [mbind gores_bind].
  apply decode_values_inv in Hv as [H5 _].
  2:{ apply Forall_drop, Forall_app. split; [|constructor; [unfold is_byte; lia|]]; apply bytes_is_byte. }
  destruct (VerifyChecksum pre v) eqn:HV; cbn; [|done].
  apply short_words in HV; [|by eapply registered_short_words|done].
  by rewrite (proj2 (Z.ltb_ge _ 8)) by lia.
Qed.

Lemma convertBits_returned p f t pad : returned (convertBits p f t pad).
Proof.
  unfold convertBits. destruct (fold_left _ _ _) as [[acc bits] ret]. by repeat case_match.
Qed.

Lemma qualify_long pre addr :
  (String.length pre + 1 ≤ String.length addr)%nat →
  ∃ rest, qualify pre addr = (pre ++ ":" ++ rest)%string ∧
          (addr = rest ∨ addr = (pre ++ ":" ++ rest)%string).
Proof.
  intros Hlen. unfold qualify. rewrite (proj2 (Nat.leb_le _ _)) by done.
  destruct (bool_decide _) eqn:Hd; cbn; [|by eauto].
  apply bool_decide_eq_true in Hd. exists (of_bytes (drop (String.length pre + 1) (bytes addr))).
  assert (addr = (pre ++ ":" ++ of_bytes (drop (String.length pre + 1) (bytes addr)))%string) as <-; [|by auto].
  apply bytes_inj. rewrite bytes_app, bytes_app, bytes_of_bytes by (apply Forall_drop, bytes_is_byte).
  by rewrite app_assoc, <-bytes_app, <-Hd, take_drop.
Qed.

Lemma CheckDecode_inv s hash prefix t :
  CheckDecodeCashAddress s = Val (hash, prefix, t) →
  ∃ q version, DecodeCashAddress s = Val (prefix, q) ∧ convertBits (version :: hash) 8 5 true = Val q ∧ is_byte version ∧
    hash_ok hash ∧ (t = P2SH ↔ version = 8) ∧ (t = P2PKH ↔ version ≠ 8).
Proof.
  unfold CheckDecodeCashAddress. intros ([pfx q] & Hdec & H)%bind_Val.
  apply bind_Val in H as (d & Hd & H). destruct d as [|version d]; [done|].
  destruct (length (version :: d) =? 21)%nat eqn:Hlen; [|done]. cbn in H. injection H as <- <- <-.
  apply DecodeCashAddress_inv in Hdec as Hinv. destruct Hinv as (_ & H5 & _).
  apply (convertBits_nopad_pad 8 5) in Hd as [Hb Hpad]; [|lia..|done].
  apply list.Forall_cons in Hb as [Hv Hb]. apply Nat.eqb_eq in Hlen. cbn in Hlen.
  exists q, version. unfold hash_ok, P2SH, P2PKH. split_and!; [done|done|done|lia|done|..].
  - destruct (Z.eqb_spec version 0), (Z.eqb_spec version 8); lia.
  - destruct (Z.eqb_spec version 0), (Z.eqb_spec version 8); lia.
Qed.

(** ** Properties *)

(** C7. Every address of a registered network with a 20-byte hash has a
    42-character text form, and decoding that text, with or without the
    network prefix and its colon, gives back the same address: same type, same
    hash, same network. *)
Theorem DecodeAddress_EncodeAddress (net : Params) pre (a : Address) :
  Prefixes !! Name net = Some pre → address_prefix a = pre → hash_ok (ScriptAddress a) →
  ∃ s, EncodeAddress a = Val s ∧ String.length s = 42%nat ∧
       DecodeAddress s net = Val a ∧ DecodeAddress (pre ++ ":" ++ s) net = Val a.
Proof.
  intros Hpre Ha Hh. destruct (Prefixes_ok _ _ Hpre) as [Hok Hlen].
  set (t := match a with CashAddressPubKeyHash _ _ => P2PKH | _ => P2SH end).
  assert (Ht : t = P2PKH ∨ t = P2SH) by (destruct a; auto).
  destruct (encodeCashAddress_ok pre t _ Hok Ht Hh) as (q & enc & He & H5 & Hc & Henc & Hl & H58).
  pose proof (CheckDecode_Encode pre t _ q enc Hok Ht Hh H5 Hc Henc) as Hd.
  exists enc. split_and!; [by destruct a; cbn in *; subst|done|..];
    rewrite (DecodeAddress_qualified net pre _ t (ScriptAddress a)); try done;
    try (by destruct a; cbn in *; subst).
  - rewrite qualify_bare; [done|lia|done].
  - by rewrite qualify_prefixed.
Qed.

(** The encoding of a version byte and a hash is that of the address of type [t]
    exactly when the version is that of the type. *)
Lemma encoding_of_version pre t hash version q enc :
  prefix_ok pre → t = P2PKH ∨ t = P2SH → hash_ok hash → is_byte version →
  convertBits (version :: hash) 8 5 true = Val q → Forall is5 q → Encode pre q = Val enc →
  encodeCashAddress hash pre t = Val enc ↔ version = 8 * t.
Proof.
  intros Hp Ht Hh Hv Hc H5 He. destruct (encodeCashAddress_ok pre t hash Hp Ht Hh) as (q' & enc' & -> & H5' & Hc' & He' & _).
  split.
  - intros [= ->]. pose proof (DecodeCashAddress_Encode pre q enc Hp H5 He) as Hd.
    rewrite (DecodeCashAddress_Encode pre q' enc Hp H5' He') in Hd. injection Hd as ->.
    apply (convertBits_pad_nopad 8 5) in Hc; [|lia..|constructor; [done|apply Hh]]. rewrite Hc in Hc'. by injection Hc'.
  - intros ->. apply (convertBits_nopad_pad 8 5) in Hc' as [_ Hc']; [|lia..|done]. rewrite Hc in Hc'. injection Hc' as ->. congruence.
Qed.

(** C35. What [DecodeAddress] accepts: when it returns an address for a string
    longer than the prefix, that string is exactly (case included) the encoding,
    bare or with the network prefix, of a version byte followed by the address's
    20-byte hash.  The address is a script hash when the version byte is 8 and a
    public key hash otherwise.  For the versions 0 and 8 the string is what
    [EncodeAddress] gives for the address; for any other version, which the code
    does not refuse, it is not. *)
Theorem DecodeAddress_sound (net : Params) pre addr (a : Address) :
  Prefixes !! Name net = Some pre → (String.length pre < String.length addr)%nat →
  DecodeAddress addr net = Val a →
  ∃ version q enc, is_byte version ∧ convertBits (version :: ScriptAddress a) 8 5 true = Val q ∧ Encode pre q = Val enc ∧
    (addr = enc ∨ addr = (pre ++ ":" ++ enc)%string) ∧
    hash_ok (ScriptAddress a) ∧ address_prefix a = pre ∧
    ((∃ h p, a = CashAddressScriptHash h p) ↔ version = 8) ∧
    (EncodeAddress a = Val enc ↔ version = 0 ∨ version = 8).
Proof.
  intros Hpre Hlen. unfold DecodeAddress. rewrite Hpre. fold (qualify pre addr).
  destruct (qualify_long pre addr ltac:(lia)) as (rest & Hq & Haddr). rewrite Hq.
  destruct (CheckDecodeCashAddress _) as [[[hash pfx] t]|e|p|e] eqn:Hd; [|by case_match|done..].
  apply CheckDecode_inv in Hd as (q & version & Hdec & Hpad & Hv & Hh & Hsh & Hpk).
  destruct (Prefixes_ok _ _ Hpre) as [Hok _]. apply DecodeCashAddress_inv in Hdec as Hinv. destruct Hinv as (_ & H5 & _).
  destruct (DecodeCashAddress_exact pre rest pfx q Hok Hdec) as [-> Henc].
  destruct (Z.eqb_spec (Z.of_nat (length hash)) ripemd160_Size) as [Hl|]; [|done].
  unfold newCashAddressPubKeyHash, newCashAddressScriptHashFromHash. rewrite Hl, Hpre. cbn.
  destruct (Z.eqb_spec t P2PKH) as [Et|Et]; [|destruct (Z.eqb_spec t P2SH) as [Et'|]; [|done]];
    intros [= <-]; exists version, q, rest; (split_and!; try done).
  - apply Hpk in Et. split; [by intros (? & ? & [=])|done].
  - apply Hpk in Et. cbn [EncodeAddress]. rewrite (encoding_of_version pre P2PKH hash version q rest) by (done || by left).
    unfold P2PKH. lia.
  - apply Hsh in Et'. split; [done|by eauto].
  - apply Hsh in Et'. cbn [EncodeAddress]. rewrite (encoding_of_version pre P2SH hash version q rest) by (done || by right).
    unfold P2SH. lia.
Qed.

(** [DecodeAddress] never panics on a string longer than the network
    prefix, whatever its bytes. *)
Lemma DecodeAddress_returns (net : Params) pre addr :
  Prefixes !! Name net = Some pre → (String.length pre < String.length addr)%nat →
  returned (DecodeAddress addr net).
Proof.
  intros Hpre Hlen. unfold DecodeAddress. rewrite Hpre. fold (qualify pre addr).
  destruct (qualify_long pre addr ltac:(lia)) as (rest & -> & _).
  pose proof (DecodeCashAddress_prefixed_returned _ _ rest Hpre) as Hr.
  unfold CheckDecodeCashAddress.
  destruct (DecodeCashAddress _) as [[pfx q]|e|p|e]; [|by cbn; case_match|done..]. cbn [mbind gores_bind].
  pose proof (convertBits_returned q 5 8 false) as Hc.
  destruct (convertBits _ _ _ _) as [d|e|p|e]; [|by cbn; case_match|done..].
  unfold newCashAddressPubKeyHash, newCashAddressScriptHashFromHash.
  destruct d; cbn; repeat case_match; done.
Qed.

End nets.

(** ** Witnesses on the network names of chaincfg *)

Definition btcd_chaincfg : Chaincfg := {|
  MainNetParams := {| Name := "mainnet" |};
  TestNet3Params := {| Name := "testnet3" |};
  RegressionNetParams := {| Name := "regtest" |};
|}.

(** The hash of the repository's test vectors. *)
Definition dataElement : data :=
  [203; 72; 18; 50; 41; 156; 213; 116; 49; 81; 172; 75; 45; 99; 174; 25; 142; 123; 176; 169].

Lemma dataElement_ok : hash_ok dataElement.
Proof. split; [done|closed_ranges]. Qed.

Lemma DecodeAddress_EncodeAddress_witness :
  ∃ s, EncodeAddress (CashAddressScriptHash dataElement "bchtest") = Val s ∧ String.length s = 42%nat ∧
    DecodeAddress (cfg := btcd_chaincfg) s {| Name := "testnet3" |} = Val (CashAddressScriptHash dataElement "bchtest") ∧
    DecodeAddress (cfg := btcd_chaincfg) ("bchtest" ++ ":" ++ s) {| Name := "testnet3" |}
      = Val (CashAddressScriptHash dataElement "bchtest").
Proof.
  apply (DecodeAddress_EncodeAddress (cfg := btcd_chaincfg) {| Name := "testnet3" |} "bchtest"
    (CashAddressScriptHash dataElement "bchtest")); [vm_compute; reflexivity|reflexivity|exact dataElement_ok].
Defined.

Lemma DecodeAddress_sound_witness :
  ∃ version q enc, is_byte version ∧ convertBits (version :: dataElement) 8 5 true = Val q ∧ Encode "bitcoincash" q = Val enc ∧
    ("qr95sy3j9xwd2ap32xkykttr4cvcu7as4y0qverfuy" = enc
     ∨ "qr95sy3j9xwd2ap32xkykttr4cvcu7as4y0qverfuy" = ("bitcoincash" ++ ":" ++ enc)%string) ∧
    hash_ok dataElement ∧ "bitcoincash" = "bitcoincash" ∧
    ((∃ h p, CashAddressPubKeyHash dataElement "bitcoincash" = CashAddressScriptHash h p) ↔ version = 8) ∧
    (EncodeAddress (CashAddressPubKeyHash dataElement "bitcoincash") = Val enc ↔ version = 0 ∨ version = 8).
Proof.
  apply (DecodeAddress_sound (cfg := btcd_chaincfg) {| Name := "mainnet" |} "bitcoincash" _
    (CashAddressPubKeyHash dataElement "bitcoincash"));
    [vm_compute; reflexivity|cbn; lia|vm_compute; reflexivity].
Defined.

(** The bound of [DecodeAddress_returns] is needed: a shorter string keeps a
    prefix of its own, and seven symbols can verify under that prefix, after
    which [values[:len(values)-8]] is out of range. *)
Lemma DecodeAddress_short_panics :
  DecodeAddress (cfg := btcd_chaincfg) "adt:266zlp6" {| Name := "mainnet" |} = Panic SliceBounds.
Proof. vm_compute. reflexivity. Qed.

(** The range check of [packAddressData] admits the encoded size 8, which sets
    the type bit: a 52-byte public key hash is packed under the version byte of
    a script hash. *)
Lemma packAddressData_52_bytes_is_P2SH :
  (q ← packAddressData P2PKH (replicate 52 0); convertBits q 5 8 false) = Val (8 :: replicate 52 0).
Proof. vm_compute. reflexivity. Qed.

(** A version byte other than 0 and 8 is not rejected: it decodes as a public
    key hash, so two strings stand for the same address. *)
Lemma unknown_version_decodes_as_P2PKH :
  (q ← convertBits (16 :: dataElement) 8 5 true;
   enc ← Encode "bitcoincash" q;
   DecodeAddress (cfg := btcd_chaincfg) enc {| Name := "mainnet" |})
  = Val (CashAddressPubKeyHash dataElement "bitcoincash").
Proof. vm_compute. reflexivity. Qed.

(** ** Scripts *)

Section script_properties.
Context {cfg : Chaincfg} {txs : Txscript} {laws : TxscriptLaws}.

Ltac add_op op :=
  match goal with H : Script _ = Val _ |- _ =>
    apply (Script_AddOp _ _ op) in H; [|rewrite ?length_app; cbn; lia]
  end.

Lemma payToPubKeyHashScript_ok hash :
  hash_ok hash → payToPubKeyHashScript hash = Val ([0x76; 0xa9; 0x14] ++ hash ++ [0x88; 0xac]).
Proof.
  intros [Hlen _]. destruct opcodes as (E1 & E2 & E3 & E4 & _). unfold payToPubKeyHashScript.
  pose proof Script_new as H. add_op OP_DUP. add_op OP_HASH160.
  apply (Script_AddData _ _ hash) in H; [|rewrite Hlen; cbn; lia..].
  add_op OP_EQUALVERIFY. add_op OP_CHECKSIG.
  rewrite H, E1, E2, E3, E4, Hlen. f_equal. cbn. by rewrite <-app_assoc.
Qed.

Lemma payToScriptHashScript_ok hash :
  hash_ok hash → payToScriptHashScript hash = Val ([0xa9; 0x14] ++ hash ++ [0x87]).
Proof.
  intros [Hlen _]. destruct opcodes as (_ & E2 & _ & _ & E5). unfold payToScriptHashScript.
  pose proof Script_new as H. add_op OP_HASH160.
  apply (Script_AddData _ _ hash) in H; [|rewrite Hlen; cbn; lia..].
  add_op OP_EQUAL. by rewrite H, E2, E5, Hlen.
Qed.

Lemma lookup_after (pre hash post : data) i :
  length hash = 20%nat → (pre ++ hash ++ post) !! (length pre + 20 + i)%nat = post !! i.
Proof.
  intros Hlen. rewrite !lookup_app_r by lia. f_equal. lia.
Qed.

Lemma Extract_pubkey_script net pre hash :
  Prefixes !! Name net = Some pre → hash_ok hash →
  ExtractPkScriptAddrs ([0x76; 0xa9; 0x14] ++ hash ++ [0x88; 0xac]) net = Val (CashAddressPubKeyHash hash pre).
Proof.
  intros Hpre [Hlen _]. unfold ExtractPkScriptAddrs.
  rewrite !length_app, Hlen, (lookup_after [_; _; _] hash [_; _] 0 Hlen : _ !! 23%nat = _),
    (lookup_after [_; _; _] hash [_; _] 1 Hlen : _ !! 24%nat = _).
  cbn -[firstn]. rewrite ?drop_0, take_app_length' by done.
  unfold NewCashAddressPubKeyHash, newCashAddressPubKeyHash. by rewrite Hlen, Hpre.
Qed.

Lemma Extract_script_script net pre hash :
  Prefixes !! Name net = Some pre → hash_ok hash →
  ExtractPkScriptAddrs ([0xa9; 0x14] ++ hash ++ [0x87]) net = Val (CashAddressScriptHash hash pre).
Proof.
  intros Hpre [Hlen _]. unfold ExtractPkScriptAddrs.
  rewrite !length_app, Hlen, (lookup_after [_; _] hash [_] 0 Hlen : _ !! 22%nat = _).
  cbn -[firstn]. rewrite ?drop_0, take_app_length' by done.
  unfold NewCashAddressScriptHashFromHash, newCashAddressScriptHashFromHash. by rewrite Hlen, Hpre.
Qed.

(** C36. The payment script of an address, read back by
    [ExtractPkScriptAddrs], gives the same address. *)
Theorem ExtractPkScriptAddrs_payscript (net : Params) (a : Address) :
  Prefixes !! Name net = Some (address_prefix a) → hash_ok (ScriptAddress a) →
  ∃ script, cashPayToAddrScript (CashAddr a) = Val script ∧ ExtractPkScriptAddrs script net = Val a.
Proof.
  intros Hpre Hh. destruct a as [hash pre|hash pre]; cbn [address_prefix ScriptAddress cashPayToAddrScript] in *.
  - eexists. split; [by apply payToPubKeyHashScript_ok|]. by apply Extract_pubkey_script.
  - eexists. split; [by apply payToScriptHashScript_ok|]. by apply Extract_script_script.
Qed.

End script_properties.

(** A script builder that satisfies the laws. *)
Definition list_txscript : Txscript := {|
  ScriptBuilder := data;
  NewScriptBuilder := [];
  AddOp b op := b ++ [op];
  AddData b d := b ++ Z.of_nat (length d) :: d;
  Script b := Val b;
  OP_DUP := 0x76; OP_HASH160 := 0xa9; OP_EQUALVERIFY := 0x88; OP_CHECKSIG := 0xac; OP_EQUAL := 0x87;
|}.

Lemma list_txscript_laws : TxscriptLaws (H := list_txscript).
Proof. split; cbn; [done|by intros ? ? ? [= ->]|by intros ? ? ? [= ->]|done]. Qed.

Lemma ExtractPkScriptAddrs_payscript_witness :
  ∃ script, cashPayToAddrScript (txs := list_txscript) (CashAddr (CashAddressPubKeyHash dataElement "bitcoincash"))
      = Val script ∧
    ExtractPkScriptAddrs (cfg := btcd_chaincfg) script {| Name := "mainnet" |}
      = Val (CashAddressPubKeyHash dataElement "bitcoincash").
Proof.
  apply (ExtractPkScriptAddrs_payscript (cfg := btcd_chaincfg) (txs := list_txscript) (laws := list_txscript_laws)).
  - vm_compute. reflexivity.
  - exact dataElement_ok.
Defined.
