(* ===== verification/Convert.v ===== *)
(** * Convert: amounts as text

    src/V2/internal/convert/convert.go: [ToSatoshi] turns the decimal amount of
    a node's JSON into an integer number of satoshis.  [ToUnixTimestamp] is
    [time.Parse] and [ToBTC] a float division; neither is modelled here. *)

From stdpp Require Import base list strings numbers sets.
From Stdlib Require Import ZArith Lia Ascii.
From S2P Require Import Prelude GoStrings.

Local Open Scope Z_scope.

Definition UtxoPrecision : Z := 8.

Definition dot : ascii := ".".

(** [func ToSatoshi(btc string) (int64, error)] *)
Definition ToSatoshi (btc : string) : gores Z :=
  let s := Split dot btc in
  let b := RemoveFirst dot btc in
  val ← match s with
        | _ :: s1 :: _ => zeros ← Repeat "0" (UtxoPrecision - slen s1); Val (b ++ zeros)%string
        | _ => zeros ← Repeat "0" UtxoPrecision; Val (b ++ zeros)%string
        end;
  match ParseInt val with
  | (sats, None) => Val sats
  | (_, Some _) => Err (EWrap "failed to convert btc value: %v, into sats (int64)" (ENew "strconv.ParseInt"))
  end.

(** ** Splitting at the decimal point *)

Definition no_dot (s : string) : Prop := 46 ∉ bytes s.

Lemma bytes_zeros n : bytes (repeat_string n "0") = map (fun d => d + 48) (replicate n 0).
Proof. induction n as [|n IH]; [done|]. cbn [repeat_string]. rewrite bytes_app, IH. done. Qed.

Lemma length_string_of_digits l : slen (string_of_digits l) = Z.of_nat (length l).
Proof. unfold slen, string_of_digits. induction l; [done|]. cbn in *. lia. Qed.

Lemma no_dot_digits l : digits l → no_dot (string_of_digits l).
Proof.
  intros Hl. unfold no_dot. rewrite bytes_string_of_digits by done.
  intros (d & Hd & Hin)%list_elem_of_fmap. unfold digits in Hl. rewrite list.Forall_forall in Hl.
  specialize (Hl d Hin). cbn in Hl. lia.
Qed.

Lemma no_dot_app x y : no_dot x → no_dot y → no_dot (x ++ y).
Proof. unfold no_dot. rewrite bytes_app. by intros Hx Hy [?|?]%elem_of_app. Qed.

Lemma digits_app l k : digits l → digits k → digits (l ++ k).
Proof. intros. by apply Forall_app. Qed.

Lemma digits_zeros n : digits (replicate n 0).
Proof. apply Forall_replicate. lia. Qed.

(** ** Properties *)

(** The text of an amount: an optional sign, the integer digits, and the
    fraction digits behind a point when there is one. *)
Definition amount_text (neg : bool) (ip : list Z) (fp : option (list Z)) : string :=
  ((if neg then "-" else "") ++ string_of_digits ip ++
   match fp with None => "" | Some fp => String dot (string_of_digits fp) end)%string.

(** Its exact value in satoshis. *)
Definition amount_sats (neg : bool) (ip : list Z) (fp : option (list Z)) : Z :=
  let fp := default [] fp in
  let n := dec_val 0 (ip ++ fp) * 10 ^ (8 - Z.of_nat (length fp)) in
  if neg then - n else n.

Lemma ToSatoshi_parse (neg : bool) (ip : list Z) (fp : option (list Z)) :
  digits ip → digits (default [] fp) → (length (default [] fp) ≤ 8)%nat →
  ∃ val, bytes val = (if neg then [45] else []) ++
           map (fun d => d + 48) (ip ++ default [] fp ++ replicate (8 - length (default [] fp)) 0) ∧
    ToSatoshi (amount_text neg ip fp) =
      match ParseInt val with
      | (sats, None) => Val sats
      | (_, Some _) => Err (EWrap "failed to convert btc value: %v, into sats (int64)" (ENew "strconv.ParseInt"))
      end.
Proof.
  intros Hip Hfp Hlen. unfold ToSatoshi, amount_text.
  set (sign := if neg then "-" else "").
  assert (Hsign : no_dot sign ∧ bytes sign = if neg then [45] else []).
  { unfold sign, no_dot. destruct neg; cbn; (split; [|done]).
    - by intros [[=]|[]%not_elem_of_nil]%elem_of_cons.
    - apply not_elem_of_nil. }
  destruct Hsign as [Hsd Hsb].
  pose proof (no_dot_app _ _ Hsd (no_dot_digits _ Hip)) as Hx.
  assert (Hb : ∀ k, bytes (repeat_string (Z.to_nat k) "0") = map (fun d => d + 48) (replicate (Z.to_nat k) 0))
    by (intros; apply bytes_zeros).
  destruct fp as [fp|]; [change (default [] (Some fp)) with fp in *|change (default [] None) with (@nil Z) in *].
  - rewrite append_assoc, Split_app, RemoveFirst_app, (Split_none dot) by (done || by apply no_dot_digits).
    unfold Repeat, UtxoPrecision. rewrite length_string_of_digits, (proj2 (Z.ltb_ge _ 0)) by lia. cbn [mbind gores_bind].
    eexists. split; [|done]. rewrite !bytes_app, Hsb, Hb, !bytes_string_of_digits by done.
    rewrite !map_app, !app_assoc. repeat f_equal. lia.
  - rewrite append_nil_r, Split_none, RemoveFirst_none by done. cbn [mbind gores_bind Repeat].
    eexists. split; [|done]. rewrite !bytes_app, Hsb, !bytes_string_of_digits by done.
    rewrite app_nil_l, map_app, app_assoc. done.
Qed.

(** The conversion of an amount, by its value. *)
Lemma ToSatoshi_value (neg : bool) (ip : list Z) (fp : option (list Z)) :
  digits ip → digits (default [] fp) → ip ++ default [] fp ≠ [] → (length (default [] fp) ≤ 8)%nat →
  (in_int64 (amount_sats neg ip fp) → ToSatoshi (amount_text neg ip fp) = Val (amount_sats neg ip fp)) ∧
  (¬ in_int64 (amount_sats neg ip fp) → ∃ e, ToSatoshi (amount_text neg ip fp) = Err e).
Proof.
  intros Hip Hfp Hne Hlen. destruct (ToSatoshi_parse neg ip fp Hip Hfp Hlen) as (val & Hval & ->).
  set (f := default [] fp) in *.
  assert (Hl : digits (ip ++ f ++ replicate (8 - length f) 0)).
  { rewrite app_assoc. apply digits_app; [by apply digits_app|apply digits_zeros]. }
  assert (Hv : dec_val 0 (ip ++ f ++ replicate (8 - length f) 0)
    = dec_val 0 (ip ++ f) * 10 ^ (8 - Z.of_nat (length f))).
  { rewrite app_assoc, dec_val_app, dec_val_zeros. do 2 f_equal. lia. }
  assert (Hnz : ip ++ f ++ replicate (8 - length f) 0 ≠ []) by (rewrite app_assoc; by intros [? _]%app_eq_nil).
  unfold amount_sats. fold f. rewrite <-Hv. split; intros Hr.
  - by rewrite (ParseInt_digits neg val _ Hval Hl Hnz Hr).
  - pose proof (ParseInt_range neg val _ Hval Hl Hnz Hr). destruct (ParseInt val) as [? [|]]; [by eexists|done].
Qed.

(** C37. [ToSatoshi] is exact on decimal amounts: text with up to eight fraction
    digits, signed or not, with or without a point, converts to its value in
    satoshis, and to an error exactly when that value does not fit [int64]. *)
Theorem ToSatoshi_exact (neg : bool) (ip : list Z) (fp : option (list Z)) :
  digits ip → digits (default [] fp) → ip ++ default [] fp ≠ [] → (length (default [] fp) ≤ 8)%nat →
  match ToSatoshi (amount_text neg ip fp) with
  | Val sats => in_int64 (amount_sats neg ip fp) ∧ sats = amount_sats neg ip fp
  | Err _ => ¬ in_int64 (amount_sats neg ip fp)
  | _ => False
  end.
Proof.
  intros Hip Hfp Hne Hlen. destruct (ToSatoshi_value neg ip fp Hip Hfp Hne Hlen) as [Hin Hout].
  destruct (decide (in_int64 (amount_sats neg ip fp))) as [Hr|Hr]; [by rewrite Hin|].
  destruct (Hout Hr) as (e & ->). done.
Qed.

Lemma ToSatoshi_exact_witness :
  match ToSatoshi (amount_text false [2; 0] (Some [9; 9; 0; 7])) with
  | Val sats => in_int64 (amount_sats false [2; 0] (Some [9; 9; 0; 7])) ∧
                sats = amount_sats false [2; 0] (Some [9; 9; 0; 7])
  | Err _ => ¬ in_int64 (amount_sats false [2; 0] (Some [9; 9; 0; 7]))
  | _ => False
  end.
Proof. apply ToSatoshi_exact; [closed_ranges|closed_ranges|discriminate|cbn; lia]. Defined.

(** [ToSatoshi] panics exactly on text with more than eight characters
    between its first point and the next one or the end. *)
Lemma ToSatoshi_panics_iff (btc : string) :
  ToSatoshi btc = Panic NegativeRepeat ↔ ∃ x f rest, Split dot btc = x :: f :: rest ∧ 8 < slen f.
Proof.
  unfold ToSatoshi, Repeat, UtxoPrecision. change (8 <? 0) with false. destruct (Split dot btc) as [|x [|f rest]]; cbn [mbind gores_bind].
  - split; [by repeat case_match|by intros (? & ? & ? & [=] & _)].
  - split; [by repeat case_match|by intros (? & ? & ? & [=] & _)].
  - destruct (Z.ltb_spec (8 - slen f) 0) as [Hlt|Hge]; cbn [mbind gores_bind].
    + split; [|done]. intros _. exists x, f, rest. split; [done|lia].
    + split; [by repeat case_match|]. intros (? & ? & ? & [= <- <- <-] & ?). lia.
Qed.
