(* ===== verification/Amounts.v ===== *)
(** * Amounts: satoshis as floating point amounts and back

    [ToBTC] of src/V2/internal/convert/convert.go and the verb [%.8f] with
    which the insight API prints its result.  A [float64] is its exact binary
    value; the conversions round to nearest, ties to even, as IEEE 754 and
    package strconv do.  No modelled value reaches the subnormal numbers or the
    infinities: they lie between one satoshi and [2^63] satoshis. *)

From stdpp Require Import base list strings numbers.
From Stdlib Require Import ZArith Lia Ascii.
From S2P Require Import Prelude GoStrings Convert.

Local Open Scope Z_scope.

(** ** Numbers of 53 bits *)

(** The value [(-1)^f_neg * f_mant * 2^f_exp]. *)
Record float64 := { f_neg : bool; f_mant : Z; f_exp : Z }.

(** The integer nearest to [n / d], the even one of two. *)
Definition round_even (n d : Z) : Z :=
  let q := n / d in
  let r := n mod d in
  if 2 * r <? d then q
  else if d <? 2 * r then q + 1
  else if Z.even q then q else q + 1.

(** [n / (d * 2^e)] as a fraction *)
Definition scaled (n d e : Z) : Z * Z := (n * 2 ^ Z.max 0 (- e), d * 2 ^ Z.max 0 e).

(** The exponent of the 53-bit number nearest to [n / d] *)
Definition exponent (n d : Z) : Z :=
  let e := Z.log2 n - Z.log2 d - 52 in
  let '(num, den) := scaled n d e in
  if num <? 2 ^ 52 * den then e - 1 else e.

(** The 53-bit number nearest to [(-1)^neg * n / d] *)
Definition nearest (neg : bool) (n d : Z) : float64 :=
  if n =? 0 then {| f_neg := neg; f_mant := 0; f_exp := 0 |}
  else
    let e := exponent n d in
    let '(num, den) := scaled n d e in
    {| f_neg := neg; f_mant := round_even num den; f_exp := e |}.

(** [float64(z)] *)
Definition of_int64 (z : Z) : float64 := nearest (z <? 0) (Z.abs z) 1.

(** [x / d] for a positive integer [d] that is a [float64] *)
Definition div_by (x : float64) (d : Z) : float64 :=
  let '(num, den) := scaled (f_mant x) d (- f_exp x) in nearest (f_neg x) num den.

(** [func ToBTC(sats int64) float64] *)
Definition ToBTC (sats : Z) : float64 := div_by (of_int64 sats) (10 ^ 8).

(** ** Printing *)

(** Zeros in front of [l] up to width [w] *)
Definition zero_pad (w : nat) (l : list Z) : list Z := replicate (w - length l) 0 ++ l.

(** [fmt.Sprintf("%.8f", x)] *)
Definition format_f8 (x : float64) : string :=
  let '(num, den) := scaled (f_mant x * 10 ^ 8) 1 (- f_exp x) in
  let v := round_even num den in
  amount_text (f_neg x) (digits_of (v / 10 ^ 8)) (Some (zero_pad 8 (digits_of (v mod 10 ^ 8)))).

(** ** Rounding *)

Lemma round_even_err n d : 0 < d → 2 * Z.abs (round_even n d * d - n) ≤ d.
Proof.
  intros Hd. unfold round_even. pose proof (Z.div_mod n d ltac:(lia)). pose proof (Z.mod_pos_bound n d Hd).
  destruct (Z.ltb_spec (2 * (n mod d)) d); [nia|]. destruct (Z.ltb_spec d (2 * (n mod d))); [nia|].
  destruct (Z.even (n / d)); nia.
Qed.

Lemma round_even_unique n d m : 0 < d → 2 * Z.abs (m * d - n) < d → round_even n d = m.
Proof. intros Hd Hm. pose proof (round_even_err n d Hd). nia. Qed.

Lemma round_even_exact n d : 0 < d → round_even (n * d) d = n.
Proof. intros. apply round_even_unique; lia. Qed.

Lemma scaled_pos n d e : 0 < n → 0 < d → 0 < (scaled n d e).1 ∧ 0 < (scaled n d e).2.
Proof.
  intros. cbn. pose proof (Z.pow_pos_nonneg 2 (Z.max 0 (- e))). pose proof (Z.pow_pos_nonneg 2 (Z.max 0 e)). nia.
Qed.

(** The exponent leaves a significand of 53 bits. *)
Lemma exponent_lower n d :
  0 < n → 0 < d → 2 ^ 52 * (scaled n d (exponent n d)).2 ≤ (scaled n d (exponent n d)).1.
Proof.
  intros Hn Hd. pose proof (Z.log2_spec n Hn) as [Hn1 _]. pose proof (Z.log2_spec d Hd) as [_ Hd2].
  pose proof (Z.log2_nonneg n). pose proof (Z.log2_nonneg d). unfold exponent, scaled.
  set (a := Z.log2 n) in *. set (b := Z.log2 d) in *. set (e := a - b - 52).
  cbn [fst snd]. destruct (Z.ltb_spec (n * 2 ^ Z.max 0 (- e)) (2 ^ 52 * (d * 2 ^ Z.max 0 e))) as [_|]; [|done].
  destruct (Z.le_gt_cases 1 e) as [He|He].
  - replace (Z.max 0 (- (e - 1))) with 0 by lia. replace (Z.max 0 (e - 1)) with (e - 1) by lia.
    replace (n * 2 ^ 0) with n by lia. change (Z.succ b) with (b + 1) in Hd2.
    assert (Ha : 2 ^ a = 2 ^ 52 * (2 ^ (e - 1) * 2 ^ (b + 1))) by (rewrite <-!Z.pow_add_r by lia; f_equal; lia).
    etrans; [|exact Hn1]. rewrite Ha, (Z.mul_comm d). pose proof (Z.pow_pos_nonneg 2 (e - 1) ltac:(lia) ltac:(lia)).
    apply Z.mul_le_mono_nonneg_l; [lia|]. apply Z.mul_le_mono_nonneg_l; lia.
  - replace (Z.max 0 (- (e - 1))) with (1 - e) by lia. replace (Z.max 0 (e - 1)) with 0 by lia.
    replace (d * 2 ^ 0) with d by lia. change (Z.succ b) with (b + 1) in Hd2.
    assert (2 ^ a * 2 ^ (1 - e) = 2 ^ 52 * 2 ^ (b + 1)) by (rewrite <-!Z.pow_add_r by lia; f_equal; lia).
    pose proof (Z.pow_pos_nonneg 2 (1 - e) ltac:(lia) ltac:(lia)).
    assert (2 ^ a * 2 ^ (1 - e) ≤ n * 2 ^ (1 - e)) by (apply Z.mul_le_mono_nonneg_r; lia). lia.
Qed.

Lemma exponent_le n d : exponent n d ≤ Z.log2 n - Z.log2 d - 52.
Proof. unfold exponent, scaled. case_match; lia. Qed.

(** An integer below [2^53] is a [float64]. *)
Lemma of_int64_exact z :
  z ≠ 0 → Z.abs z < 2 ^ 53 →
  ∃ k, 0 ≤ k ∧ of_int64 z = {| f_neg := z <? 0; f_mant := Z.abs z * 2 ^ k; f_exp := - k |}.
Proof.
  intros Hz Hlt. unfold of_int64, nearest. rewrite (proj2 (Z.eqb_neq _ _)) by lia.
  pose proof (exponent_le (Z.abs z) 1) as He. change (Z.log2 1) with 0 in He.
  assert (Z.log2 (Z.abs z) < 53) by (apply Z.log2_lt_pow2; lia).
  set (e := exponent (Z.abs z) 1) in *. exists (- e). split; [lia|]. unfold scaled.
  replace (Z.max 0 (- e)) with (- e) by lia. replace (Z.max 0 e) with 0 by lia.
  change (1 * 2 ^ 0) with 1. f_equal; [|lia].
  rewrite <-(Z.mul_1_r (Z.abs z * 2 ^ (- e))) at 1. apply round_even_exact. lia.
Qed.

(** The quotient of an integer is within half a unit in its last place. *)
Lemma div_by_near z d :
  z ≠ 0 → Z.abs z < 2 ^ 53 → 0 < d → Z.log2 (Z.abs z) - Z.log2 d < 52 →
  ∃ m k, 52 + Z.log2 d - Z.log2 (Z.abs z) ≤ k ∧ div_by (of_int64 z) d = {| f_neg := z <? 0; f_mant := m; f_exp := - k |} ∧
    2 * Z.abs (m * d - Z.abs z * 2 ^ k) ≤ d ∧ 2 ^ 52 * d ≤ Z.abs z * 2 ^ k.
Proof.
  intros Hz Hlt Hd Hlog. destruct (of_int64_exact z Hz Hlt) as (j & Hj & Hf). unfold div_by. rewrite Hf. cbn [f_neg f_mant f_exp].
  unfold scaled at 1. replace (Z.max 0 (- - - j)) with 0 by lia. replace (Z.max 0 (- - j)) with j by lia.
  rewrite Z.pow_0_r, Z.mul_1_r. set (n := Z.abs z) in *.
  pose proof (Z.pow_pos_nonneg 2 j ltac:(lia) ltac:(lia)) as Hpj.
  assert (Hn' : 0 < n * 2 ^ j) by nia. assert (Hd' : 0 < d * 2 ^ j) by nia.
  pose proof (exponent_lower _ _ Hn' Hd') as Hlow. pose proof (exponent_le (n * 2 ^ j) (d * 2 ^ j)) as He.
  rewrite !Z.log2_mul_pow2 in He by lia.
  unfold nearest. rewrite (proj2 (Z.eqb_neq _ _)) by lia.
  set (e := exponent _ _) in *. revert Hlow. unfold scaled. cbn [fst snd].
  replace (Z.max 0 (- e)) with (- e) by lia. replace (Z.max 0 e) with 0 by lia. rewrite Z.pow_0_r, Z.mul_1_r. intros Hlow.
  exists (round_even (n * 2 ^ j * 2 ^ (- e)) (d * 2 ^ j)), (- e). split; [lia|]. split; [f_equal; lia|].
  pose proof (round_even_err (n * 2 ^ j * 2 ^ (- e)) _ Hd') as Herr.
  set (m := round_even _ _) in *. set (p := 2 ^ (- e)) in *. set (q := 2 ^ j) in *.
  replace (m * (d * q) - n * q * p) with ((m * d - n * p) * q) in Herr by lia.
  rewrite Z.abs_mul, (Z.abs_eq q) in Herr by lia. nia.
Qed.

(** The quotient by [10^8] is close enough to be rounded back. *)
Lemma ToBTC_near z :
  z ≠ 0 → Z.abs z < 2 ^ 26 * 10 ^ 8 →
  ∃ m k, 0 < k ∧ ToBTC z = {| f_neg := z <? 0; f_mant := m; f_exp := - k |} ∧
    2 * Z.abs (m * 10 ^ 8 - Z.abs z * 2 ^ k) < 2 ^ k.
Proof.
  intros Hz Hlt. assert (Z.log2 (Z.abs z) < 53) by (apply Z.log2_lt_pow2; lia).
  destruct (div_by_near z (10 ^ 8)) as (m & k & Hk & Hf & Herr & Hlow);
    [done|lia|done|change (Z.log2 (10 ^ 8)) with 26; lia|].
  change (Z.log2 (10 ^ 8)) with 26 in Hk. exists m, k. split; [lia|]. split; [exact Hf|].
  assert (Hp : 2 ^ 27 ≤ 2 ^ k).
  { apply Z.pow_le_mono_r; [lia|]. enough (k ≠ 26) by lia. intros ->. change (2 ^ 26) with 67108864 in *. lia. }
  change (2 ^ 27) with 134217728 in Hp. lia.
Qed.

(** ** Printing and reading *)

Lemma zero_pad_spec (w : nat) v :
  0 ≤ v < 10 ^ Z.of_nat w → (0 < w)%nat →
  length (zero_pad w (digits_of v)) = w ∧ digits (zero_pad w (digits_of v)) ∧ dec_val 0 (zero_pad w (digits_of v)) = v.
Proof.
  intros Hv Hw. destruct (digits_of_spec v ltac:(lia)) as (Hval & Hd & _).
  pose proof (dec_digits_length (S (Z.to_nat (Z.log2 v))) v w Hv Hw) as Hl. fold (digits_of v) in Hl.
  unfold zero_pad. split_and!.
  - rewrite length_app, length_replicate. lia.
  - apply digits_app; [apply digits_zeros|done].
  - by rewrite dec_val_app, dec_val_zeros.
Qed.

(** The text of a number of satoshis with eight decimals. *)
Lemma ToSatoshi_fixed (neg : bool) n :
  0 ≤ n < two63 →
  ToSatoshi (amount_text neg (digits_of (n / 10 ^ 8)) (Some (zero_pad 8 (digits_of (n mod 10 ^ 8))))) =
    Val (if neg then - n else n).
Proof.
  intros Hn. pose proof (Z.div_mod n (10 ^ 8) ltac:(lia)). pose proof (Z.mod_pos_bound n (10 ^ 8) ltac:(lia)) as Hm.
  assert (0 ≤ n / 10 ^ 8) by (apply Z.div_pos; lia).
  destruct (digits_of_spec (n / 10 ^ 8)) as (Hv & Hd & Hne); [done|].
  destruct (zero_pad_spec 8 (n mod 10 ^ 8)) as (Hlen & Hfd & Hfv); [exact Hm|lia|].
  set (f := zero_pad 8 _) in *. set (i := digits_of _) in *.
  assert (Hs : amount_sats neg i (Some f) = if neg then - n else n).
  { unfold amount_sats. change (default [] (Some f)) with f. rewrite Hlen, dec_val_app, Hv, dec_val_scale, Hlen, Hfv by done.
    change (8 - Z.of_nat 8) with 0. change (10 ^ Z.of_nat 8) with (10 ^ 8). destruct neg; lia. }
  destruct (ToSatoshi_value neg i (Some f)) as [Hok _].
  - done.
  - done.
  - by intros [? _]%app_eq_nil.
  - change (default [] (Some f)) with f. lia.
  - rewrite Hok; rewrite Hs; [done|]. unfold in_int64, two63 in *. destruct neg; lia.
Qed.

(** The printed amount is the exact decimal. *)
Lemma format_f8_ToBTC sats :
  Z.abs sats < 2 ^ 26 * 10 ^ 8 →
  format_f8 (ToBTC sats) = amount_text (sats <? 0) (digits_of (Z.abs sats / 10 ^ 8))
                             (Some (zero_pad 8 (digits_of (Z.abs sats mod 10 ^ 8)))).
Proof.
  intros Hlt. destruct (decide (sats = 0)) as [->|Hz]; [by vm_compute|].
  destruct (ToBTC_near sats Hz Hlt) as (m & k & Hk & -> & Hnear). unfold format_f8. cbn [f_neg f_mant f_exp].
  unfold scaled. replace (Z.max 0 (- - k)) with k by lia. replace (Z.max 0 (- - - k)) with 0 by lia.
  rewrite Z.pow_0_r, Z.mul_1_r, Z.mul_1_l.
  rewrite (round_even_unique _ _ (Z.abs sats)); [done|apply Z.pow_pos_nonneg; lia|lia].
Qed.

Lemma ToSatoshi_format_ToBTC sats :
  Z.abs sats < 2 ^ 26 * 10 ^ 8 → ToSatoshi (format_f8 (ToBTC sats)) = Val sats.
Proof.
  intros Hlt. rewrite format_f8_ToBTC, ToSatoshi_fixed by (unfold two63; lia).
  destruct (Z.ltb_spec sats 0); f_equal; lia.
Qed.

(** C31. The way of an amount through floating point,
    [ToSatoshi(fmt.Sprintf("%.8f", ToBTC(sats)))], is exact for all amounts below
    [2^26] coins (67 million), and for no larger bound: two satoshis above it
    one satoshi is lost. *)
Theorem ToBTC_precision (bound : Z) :
  (∀ sats, Z.abs sats < bound → ToSatoshi (format_f8 (ToBTC sats)) = Val sats) ↔ bound ≤ 2 ^ 26 * 10 ^ 8 + 2.
Proof.
  split.
  - intros H. destruct (Z.le_gt_cases bound (2 ^ 26 * 10 ^ 8 + 2)) as [|Hgt]; [done|].
    specialize (H (2 ^ 26 * 10 ^ 8 + 2) ltac:(lia)). by vm_compute in H.
  - intros Hb sats Hlt.
    destruct (Z.lt_ge_cases (Z.abs sats) (2 ^ 26 * 10 ^ 8)); [by apply ToSatoshi_format_ToBTC|].
    assert (sats = 2 ^ 26 * 10 ^ 8 ∨ sats = 2 ^ 26 * 10 ^ 8 + 1 ∨ sats = - (2 ^ 26 * 10 ^ 8) ∨ sats = - (2 ^ 26 * 10 ^ 8 + 1))
      as [->|[->|[->| ->]]] by lia; by vm_compute.
Qed.
