(* ===== verification/Progress.v ===== *)
(** * Progress: the share of the chain that is stored

    The expression [float32(b.Height) / float32(ci.Blocks) * 100] of the handler
    [Info] in src/V2/pkg/api/server/server.go, in IEEE 754 single precision with
    rounding to nearest, ties to even.  Heights are integers of 64 bits, so no
    result is subnormal or too large. *)

From stdpp Require Import base numbers.
From Stdlib Require Import ZArith Lia.
From S2P Require Import Prelude Amounts.

Local Open Scope Z_scope.

(** [(-1)^neg * mant * 2^exp], an infinity, or no number *)
Inductive float32 :=
| Finite (neg : bool) (mant exp : Z)
| Infinite (neg : bool)
| NaN.

(** The exponent of the 24-bit number nearest to [n / d] *)
Definition exponent24 (n d : Z) : Z :=
  let e := Z.log2 n - Z.log2 d - 23 in
  let '(num, den) := scaled n d e in
  if num <? 2 ^ 23 * den then e - 1 else e.

(** The 24-bit number nearest to [(-1)^neg * n / d] *)
Definition nearest24 (neg : bool) (n d : Z) : float32 :=
  if n =? 0 then Finite neg 0 0
  else
    let e := exponent24 n d in
    let '(num, den) := scaled n d e in Finite neg (round_even num den) e.

(** [float32(z)] *)
Definition float32_of_int (z : Z) : float32 := nearest24 (z <? 0) (Z.abs z) 1.

(** [x / y] *)
Definition div32 (x y : float32) : float32 :=
  match x, y with
  | Finite s m e, Finite s' m' e' =>
      if m' =? 0 then (if m =? 0 then NaN else Infinite (xorb s s'))
      else let '(num, den) := scaled m m' (e' - e) in nearest24 (xorb s s') num den
  | Finite s _ _, Infinite s' => Finite (xorb s s') 0 0
  | Infinite s, Finite s' _ _ => Infinite (xorb s s')
  | _, _ => NaN
  end.

(** [x * 100] *)
Definition times100 (x : float32) : float32 :=
  match x with
  | Finite s m e => let '(num, den) := scaled (m * 100) 1 (- e) in nearest24 s num den
  | Infinite s => Infinite s
  | NaN => NaN
  end.

(** The field [Percent] *)
Definition percent (height blocks : Z) : float32 := times100 (div32 (float32_of_int height) (float32_of_int blocks)).

(** [100] *)
Definition hundred : float32 := Finite false (100 * 2 ^ 17) (-17).

(** ** Rounding *)

Lemma exponent24_le n d : exponent24 n d ≤ Z.log2 n - Z.log2 d - 23.
Proof. unfold exponent24, scaled. case_match; lia. Qed.

(** An integer below [2^24] is a [float32]. *)
Lemma float32_exact z :
  0 < z < 2 ^ 24 → ∃ k, 0 ≤ k ∧ float32_of_int z = Finite false (z * 2 ^ k) (- k).
Proof.
  intros Hz. unfold float32_of_int, nearest24. rewrite (proj2 (Z.ltb_ge z 0)), Z.abs_eq by lia.
  rewrite (proj2 (Z.eqb_neq _ _)) by lia. pose proof (exponent24_le z 1) as He. change (Z.log2 1) with 0 in He.
  assert (Z.log2 z < 24) by (apply Z.log2_lt_pow2; lia).
  set (e := exponent24 z 1) in *. exists (- e). split; [lia|]. unfold scaled.
  replace (Z.max 0 (- e)) with (- e) by lia. replace (Z.max 0 e) with 0 by lia. change (1 * 2 ^ 0) with 1.
  f_equal; [|lia]. rewrite <-(Z.mul_1_r (z * 2 ^ (- e))) at 1. apply round_even_exact. lia.
Qed.

(** A quotient below one has an exponent of at most -24 and 24 bits. *)
Lemma exponent24_small n d :
  0 < n < d → exponent24 n d ≤ -24 ∧ n * 2 ^ (- exponent24 n d) < 2 ^ 24 * d.
Proof.
  intros Hn. pose proof (Z.log2_spec n ltac:(lia)) as [_ Hn2]. pose proof (Z.log2_spec d ltac:(lia)) as [Hd1 _].
  pose proof (Z.log2_le_mono n d ltac:(lia)) as Hle. pose proof (Z.log2_nonneg n) as Hn0.
  unfold exponent24, scaled. set (a := Z.log2 n) in *. set (b := Z.log2 d) in *. set (e := a - b - 23).
  replace (Z.max 0 (- e)) with (- e) by lia. replace (Z.max 0 e) with 0 by lia. replace (d * 2 ^ 0) with d by lia.
  assert (Htop : n * 2 ^ (- e) < 2 ^ 24 * d).
  { change (Z.succ a) with (a + 1) in Hn2.
    assert (E : 2 ^ (a + 1) * 2 ^ (- e) = 2 ^ 24 * 2 ^ b) by (rewrite <-!Z.pow_add_r by lia; f_equal; lia).
    pose proof (Z.pow_pos_nonneg 2 (- e) ltac:(lia) ltac:(lia)). nia. }
  destruct (Z.ltb_spec (n * 2 ^ (- e)) (2 ^ 23 * d)) as [Hlt|Hge].
  - split; [lia|]. replace (- (e - 1)) with (1 + - e) by lia. rewrite Z.pow_add_r by lia. lia.
  - split; [|done]. destruct (Z.eq_dec e (-23)) as [He|]; [|lia]. rewrite He in Hge. change (- -23) with 23 in Hge. lia.
Qed.

(** The quotient stays below one by the last place. *)
Lemma nearest24_small n d :
  0 < n < d → n * 2 ^ 24 < d * (2 ^ 24 - 1) →
  ∃ m k, 24 ≤ k ∧ nearest24 false n d = Finite false m (- k) ∧ m ≤ 2 ^ 24 ∧ (k = 24 → m < 2 ^ 24).
Proof.
  intros Hn Hlt. destruct (exponent24_small n d Hn) as [He Htop]. unfold nearest24.
  rewrite (proj2 (Z.eqb_neq _ _)) by lia. set (e := exponent24 n d) in *. unfold scaled.
  replace (Z.max 0 (- e)) with (- e) by lia. replace (Z.max 0 e) with 0 by lia. replace (d * 2 ^ 0) with d by lia.
  exists (round_even (n * 2 ^ (- e)) d), (- e).
  pose proof (round_even_err (n * 2 ^ (- e)) d ltac:(lia)) as Herr. split_and!; [lia|by rewrite Z.opp_involutive|nia|].
  intros Ek. rewrite Ek in *. nia.
Qed.

(** Times a hundred it stays below a hundred. *)
Lemma times100_small m k :
  24 ≤ k → m ≤ 2 ^ 24 → (k = 24 → m < 2 ^ 24) → times100 (Finite false m (- k)) ≠ hundred.
Proof.
  intros Hk Hm H24. unfold times100, hundred. rewrite Z.opp_involutive. unfold scaled at 1.
  replace (Z.max 0 (- k)) with 0 by lia. replace (Z.max 0 k) with k by lia.
  change (2 ^ 0) with 1. rewrite Z.mul_1_r, Z.mul_1_l. unfold nearest24. destruct (Z.eqb_spec (m * 100) 0); [done|].
  set (e := exponent24 _ _). unfold scaled. intros [= Hr He]. rewrite He in Hr. change (Z.max 0 (- -17)) with 17 in Hr.
  change (Z.max 0 (-17)) with 0 in Hr. change (2 ^ 0) with 1 in Hr. rewrite Z.mul_1_r in Hr.
  pose proof (Z.pow_pos_nonneg 2 k ltac:(lia) ltac:(lia)) as Hp.
  pose proof (round_even_err (m * 100 * 2 ^ 17) (2 ^ k) Hp) as Herr. rewrite Hr in Herr.
  destruct (Z.eq_dec k 24) as [->|Hne]; [lia|].
  assert (2 ^ 25 ≤ 2 ^ k) by (apply Z.pow_le_mono_r; lia). lia.
Qed.

Lemma nearest24_one n : 0 < n → nearest24 false n n = Finite false (2 ^ 23) (-23).
Proof.
  intros Hn. unfold nearest24, exponent24. rewrite (proj2 (Z.eqb_neq _ _)) by lia.
  replace (Z.log2 n - Z.log2 n - 23) with (-23) by lia. unfold scaled. change (Z.max 0 (- -23)) with 23.
  change (Z.max 0 (-23)) with 0. change (2 ^ 0) with 1. rewrite Z.mul_1_r, (proj2 (Z.ltb_ge _ _)) by lia.
  change (Z.max 0 (- -23)) with 23. change (Z.max 0 (-23)) with 0. change (2 ^ 0) with 1. rewrite Z.mul_1_r, (Z.mul_comm n).
  by rewrite round_even_exact.
Qed.

(** Below [2^24] blocks the percentage is a hundred exactly when all of them are
    stored. *)
Lemma percent_complete height blocks :
  0 ≤ height ≤ blocks → 0 < blocks < 2 ^ 24 → percent height blocks = hundred ↔ height = blocks.
Proof.
  intros Hh Hb. destruct (float32_exact blocks Hb) as (j & Hj & Eb). unfold percent. rewrite Eb.
  destruct (Z.eq_dec height 0) as [->|H0].
  { change (float32_of_int 0) with (Finite false 0 0). unfold div32.
    pose proof (Z.pow_pos_nonneg 2 j ltac:(lia) ltac:(lia)). rewrite (proj2 (Z.eqb_neq _ _)) by nia.
    unfold scaled. cbn [xorb]. rewrite Z.mul_0_l. cbn. split; [done|lia]. }
  destruct (float32_exact height ltac:(lia)) as (k & Hk & Eh). rewrite Eh. unfold div32.
  pose proof (Z.pow_pos_nonneg 2 j ltac:(lia) ltac:(lia)) as Pj. pose proof (Z.pow_pos_nonneg 2 k ltac:(lia) ltac:(lia)) as Pk.
  rewrite (proj2 (Z.eqb_neq _ _)) by nia. unfold scaled. cbn [xorb].
  set (num := height * 2 ^ k * 2 ^ Z.max 0 (- (- j - - k))). set (den := blocks * 2 ^ j * 2 ^ Z.max 0 (- j - - k)).
  assert (E : num * blocks = den * height).
  { unfold num, den. assert (2 ^ k * 2 ^ Z.max 0 (- (- j - - k)) = 2 ^ j * 2 ^ Z.max 0 (- j - - k))
      by (rewrite <-!Z.pow_add_r by lia; f_equal; lia). nia. }
  assert (0 < num) by (unfold num; pose proof (Z.pow_pos_nonneg 2 (Z.max 0 (- (- j - - k))) ltac:(lia) ltac:(lia)); nia).
  assert (0 < den) by (unfold den; pose proof (Z.pow_pos_nonneg 2 (Z.max 0 (- j - - k)) ltac:(lia) ltac:(lia)); nia).
  destruct (Z.eq_dec height blocks) as [->|Hne].
  - assert (num = den) as -> by nia. rewrite nearest24_one by done. by split.
  - destruct (nearest24_small num den) as (m & i & Hi & -> & Hm & Hm'); [nia|nia|].
    split; [|done]. intros Hp. exfalso. by eapply times100_small.
Qed.

(** The percentage of a number of blocks that is not zero is a number. *)
Lemma percent_finite height blocks : 0 < blocks < 2 ^ 24 → ∃ s m e, percent height blocks = Finite s m e.
Proof.
  intros Hb. assert (Hn : ∀ s n d, ∃ m e, nearest24 s n d = Finite s m e).
  { intros s n d. unfold nearest24. destruct (n =? 0); [by eexists _, _|]. by eexists _, _. }
  destruct (float32_exact blocks Hb) as (j & Hj & Eb). unfold percent, float32_of_int at 1. rewrite Eb.
  destruct (Hn (height <? 0) (Z.abs height) 1) as (m & e & ->). unfold div32.
  pose proof (Z.pow_pos_nonneg 2 j ltac:(lia) ltac:(lia)). rewrite (proj2 (Z.eqb_neq _ _)) by nia. unfold scaled.
  destruct (Hn (xorb (height <? 0) false) (m * 2 ^ Z.max 0 (- (- j - e))) (blocks * 2 ^ j * 2 ^ Z.max 0 (- j - e))) as (m' & e' & ->).
  unfold times100, scaled. eexists. apply Hn.
Qed.

(** No node height and no stored height have no share, which JSON cannot say. *)
Lemma percent_no_blocks height :
  0 ≤ height < 2 ^ 24 → percent height 0 = if height =? 0 then NaN else Infinite false.
Proof.
  intros Hh. unfold percent. change (float32_of_int 0) with (Finite false 0 0).
  destruct (Z.eqb_spec height 0) as [->|]; [done|]. destruct (float32_exact height ltac:(lia)) as (k & Hk & ->). cbn [div32].
  pose proof (Z.pow_pos_nonneg 2 k ltac:(lia) ltac:(lia)). change (0 =? 0) with true. cbn match.
  by rewrite (proj2 (Z.eqb_neq _ _)) by nia.
Qed.
