(* ===== verification/Timestamps.v ===== *)
(** * Timestamps: RFC 3339 texts and unix time

    [ToUnixTimestamp] of src/V2/internal/convert/convert.go with what it uses
    of package time: [Parse] with the layout [time.RFC3339] and [Unix].  The
    texts it reads come from [Format], through the database driver or from
    [time.Now].  A time is its unix second; a zone is its offset in seconds. *)

From stdpp Require Import base list strings numbers.
From Stdlib Require Import ZArith Lia Ascii.
From S2P Require Import Prelude GoStrings Convert Amounts.

Local Open Scope Z_scope.

(** ** The calendar of package time *)

Definition secondsPerDay : Z := 86400.
Definition daysPer400Years : Z := 146097.
Definition daysPer100Years : Z := 36524.
Definition daysPer4Years : Z := 1461.

(** Absolute times are unsigned 64-bit seconds from this year on, which is 1
    modulo 400. *)
Definition absoluteZeroYear : Z := -292277022399.
Definition absoluteToUnix : Z := -9223371966579724800 - 62135596800.

(** [daysBefore[m]]: the days of a year without leap day before month [m + 1] *)
Definition daysBefore : list Z := [0; 31; 59; 90; 120; 151; 181; 212; 243; 273; 304; 334; 365].
Definition days_before (m : Z) : Z := nth (Z.to_nat m) daysBefore 0.

Definition isLeap (year : Z) : bool :=
  (Z.rem year 4 =? 0) && (negb (Z.rem year 100 =? 0) || (Z.rem year 400 =? 0)).

(** [daysIn(m, year)] *)
Definition daysIn (m year : Z) : Z :=
  if (m =? 2) && isLeap year then 29 else days_before m - days_before (m - 1).

(** The month and day of a day of the year *)
Definition month_day (leap : bool) (yday : Z) : Z * Z :=
  if leap && (yday =? 59) then (2, 29)
  else
    let day := if leap && (59 <? yday) then yday - 1 else yday in
    let month := day / 31 in
    let end_ := days_before (month + 1) in
    if end_ <=? day then (month + 2, day - end_ + 1) else (month + 1, day - days_before month + 1).

(** [absDate(abs, true)]: year, month and day *)
Definition absDate (abs : Z) : Z * Z * Z :=
  let d := abs / secondsPerDay in
  let n := d / daysPer400Years in
  let y := 400 * n in
  let d := d - daysPer400Years * n in
  let n := d / daysPer100Years in
  let n := n - Z.shiftr n 2 in
  let y := y + 100 * n in
  let d := d - daysPer100Years * n in
  let n := d / daysPer4Years in
  let y := y + 4 * n in
  let d := d - daysPer4Years * n in
  let n := d / 365 in
  let n := n - Z.shiftr n 2 in
  let y := y + n in
  let yday := d - 365 * n in
  let year := y + absoluteZeroYear in
  let '(month, day) := month_day (isLeap year) yday in
  (year, month, day).

(** [daysSinceEpoch]: the days before a year *)
Definition days_since_epoch (year : Z) : Z :=
  let y := year - absoluteZeroYear in
  let n := y / 400 in
  let y := y - 400 * n in
  let d := daysPer400Years * n in
  let n := y / 100 in
  let y := y - 100 * n in
  let d := d + daysPer100Years * n in
  let n := y / 4 in
  let y := y - 4 * n in
  let d := d + daysPer4Years * n in
  d + 365 * y.

(** [Date(year, month, day, hour, min, sec, 0, UTC).Unix()] for values in range *)
Definition Date (year month day hour min sec : Z) : Z :=
  let d := days_since_epoch year + days_before (month - 1) in
  let d := if isLeap year && (3 <=? month) then d + 1 else d in
  let d := d + (day - 1) in
  let abs := uint64 (d * secondsPerDay + hour * 3600 + min * 60 + sec) in
  int64 (abs + absoluteToUnix).

(** ** Format *)

(** [appendInt(b, x, width)] *)
Definition appendInt (x : Z) (width : nat) : list Z :=
  (if x <? 0 then [45] else []) ++ map (fun d => d + 48) (zero_pad width (digits_of (Z.abs x))).

(** The bytes of [t.In(zone).Format(time.RFC3339)] *)
Definition format_bytes (unix zone : Z) : list Z :=
  let abs := uint64 (unix + zone - absoluteToUnix) in
  let '(year, month, day) := absDate abs in
  let sec := abs mod secondsPerDay in
  appendInt year 4 ++ 45 :: appendInt month 2 ++ 45 :: appendInt day 2 ++ 84 ::
  appendInt (sec / 3600) 2 ++ 58 :: appendInt (sec mod 3600 / 60) 2 ++ 58 :: appendInt (sec mod 60) 2 ++
  if zone =? 0 then [90]
  else
    let z := Z.quot zone 60 in
    (if z <? 0 then 45 else 43) :: appendInt (Z.abs z / 60) 2 ++ 58 :: appendInt (Z.abs z mod 60) 2.

Definition Format (unix zone : Z) : string := of_bytes (format_bytes unix zone).

(** ** Parse *)

(** [getnum(s, fixed)]: one or two digits, two when [fixed] *)
Definition getnum (s : list Z) (fixed : bool) : option (Z * list Z) :=
  match s with
  | a :: s' =>
      if negb (is_digit a) then None
      else match s' with
           | b :: rest => if is_digit b then Some ((a - 48) * 10 + (b - 48), rest)
                          else if fixed then None else Some (a - 48, s')
           | [] => if fixed then None else Some (a - 48, [])
           end
  | [] => None
  end.

(** [getnum], and the value is below [bound] *)
Definition getnum_below (bound : Z) (s : list Z) (fixed : bool) : option (Z * list Z) :=
  '(n, s) ← getnum s fixed; if bound <=? n then None else Some (n, s).

(** Package time's own [atoi]; the texts it gets here have at most four bytes *)
Definition atoi (s : list Z) : option Z :=
  let '(neg, s) := match s with
                   | c :: s' => if (c =? 45) || (c =? 43) then (c =? 45, s') else (false, s)
                   | [] => (false, s)
                   end in
  if forallb is_digit s then Some ((if neg then -1 else 1) * dec_val 0 (map (fun c => c - 48) s)) else None.

(** A byte of the layout that stands for itself *)
Definition expect (c : Z) (s : list Z) : option (list Z) :=
  match s with a :: s => if a =? c then Some s else None | [] => None end.

(** [stdLongYear]: four bytes, the first a digit *)
Definition parse_year (s : list Z) : option (Z * list Z) :=
  match s with
  | a :: b :: c :: d :: rest => if is_digit a then y ← atoi [a; b; c; d]; Some (y, rest) else None
  | _ => None
  end.

(** A fraction of a second is accepted though the layout has none; it is below
    the second and skipped here. *)
Fixpoint skip_digits (s : list Z) : list Z :=
  match s with c :: s' => if is_digit c then skip_digits s' else s | [] => [] end.

Definition skip_fraction (s : list Z) : list Z :=
  match s with
  | a :: b :: rest => if (a =? 46) && is_digit b then skip_digits rest else s
  | _ => s
  end.

(** [stdISO8601ColonTZ]: "Z" or a signed offset, in seconds *)
Definition parse_zone (s : list Z) : option (Z * list Z) :=
  match s with
  | a :: rest =>
      if a =? 90 then Some (0, rest)
      else match rest with
           | h1 :: h2 :: c :: m1 :: m2 :: rest =>
               if negb (c =? 58) then None
               else
                 hr ← atoi [h1; h2]; mm ← atoi [m1; m2];
                 let zoneOffset := (hr * 60 + mm) * 60 in
                 if a =? 43 then Some (zoneOffset, rest)
                 else if a =? 45 then Some (- zoneOffset, rest) else None
           | _ => None
           end
  | [] => None
  end.

(** [time.Parse(time.RFC3339, value)], as a unix time *)
Definition parse_bytes (s : list Z) : option Z :=
  '(year, s) ← parse_year s; s ← expect 45 s;
  '(month, s) ← getnum s true;
  if (month <=? 0) || (12 <? month) then None else
  s ← expect 45 s; '(day, s) ← getnum s true; s ← expect 84 s;
  '(hour, s) ← getnum_below 24 s false; s ← expect 58 s;
  '(min, s) ← getnum_below 60 s true; s ← expect 58 s;
  '(sec, s) ← getnum_below 60 s true;
  '(zone, s) ← parse_zone (skip_fraction s);
  match s with
  | [] => if (day <? 1) || (daysIn month year <? day) then None
          else Some (int64 (Date year month day hour min sec - zone))
  | _ => None
  end.

(** [func ToUnixTimestamp(t string) (int64, error)] *)
Definition ToUnixTimestamp (t : string) : gores Z :=
  match parse_bytes (bytes t) with
  | Some unix => Val unix
  | None => Err (ENew "parsing time")
  end.

(** ** The calendar inverts *)

Definition month_day_valid (leap : bool) (yday : Z) : bool :=
  let '(m, d) := month_day leap yday in
  (1 <=? m) && (m <=? 12) && (1 <=? d)
  && (d <=? (if (m =? 2) && leap then 29 else days_before m - days_before (m - 1)))
  && (days_before (m - 1) + (if leap && (3 <=? m) then 1 else 0) + (d - 1) =? yday).

Lemma month_day_ok (leap : bool) yday m d :
  0 ≤ yday < (if leap then 366 else 365) → month_day leap yday = (m, d) →
  1 ≤ m ≤ 12 ∧ 1 ≤ d ≤ (if (m =? 2) && leap then 29 else days_before m - days_before (m - 1)) ∧
  days_before (m - 1) + (if leap && (3 <=? m) then 1 else 0) + (d - 1) = yday.
Proof.
  intros H Hmd. assert (Hv : month_day_valid leap yday = true).
  { destruct leap; (eapply forallb_range; [|exact H]); by vm_compute. }
  unfold month_day_valid in Hv. rewrite Hmd in Hv. lia.
Qed.

(** The year and the day of the year [absDate] finds. *)
Lemma absDate_year dd :
  0 ≤ dd →
  let n := dd / 146097 in let d := dd - 146097 * n in
  let c := d / 36524 - Z.shiftr (d / 36524) 2 in let d := d - 36524 * c in
  let q := d / 1461 in let d := d - 1461 * q in
  let a := d / 365 - Z.shiftr (d / 365) 2 in
  let yday := d - 365 * a in let year := 400 * n + 100 * c + 4 * q + a + absoluteZeroYear in
  days_since_epoch year + yday = dd ∧ 0 ≤ yday < (if isLeap year then 366 else 365).
Proof.
  intros Hdd. cbn zeta. set (n := dd / 146097). set (d1 := dd - 146097 * n).
  assert (0 ≤ d1 < 146097 ∧ 0 ≤ n) by (unfold d1, n; Z.to_euclidean_division_equations; lia).
  rewrite !Z.shiftr_div_pow2 by lia. change (2 ^ 2) with 4.
  set (c := d1 / 36524 - d1 / 36524 / 4). set (d2 := d1 - 36524 * c).
  assert (0 ≤ c ≤ 3 ∧ 0 ≤ d2 ≤ 36524 ∧ (d2 = 36524 → c = 3)) by (unfold d2, c; Z.to_euclidean_division_equations; lia).
  set (q := d2 / 1461). set (d3 := d2 - 1461 * q).
  assert (0 ≤ q ≤ 24 ∧ 0 ≤ d3 < 1461 ∧ (q = 24 → d3 ≤ 1460 ∧ (d3 = 1460 → c = 3))) by (unfold d3, q; Z.to_euclidean_division_equations; lia).
  set (a := d3 / 365 - d3 / 365 / 4). set (y := d3 - 365 * a).
  assert (0 ≤ a ≤ 3 ∧ 0 ≤ y ≤ 365 ∧ (y = 365 → a = 3)) by (unfold y, a; Z.to_euclidean_division_equations; lia).
  split.
  - unfold days_since_epoch.
    replace (400 * n + 100 * c + 4 * q + a + absoluteZeroYear - absoluteZeroYear) with (400 * n + 100 * c + 4 * q + a) by lia.
    assert ((400 * n + 100 * c + 4 * q + a) / 400 = n) as -> by (Z.to_euclidean_division_equations; lia).
    assert ((400 * n + 100 * c + 4 * q + a - 400 * n) / 100 = c) as -> by (Z.to_euclidean_division_equations; lia).
    assert ((400 * n + 100 * c + 4 * q + a - 400 * n - 100 * c) / 4 = q) as -> by (Z.to_euclidean_division_equations; lia).
    unfold daysPer400Years, daysPer100Years, daysPer4Years. lia.
  - split; [lia|]. enough (y = 365 → isLeap (400 * n + 100 * c + 4 * q + a + absoluteZeroYear) = true) as Hl.
    { destruct (isLeap _); [lia|]. enough (y ≠ 365) by lia. intros Hy. by specialize (Hl Hy). }
    intros Hy. unfold isLeap, absoluteZeroYear. Z.to_euclidean_division_equations. lia.
Qed.

Lemma absDate_valid abs y m d :
  0 ≤ abs < two64 → absDate abs = (y, m, d) →
  1 ≤ m ≤ 12 ∧ 1 ≤ d ≤ daysIn m y ∧ days_since_epoch y ≤ abs / 86400 < days_since_epoch y + (if isLeap y then 366 else 365) ∧
  Date y m d (abs mod 86400 / 3600) (abs mod 86400 mod 3600 / 60) (abs mod 86400 mod 60) = int64 (abs + absoluteToUnix).
Proof.
  intros Habs Hd. pose proof (absDate_year (abs / 86400) ltac:(Z.to_euclidean_division_equations; lia)) as H.
  cbn zeta in H. unfold absDate, daysPer400Years, daysPer100Years, daysPer4Years, secondsPerDay in Hd.
  set (year := 400 * _ + _ + _ + _ + absoluteZeroYear) in *.
  set (yday := _ - 365 * _) in *. destruct H as [Hdays Hy].
  destruct (month_day (isLeap year) yday) as [m' d'] eqn:Hmd. injection Hd as Heq <- <-.
  assert (year = y) as -> by exact Heq.
  destruct (month_day_ok _ _ _ _ Hy Hmd) as (Hm & Hdd & Hsum). split; [done|]. split; [exact Hdd|].
  split; [lia|]. unfold Date, secondsPerDay. f_equal. f_equal.
  rewrite <-(uint64_id abs) at 4 by done. f_equal.
  assert (Hsec : abs mod 86400 mod 60 + abs mod 86400 mod 3600 / 60 * 60 + abs mod 86400 / 3600 * 3600 = abs mod 86400)
    by (clear; Z.to_euclidean_division_equations; lia).
  pose proof (Z.div_mod abs 86400 ltac:(lia)).
  replace (if isLeap y && (3 <=? m') then days_since_epoch y + days_before (m' - 1) + 1
           else days_since_epoch y + days_before (m' - 1))
    with (abs / 86400 - (d' - 1)) by (destruct (isLeap y && (3 <=? m')); lia).
  lia.
Qed.

(** ** Texts *)

Lemma appendInt_2 x :
  0 ≤ x < 100 → ∃ a b, 0 ≤ a < 10 ∧ 0 ≤ b < 10 ∧ appendInt x 2 = [a + 48; b + 48] ∧ x = a * 10 + b.
Proof.
  intros Hx. unfold appendInt. rewrite (proj2 (Z.ltb_ge x 0)), Z.abs_eq by lia. cbn [app].
  destruct (zero_pad_spec 2 x) as (Hl & Hd & Hv); [exact Hx|lia|].
  destruct (zero_pad 2 _) as [|a [|b [|]]]; try done.
  pose proof (Forall_inv Hd). pose proof (Forall_inv (Forall_inv_tail Hd)). exists a, b. cbn in *. split_and!; try done; lia.
Qed.

Lemma appendInt_4 x :
  0 ≤ x < 10000 → ∃ a b c d, Forall (fun e => 0 ≤ e < 10) [a; b; c; d] ∧
    appendInt x 4 = [a + 48; b + 48; c + 48; d + 48] ∧ x = dec_val 0 [a; b; c; d].
Proof.
  intros Hx. unfold appendInt. rewrite (proj2 (Z.ltb_ge x 0)), Z.abs_eq by lia. cbn [app].
  destruct (zero_pad_spec 4 x) as (Hl & Hd & Hv); [exact Hx|lia|].
  destruct (zero_pad 4 _) as [|a [|b [|c [|d [|]]]]]; try done.
  exists a, b, c, d. split_and!; [exact Hd|done|done].
Qed.

Lemma getnum_appendInt x fixed rest : 0 ≤ x < 100 → getnum (appendInt x 2 ++ rest) fixed = Some (x, rest).
Proof.
  intros Hx. destruct (appendInt_2 x Hx) as (a & b & Ha & Hb & -> & ->). cbn [app getnum].
  rewrite !is_digit_add by done. cbn [negb]. do 2 f_equal. lia.
Qed.

Lemma atoi_digits l : digits l → l ≠ [] → atoi (map (fun d => d + 48) l) = Some (dec_val 0 l).
Proof.
  intros Hd Hne. unfold atoi. destruct l as [|a l]; [done|]. pose proof (Forall_inv Hd) as Ha. cbn in Ha.
  cbn [map]. rewrite (proj2 (Z.eqb_neq _ 45)), (proj2 (Z.eqb_neq _ 43)) by lia. cbn [orb].
  change (a + 48 :: map (fun d => d + 48) l) with (map (fun d => d + 48) (a :: l)).
  assert (forallb is_digit (map (fun d => d + 48) (a :: l)) = true) as ->.
  { apply forallb_forall. intros x (d & <- & Hin)%in_map_iff. unfold digits in Hd. rewrite List.Forall_forall in Hd.
    apply is_digit_add, Hd. done. }
  rewrite map_map, (map_ext _ id), map_id by (intros; unfold id; lia). f_equal. lia.
Qed.

Lemma parse_year_appendInt x rest : 0 ≤ x < 10000 → parse_year (appendInt x 4 ++ rest) = Some (x, rest).
Proof.
  intros Hx. destruct (appendInt_4 x Hx) as (a & b & c & d & Hd & -> & ->). cbn [app parse_year].
  rewrite is_digit_add by exact (Forall_inv Hd).
  change [a + 48; b + 48; c + 48; d + 48] with (map (fun d => d + 48) [a; b; c; d]). by rewrite atoi_digits.
Qed.

(** The bytes of a zone *)
Definition zone_bytes (zone : Z) : list Z :=
  if zone =? 0 then [90]
  else (if Z.quot zone 60 <? 0 then 45 else 43) ::
       appendInt (Z.abs (Z.quot zone 60) / 60) 2 ++ 58 :: appendInt (Z.abs (Z.quot zone 60) mod 60) 2.

Lemma parse_zone_bytes zone :
  Z.rem zone 60 = 0 → Z.abs zone < 86400 → parse_zone (skip_fraction (zone_bytes zone)) = Some (zone, []).
Proof.
  intros Hr Hz. unfold zone_bytes. destruct (Z.eqb_spec zone 0) as [->|Hne]; [done|].
  set (z := Z.quot zone 60). assert (Hz60 : zone = 60 * z) by (unfold z; Z.to_euclidean_division_equations; lia).
  destruct (appendInt_2 (Z.abs z / 60)) as (a & b & Ha & Hb & -> & Hab); [Z.to_euclidean_division_equations; lia|].
  destruct (appendInt_2 (Z.abs z mod 60)) as (c & d & Hc & Hd & -> & Hcd); [Z.to_euclidean_division_equations; lia|].
  cbn [app]. assert (Hat : ∀ x y, 0 ≤ x < 10 → 0 ≤ y < 10 → atoi [x + 48; y + 48] = Some (x * 10 + y)).
  { intros x y Hx Hy. apply (atoi_digits [x; y]); [|done]. constructor; [done|]. constructor; [done|constructor]. }
  assert (Habs : Z.abs z = (a * 10 + b) * 60 + (c * 10 + d)) by (clear - Hab Hcd; Z.to_euclidean_division_equations; lia).
  destruct (Z.ltb_spec z 0); cbn [skip_fraction Z.eqb Pos.eqb andb]; cbn [parse_zone Z.eqb Pos.eqb negb];
    rewrite !Hat by done; cbn; do 2 f_equal; lia.
Qed.

(** The bounds of the years 0 to 9999 *)
Definition year0 : Z := -62167219200.
Definition year10000 : Z := 253402300800.

Lemma days_mono y :
  (y < 0 → days_since_epoch y + (if isLeap y then 366 else 365) ≤ days_since_epoch 0) ∧
  (10000 ≤ y → days_since_epoch 10000 ≤ days_since_epoch y).
Proof.
  unfold days_since_epoch, absoluteZeroYear, daysPer400Years, daysPer100Years, daysPer4Years, isLeap.
  split; intros; [|Z.to_euclidean_division_equations; lia].
  destruct (_ && _) eqn:Hl; Z.to_euclidean_division_equations; lia.
Qed.

Lemma format_date unix zone y m d :
  year0 ≤ unix + zone < year10000 → absDate (uint64 (unix + zone - absoluteToUnix)) = (y, m, d) →
  0 ≤ y < 10000 ∧ 1 ≤ m ≤ 12 ∧ 1 ≤ d ≤ daysIn m y ∧
  let sec := uint64 (unix + zone - absoluteToUnix) mod 86400 in
  Date y m d (sec / 3600) (sec mod 3600 / 60) (sec mod 60) = unix + zone.
Proof.
  unfold year0, year10000. intros Hr Hd.
  assert (Habs : 0 ≤ unix + zone - absoluteToUnix < two64) by (unfold absoluteToUnix, two64; lia).
  rewrite uint64_id in Hd |- * by done.
  destruct (absDate_valid _ _ _ _ Habs Hd) as (Hm & Hdd & Hdays & Hdate).
  destruct (days_mono y) as [Hlo Hhi].
  change (days_since_epoch 0) with 106751990353566 in Hlo. change (days_since_epoch 10000) with 106751994005991 in Hhi.
  split; [|split; [done|split; [done|]]].
  - unfold absoluteToUnix in Hdays. split.
    + destruct (Z.le_gt_cases 0 y) as [|Hneg]; [done|]. specialize (Hlo Hneg). Z.to_euclidean_division_equations. lia.
    + destruct (Z.lt_ge_cases y 10000) as [|Hge]; [done|]. specialize (Hhi Hge). Z.to_euclidean_division_equations. lia.
  - cbn zeta. rewrite Hdate, int64_id by (unfold in_int64, two63; lia). lia.
Qed.

Lemma daysIn_le m y : 1 ≤ m ≤ 12 → daysIn m y ≤ 31.
Proof.
  intros Hm. unfold daysIn. destruct (_ && _); [lia|].
  pose proof (forallb_range (fun m => days_before m - days_before (m - 1) <=? 31) 1 12 m eq_refl ltac:(lia)) as H.
  cbn beta in H. lia.
Qed.

Lemma appendInt_byte x w : 0 ≤ x → Forall is_byte (appendInt x w).
Proof.
  intros Hx. unfold appendInt. rewrite (proj2 (Z.ltb_ge x 0)), Z.abs_eq by lia. cbn [app].
  apply Forall_map. destruct (digits_of_spec x Hx) as (_ & Hd & _).
  eapply Forall_impl; [|exact (digits_app _ _ (digits_zeros _) Hd)]. unfold is_byte. cbn. lia.
Qed.

(** Closes [Forall is_byte] for the pieces of a text. *)
Ltac text_bytes :=
  repeat match goal with
         | |- Forall _ (_ ++ _) => apply Forall_app; split
         | |- Forall _ (_ :: _) => constructor
         | |- Forall _ [] => constructor
         | |- Forall _ (appendInt _ _) => apply appendInt_byte
         | |- is_byte _ => unfold is_byte; lia
         end.

(** The bytes of a time by its fields *)
Definition fields_bytes (y m d hh mm ss : Z) (zone : list Z) : list Z :=
  appendInt y 4 ++ 45 :: appendInt m 2 ++ 45 :: appendInt d 2 ++ 84 ::
  appendInt hh 2 ++ 58 :: appendInt mm 2 ++ 58 :: appendInt ss 2 ++ zone.

Lemma parse_fields y m d hh mm ss zone :
  0 ≤ y < 10000 → 1 ≤ m ≤ 12 → 1 ≤ d ≤ daysIn m y → 0 ≤ hh < 24 → 0 ≤ mm < 60 → 0 ≤ ss < 60 →
  Z.rem zone 60 = 0 → Z.abs zone < 86400 →
  parse_bytes (fields_bytes y m d hh mm ss (zone_bytes zone)) = Some (int64 (Date y m d hh mm ss - zone)).
Proof.
  intros Hy Hm Hd Hh Hmm Hs Hr Hz. pose proof (daysIn_le m y Hm). unfold parse_bytes, fields_bytes.
  rewrite parse_year_appendInt by done. cbn [mbind option_bind expect Z.eqb Pos.eqb].
  rewrite getnum_appendInt by lia. cbn [mbind option_bind].
  rewrite (proj2 (Z.leb_gt m 0)), (proj2 (Z.ltb_ge 12 m)) by lia. cbn [orb expect Z.eqb Pos.eqb mbind option_bind].
  rewrite getnum_appendInt by lia. cbn [mbind option_bind expect Z.eqb Pos.eqb]. unfold getnum_below.
  rewrite getnum_appendInt by lia. cbn [mbind option_bind]. rewrite (proj2 (Z.leb_gt 24 hh)) by lia.
  cbn [expect Z.eqb Pos.eqb mbind option_bind].
  rewrite getnum_appendInt by lia. cbn [mbind option_bind]. rewrite (proj2 (Z.leb_gt 60 mm)) by lia.
  cbn [expect Z.eqb Pos.eqb mbind option_bind].
  rewrite getnum_appendInt by lia. cbn [mbind option_bind]. rewrite (proj2 (Z.leb_gt 60 ss)) by lia.
  cbn [mbind option_bind]. rewrite parse_zone_bytes by done. cbn [mbind option_bind].
  by rewrite (proj2 (Z.ltb_ge d 1)), (proj2 (Z.ltb_ge _ d)) by lia.
Qed.

(** [ToUnixTimestamp] reads the time [Format(time.RFC3339)] wrote, in every
    zone of whole minutes and for all seconds of the years 0 to 9999. *)
Lemma ToUnixTimestamp_Format unix zone :
  Z.rem zone 60 = 0 → Z.abs zone < 86400 → year0 ≤ unix + zone < year10000 →
  ToUnixTimestamp (Format unix zone) = Val unix.
Proof.
  intros Hr Hz Hy. unfold ToUnixTimestamp, Format, format_bytes. fold (zone_bytes zone).
  destruct (absDate _) as [[y m] d] eqn:Hd. destruct (format_date _ _ _ _ _ Hy Hd) as (Hyr & Hm & Hdd & Hdate).
  set (abs := uint64 _) in *. unfold secondsPerDay. cbn zeta in Hdate. set (sec := abs mod 86400) in *.
  assert (Hsec : 0 ≤ sec < 86400) by (apply Z.mod_pos_bound; lia). clearbody sec abs.
  fold (fields_bytes y m d (sec / 3600) (sec mod 3600 / 60) (sec mod 60) (zone_bytes zone)).
  assert (0 ≤ sec / 3600 < 24 ∧ 0 ≤ sec mod 3600 / 60 < 60 ∧ 0 ≤ sec mod 60 < 60) as (? & ? & ?)
    by (clear - Hsec; Z.to_euclidean_division_equations; lia).
  rewrite bytes_of_bytes.
  - rewrite parse_fields, Hdate by done. f_equal. unfold year0, year10000 in Hy.
    rewrite int64_id by (unfold in_int64, two63; lia). lia.
  - unfold fields_bytes, zone_bytes. destruct (zone =? 0); [|destruct (Z.quot zone 60 <? 0)]; text_bytes;
      try lia; Z.to_euclidean_division_equations; lia.
Qed.

Example Format_example : Format 951782400 (-19800) = "2000-02-28T18:30:00-05:30".
Proof. by vm_compute. Qed.
