(* ===== verification/Pagination.v ===== *)
(** * Pagination: pages of a listing from query parameters

    src/V2/pkg/api/helpers.go.  The clauses are SQL text; [clause_value] is how
    the database reads them. *)

From stdpp Require Import base list strings numbers.
From Stdlib Require Import ZArith Lia Ascii.
From S2P Require Import Prelude GoStrings.

Local Open Scope Z_scope.

(** [type Pagination struct] *)
Record Pagination := { LimitClause : string; OffsetClause : string; FromPage : Z; ToPage : Z }.

(** [func rangeErr(fromPage int, toPage int, max int) string] *)
Definition rangeErr (fromPage toPage max : Z) : string :=
  ("'from' (" ++ Itoa fromPage ++ ") and 'to' (" ++ Itoa toPage ++ ") range should be less than or equal to " ++ Itoa max)%string.

(** [func negativeErr(fromPage int, toPage int) string] *)
Definition negativeErr (fromPage toPage : Z) : string :=
  ("Unexpected state: 'from' (" ++ Itoa fromPage ++ ") is expected to be less than 'to' (" ++ Itoa toPage ++ ")")%string.

Definition limit_clause (n : Z) : string := ("LIMIT " ++ Itoa n)%string.
Definition offset_clause (n : Z) : string := ("OFFSET " ++ Itoa n)%string.

(** [func TraditionalPagintion(from string, to string, defaultLimit int, maxLimit int)] *)
Definition TraditionalPagintion (from to : string) (defaultLimit maxLimit : Z) : gores Pagination :=
  let fromPage := (Atoi from).1 in
  let toPage := match Atoi to with (t, None) => t | (_, Some _) => int64 (fromPage + defaultLimit) end in
  if negb (bool_decide (from = "")) && negb (bool_decide (to = "")) then
    let diff := int64 (toPage - fromPage) in
    if diff >? maxLimit then Err (ENew (rangeErr fromPage toPage maxLimit))
    else if (toPage =? 0) && (fromPage =? 0) then
      Val {| LimitClause := limit_clause defaultLimit; OffsetClause := offset_clause 0;
             FromPage := 0; ToPage := defaultLimit |}
    else if diff <=? 0 then Err (ENew (negativeErr fromPage toPage))
    else Val {| LimitClause := limit_clause diff; OffsetClause := offset_clause fromPage;
                FromPage := fromPage; ToPage := toPage |}
  else if negb (bool_decide (from = "")) then
    Val {| LimitClause := limit_clause defaultLimit; OffsetClause := offset_clause fromPage;
           FromPage := fromPage; ToPage := int64 (fromPage + defaultLimit) |}
  else if negb (bool_decide (to = "")) then
    let diff := int64 (toPage - fromPage) in
    if diff >? maxLimit then Err (ENew (rangeErr fromPage toPage maxLimit))
    else
      let toPage := if toPage =? 0 then defaultLimit else toPage in
      Val {| LimitClause := limit_clause toPage; OffsetClause := "";
             FromPage := fromPage; ToPage := toPage |}
  else
    Val {| LimitClause := limit_clause defaultLimit; OffsetClause := "";
           FromPage := fromPage; ToPage := toPage |}.

(** The number in a clause, when there is a clause *)
Definition clause_value (keyword clause : string) : option Z :=
  if HasPrefix clause keyword
  then Some (Atoi (of_bytes (drop (String.length keyword) (bytes clause)))).1
  else None.

Definition limit_of (clause : string) : option Z := clause_value "LIMIT " clause.
Definition offset_of (clause : string) : option Z := clause_value "OFFSET " clause.

Lemma drop_bytes_app s t : of_bytes (drop (String.length s) (bytes (s ++ t)%string)) = t.
Proof. rewrite bytes_app, <-length_bytes, drop_app_length. apply of_bytes_bytes. Qed.

Lemma limit_of_clause n : in_int64 n → limit_of (limit_clause n) = Some n.
Proof.
  intros Hn. unfold limit_of, clause_value, limit_clause. by rewrite HasPrefix_app, drop_bytes_app, Atoi_Itoa.
Qed.

Lemma offset_of_clause n : in_int64 n → offset_of (offset_clause n) = Some n.
Proof.
  intros Hn. unfold offset_of, clause_value, offset_clause. by rewrite HasPrefix_app, drop_bytes_app, Atoi_Itoa.
Qed.

(** ** The page that is asked for *)

(** The clauses of an accepted request select the page from [FromPage] to
    [ToPage] of the listing, of at most [maxLimit] entries. *)
Lemma TraditionalPagintion_page from to defaultLimit maxLimit p :
  0 < defaultLimit ≤ maxLimit → maxLimit < two63 → TraditionalPagintion from to defaultLimit maxLimit = Val p →
  limit_of (LimitClause p) = Some (int64 (ToPage p - FromPage p)) ∧
  default 0 (offset_of (OffsetClause p)) = FromPage p ∧ in_int64 (FromPage p) ∧ in_int64 (ToPage p) ∧
  int64 (ToPage p - FromPage p) ≤ maxLimit ∧
  (from ≠ "" ∨ to = "" ∨ 0 ≤ (Atoi to).1 → 0 < int64 (ToPage p - FromPage p)).
Proof.
  intros Hd Hm. unfold TraditionalPagintion.
  pose proof (ParseInt_in_int64 from) as Hf. pose proof (ParseInt_in_int64 to) as Ht. fold (Atoi from) in Hf. fold (Atoi to) in Ht.
  set (f := (Atoi from).1) in *.
  assert (Hdl : in_int64 defaultLimit) by (unfold in_int64, two63 in *; lia).
  assert (Hback : int64 (int64 (f + defaultLimit) - f) = defaultLimit).
  { unfold Z.sub. rewrite int64_add_l. replace (f + defaultLimit + - f) with defaultLimit by lia. by apply int64_id. }
  pose proof (int64_range (f + defaultLimit)) as Hfd.
  set (t := match Atoi to with (t, None) => t | _ => _ end).
  assert (Htr : in_int64 t) by (unfold t; destruct (Atoi to) as [? [|]]; done).
  destruct (decide (from = "")) as [Hfe|Hfe], (decide (to = "")) as [Hte|Hte];
    rewrite ?(bool_decide_eq_true_2 _ Hfe), ?(bool_decide_eq_false_2 _ Hfe),
      ?(bool_decide_eq_true_2 _ Hte), ?(bool_decide_eq_false_2 _ Hte); cbn [negb andb].
  - assert (f = 0) by (unfold f; by rewrite Hfe). assert (t = defaultLimit) as -> .
    { unfold t. rewrite Hte. cbn. rewrite H. by apply int64_id. }
    intros [= <-]; cbn [LimitClause OffsetClause FromPage ToPage].
    rewrite limit_of_clause, H, Z.sub_0_r, int64_id by done. by split_and!; try done; lia.
  - assert (f = 0) as Hf0 by (unfold f; by rewrite Hfe). rewrite Hf0, Z.sub_0_r, int64_id by done.
    destruct (Z.gtb_spec t maxLimit) as [|Hle]; [done|]. intros [= <-]; cbn [LimitClause OffsetClause FromPage ToPage].
    set (t' := if t =? 0 then defaultLimit else t).
    assert (Ht' : in_int64 t' ∧ t' ≤ maxLimit ∧ (0 ≤ (Atoi to).1 → 0 < t')).
    { unfold t'. destruct (Z.eqb_spec t 0); [by split_and!; try done; lia|]. split_and!; [done|done|].
      revert n. unfold t. rewrite Hf0. destruct (Atoi to) as [x [|]]; cbn; [|lia]. rewrite int64_id by done. lia. }
    destruct Ht' as (Hr & Hle' & Hpos). rewrite limit_of_clause, Z.sub_0_r, int64_id by done.
    split_and!; try done. by intros [?|[?|?]]; [..|apply Hpos].
  - intros [= <-]; cbn [LimitClause OffsetClause FromPage ToPage].
    rewrite limit_of_clause, offset_of_clause, Hback by done. by split_and!; try done; lia.
  - destruct (Z.gtb_spec (int64 (t - f)) maxLimit) as [|Hle]; [done|].
    destruct ((t =? 0) && (f =? 0)) eqn:H0; [|destruct (Z.leb_spec (int64 (t - f)) 0); [done|]];
      intros [= <-]; cbn [LimitClause OffsetClause FromPage ToPage].
    + rewrite limit_of_clause, offset_of_clause, Z.sub_0_r, int64_id by done. by split_and!; try done; lia.
    + rewrite limit_of_clause, offset_of_clause by (done || apply int64_range). by split_and!; try done; lia.
Qed.

(** What a listing has to do with a request: refuse it, fail, or show the entries
    from one number to another *)
Inductive paging := PageRefused | PageFailed | PageShown (from to : Z).

(** A parameter of the query: absent, or a number *)
Definition param (n : option Z) : string := match n with Some z => Itoa z | None => "" end.

(** The page that the numbers [from] and [to] stand for: [size] entries where
    [to] is absent or both are zero, never more than [max]; a page that would
    begin or end before the listing is an error of the database. *)
Definition page_asked (size max : Z) (from to : option Z) : paging :=
  match from, to with
  | None, None => PageShown 0 size
  | Some f, None => if f <? 0 then PageFailed else PageShown f (f + size)
  | None, Some t => if max <? t then PageRefused else if t <? 0 then PageFailed else if t =? 0 then PageShown 0 size else PageShown 0 t
  | Some f, Some t =>
      if (f =? 0) && (t =? 0) then PageShown 0 size
      else if (t <=? f) || (max <? t - f) then PageRefused
      else if f <? 0 then PageFailed else PageShown f t
  end.

Lemma Itoa_nonempty z : in_int64 z → Itoa z ≠ "".
Proof. intros Hz He. pose proof (Atoi_Itoa z Hz) as H. by rewrite He in H. Qed.

(** [TraditionalPagintion] finds it. *)
Lemma TraditionalPagintion_asked size max from to :
  0 < size ≤ max → max < 2 ^ 31 →
  (∀ z, from = Some z → - 2 ^ 62 < z < 2 ^ 62) → (∀ z, to = Some z → - 2 ^ 62 < z < 2 ^ 62) →
  match page_asked size max from to with
  | PageRefused => ∃ e, TraditionalPagintion (param from) (param to) size max = Err e
  | PageFailed => ∃ p, TraditionalPagintion (param from) (param to) size max = Val p ∧ (FromPage p < 0 ∨ FromPage p = 0 ∧ - 2 ^ 62 < ToPage p < 0)
  | PageShown f t =>
      ∃ p, TraditionalPagintion (param from) (param to) size max = Val p ∧ FromPage p = f ∧ ToPage p = t ∧
        0 ≤ f < t ∧ t < 2 ^ 63 - 2 ^ 61
  end.
Proof.
  intros Hs Hm Hf Ht.
  assert (Hin : ∀ z, - 2 ^ 62 < z < 2 ^ 62 → in_int64 z) by (unfold in_int64, two63; lia).
  unfold TraditionalPagintion, page_asked, param. destruct from as [f|], to as [t|].
  - specialize (Hf f eq_refl). specialize (Ht t eq_refl). rewrite !Atoi_Itoa by auto. cbn [fst].
    rewrite !bool_decide_eq_false_2 by (apply Itoa_nonempty; auto). cbn [negb andb].
    rewrite (int64_id (t - f)), (andb_comm (t =? 0)) by (unfold in_int64, two63; lia).
    destruct ((f =? 0) && (t =? 0)) eqn:E0.
    + destruct (Z.gtb_spec (t - f) max); [lia|]. eexists. split; [done|]. cbn. lia.
    + destruct (Z.gtb_spec (t - f) max), (Z.leb_spec t f), (Z.ltb_spec max (t - f)), (Z.leb_spec (t - f) 0); try lia;
        cbn [orb]; try (by eexists). destruct (Z.ltb_spec f 0); eexists; (split; [done|cbn; lia]).
  - specialize (Hf f eq_refl). rewrite Atoi_Itoa by auto. cbn [fst].
    rewrite bool_decide_eq_false_2 by (apply Itoa_nonempty; auto). cbn [negb andb].
    rewrite (bool_decide_eq_true_2 ("" = "")) by done. cbn [negb].
    rewrite int64_id by (unfold in_int64, two63; lia).
    destruct (Z.ltb_spec f 0); eexists; (split; [done|cbn; lia]).
  - specialize (Ht t eq_refl). rewrite Atoi_Itoa by auto. change (Atoi "").1 with 0.
    rewrite (bool_decide_eq_true_2 ("" = "")) by done. cbn [negb andb].
    rewrite bool_decide_eq_false_2 by (apply Itoa_nonempty; auto). cbn [negb].
    rewrite Z.sub_0_r, int64_id by auto. destruct (Z.gtb_spec t max), (Z.ltb_spec max t); try lia; [by eexists|].
    destruct (Z.eqb_spec t 0), (Z.ltb_spec t 0); try lia; eexists; (split; [done|cbn; lia]).
  - rewrite (bool_decide_eq_true_2 ("" = "")) by done. cbn [negb andb]. eexists. split; [done|].
    change (Atoi "") with (0, snd (Atoi "")). cbn [fst].
    cbn [FromPage ToPage]. assert (E : snd (Atoi "") ≠ None) by by vm_compute. destruct (snd (Atoi "")); [|done].
    rewrite int64_id by (unfold in_int64, two63; lia). lia.
Qed.

(** Negative page numbers are accepted; the database refuses them. *)
Lemma negative_limit_accepted :
  limit_of <$> (LimitClause <$> TraditionalPagintion "" "-5" 10 50) = Val (Some (-5)) ∧
  offset_of <$> (OffsetClause <$> TraditionalPagintion "-5" "5" 10 50) = Val (Some (-5)).
Proof. by vm_compute. Qed.
