(* ===== verification/Config.v ===== *)
(** * Config: the configuration of the services

    src/V2/config/config.go: the records, and the choice of a coin's part.  [Get],
    which reads the file, is in [ConfigJson]. *)

From stdpp Require Import base list strings.
From Stdlib Require Import ZArith Lia.
From S2P Require Import Prelude GoStrings.

Local Open Scope Z_scope.

(** [type Retry struct] *)
Record RetryConfig := { Attempts : Z; Sleep : Z }.

(** [type BaseDB struct] *)
Record BaseDB := {
  MaxConns : Z;
  MaxConnLifetime : Z;
  db_Threads : Z;
  db_Retry : RetryConfig;
  db_Timeout : Z;
}.

(** [type CoinDB struct] *)
Record CoinDB := { ReadOnly_ : string; ReadWrite_ : string }.

(** [type DB struct] *)
Record DB := { URI : string; db_BaseDB : BaseDB; db_CoinDB : CoinDB }.

(** [type BaseRPC struct] *)
Record BaseRPC := { rpc_Threads : Z; rpc_Timeout : Z; rpc_Retry : RetryConfig }.

(** [type CoinRPC struct] *)
Record CoinRPC := { URL : string; User : string; Password : string }.

(** [type RPC struct] *)
Record RPC := { rpc_Base : BaseRPC; rpc_Coin : CoinRPC }.

(** [type ZMQ struct] *)
Record ZMQ := { zmq_Timeout : Z; SubURL : string; Subscriptions : list string }.

(** [type Coin struct] *)
Record Coin := { coin_Name : string; c_RPC : CoinRPC; c_ZMQ : ZMQ; c_DB : CoinDB }.

(** [type Config struct] *)
Record Config := { cfg_DB : BaseDB; cfg_RPC : BaseRPC; Coins : list Coin }.

(** [type DatabaseType int]: [ReadOnly] is 0 and [ReadWrite] is 1. *)
Definition DatabaseType : Type := Z.
Definition ReadOnly : DatabaseType := 0.
Definition ReadWrite : DatabaseType := 1.

(** [func (a DatabaseType) String() string] *)
Definition DatabaseType_String (a : DatabaseType) : gores string :=
  match (if a <? 0 then None else ["ReadOnly"; "ReadWrite"] !! Z.to_nat a) with
  | Some s => Val s
  | None => Panic IndexOutOfRange
  end.

Definition no_coin_db : CoinDB := {| ReadOnly_ := ""; ReadWrite_ := "" |}.

(** [func (c *Config) GetDBConfig(db DatabaseType, cc *Coin) (DB, error)].  The
    message of the error prints [db] with its [String] method; package fmt
    recovers the panic of that method, so an unknown type is an error. *)
Definition GetDBConfig (c : Config) (db : DatabaseType) (cc : Coin) : gores DB :=
  if db =? ReadOnly then Val {| URI := ReadOnly_ (c_DB cc); db_BaseDB := cfg_DB c; db_CoinDB := no_coin_db |}
  else if db =? ReadWrite then Val {| URI := ReadWrite_ (c_DB cc); db_BaseDB := cfg_DB c; db_CoinDB := no_coin_db |}
  else Err (ENew "unable to find db configuration for type: '%s'").

(** [func (c *Config) GetRPCConfig(cc *Coin) RPC] *)
Definition GetRPCConfig (c : Config) (cc : Coin) : RPC := {| rpc_Base := cfg_RPC c; rpc_Coin := c_RPC cc |}.

(** [func (c *Config) GetCoin(coin string) (Coin, error)] *)
Fixpoint find_coin (coin : string) (l : list Coin) : gores Coin :=
  match l with
  | v :: l => if bool_decide (coin_Name v = coin) then Val v else find_coin coin l
  | [] => Err (ENew ("unable to find configuration for coin: '" ++ coin ++ "'"))
  end.

Definition GetCoin (c : Config) (coin : string) : gores Coin := find_coin coin (Coins c).

(** [func (c *Config) ListCoins() []string] *)
Definition ListCoins (c : Config) : list string := map coin_Name (Coins c).

(** A coin is found exactly when it is listed, and what is found has the name. *)
Lemma GetCoin_listed c coin :
  match GetCoin c coin with
  | Val cc => coin_Name cc = coin ∧ cc ∈ Coins c
  | Err _ => coin ∉ ListCoins c
  | _ => False
  end.
Proof.
  unfold GetCoin, ListCoins. induction (Coins c) as [|v l IH]; cbn; [apply not_elem_of_nil|].
  case_bool_decide as Hv; [by split; [|left]|].
  destruct (find_coin coin l) as [cc|e|p|e]; [|by apply not_elem_of_cons|done|done].
  destruct IH. by split; [|right].
Qed.
