(* ===== verification/Log.v ===== *)
(** * Log: the structured log

    src/V2/internal/log/log.go.  Each message carries the service, the coin and
    the package, and the custom fields that were set before it; the custom fields
    are one variable of the process, guarded by a mutex.  Writing the lines is
    github.com/sirupsen/logrus. *)

From stdpp Require Import base gmap strings list.
From S2P Require Import Prelude.

(** The levels; [logrus.SetLevel(logrus.InfoLevel)] leaves out the first. *)
Inductive level := DebugLevel | InfoLevel | WarnLevel | ErrorLevel | FatalLevel | PanicLevel.

(** [type Fields map[string]interface{}] *)
Abbreviation Fields V := (gmap string V).

Section log.
Context {V : Type} (text : string → V).

(** The variables of the package; a nil map has no fields *)
Record logger := { service : string; coin : string; customFields : Fields V }.

(** [func Initialize(s string, c string)] *)
Definition Initialize (s c : string) (l : logger) : logger := {| service := s; coin := c; customFields := customFields l |}.

(** [func SetCustomFields(f Fields)] *)
Definition SetCustomFields (f : Fields V) (l : logger) : logger :=
  {| service := service l; coin := coin l; customFields := f |}.

(** [func clearCustomFields()] *)
Definition clearCustomFields (l : logger) : logger := SetCustomFields ∅ l.

(** [func constructFields(pkg string) logrus.Fields] *)
Definition constructFields (pkg : string) (l : logger) : Fields V :=
  customFields l ∪ <["service" := text (service l)]> (<["coin" := text (coin l)]> {["package" := text pkg]}).

(** [func constructMessage(args ...interface{}) string]; [args] is their [Sprint] *)
Definition constructMessage (args : option string) : string :=
  match args with None => "" | Some s => (s ++ ": ")%string end.

(** A line of the log *)
Record line := { l_level : level; l_fields : Fields V; l_message : string }.

Definition printed (v : level) (fields : Fields V) (msg : string) : list line :=
  match v with DebugLevel => [] | _ => [{| l_level := v; l_fields := fields; l_message := msg |}] end.

(** [Debug], [Info], [Warn], [Error], [Fatal] and [Panic] with their variants:
    the last two do not come back from the line *)
Definition message (v : level) (pkg msg : string) (l : logger) : list line * (gores unit * logger) :=
  let fields := constructFields pkg l in
  (printed v fields msg,
   match v with
   | FatalLevel => (Exit (ENew msg), l)
   | PanicLevel => (Panic InvalidArgument, l)
   | _ => (Val tt, clearCustomFields l)
   end).

(** [func Error(err error, pkg string, args ...interface{})]; [err] is its text *)
Definition Error (err : string) (pkg : string) (args : option string) : logger → list line * (gores unit * logger) :=
  message ErrorLevel pkg (constructMessage args ++ err).

(** ** One goroutine *)

(** The levels that are printed and come back *)
Definition ordinary (v : level) : bool := match v with InfoLevel | WarnLevel | ErrorLevel => true | _ => false end.

(** A message after [SetCustomFields] carries the fields, which replace the
    standard ones of the same name, and the next message does not. *)
Lemma custom_fields_once v w pkg pkg' msg msg' f l :
  ordinary v = true → ordinary w = true →
  let '(lines, (r, l1)) := message v pkg msg (SetCustomFields f l) in
  let '(lines', (r', l2)) := message w pkg' msg' l1 in
  lines = [{| l_level := v; l_fields := f ∪ constructFields pkg (clearCustomFields l); l_message := msg |}] ∧
  lines' = [{| l_level := w; l_fields := constructFields pkg' (clearCustomFields l); l_message := msg' |}] ∧
  customFields l2 = ∅.
Proof.
  intros Hv Hw. assert (Hu : ∀ p, constructFields p (clearCustomFields l) =
    <["service" := text (service l)]> (<["coin" := text (coin l)]> {["package" := text p]})).
  { intros p. unfold constructFields, clearCustomFields, SetCustomFields. cbn [customFields service coin]. by rewrite (left_id_L ∅ (∪)). }
  assert (Hm : ∀ u p m k, ordinary u = true →
    message u p m k = ([{| l_level := u; l_fields := constructFields p k; l_message := m |}], (Val tt, clearCustomFields k))).
  { by intros []. }
  rewrite Hm by done. rewrite Hm by done. split; [|done]. by rewrite Hu.
Qed.

(** ** Several goroutines *)

(** What the goroutines do one at a time: setting the fields, and the two guarded
    parts of a message, reading the fields and clearing them *)
Inductive op := Sets (f : Fields V) | Reads (pkg msg : string) | Clears.

Definition step (l : logger) (o : op) : list line * logger :=
  match o with
  | Sets f => ([], SetCustomFields f l)
  | Reads pkg msg => (printed ErrorLevel (constructFields pkg l) msg, l)
  | Clears => ([], clearCustomFields l)
  end.

Fixpoint run (l : logger) (os : list op) : list line * logger :=
  match os with
  | [] => ([], l)
  | o :: os => let '(lines, l) := step l o in let '(lines', l) := run l os in (lines ++ lines', l)
  end.

(** A request that sets its fields and logs an error *)
Definition request (f : Fields V) (msg : string) : list op := [Sets f; Reads "logger" msg; Clears].

(** One request after the other is logged with its own fields. *)
Lemma requests_in_turn rs l :
  (run l (concat (map (fun r => request r.1 r.2) rs))).1 =
    map (fun r => {| l_level := ErrorLevel; l_fields := constructFields "logger" (SetCustomFields r.1 l); l_message := r.2 |}) rs.
Proof.
  revert l. induction rs as [|[f msg] rs IH]; intros l; [done|]. cbn.
  specialize (IH (clearCustomFields (SetCustomFields f l))).
  destruct (run (clearCustomFields (SetCustomFields f l)) _) as [lines l']. cbn in *. by rewrite IH.
Qed.

End log.

(** Two requests at a time: the first is logged with the status of the second, and
    the second with none. *)
Lemma requests_crossed :
  let f : Fields string := {["statusCode" := "404"]} in
  let g : Fields string := {["statusCode" := "500"]} in
  let l := {| service := "coinquery-api"; coin := "btc"; customFields := ∅ |} in
  let lines := (run (fun s => s) l [Sets f; Sets g; Reads "logger" "first"; Clears; Reads "logger" "second"; Clears]).1 in
  map (fun x => (l_message x, l_fields x !! "statusCode")) lines = [("first", Some "500"); ("second", None)]%string.
Proof. by vm_compute. Qed.
