(* ===== verification/Connection.v ===== *)
(** * Connection: the connection to the database

    [New], [Close], [monitor], [schemaFromCoin] and [compile] of
    src/V2/pkg/postgres/postgres.go, the tokens every query takes from [sem], and
    [GetNumTransactions].  Package database/sql with its driver is a parameter. *)

From stdpp Require Import base list strings relations numbers.
From Stdlib Require Import ZArith Lia.
From S2P Require Import Prelude GoStrings Config.

Local Open Scope Z_scope.

(** ** Schemas *)

(** [func schemaFromCoin(coin string) schemaPrefix] *)
Definition schemaFromCoin (coin : string) : string :=
  let c := ToUpper coin in
  if String.eqb c "BTC" then "btc"
  else if String.eqb c "BCH" then "bch"
  else if String.eqb c "BTCTESTNET" then "btctestnet"
  else if String.eqb c "DGB" then "dgb"
  else if String.eqb c "LTC" then "ltc"
  else if String.eqb c "DASH" then "dash"
  else if String.eqb c "DOGE" then "doge"
  else "".

(** [l] without the text [p] at its start *)
Fixpoint without (p l : list Z) : option (list Z) :=
  match p, l with
  | [], _ => Some l
  | a :: p, b :: l => if a =? b then without p l else None
  | _ :: _, [] => None
  end.

(** [strings.Replace(s, old, new, -1)] on bytes, for a text [old] that is not
    empty; every round takes a byte at least *)
Fixpoint replace_all (fuel : nat) (old new l : list Z) : list Z :=
  match fuel, l with
  | S fuel, c :: l' =>
      match without old l with
      | Some rest => new ++ replace_all fuel old new rest
      | None => c :: replace_all fuel old new l'
      end
  | _, _ => []
  end.

(** [func compile(query string, prefix schemaPrefix) string] *)
Definition compile (query prefix : string) : string :=
  of_bytes (replace_all (length (bytes query)) (bytes "_SCHEMA_") (bytes prefix) (bytes query)).

(** ** Package database/sql *)

Class Sql (Conn W : Type) := {
  sql_Open : string → act W Conn;
  SetPool : Conn → Z → Z → Z → W → W;  (** [SetMaxOpenConns], [SetMaxIdleConns], [SetConnMaxLifetime] *)
  sql_Ping : Conn → act W unit;
  sql_Close : Conn → act W unit;
  live_tuples : Conn → string → act W Z;  (** the query of [GetNumTransactions] *)
}.

(** What the code relies on: the calls return, and a connection is to the database
    it was opened for. *)
Class SqlLaws (Conn W : Type) {sql : Sql Conn W} := {
  uri_of : Conn → string;
  sql_Open_spec uri w :
    match sql_Open uri w with (Val c, _) => uri_of c = uri | (Err _, _) => True | _ => False end;
  sql_Ping_returned c w : returned (sql_Ping c w).1;
}.

(** [type Database struct] *)
Record Database (Conn : Type) := {
  conn : Conn;
  prefix : string;
  sem : nat;        (** the capacity of [sem] *)
  retry : RetryConfig;
  db_timeout : Z;
}.
Arguments conn {Conn} _.
Arguments prefix {Conn} _.
Arguments sem {Conn} _.
Arguments retry {Conn} _.
Arguments db_timeout {Conn} _.

Section connection.
Context {Conn W : Type} {sql : Sql Conn W}.

(** [func New(dbConfig *config.DB, coin string) ( *Database, error)]; the monitor is
    started at the end *)
Definition New (dbConfig : DB) (coin : string) : act W (Database Conn) :=
  let base := db_BaseDB dbConfig in
  act_bind (act_wrap "failed to open connection to db" (sql_Open (URI dbConfig))) (fun db w =>
    if String.eqb (schemaFromCoin coin) "" then
      (Err (EWrap "Invalid schema for given coin" (ENew ("Coin: " ++ coin ++ " is unsupported"))), w)
    else
      let w := SetPool db (MaxConns base) (Z.quot (MaxConns base) 2) (int64 (MaxConnLifetime base * 1000000000)) w in
      act_bind (act_wrap "failed to communicate with db" (sql_Ping db)) (fun _ w =>
        if MaxConns base <? 0 then (Panic NegativeChanSize, w)
        else (Val {| conn := db; prefix := schemaFromCoin coin; sem := Z.to_nat (MaxConns base); retry := db_Retry base;
                     db_timeout := int64 (db_Timeout base * 1000000000) |}, w)) w).

(** [func monitor(db *sql.DB, closing chan struct{})]: a warning for every tick
    whose ping fails *)
Fixpoint monitor (db : Conn) (ticks : nat) (w : W) : list gerror * W :=
  match ticks with
  | O => ([], w)
  | S ticks =>
      match sql_Ping db w with
      | (Err e, w) => let '(warnings, w) := monitor db ticks w in (e :: warnings, w)
      | (_, w) => monitor db ticks w
      end
  end.

(** [func (d *Database) Close() error], once the monitor has taken the signal *)
Definition Close (d : Database Conn) : act W unit := sql_Close (conn d).

(** [func (d *Database) defaultDeadline()]: the timeout of the context, if any *)
Definition defaultDeadline (d : Database Conn) : option Z :=
  if db_timeout d >? 0 then Some (db_timeout d) else None.

(** [func (d *Database) GetNumTransactions() (int, error)] *)
Definition GetNumTransactions (d : Database Conn) : act W Z :=
  act_wrap "failed to get transaction count" (live_tuples (conn d) (compile
    "
		SELECT
			n_live_tup AS EstimatedCount
		FROM
			pg_stat_user_tables
		WHERE
			schemaname = '_SCHEMA_'
			AND relname = 'transaction';
	"
    (prefix d))).

(** [New] connects a supported coin to the database of the configuration, with a
    token per connection, or returns an error; a negative number of connections
    panics. *)
Lemma New_outcome {laws : SqlLaws Conn W} dbConfig coin w :
  match (New dbConfig coin w).1 with
  | Val d => uri_of (conn d) = URI dbConfig ∧ prefix d = schemaFromCoin coin ∧ prefix d ≠ ""%string ∧
             Z.of_nat (sem d) = MaxConns (db_BaseDB dbConfig) ∧ retry d = db_Retry (db_BaseDB dbConfig)
  | Err _ => True
  | Panic p => p = NegativeChanSize ∧ MaxConns (db_BaseDB dbConfig) < 0
  | Exit _ => False
  end.
Proof.
  unfold New, act_bind, act_wrap. pose proof (sql_Open_spec (URI dbConfig) w) as Ho.
  destruct (sql_Open (URI dbConfig) w) as [[db|e|?|?] w1]; try done. cbn [wrap_err].
  destruct (String.eqb_spec (schemaFromCoin coin) "") as [|Hs]; [done|].
  set (w2 := SetPool _ _ _ _ w1). pose proof (sql_Ping_returned db w2) as Hp. destruct (sql_Ping db w2) as [[u|e|?|?] w3]; try done.
  cbn [wrap_err]. destruct (Z.ltb_spec (MaxConns (db_BaseDB dbConfig)) 0); [done|].
  cbn. by rewrite Z2Nat.id by done.
Qed.

End connection.

(** ** Schemas of coins *)

(** Two coins share a schema only when they are the same up to case, and a
    supported coin is its schema up to case. *)
Lemma schemaFromCoin_coin coin : schemaFromCoin coin ≠ ""%string → ToUpper coin = ToUpper (schemaFromCoin coin).
Proof.
  unfold schemaFromCoin. repeat (match goal with |- context [String.eqb ?a ?b] => destruct (String.eqb_spec a b) as [->|] end; [done|]).
  done.
Qed.

Lemma schemaFromCoin_inj c c' :
  schemaFromCoin c = schemaFromCoin c' → schemaFromCoin c ≠ ""%string → ToUpper c = ToUpper c'.
Proof. intros E Hc. rewrite (schemaFromCoin_coin c Hc), E. symmetry. apply schemaFromCoin_coin. congruence. Qed.

(** ** Queries *)

Lemma without_app p l : without p (p ++ l) = Some l.
Proof. induction p as [|a p IH]; [done|]. cbn. by rewrite Z.eqb_refl. Qed.

(** A text without underscores stays, and the name of the schema is replaced. *)
Lemma replace_all_plain fuel new l rest :
  95 ∉ l → (length l ≤ fuel)%nat →
  replace_all fuel (bytes "_SCHEMA_") new (l ++ rest) = l ++ replace_all (fuel - length l) (bytes "_SCHEMA_") new rest.
Proof.
  revert fuel. induction l as [|c l IH]; intros fuel Hl Hf; [by rewrite Nat.sub_0_r|].
  destruct fuel as [|fuel]; [cbn in Hf; lia|]. apply not_elem_of_cons in Hl as [Hc Hl]. cbn [app replace_all length].
  assert (Hw : ∀ k, without (bytes "_SCHEMA_") (c :: k) = None).
  { intros k. change (bytes "_SCHEMA_") with (95 :: bytes "SCHEMA_"). cbn [without]. by rewrite (proj2 (Z.eqb_neq 95 c)). }
  rewrite Hw. f_equal. apply IH; [done|cbn in Hf; lia].
Qed.

Lemma replace_all_none fuel new l :
  95 ∉ l → (length l ≤ fuel)%nat → replace_all fuel (bytes "_SCHEMA_") new l = l.
Proof.
  intros Hl Hf. rewrite <-(app_nil_r l) at 1. rewrite replace_all_plain by done.
  destruct (fuel - length l)%nat; cbn; by rewrite app_nil_r.
Qed.

Lemma replace_all_found fuel old new l :
  old ≠ [] → replace_all (S fuel) old new (old ++ l) = new ++ replace_all fuel old new l.
Proof. intros Hne. pose proof (without_app old l) as Hw. destruct old as [|c old]; [done|]. cbn [app replace_all] in *. by rewrite Hw. Qed.

Lemma compile_schema a b schema :
  95 ∉ bytes a → 95 ∉ bytes b → compile (a ++ "_SCHEMA_" ++ b) schema = (a ++ schema ++ b)%string.
Proof.
  intros Ha Hb. unfold compile. rewrite bytes_app, replace_all_plain by (try done; rewrite length_app; lia).
  rewrite length_app. set (n := (length (bytes a) + _ - _)%nat). rewrite bytes_app.
  assert (Hn : n = (8 + length (bytes b))%nat) by (unfold n; rewrite bytes_app, length_app; cbn; lia).
  rewrite Hn. change (8 + length (bytes b))%nat with (S (7 + length (bytes b))). rewrite replace_all_found by done.
  rewrite replace_all_none by (try done; lia). by rewrite !of_bytes_app, !of_bytes_bytes.
Qed.

(** ** Tokens *)

(** The queries that wait for a token and those that have one; [size] is the
    capacity of [sem] *)
Inductive token_step (size : nat) : nat * nat → nat * nat → Prop :=
| query_comes w i : token_step size (w, i) (S w, i)
| token_taken w i : (i < size)%nat → token_step size (S w, i) (w, S i)
| token_back w i : token_step size (w, S i) (w, i).

(** Never more queries than connections have a token, and none ever does when the
    configuration allows no connection. *)
Lemma tokens_bounded size w i : rtc (token_step size) (0, 0)%nat (w, i) → (i ≤ size)%nat.
Proof.
  intros H. cut ((w, i).2 ≤ size)%nat; [done|]. revert H.
  apply (rtc_ind_r (R := token_step size) (fun s => s.2 ≤ size)%nat (0, 0)%nat); [cbn; lia|].
  intros x y _ Hstep Hx. inversion Hstep; subst; cbn in *; lia.
Qed.
