(* ===== verification/Helpers.v ===== *)
(** * Helpers: sets of strings as slices

    src/V2/internal/includes/includes.go and
    src/V2/internal/difference/difference.go. *)

From stdpp Require Import base list strings gmap numbers.
From Stdlib Require Import ZArith Lia.
From S2P Require Import Prelude.

(** [includes.String(ss []string, es ...string) bool] *)
Definition includes (ss es : list string) : bool :=
  existsb (fun e => existsb (fun s => bool_decide (e = s)) ss) es.

Lemma includes_spec ss es : includes ss es = true ↔ ∃ e, e ∈ es ∧ e ∈ ss.
Proof.
  unfold includes. rewrite existsb_exists. split.
  - intros (e & He%list_elem_of_In & (s & Hs%list_elem_of_In & ->%bool_decide_eq_true)%existsb_exists). by exists s.
  - intros (e & He & Hs). exists e. split; [by apply list_elem_of_In|]. apply existsb_exists. exists e.
    split; [by apply list_elem_of_In|by apply bool_decide_eq_true].
Qed.

(** The map [mshort] *)
Definition mshort (short : list string) : gmap string bool :=
  foldl (fun m x => <[x := true]> m) ∅ short.

Lemma mshort_spec short x : is_Some (mshort short !! x) ↔ x ∈ short.
Proof.
  unfold mshort. assert (H : ∀ m : gmap string bool,
    is_Some (foldl (fun m x => <[x := true]> m) m short !! x) ↔ x ∈ short ∨ is_Some (m !! x)).
  { induction short as [|y short IH]; intros m; cbn [foldl].
    - rewrite elem_of_nil. tauto.
    - rewrite IH, lookup_insert_is_Some', elem_of_cons. split; [intros [?|[->|?]]|intros [[->|?]|?]]; tauto. }
  rewrite H, lookup_empty. split; [intros [|[? [=]]]; done|by left].
Qed.

(** [difference.String(a, b []string) []string] *)
Definition difference (a b : list string) : list string :=
  let '(short, long) := if (length a <? length b)%nat then (a, b) else (b, a) in
  let m := mshort short in
  filter (fun x => m !! x = None) long.

(** Only the longer slice contributes. *)
Lemma difference_spec a b x :
  x ∈ difference a b ↔ if (length a <? length b)%nat then x ∈ b ∧ x ∉ a else x ∈ a ∧ x ∉ b.
Proof.
  unfold difference. destruct (_ <? _)%nat; rewrite list_elem_of_filter, eq_None_not_Some, mshort_spec; tauto.
Qed.

(** What a set difference in both directions would contain is lost. *)
Lemma difference_is_one_sided : difference ["a"] ["b"; "c"] = ["b"; "c"].
Proof. reflexivity. Qed.
