(* ===== verification/Scripts.v ===== *)
(** * Scripts: addresses from locking scripts

    src/V2/internal/btcscriptparser/btc_script_parser.go: each function cuts the
    key or hash out of a script of one standard form and makes an address of
    it.  The addresses are those of package btcutil, a parameter.  Scripts of the
    form give the address of their key or hash; nothing else of a script is
    looked at, and short scripts panic. *)

From stdpp Require Import base list strings numbers.
From Stdlib Require Import ZArith Lia.
From S2P Require Import Prelude GoStrings.

Local Open Scope Z_scope.

(** The address constructors of btcutil for the main network, up to the text of
    the address *)
Class AddressMakers := {
  NewAddressPubKey : list Z → gores string;
  NewAddressPubKeyHash : list Z → gores string;
  NewAddressScriptHashFromHash : list Z → gores string;
  NewAddressWitnessPubKeyHash : list Z → gores string;
  NewAddressWitnessScriptHash : list Z → gores string;
}.

(** [b[lo:hi]] *)
Definition slice {A} (b : list A) (lo hi : Z) : gores (list A) :=
  if (0 <=? lo) && (lo <=? hi) && (hi <=? Z.of_nat (length b)) then
    Val (take (Z.to_nat (hi - lo)) (drop (Z.to_nat lo) b))
  else Panic SliceBounds.

Definition decode_script (outputScriptHex : string) : gores (list Z) :=
  match DecodeString outputScriptHex with Some b => Val b | None => Err (ENew "encoding/hex") end.

Section parser.
Context {makers : AddressMakers}.

(** [func P2PKToAddress(outputScriptHex string) (string, error)] *)
Definition P2PKToAddress (outputScriptHex : string) : gores string :=
  b ← decode_script outputScriptHex;
  addrPubKey ← slice b 1 (Z.of_nat (length b) - 1);
  wrap_err "failed to create new p2pk address pub key from: %s" (NewAddressPubKey addrPubKey).

(** [func P2PKHToAddress(outputScriptHex string) (string, error)] *)
Definition P2PKHToAddress (outputScriptHex : string) : gores string :=
  b ← decode_script outputScriptHex;
  pubKeyHash ← slice b 3 (Z.of_nat (length b) - 2);
  wrap_err "failed to create new p2pkh address pub key hash from: %s" (NewAddressPubKeyHash pubKeyHash).

(** [func P2SHToAddress(outputScriptHex string) (string, error)] *)
Definition P2SHToAddress (outputScriptHex : string) : gores string :=
  b ← decode_script outputScriptHex;
  scriptHash ← slice b 2 (Z.of_nat (length b) - 1);
  wrap_err "failed to create new p2sh address script hash from: %s" (NewAddressScriptHashFromHash scriptHash).

(** [func P2WPKHToAddress(outputScriptHex string) (string, error)] *)
Definition P2WPKHToAddress (outputScriptHex : string) : gores string :=
  b ← decode_script outputScriptHex;
  witnessProg ← slice b 2 (Z.of_nat (length b));
  wrap_err "failed to create new p2wpkh address witness pub key hash from: %s" (NewAddressWitnessPubKeyHash witnessProg).

(** [func P2WSHToAddress(outputScriptHex string) (string, error)] *)
Definition P2WSHToAddress (outputScriptHex : string) : gores string :=
  b ← decode_script outputScriptHex;
  witnessProg ← slice b 2 (Z.of_nat (length b));
  wrap_err "failed to create new p2wsh address witness script hash from: %s" (NewAddressWitnessScriptHash witnessProg).

End parser.

(** ** Lemmas *)

(** What is between a prefix and a suffix *)
Lemma slice_middle {A} (pre mid post : list A) lo k :
  lo = Z.of_nat (length pre) → k = Z.of_nat (length post) →
  slice (pre ++ mid ++ post) lo (Z.of_nat (length (pre ++ mid ++ post)) - k) = Val mid.
Proof.
  intros -> ->. unfold slice. rewrite !length_app, !(proj2 (Z.leb_le _ _)) by lia. cbn [andb].
  replace (Z.to_nat _) with (length mid) at 1 by lia. rewrite Nat2Z.id, drop_app_length, take_app_length. done.
Qed.

(** A slice that leaves [lo] and [hi] bytes off panics on fewer bytes. *)
Lemma slice_panics {A} (b : list A) lo hi :
  0 ≤ lo → 0 ≤ hi → slice b lo (Z.of_nat (length b) - hi) = Panic SliceBounds ↔ Z.of_nat (length b) < lo + hi.
Proof.
  intros Hlo Hhi. unfold slice. rewrite (proj2 (Z.leb_le 0 lo)), (proj2 (Z.leb_le _ (Z.of_nat (length b)))) by lia.
  rewrite andb_true_r. cbn [andb]. destruct (Z.leb_spec lo (Z.of_nat (length b) - hi)); split; (done || lia).
Qed.

Section laws.
Context {makers : AddressMakers}.

Lemma decode_encoded b : Forall is_byte b → decode_script (EncodeToString b) = Val b.
Proof. intros H. unfold decode_script. by rewrite DecodeString_EncodeToString. Qed.

(** The operators are not looked at: any five bytes around the hash will do. *)
Lemma P2PKHToAddress_any_operators a b c d e h :
  Forall is_byte ([a; b; c] ++ h ++ [d; e]) →
  P2PKHToAddress (EncodeToString ([a; b; c] ++ h ++ [d; e]))
    = wrap_err "failed to create new p2pkh address pub key hash from: %s" (NewAddressPubKeyHash h).
Proof.
  intros Hb. unfold P2PKHToAddress. rewrite decode_encoded by done. cbn [mbind gores_bind].
  by rewrite (slice_middle [a; b; c] h [d; e] 3 2 eq_refl eq_refl).
Qed.

Lemma script_bytes pre h post : Forall is_byte pre → Forall is_byte h → Forall is_byte post → Forall is_byte (pre ++ h ++ post).
Proof. intros. apply list.Forall_app. split; [done|]. by apply list.Forall_app. Qed.

(** [OP_DUP OP_HASH160 20 <hash> OP_EQUALVERIFY OP_CHECKSIG] *)
Lemma P2PKHToAddress_script h :
  Forall is_byte h →
  P2PKHToAddress (EncodeToString ([118; 169; 20] ++ h ++ [136; 172]))
    = wrap_err "failed to create new p2pkh address pub key hash from: %s" (NewAddressPubKeyHash h).
Proof. intros Hh. apply P2PKHToAddress_any_operators, script_bytes; [by repeat constructor|done|by repeat constructor]. Qed.

(** [OP_HASH160 20 <hash> OP_EQUAL] *)
Lemma P2SHToAddress_script h :
  Forall is_byte h →
  P2SHToAddress (EncodeToString ([169; 20] ++ h ++ [135]))
    = wrap_err "failed to create new p2sh address script hash from: %s" (NewAddressScriptHashFromHash h).
Proof.
  intros Hh. unfold P2SHToAddress. rewrite decode_encoded by (apply script_bytes; [by repeat constructor|done|by repeat constructor]).
  cbn [mbind gores_bind]. by rewrite (slice_middle [169; 20] h [135] 2 1 eq_refl eq_refl).
Qed.

(** [0 20 <hash>] *)
Lemma P2WPKHToAddress_script h :
  Forall is_byte h →
  P2WPKHToAddress (EncodeToString ([0; 20] ++ h))
    = wrap_err "failed to create new p2wpkh address witness pub key hash from: %s" (NewAddressWitnessPubKeyHash h).
Proof.
  intros Hh. unfold P2WPKHToAddress. rewrite decode_encoded.
  - cbn [mbind gores_bind]. pose proof (slice_middle [0; 20] h [] 2 0 eq_refl eq_refl) as Hs. rewrite app_nil_r, Z.sub_0_r in Hs. by rewrite Hs.
  - apply list.Forall_app. split; [by repeat constructor|done].
Qed.

(** A key hash script with one byte less than its operators panics. *)
Lemma P2PKHToAddress_panics b :
  Forall is_byte b → Z.of_nat (length b) < 5 → P2PKHToAddress (EncodeToString b) = Panic SliceBounds.
Proof.
  intros Hb Hlen. unfold P2PKHToAddress. rewrite decode_encoded by done. cbn [mbind gores_bind].
  by rewrite (proj2 (slice_panics b 3 2 ltac:(lia) ltac:(lia))) by lia.
Qed.

End laws.
