(* ===== verification/Retry.v ===== *)
(** * Retry: repeated attempts of a fallible call

    src/V2/internal/retry/retry.go.  The called function acts on a state, so
    that what a failed attempt leaves behind is seen by the next one.  A run
    returns the result, the final state and the sleeps (in seconds) between
    attempts. *)

From stdpp Require Import base list strings numbers.
From Stdlib Require Import ZArith Lia.
From S2P Require Import Prelude.

Local Open Scope Z_scope.

Section retry.
Context {ST : Type} (fn : ST → gores unit * ST).

(** [func Simple(attempts int, sleep int64, fn func() error) error].  Each
    recursive call has a smaller positive [attempts], so [Z.to_nat attempts]
    rounds of fuel are enough ([Simple_decides]). *)
Fixpoint Simple_fuel (fuel : nat) (attempts sleep : Z) (st : ST) : gores unit * ST * list Z :=
  match fn st with
  | (Err err, st) =>
      let attempts := int64 (attempts - 1) in
      if attempts >? 0 then
        match fuel with
        | O => (Err err, st, [])
        | S fuel =>
            let '(r, st, sleeps) := Simple_fuel fuel attempts sleep st in
            (r, st, sleep :: sleeps)
        end
      else (Err err, st, [])
  | (r, st) => (r, st, [])
  end.

Definition Simple (attempts sleep : Z) (st : ST) : gores unit * ST * list Z :=
  Simple_fuel (Z.to_nat attempts) attempts sleep st.

(** [func Backoff(attempts int, sleep int64, fn func() error) error].
    [rand.Int63n(sleep)] panics unless [sleep] is positive and returns some
    number below it: the next of [draws], reduced. *)
Fixpoint Backoff_fuel (fuel : nat) (draws : nat → Z) (attempts sleep : Z) (st : ST) :
    gores unit * ST * list Z :=
  match fn st with
  | (Err err, st) =>
      let attempts := int64 (attempts - 1) in
      if attempts >? 0 then
        match fuel with
        | O => (Err err, st, [])
        | S fuel =>
            if sleep <=? 0 then (Panic InvalidArgument, st, [])
            else
              let jitter := draws 0%nat mod sleep in
              let sleep := int64 (sleep + jitter / 2) in
              let '(r, st, sleeps) := Backoff_fuel fuel (fun n => draws (S n)) attempts (int64 (2 * sleep)) st in
              (r, st, sleep :: sleeps)
        end
      else (Err err, st, [])
  | (r, st) => (r, st, [])
  end.

Definition Backoff (draws : nat → Z) (attempts sleep : Z) (st : ST) : gores unit * ST * list Z :=
  Backoff_fuel (Z.to_nat attempts) draws attempts sleep st.

(** ** What a sequence of attempts does *)

(** The state after [n] failed attempts and the result of the next one. *)
Fixpoint state_after (n : nat) (st : ST) : ST :=
  match n with O => st | S n => state_after n (fn st).2 end.

Definition result_at (n : nat) (st : ST) : gores unit := (fn (state_after n st)).1.

Definition fails_at (n : nat) (st : ST) : Prop := ∃ e, result_at n st = Err e.

(** Attempt [k] is the one that decides a run of at most [n] attempts: all
    before it failed, and it did not fail or was the last. *)
Definition decides (n k : nat) (st : ST) : Prop :=
  (k < n)%nat ∧ (∀ j, (j < k)%nat → fails_at j st) ∧ (fails_at k st → S k = n).

Lemma decides_0 n st : (¬ fails_at 0 st ∨ n = 1%nat) → (0 < n)%nat → decides n 0 st.
Proof.
  intros H Hn. split; [done|]. split; [lia|]. by destruct H.
Qed.

Lemma decides_S n k st : decides n k (fn st).2 → fails_at 0 st → decides (S n) (S k) st.
Proof.
  intros (Hk & Hpre & Hlast) H0. split; [lia|]. split.
  - intros [|j] Hj; [done|]. apply (Hpre j). lia.
  - intros Hf. specialize (Hlast Hf). lia.
Qed.

Lemma decides_result r st' st : fn st = (r, st') → result_at 0 st = r ∧ state_after 1 st = st'.
Proof. intros H. unfold result_at. cbn. by rewrite H. Qed.

Lemma fails_0 r st' st : fn st = (r, st') → fails_at 0 st ↔ ∃ e, r = Err e.
Proof. intros H. unfold fails_at. by rewrite (proj1 (decides_result _ _ _ H)). Qed.

Lemma state_after_S k st : state_after (S k) st = (fn (state_after k st)).2.
Proof. revert st. induction k as [|k IH]; intros st; [done|]. exact (IH (fn st).2). Qed.

Lemma fails_S e st' k st :
  fn st = (Err e, st') → (∀ j, (j < k)%nat → fails_at j st') → ∀ j, (j < S k)%nat → fails_at j st.
Proof.
  intros Hst Hf [|j] Hj; [apply (fails_0 _ _ _ Hst); by eexists|].
  destruct (Hf j ltac:(lia)) as [e' He]. exists e'. unfold result_at in *. cbn [state_after]. by rewrite Hst.
Qed.

(** The number of attempts made at most: at least one. *)
Definition max_attempts (attempts : Z) : nat := Z.to_nat (Z.max 1 attempts).

Lemma attempts_pred attempts :
  in_int64 attempts → 1 < attempts → int64 (attempts - 1) = attempts - 1.
Proof. intros H H1. apply int64_id. unfold in_int64, two63 in *. lia. Qed.

Lemma attempts_last attempts :
  in_int64 attempts → attempts ≠ - two63 → attempts ≤ 1 → (int64 (attempts - 1) >? 0) = false.
Proof.
  intros H Hmin H1. rewrite int64_id by (unfold in_int64, two63 in *; lia).
  rewrite Z.gtb_ltb. apply Z.ltb_ge. lia.
Qed.

Lemma Simple_decides fuel attempts sleep st :
  in_int64 attempts → attempts ≠ - two63 → (Z.to_nat attempts ≤ fuel)%nat →
  ∃ k, decides (max_attempts attempts) k st ∧
    Simple_fuel fuel attempts sleep st = (result_at k st, state_after (S k) st, replicate k sleep).
Proof.
  revert attempts st. induction fuel as [|fuel IH]; intros attempts st Hr Hmin Hf.
  - exists 0%nat. cbn [Simple_fuel]. destruct (fn st) as [r st'] eqn:Hfn.
    destruct (decides_result _ _ _ Hfn) as [-> ->]. unfold max_attempts.
    replace (Z.max 1 attempts) with 1 by lia. split; [apply decides_0; [by right|lia]|].
    destruct r; try done. by rewrite attempts_last by (done || lia).
  - cbn [Simple_fuel]. destruct (fn st) as [r st'] eqn:Hfn. pose proof (fails_0 _ _ _ Hfn) as H0.
    destruct (decides_result _ _ _ Hfn) as [Hres Hst].
    assert (Hstop : (¬ fails_at 0 st ∨ max_attempts attempts = 1%nat) →
      ∃ k, decides (max_attempts attempts) k st ∧
        (r, st', []) = (result_at k st, state_after (S k) st, replicate k sleep)).
    { intros Hs. exists 0%nat. split; [apply decides_0; [done|unfold max_attempts; lia]|]. by rewrite Hres, Hst. }
    destruct r as [|e| |]; try (apply Hstop; left; by intros [? [=]]%H0).
    destruct (Z_le_gt_dec attempts 1).
    { rewrite attempts_last by done. apply Hstop. right. unfold max_attempts. lia. }
    rewrite attempts_pred by (done || lia). rewrite Z.gtb_ltb, (proj2 (Z.ltb_lt 0 _)) by lia.
    destruct (IH (attempts - 1) st') as (k & Hk & ->); [unfold in_int64, two63 in *; lia..|].
    exists (S k). split.
    + replace (max_attempts attempts) with (S (max_attempts (attempts - 1))) by (unfold max_attempts; lia).
      apply decides_S; [by rewrite Hfn|]. apply H0. by eauto.
    + unfold result_at. cbn. by rewrite Hfn.
Qed.

(** An invariant of the failed attempts gives a property of the final result. *)
Lemma Simple_invariant (P : ST → Prop) (Q : gores unit → ST → Prop) attempts sleep st r st' sl :
  (∀ st, P st → let '(r, st') := fn st in Q r st' ∧ ∀ e, r = Err e → P st') →
  Simple attempts sleep st = (r, st', sl) → P st → Q r st'.
Proof.
  intros Hstep. unfold Simple. generalize (Z.to_nat attempts) as fuel. intros fuel.
  revert attempts st sl. induction fuel as [|fuel IH]; intros attempts st sl H HP; cbn [Simple_fuel] in H;
    specialize (Hstep st HP) as Hst; destruct (fn st) as [r1 st1]; destruct Hst as [HQ HP1].
  - destruct r1; repeat case_match; by injection H as <- <- <-.
  - destruct r1 as [|e| |]; try by injection H as <- <- <-.
    destruct (_ >? 0); [|by injection H as <- <- <-].
    destruct (Simple_fuel fuel _ sleep st1) as [[r2 st2] sl2] eqn:H2. injection H as <- <- <-.
    apply (IH _ _ _ H2). by apply (HP1 e).
Qed.

(** Sleeps that double at least and triple at most. *)
Definition backed_off (sleep : Z) (sleeps : list Z) : Prop :=
  ∀ i s, sleeps !! i = Some s → 2 ^ Z.of_nat i * sleep ≤ s ∧ 2 * s ≤ 3 ^ Z.of_nat (S i) * sleep.

Lemma pow_S b i : b ^ Z.of_nat (S i) = b * b ^ Z.of_nat i.
Proof. rewrite Nat2Z.inj_succ, Z.pow_succ_r; lia. Qed.

Lemma backed_off_cons sleep s sleeps :
  0 < sleep → sleep ≤ s → 2 * s ≤ 3 * sleep → backed_off (2 * s) sleeps → backed_off sleep (s :: sleeps).
Proof.
  intros H0 Hlo Hhi Hb [|i] s' Hs; cbn in Hs.
  - injection Hs as <-. change (2 ^ Z.of_nat 0) with 1. change (3 ^ Z.of_nat 1) with 3. lia.
  - destruct (Hb i s' Hs) as [H1 H2]. pose proof (pow_S 2 i). pose proof (pow_S 3 (S i)).
    pose proof (Z.pow_pos_nonneg 2 (Z.of_nat i)). pose proof (Z.pow_pos_nonneg 3 (Z.of_nat (S i))).
    split; nia.
Qed.

Lemma Backoff_decides fuel draws attempts sleep st :
  in_int64 attempts → attempts ≠ - two63 → (Z.to_nat attempts ≤ fuel)%nat →
  0 < sleep → 3 ^ Z.of_nat (max_attempts attempts) * sleep < two63 →
  ∃ k sleeps, decides (max_attempts attempts) k st ∧ length sleeps = k ∧ backed_off sleep sleeps ∧
    Backoff_fuel fuel draws attempts sleep st = (result_at k st, state_after (S k) st, sleeps).
Proof.
  revert draws attempts sleep st. induction fuel as [|fuel IH]; intros draws attempts sleep st Hr Hmin Hf Hs Hbnd;
    cbn [Backoff_fuel]; destruct (fn st) as [r st'] eqn:Hfn; pose proof (fails_0 _ _ _ Hfn) as H0;
    destruct (decides_result _ _ _ Hfn) as [Hres Hst].
  all: assert (Hstop : (¬ fails_at 0 st ∨ max_attempts attempts = 1%nat) →
      ∃ k sleeps, decides (max_attempts attempts) k st ∧ length sleeps = k ∧ backed_off sleep sleeps ∧
        (r, st', []) = (result_at k st, state_after (S k) st, sleeps))
    by (intros Hstop; exists 0%nat, []; split; [apply decides_0; [done|unfold max_attempts; lia]|];
        split; [done|]; split; [by intros [|]|by rewrite Hres, Hst]).
  all: destruct r as [|e| |]; try (apply Hstop; left; by intros [? [=]]%H0).
  { rewrite attempts_last by (done || lia). apply Hstop. right. unfold max_attempts. lia. }
  destruct (Z_le_gt_dec attempts 1).
  { rewrite attempts_last by done. apply Hstop. right. unfold max_attempts. lia. }
  rewrite attempts_pred by (done || lia). rewrite Z.gtb_ltb, (proj2 (Z.ltb_lt 0 _)), (proj2 (Z.leb_gt sleep 0)) by lia.
  pose proof (Z.mod_pos_bound (draws 0%nat) sleep Hs) as Hj. set (j := draws 0%nat mod sleep) in *.
  assert (Hj2 : 0 ≤ j / 2 ∧ 2 * (j / 2) ≤ j) by (pose proof (Z.div_mod j 2); pose proof (Z.mod_pos_bound j 2); lia).
  assert (Hmax : max_attempts attempts = S (max_attempts (attempts - 1))) by (unfold max_attempts; lia).
  rewrite Hmax, Nat2Z.inj_succ, Z.pow_succ_r in Hbnd by lia.
  pose proof (Z.pow_le_mono_r 3 1 (Z.of_nat (max_attempts (attempts - 1))) ltac:(lia) ltac:(unfold max_attempts; lia)) as HP.
  set (P := 3 ^ Z.of_nat (max_attempts (attempts - 1))) in *. change (3 ^ 1) with 3 in HP.
  assert (Hs3 : 3 * (3 * sleep) ≤ 3 * P * sleep) by nia.
  rewrite (int64_id (sleep + _)), int64_id by (unfold in_int64, two63 in *; lia).
  destruct (IH (fun n => draws (S n)) (attempts - 1) (2 * (sleep + j / 2)) st')
    as (k & sleeps & Hk & Hlen & Hb & ->); [unfold in_int64, two63 in *; lia..|lia|nia|].
  exists (S k), ((sleep + j / 2) :: sleeps). rewrite Hmax. split_and!.
  - apply decides_S; [by rewrite Hfn|]. apply H0. by eauto.
  - cbn. lia.
  - apply backed_off_cons; [lia..|done].
  - unfold result_at. cbn. by rewrite Hfn.
Qed.

End retry.

(** ** Properties *)

(** [Simple] calls the function until it does not fail, at most
    [attempts] times and at least once; it returns the result of the last call
    made and leaves the state that call left, having slept [sleep] between
    consecutive calls. *)
Lemma Simple_attempts {ST} (fn : ST → gores unit * ST) (attempts sleep : Z) (st : ST) :
  in_int64 attempts → attempts ≠ - two63 →
  ∃ k, decides fn (max_attempts attempts) k st ∧
    Simple fn attempts sleep st = (result_at fn k st, state_after fn (S k) st, replicate k sleep).
Proof. intros Hr Hmin. by apply Simple_decides. Qed.

(** A call that fails while a counter is positive and counts it down. *)
Definition fails_n (n : nat) : gores unit * nat :=
  match n with O => (Val tt, O) | S n => (Err (ENew "down"), n) end.

Lemma Simple_attempts_witness :
  (∃ k, decides fails_n (max_attempts 5) k 3%nat ∧
     Simple fails_n 5 2 3%nat = (result_at fails_n k 3%nat, state_after fails_n (S k) 3%nat, replicate k 2))
  ∧ Simple fails_n 5 2 3%nat = (Val tt, 0%nat, [2; 2; 2]).
Proof.
  split; [apply Simple_attempts; [unfold in_int64, two63; lia|done]|vm_compute; reflexivity].
Defined.

(** [Backoff] makes the same calls as [Simple]; between them it sleeps
    at least twice as long each time and never more than three times the
    previous bound, for every outcome of the jitter, as long as the longest
    sleep fits [int64]. *)
Lemma Backoff_attempts {ST} (fn : ST → gores unit * ST) draws (attempts sleep : Z) (st : ST) :
  in_int64 attempts → attempts ≠ - two63 →
  0 < sleep → 3 ^ Z.of_nat (max_attempts attempts) * sleep < two63 →
  ∃ k sleeps, decides fn (max_attempts attempts) k st ∧ length sleeps = k ∧ backed_off sleep sleeps ∧
    Backoff fn draws attempts sleep st = (result_at fn k st, state_after fn (S k) st, sleeps).
Proof. intros. by apply Backoff_decides. Qed.

Lemma Backoff_attempts_witness :
  ∃ k sleeps, decides fails_n (max_attempts 5) k 3%nat ∧ length sleeps = k ∧ backed_off 4 sleeps ∧
    Backoff fails_n (fun n => Z.of_nat n * 7) 5 4 3%nat
      = (result_at fails_n k 3%nat, state_after fails_n (S k) 3%nat, sleeps).
Proof.
  apply Backoff_attempts; [unfold in_int64, two63; lia|done|lia|vm_compute; reflexivity].
Defined.

(** [rand.Int63n] panics when the configured sleep is zero, the value of an
    omitted [sleep] in the configuration. *)
Lemma Backoff_zero_sleep_panics draws :
  Backoff fails_n draws 2 0 1%nat = (Panic InvalidArgument, 0%nat, []).
Proof. reflexivity. Qed.
