(* ===== verification/Files.v ===== *)
(** * Files: what the tools do with files

    A map from paths to contents; whether a path can be opened for writing is a
    parameter. *)

From stdpp Require Import base strings gmap.
From S2P Require Import Prelude.

Local Open Scope string_scope.

Abbreviation disk := (gmap string string).

Definition open_error (path : string) : gerror := EWrap path (ENew "cannot be opened").

Section files.
Context (openable : string → bool).

(** [os.Create(path)] *)
Definition os_Create (path : string) : act disk unit := fun d =>
  if openable path then (Val tt, <[path := ""]> d) else (Err (open_error path), d).

(** [os.OpenFile(path, os.O_APPEND|os.O_CREATE|os.O_WRONLY, 0644)] *)
Definition os_Append (path : string) : act disk unit := fun d =>
  if openable path then (Val tt, <[path := default "" (d !! path)]> d) else (Err (open_error path), d).

End files.

(** Writing at the end of a file that was opened *)
Definition file_write (path text : string) : act disk unit := fun d => (Val tt, <[path := default "" (d !! path) ++ text]> d).

(** [os.Open(path)]: what a reader of the file reads *)
Definition os_Open (path : string) : act disk string := fun d =>
  match d !! path with Some text => (Val text, d) | None => (Err (open_error path), d) end.
