(* ===== verification/Csv.v ===== *)
(** * Csv: package encoding/csv

    The reader and the writer of package encoding/csv (Go 1.12) with their
    defaults: a comma between fields, no comments, no lazy quotes, and every
    record as long as the first.  What is written is read back. *)

From stdpp Require Import base list strings numbers.
From Stdlib Require Import ZArith Lia.
From S2P Require Import Prelude GoStrings.

Local Open Scope Z_scope.

(** ** Writing *)

(** [unicode.IsSpace] of the first code point *)
Definition starts_with_space (l : list Z) : bool :=
  existsb (fun sp => match strip sp l with Some _ => true | None => false end) spaces.

(** [func (w *Writer) fieldNeedsQuotes(field string) bool] *)
Definition fieldNeedsQuotes (f : list Z) : bool :=
  match f with
  | [] => false
  | _ => bool_decide (f = [92; 46]) || existsb (fun c => (c =? 44) || (c =? 34) || (c =? 13) || (c =? 10)) f || starts_with_space f
  end.

(** A quote is doubled. *)
Fixpoint escape_quotes (f : list Z) : list Z :=
  match f with [] => [] | c :: f => if c =? 34 then 34 :: 34 :: escape_quotes f else c :: escape_quotes f end.

Definition write_field (f : list Z) : list Z := if fieldNeedsQuotes f then 34 :: escape_quotes f ++ [34] else f.

(** [func (w *Writer) Write(record []string) error] *)
Fixpoint write_fields (r : list (list Z)) : list Z :=
  match r with
  | [] => [10]
  | [f] => write_field f ++ [10]
  | f :: r => write_field f ++ 44 :: write_fields r
  end.

Definition Write (record : list string) : list Z := write_fields (map bytes record).

(** ** Reading *)

(** The lines of a text, each with its end *)
Fixpoint raw_lines (l : list Z) : list (list Z) :=
  match l with
  | [] => []
  | c :: l =>
      if c =? 10 then [10] :: raw_lines l
      else match raw_lines l with [] => [[c]] | x :: xs => (c :: x) :: xs end
  end.

(** [\r\n] becomes [\n]; a last line loses its [\r]. *)
Fixpoint normalize (line : list Z) : list Z :=
  match line with
  | [] => []
  | c :: l =>
      match l with
      | [] => if c =? 13 then [] else [c]
      | d :: l' => if (c =? 13) && (d =? 10) && match l' with [] => true | _ => false end then [10] else c :: normalize l
      end
  end.

(** What [func (r *Reader) readLine() ([]byte, error)] returns, call by call *)
Definition lines (text : list Z) : list (list Z) := map normalize (raw_lines text).

Inductive csv_error := ErrBareQuote | ErrQuote | ErrFieldCount.

(** The number of bytes before the first [c] *)
Fixpoint IndexByte (l : list Z) (c : Z) : option nat :=
  match l with [] => None | x :: l => if x =? c then Some O else S <$> IndexByte l c end.

Fixpoint without_end (line : list Z) : list Z :=
  match line with [] => [] | [c] => if c =? 10 then [] else [c] | c :: l => c :: without_end l end.

(** Nothing but the end of the line *)
Definition at_end (line : list Z) : bool := match line with [] => true | [c] => c =? 10 | _ => false end.

(** The fields read, the error that ended the record, and the lines left *)
Definition record_result : Type := list (list Z) * option csv_error * list (list Z).

Definition add_field (f : list Z) (r : record_result) : record_result := let '(fs, e, ls) := r in (f :: fs, e, ls).

(** [func (r *Reader) readRecord(dst []string) ([]string, error)]: the loops over
    the fields and over the parts of a quoted field; no result when the fuel is
    spent *)
Fixpoint parse_fields (fuel : nat) (line : list Z) (ls : list (list Z)) : option record_result :=
  match fuel with
  | O => None
  | S fuel =>
      if match line with c :: _ => c =? 34 | [] => false end then parse_quoted fuel [] (tail line) ls
      else
        match IndexByte line 44 with
        | Some i =>
            if existsb (fun c => c =? 34) (take i line) then Some ([], Some ErrBareQuote, ls)
            else add_field (take i line) <$> parse_fields fuel (drop (S i) line) ls
        | None =>
            if existsb (fun c => c =? 34) (without_end line) then Some ([], Some ErrBareQuote, ls)
            else Some ([without_end line], None, ls)
        end
  end
with parse_quoted (fuel : nat) (acc line : list Z) (ls : list (list Z)) : option record_result :=
  match fuel with
  | O => None
  | S fuel =>
      match IndexByte line 34 with
      | Some i =>
          let acc := acc ++ take i line in
          let line := drop (S i) line in
          match line with
          | c :: line' =>
              if c =? 34 then parse_quoted fuel (acc ++ [34]) line' ls
              else if c =? 44 then add_field acc <$> parse_fields fuel line' ls
              else if at_end line then Some ([acc], None, ls)
              else Some ([], Some ErrQuote, ls)
          | [] => Some ([acc], None, ls)
          end
      | None =>
          match line with
          | [] => Some ([], Some ErrQuote, ls)
          | _ => parse_quoted fuel (acc ++ line) (default [] (head ls)) (tail ls)
          end
      end
  end.

(** The empty lines before a record are skipped. *)
Fixpoint skip_empty (ls : list (list Z)) : list (list Z) :=
  match ls with [] => [] | l :: ls => if at_end l then skip_empty ls else l :: ls end.

Record Reader := { pending : list (list Z); FieldsPerRecord : nat }.

Definition NewReader (text : list Z) : Reader := {| pending := lines text; FieldsPerRecord := 0 |}.

Inductive read_result :=
| EOF
| Row (record : list string)
| Failed (record : list string) (e : csv_error).

(** Every round of the loops takes a byte or a line. *)
Definition enough (line : list Z) (ls : list (list Z)) : nat := (1 + length line + length (concat ls))%nat.

(** [func (r *Reader) Read() ([]string, error)] *)
Definition Read (r : Reader) : option (read_result * Reader) :=
  match skip_empty (pending r) with
  | [] => Some (EOF, {| pending := []; FieldsPerRecord := FieldsPerRecord r |})
  | line :: ls =>
      '(fs, e, ls) ← parse_fields (enough line ls) line ls;
      let record := map of_bytes fs in
      let n := FieldsPerRecord r in
      let r := {| pending := ls; FieldsPerRecord := if (n =? 0)%nat then length fs else n |} in
      Some (match e with
            | Some e => Failed record e
            | None => if (0 <? n)%nat && negb (length fs =? n)%nat then Failed record ErrFieldCount else Row record
            end, r)
  end.

(** ** The fuel *)

Lemma IndexByte_lt l c i : IndexByte l c = Some i → (i < length l)%nat.
Proof.
  revert i. induction l as [|x l IH]; intros i; [done|]. cbn. destruct (x =? c); [intros [= <-]; lia|].
  destruct (IndexByte l c) as [j|]; [|done]. cbn. intros [= <-]. specialize (IH j eq_refl). lia.
Qed.

Lemma next_length (ls : list (list Z)) : (length (default [] (head ls)) + length (concat (tail ls)) = length (concat ls))%nat.
Proof. destruct ls as [|l ls]; [done|]. cbn. by rewrite length_app. Qed.

(** More fuel than bytes is enough. *)
Lemma parse_total fuel :
  (∀ line ls, (length line + length (concat ls) < fuel)%nat → is_Some (parse_fields fuel line ls)) ∧
  (∀ acc line ls, (length line + length (concat ls) < fuel)%nat → is_Some (parse_quoted fuel acc line ls)).
Proof.
  induction fuel as [|fuel [IHf IHq]]; [split; intros; lia|]. split.
  - intros line ls H. cbn [parse_fields]. destruct line as [|c line].
    { cbn. by eexists. }
    cbn [length] in H. destruct (c =? 34); [apply IHq; cbn; lia|]. destruct (IndexByte (c :: line) 44) as [i|] eqn:Hi.
    + destruct (existsb _ _); [by eexists|]. apply fmap_is_Some, IHf. rewrite length_drop. cbn [length]. lia.
    + destruct (existsb _ _); by eexists.
  - intros acc line ls H. cbn [parse_quoted]. destruct (IndexByte line 34) as [i|] eqn:Hi.
    + apply IndexByte_lt in Hi. destruct (drop (S i) line) as [|c line'] eqn:Hd; [by eexists|].
      assert (Hl : (S (length line') + S i = length line)%nat).
      { apply (f_equal length) in Hd. rewrite length_drop in Hd. cbn in Hd. lia. }
      destruct (c =? 34); [apply IHq; lia|]. destruct (c =? 44); [apply fmap_is_Some, IHf; lia|].
      destruct (at_end _); by eexists.
    + destruct line as [|c line]; [by eexists|]. apply IHq. pose proof (next_length ls). cbn [length] in H. lia.
Qed.

(** More fuel does not change the result. *)
Lemma parse_more fuel :
  (∀ line ls r, parse_fields fuel line ls = Some r → ∀ fuel', (fuel ≤ fuel')%nat → parse_fields fuel' line ls = Some r) ∧
  (∀ acc line ls r, parse_quoted fuel acc line ls = Some r → ∀ fuel', (fuel ≤ fuel')%nat → parse_quoted fuel' acc line ls = Some r).
Proof.
  induction fuel as [|fuel [IHf IHq]]; [done|]. split.
  - intros line ls r H [|fuel'] Hle; [lia|]. cbn [parse_fields] in H |- *.
    destruct (match line with c :: _ => c =? 34 | [] => false end); [apply (IHq _ _ _ _ H); lia|].
    destruct (IndexByte line 44) as [i|]; [|done]. destruct (existsb _ _); [done|].
    destruct (parse_fields fuel (drop (S i) line) ls) as [r'|] eqn:E; [|done]. by rewrite (IHf _ _ _ E) by lia.
  - intros acc line ls r H [|fuel'] Hle; [lia|]. cbn [parse_quoted] in H |- *. destruct (IndexByte line 34) as [i|].
    + destruct (drop (S i) line) as [|c line']; [done|]. destruct (c =? 34); [apply (IHq _ _ _ _ H); lia|].
      destruct (c =? 44); [|done]. destruct (parse_fields fuel line' ls) as [r'|] eqn:E; [|done]. by rewrite (IHf _ _ _ E) by lia.
    + destruct line as [|c line]; [done|]. apply (IHq _ _ _ _ H). lia.
Qed.

Lemma parse_enough fuel line ls r : parse_fields fuel line ls = Some r → parse_fields (enough line ls) line ls = Some r.
Proof.
  intros H. destruct (proj1 (parse_total (enough line ls)) line ls) as [r' Hr']; [unfold enough; lia|].
  destruct (Nat.le_ge_cases fuel (enough line ls)) as [Hle|Hle].
  - by rewrite (proj1 (parse_more fuel) _ _ _ H).
  - rewrite (proj1 (parse_more _) _ _ _ Hr' fuel Hle) in H. by rewrite Hr'.
Qed.

(** ** What is written is read *)

(** The line at the beginning of a text, and the lines after it *)
Definition first_line (text : list Z) : list Z := default [] (head (raw_lines text)).
Definition later_lines (text : list Z) : list (list Z) := tail (raw_lines text).

Definition reads_fields (text : list Z) (r : record_result) : Prop :=
  ∃ fuel, parse_fields fuel (first_line text) (later_lines text) = Some r.
Definition reads_quoted (acc text : list Z) (r : record_result) : Prop :=
  ∃ fuel, parse_quoted fuel acc (first_line text) (later_lines text) = Some r.

Lemma raw_lines_cons c text : c ≠ 10 → raw_lines (c :: text) = (c :: first_line text) :: later_lines text.
Proof.
  intros Hc%Z.eqb_neq. unfold first_line, later_lines. cbn. rewrite Hc. by destruct (raw_lines text).
Qed.

Lemma first_line_cons c text : c ≠ 10 → first_line (c :: text) = c :: first_line text.
Proof. intros H. unfold first_line at 1. by rewrite raw_lines_cons. Qed.

Lemma later_lines_cons c text : c ≠ 10 → later_lines (c :: text) = later_lines text.
Proof. intros H. unfold later_lines at 1. by rewrite raw_lines_cons. Qed.

Lemma first_line_end text : first_line (10 :: text) = [10].
Proof. done. Qed.

Lemma later_lines_end text : later_lines (10 :: text) = raw_lines text.
Proof. done. Qed.

Lemma first_line_app f text : Forall (fun c => c ≠ 10) f → first_line (f ++ text) = f ++ first_line text.
Proof. induction 1 as [|c f Hc _ IH]; [done|]. cbn [app]. by rewrite first_line_cons, IH. Qed.

Lemma later_lines_app f text : Forall (fun c => c ≠ 10) f → later_lines (f ++ text) = later_lines text.
Proof. induction 1 as [|c f Hc _ IH]; [done|]. cbn [app]. by rewrite later_lines_cons, IH. Qed.

Lemma first_line_nonempty text : text ≠ [] → first_line text ≠ [].
Proof.
  destruct text as [|c text]; [done|]. intros _. destruct (Z.eqb_spec c 10) as [->|H]; [done|]. by rewrite first_line_cons.
Qed.

(** Inside quotes *)
Lemma quoted_char acc c text r :
  c ≠ 34 → text ≠ [] → reads_quoted (acc ++ [c]) text r → reads_quoted acc (c :: text) r.
Proof.
  intros Hc Ht [fuel H]. destruct (Z.eqb_spec c 10) as [->|Hn].
  - exists (S fuel). exact H.
  - exists fuel. rewrite first_line_cons, later_lines_cons by done. apply first_line_nonempty in Ht.
    destruct fuel as [|fuel]; [done|]. cbn [parse_quoted IndexByte] in H |- *. rewrite (proj2 (Z.eqb_neq c 34)) by done.
    destruct (IndexByte (first_line text) 34) as [i|]; cbn [fmap option_fmap option_map].
    + cbn [take drop]. rewrite <-app_assoc in H. exact H.
    + destruct (first_line text) as [|d l]; [done|]. rewrite <-app_assoc in H. exact H.
Qed.

Lemma quoted_quote acc text r : reads_quoted (acc ++ [34]) text r → reads_quoted acc (34 :: 34 :: text) r.
Proof.
  intros [fuel H]. exists (S fuel). rewrite !first_line_cons, !later_lines_cons by done. cbn. by rewrite app_nil_r.
Qed.

Lemma quoted_field acc f text r :
  text ≠ [] → reads_quoted (acc ++ f) (34 :: text) r → reads_quoted acc (escape_quotes f ++ 34 :: text) r.
Proof.
  intros Ht. revert acc. induction f as [|c f IH]; intros acc H; [by rewrite app_nil_r in H|]. cbn [escape_quotes].
  replace (acc ++ c :: f) with ((acc ++ [c]) ++ f) in H by by rewrite <-app_assoc.
  destruct (Z.eqb_spec c 34) as [->|Hc].
  - apply quoted_quote. by apply IH.
  - cbn [app]. apply quoted_char; [done|by destruct (escape_quotes f)|]. by apply IH.
Qed.

Lemma quoted_comma acc text r : reads_fields text r → reads_quoted acc (34 :: 44 :: text) (add_field acc r).
Proof.
  intros [fuel H]. exists (S fuel). rewrite !first_line_cons, !later_lines_cons by done. cbn. by rewrite app_nil_r, H.
Qed.

Lemma quoted_end acc text : reads_quoted acc (34 :: 10 :: text) ([acc], None, raw_lines text).
Proof. exists 1%nat. rewrite first_line_cons, later_lines_cons by done. cbn. by rewrite app_nil_r. Qed.

(** Plain fields *)
Definition plain_field (f : list Z) : Prop := Forall (fun c => c ≠ 34 ∧ c ≠ 44 ∧ c ≠ 10 ∧ c ≠ 13) f.

Lemma fieldNeedsQuotes_plain f : fieldNeedsQuotes f = false → plain_field f.
Proof.
  destruct f as [|x f]; [constructor|]. unfold fieldNeedsQuotes. intros [[_ H]%orb_false_iff _]%orb_false_iff.
  apply List.Forall_forall. intros c Hc. apply not_true_iff_false in H. rewrite existsb_exists in H.
  split_and!; intros ->; apply H; eexists; (split; [exact Hc|done]).
Qed.

Lemma plain_no_end f : plain_field f → Forall (fun c => c ≠ 10) f.
Proof. intros H. eapply Forall_impl; [|exact H]. by intros c (_ & _ & ? & _). Qed.

Lemma plain_IndexByte f l : plain_field f → IndexByte (f ++ 44 :: l) 44 = Some (length f).
Proof.
  induction 1 as [|c f (_ & Hc & _) _ IH]; [done|]. cbn. by rewrite (proj2 (Z.eqb_neq c 44)), IH.
Qed.

Lemma plain_IndexByte_None f : plain_field f → IndexByte (f ++ [10]) 44 = None.
Proof. induction 1 as [|c f (_ & Hc & _) _ IH]; [done|]. cbn. by rewrite (proj2 (Z.eqb_neq c 44)), IH. Qed.

Lemma plain_no_quote f : plain_field f → existsb (fun c => c =? 34) f = false.
Proof. induction 1 as [|c f (Hc & _) _ IH]; [done|]. cbn. by rewrite (proj2 (Z.eqb_neq c 34)), IH. Qed.

Lemma plain_head f l : plain_field f → head l ≠ Some 34 → match f ++ l with c :: _ => c =? 34 | [] => false end = false.
Proof.
  intros [|c f' (Hc & _) _]; cbn; [|intros _; by apply Z.eqb_neq]. destruct l as [|c l]; [done|]. cbn. intros H. apply Z.eqb_neq. congruence.
Qed.

Lemma without_end_app f : without_end (f ++ [10]) = f.
Proof. induction f as [|c f IH]; [done|]. cbn. rewrite IH. by destruct f. Qed.

Lemma plain_comma f text r : plain_field f → reads_fields text r → reads_fields (f ++ 44 :: text) (add_field f r).
Proof.
  intros Hf [fuel H]. exists (S fuel). rewrite first_line_app, later_lines_app by by apply plain_no_end.
  rewrite first_line_cons, later_lines_cons by done. cbn [parse_fields]. rewrite plain_head by done. rewrite plain_IndexByte by done.
  rewrite take_app_length, plain_no_quote by done. replace (S (length f)) with (length (f ++ [44])) by (rewrite length_app; cbn; lia).
  replace (f ++ 44 :: first_line text) with ((f ++ [44]) ++ first_line text) by by rewrite <-app_assoc. by rewrite drop_app_length, H.
Qed.

Lemma plain_end f text : plain_field f → reads_fields (f ++ 10 :: text) ([f], None, raw_lines text).
Proof.
  intros Hf. exists 1%nat. rewrite first_line_app, later_lines_app by by apply plain_no_end. rewrite first_line_end, later_lines_end.
  cbn [parse_fields]. rewrite plain_head, plain_IndexByte_None, without_end_app, plain_no_quote by done. done.
Qed.

(** A field, a record *)
Lemma write_field_comma f text r : reads_fields text r → reads_fields (write_field f ++ 44 :: text) (add_field f r).
Proof.
  intros H. unfold write_field. destruct (fieldNeedsQuotes f) eqn:Hq; [|by apply plain_comma, H; apply fieldNeedsQuotes_plain].
  cbn [app]. rewrite <-app_assoc. cbn [app]. destruct (quoted_field [] f (44 :: text) (add_field f r)) as [fuel Hf]; [done|by apply quoted_comma|].
  exists (S fuel). by rewrite first_line_cons, later_lines_cons.
Qed.

Lemma write_field_end f text : reads_fields (write_field f ++ 10 :: text) ([f], None, raw_lines text).
Proof.
  unfold write_field. destruct (fieldNeedsQuotes f) eqn:Hq; [|by apply plain_end, fieldNeedsQuotes_plain].
  cbn [app]. rewrite <-app_assoc. cbn [app]. destruct (quoted_field [] f (10 :: text) ([f], None, raw_lines text)) as [fuel Hf]; [done|apply quoted_end|].
  exists (S fuel). by rewrite first_line_cons, later_lines_cons.
Qed.

Lemma write_fields_reads r text : r ≠ [] → reads_fields (write_fields r ++ text) (r, None, raw_lines text).
Proof.
  induction r as [|f [|g r] IH]; [done|..]; intros _.
  - cbn [write_fields]. rewrite <-app_assoc. apply write_field_end.
  - change (write_fields (f :: g :: r)) with (write_field f ++ 44 :: write_fields (g :: r)). rewrite <-app_assoc.
    apply (write_field_comma f _ (g :: r, None, raw_lines text)), IH. done.
Qed.

(** *** Line ends *)

(** No [\r\n] *)
Fixpoint no_crlf (l : list Z) : bool :=
  match l with
  | c :: l' => negb ((c =? 13) && match l' with d :: _ => d =? 10 | [] => false end) && no_crlf l'
  | [] => true
  end.

Fixpoint ends_line (l : list Z) : bool :=
  match l with [] => true | [c] => c =? 10 | _ :: l => ends_line l end.

Lemma no_crlf_cons c l : no_crlf (c :: l) = true ↔ (c = 13 → head l ≠ Some 10) ∧ no_crlf l = true.
Proof.
  cbn [no_crlf]. rewrite andb_true_iff, negb_true_iff. split; intros [H1 H2]; (split; [|done]).
  - intros -> E. destruct l as [|d l]; [done|]. injection E as ->. done.
  - destruct (Z.eqb_spec c 13) as [->|]; [|done]. destruct l as [|d l]; [done|]. cbn. apply Z.eqb_neq. intros ->. by apply (H1 eq_refl).
Qed.

Lemma ends_line_app a b : b ≠ [] → ends_line (a ++ b) = ends_line b.
Proof. intros Hb. induction a as [|c a IH]; [done|]. cbn [app ends_line]. rewrite <-IH. by destruct a, b. Qed.

Lemma raw_lines_head d text : ∃ x xs, raw_lines (d :: text) = (d :: x) :: xs.
Proof.
  destruct (Z.eqb_spec d 10) as [->|Hd]; [by eexists _, _|]. rewrite raw_lines_cons by done. by eexists _, _.
Qed.

(** Such a text is read as it is. *)
Lemma lines_raw text : no_crlf text = true → ends_line text = true → lines text = raw_lines text.
Proof.
  unfold lines. induction text as [|c text IH]; [done|]. intros [Hc Hcr]%no_crlf_cons He.
  destruct (Z.eqb_spec c 10) as [->|Hn].
  - cbn. f_equal. apply IH; [done|]. by destruct text.
  - destruct text as [|d text]; [cbn in He; apply Z.eqb_eq in He; done|].
    specialize (IH Hcr He). rewrite raw_lines_cons by done. unfold first_line, later_lines.
    destruct (raw_lines_head d text) as (x & xs & Ex). rewrite Ex in *. cbn [map] in IH |- *.
    assert (normalize (d :: x) = d :: x ∧ map normalize xs = xs) as [Hx Hxs] by (by injection IH).
    assert (Hn' : normalize (c :: d :: x) = c :: normalize (d :: x)).
    { cbn [normalize]. destruct (Z.eqb_spec c 13) as [->|]; [|done]. destruct (Z.eqb_spec d 10) as [->|]; [|done]. by destruct Hc. }
    cbn [tail head map]. change (default [] (Some (d :: x))) with (d :: x). by rewrite Hn', Hx, Hxs.
Qed.

Lemma no_crlf_plain f l : plain_field f → no_crlf l = true → no_crlf (f ++ l) = true.
Proof. intros Hf Hl. induction Hf as [|c f (_ & _ & _ & Hc) _ IH]; [done|]. cbn [app]. by apply no_crlf_cons. Qed.

Lemma no_crlf_escape f l : no_crlf f = true → no_crlf l = true → no_crlf (escape_quotes f ++ 34 :: l) = true.
Proof.
  intros Hf Hl. induction f as [|c f IH]; [by apply no_crlf_cons|]. apply no_crlf_cons in Hf as [Hc Hf]. specialize (IH Hf).
  cbn [escape_quotes]. destruct (Z.eqb_spec c 34) as [->|]; cbn [app]; rewrite ?no_crlf_cons; [done|]. split; [|done].
  intros H13. specialize (Hc H13). destruct f as [|d f]; [done|]. cbn. destruct (d =? 34); [done|]. exact Hc.
Qed.

Lemma no_crlf_field f l : no_crlf f = true → no_crlf l = true → no_crlf (write_field f ++ l) = true.
Proof.
  intros Hf Hl. unfold write_field. destruct (fieldNeedsQuotes f) eqn:Hq.
  - cbn [app]. rewrite <-app_assoc. apply no_crlf_cons. split; [done|]. by apply no_crlf_escape.
  - apply no_crlf_plain; [by apply fieldNeedsQuotes_plain|done].
Qed.

Lemma no_crlf_fields r l : forallb no_crlf r = true → no_crlf l = true → no_crlf (write_fields r ++ l) = true.
Proof.
  intros Hr Hl. induction r as [|f [|g r] IH]; [by apply no_crlf_cons|..]; cbn [forallb] in Hr; apply andb_true_iff in Hr as [Hf Hr].
  - cbn [write_fields]. rewrite <-app_assoc. apply no_crlf_field; [done|]. by apply no_crlf_cons.
  - change (write_fields (f :: g :: r)) with (write_field f ++ 44 :: write_fields (g :: r)). rewrite <-app_assoc.
    apply no_crlf_field; [done|]. cbn [app]. apply no_crlf_cons. split; [done|]. by apply IH.
Qed.

Lemma write_fields_end r : ∃ a, write_fields r = a ++ [10].
Proof.
  induction r as [|f [|g r] [a IH]]; [by exists []|by exists (write_field f)|].
  change (write_fields (f :: g :: r)) with (write_field f ++ 44 :: write_fields (g :: r)). rewrite IH.
  exists (write_field f ++ 44 :: a). by rewrite <-app_assoc.
Qed.

Lemma ends_line_fields r l : ends_line l = true → ends_line (write_fields r ++ l) = true.
Proof.
  intros Hl. destruct (write_fields_end r) as [a ->]. rewrite <-app_assoc. rewrite ends_line_app by done. by destruct l.
Qed.

(** *** Records *)

(** A record that is not read as an empty line *)
Definition writable (r : list (list Z)) : bool :=
  match r with [] | [[]] => false | _ => forallb no_crlf r end.

Lemma write_field_head f l : f ≠ [] → ∃ c k, write_field f ++ l = c :: k ∧ c ≠ 10.
Proof.
  intros Hf. unfold write_field. destruct (fieldNeedsQuotes f) eqn:Hq; [by eexists _, _|].
  apply fieldNeedsQuotes_plain in Hq. destruct Hq as [|c f (_ & _ & Hc & _) _]; [done|]. by eexists _, _.
Qed.

Lemma write_fields_head r l : writable r = true → ∃ c k, write_fields r ++ l = c :: k ∧ c ≠ 10.
Proof.
  destruct r as [|f [|g r]]; [done|..]; intros H.
  - cbn [write_fields]. rewrite <-app_assoc. apply write_field_head. by destruct f.
  - change (write_fields (f :: g :: r)) with (write_field f ++ 44 :: write_fields (g :: r)). rewrite <-app_assoc.
    destruct f as [|x f]; [by eexists _, _|by apply write_field_head].
Qed.

Lemma map_of_bytes (record : list string) : map of_bytes (map bytes record) = record.
Proof. rewrite map_map. rewrite <-(map_id record) at 2. apply map_ext, of_bytes_bytes. Qed.

(** Reading a record that was written, with more behind it *)
Lemma Read_written record text n :
  writable (map bytes record) = true →
  Read {| pending := raw_lines (Write record ++ text); FieldsPerRecord := n |} =
    Some (if (0 <? n)%nat && negb (length record =? n)%nat then Failed record ErrFieldCount else Row record,
      {| pending := raw_lines text; FieldsPerRecord := if (n =? 0)%nat then length record else n |}).
Proof.
  intros Hw. unfold Write. destruct (write_fields_head _ text Hw) as (c & k & E & Hc).
  assert (Hr : map bytes record ≠ []) by (by destruct record).
  destruct (write_fields_reads (map bytes record) text Hr) as [fuel Hf]. unfold Read. cbn [pending FieldsPerRecord].
  apply parse_enough in Hf. rewrite E in Hf |- *. rewrite raw_lines_cons by done.
  assert (Hskip : skip_empty ((c :: first_line k) :: later_lines k) = (c :: first_line k) :: later_lines k).
  { cbn. destruct (first_line k); [|done]. cbn. by rewrite (proj2 (Z.eqb_neq c 10)). }
  rewrite Hskip. rewrite first_line_cons, later_lines_cons in Hf by done. rewrite Hf. cbn [mbind option_bind].
  by rewrite map_of_bytes, length_map.
Qed.

Lemma Read_Write record text n :
  writable (map bytes record) = true → (n = 0 ∨ n = length record)%nat →
  Read {| pending := raw_lines (Write record ++ text); FieldsPerRecord := n |} =
    Some (Row record, {| pending := raw_lines text; FieldsPerRecord := length record |}).
Proof.
  intros Hw Hn. rewrite Read_written by done. assert (Hl : (0 < length record)%nat) by (destruct record; [done|cbn; lia]).
  destruct Hn as [->| ->]; [done|].
  rewrite (proj2 (Nat.eqb_neq (length record) 0)), Nat.eqb_refl, andb_false_r by lia. done.
Qed.

(** The records up to the end, as long as nothing is wrong *)
Fixpoint read_all (fuel : nat) (r : Reader) : option (list (list string) * option csv_error) :=
  match fuel with
  | O => None
  | S fuel =>
      match Read r with
      | None => None
      | Some (EOF, _) => Some ([], None)
      | Some (Failed _ e, _) => Some ([], Some e)
      | Some (Row record, r) => '(rows, e) ← read_all fuel r; Some (record :: rows, e)
      end
  end.

Definition ReadAll (text : list Z) : option (list (list string) * option csv_error) :=
  read_all (S (length (lines text))) (NewReader text).

(** *** Every text is read to its end *)

Lemma parse_lines fuel :
  (∀ line ls fs e ls', parse_fields fuel line ls = Some (fs, e, ls') → (length ls' ≤ length ls)%nat) ∧
  (∀ acc line ls fs e ls', parse_quoted fuel acc line ls = Some (fs, e, ls') → (length ls' ≤ length ls)%nat).
Proof.
  induction fuel as [|fuel [IHf IHq]]; [done|].
  assert (Hadd : ∀ f line ls fs e ls', add_field f <$> parse_fields fuel line ls = Some (fs, e, ls') → (length ls' ≤ length ls)%nat).
  { intros f line ls fs e ls'. destruct (parse_fields fuel line ls) as [[[fs0 e0] ls0]|] eqn:E; [|done]. cbn. intros [= _ _ <-].
    by eapply IHf. }
  split.
  - intros line ls fs e ls' H. cbn [parse_fields] in H.
    destruct (match line with c :: _ => c =? 34 | [] => false end); [by eapply IHq|].
    destruct (IndexByte line 44) as [i|]; destruct (existsb _ _); [injection H as _ _ <-; done| |injection H as _ _ <-; done..].
    by eapply Hadd.
  - intros acc line ls fs e ls' H. cbn [parse_quoted] in H. destruct (IndexByte line 34) as [i|].
    + destruct (drop (S i) line) as [|c line']; [by injection H as _ _ <-|]. destruct (c =? 34); [by eapply IHq|].
      destruct (c =? 44); [by eapply Hadd|]. destruct (at_end _); by injection H as _ _ <-.
    + destruct line as [|c line]; [by injection H as _ _ <-|]. apply IHq in H. destruct ls; cbn in *; lia.
Qed.

Lemma skip_empty_length ls : (length (skip_empty ls) ≤ length ls)%nat.
Proof. induction ls as [|l ls IH]; [done|]. cbn. destruct (at_end l); cbn; lia. Qed.

Lemma Read_progress r :
  ∃ res r', Read r = Some (res, r') ∧ (res ≠ EOF → (length (pending r') < length (pending r))%nat).
Proof.
  unfold Read. pose proof (skip_empty_length (pending r)) as Hs. destruct (skip_empty (pending r)) as [|line ls] eqn:E.
  { by eexists _, _. }
  destruct (proj1 (parse_total (enough line ls)) line ls) as [[[fs e] ls'] Hp]; [unfold enough; lia|]. rewrite Hp.
  pose proof (proj1 (parse_lines _) _ _ _ _ _ Hp) as Hl. cbn [mbind option_bind]. eexists _, _. split; [done|]. intros _. cbn in *. lia.
Qed.

Lemma read_all_total fuel r : (length (pending r) < fuel)%nat → is_Some (read_all fuel r).
Proof.
  revert r. induction fuel as [|fuel IH]; intros r Hr; [lia|]. cbn [read_all].
  destruct (Read_progress r) as (res & r' & -> & Hp). destruct res as [|row|row e]; [by eexists| |by eexists].
  destruct (IH r') as [[rows e] ->]; [|by eexists]. assert (length (pending r') < length (pending r))%nat by by apply Hp. lia.
Qed.

Lemma read_all_more fuel r x : read_all fuel r = Some x → ∀ fuel', (fuel ≤ fuel')%nat → read_all fuel' r = Some x.
Proof.
  revert r x. induction fuel as [|fuel IH]; intros r x; [done|]. intros H [|fuel'] Hle; [lia|]. cbn [read_all] in H |- *.
  destruct (Read r) as [[[|row|row e] r']|]; [done| |done..].
  destruct (read_all fuel r') as [y|] eqn:E; [|done]. by rewrite (IH _ _ E) by lia.
Qed.

Lemma read_all_enough fuel r x : read_all fuel r = Some x → read_all (S (length (pending r))) r = Some x.
Proof.
  intros H. destruct (read_all_total (S (length (pending r))) r) as [y Hy]; [lia|].
  destruct (Nat.le_ge_cases fuel (S (length (pending r)))) as [Hle|Hle]; [by rewrite (read_all_more _ _ _ H)|].
  rewrite (read_all_more _ _ _ Hy fuel Hle) in H. by rewrite Hy.
Qed.

Lemma ReadAll_total text : is_Some (ReadAll text).
Proof. apply read_all_total. cbn. lia. Qed.

(** ** Properties *)

Lemma raw_lines_more a text : (S (length (raw_lines text)) ≤ length (raw_lines (a ++ 10%Z :: text)))%nat.
Proof.
  induction a as [|c a IH]; [done|]. cbn [app]. destruct (Z.eqb_spec c 10) as [->|Hc]; [cbn; lia|].
  rewrite raw_lines_cons by done. unfold later_lines. destruct (raw_lines (a ++ 10 :: text)); cbn in *; lia.
Qed.

Lemma records_lines records : (length records ≤ length (raw_lines (concat (map Write records))))%nat.
Proof.
  induction records as [|r records IH]; [done|]. cbn [map concat length]. destruct (write_fields_end (map bytes r)) as [a E].
  change (Write r) with (write_fields (map bytes r)). rewrite E, <-app_assoc. cbn [app]. pose proof (raw_lines_more a (concat (map Write records))). lia.
Qed.

Lemma read_all_written n rs k fuel :
  Forall (fun r => writable (map bytes r) = true ∧ length r = n) rs → (k = 0 ∨ k = n)%nat → (length rs < fuel)%nat →
  read_all fuel {| pending := raw_lines (concat (map Write rs)); FieldsPerRecord := k |} = Some (rs, None).
Proof.
  intros Hrs. revert k fuel. induction Hrs as [|r rs [Hw Hn] _ IH]; intros k [|fuel] Hk Hf; try (cbn in Hf; lia); [done|].
  cbn [map concat read_all]. rewrite Read_Write by (done || lia). rewrite IH by ((cbn in Hf; lia) || (right; lia)). done.
Qed.

Lemma written_clean records :
  Forall (fun r => forallb no_crlf (map bytes r) = true) records →
  no_crlf (concat (map Write records)) = true ∧ ends_line (concat (map Write records)) = true.
Proof.
  induction 1 as [|r records Hw _ [IH1 IH2]]; [done|]. cbn [map concat]. split; [by apply no_crlf_fields|by apply ends_line_fields].
Qed.

Lemma writable_clean r : writable (map bytes r) = true → forallb no_crlf (map bytes r) = true.
Proof. unfold writable. by destruct (map bytes r) as [|[|] []]. Qed.

(** The records a writer wrote are what a reader reads, whatever characters are
    in their fields: commas, quotes, line ends.  Excepted are a line end
    [\r\n], which is read as [\n], and a record of one empty field, which is
    read as an empty line; and all records have the same length. *)
Lemma ReadAll_Write records n :
  Forall (fun r => writable (map bytes r) = true ∧ length r = n) records →
  ReadAll (concat (map Write records)) = Some (records, None).
Proof.
  intros H. destruct (written_clean records) as [Hc He].
  { eapply Forall_impl; [|exact H]. intros r [Hw _]. by apply writable_clean. }
  unfold ReadAll, NewReader. rewrite lines_raw by done. apply (read_all_written n); [done|by left|].
  pose proof (records_lines records). lia.
Qed.

(** A second record of another length is refused. *)
Lemma ReadAll_ragged first second records :
  writable (map bytes first) = true → writable (map bytes second) = true →
  Forall (fun r => forallb no_crlf (map bytes r) = true) records → length second ≠ length first →
  ReadAll (concat (map Write (first :: second :: records))) = Some ([first], Some ErrFieldCount).
Proof.
  intros H1 H2 Hr Hl. destruct (written_clean (first :: second :: records)) as [Hc He].
  { repeat apply List.Forall_cons; [by apply writable_clean..|done]. }
  pose proof (records_lines (first :: second :: records)) as Hlen. unfold ReadAll, NewReader. rewrite lines_raw by done.
  revert Hlen. generalize (length (raw_lines (concat (map Write (first :: second :: records))))). intros m Hlen.
  destruct m as [|m]; [cbn in Hlen; lia|]. cbn [map concat read_all]. rewrite Read_Write by (done || by left).
  rewrite Read_written by done. assert (Hf : (0 < length first)%nat) by (destruct first; [done|cbn; lia]).
  rewrite (proj2 (Nat.ltb_lt 0 _) Hf), (proj2 (Nat.eqb_neq _ _) Hl). done.
Qed.

Lemma Write_bytes records : Forall is_byte (concat (map Write records)).
Proof.
  assert (is_byte 34 ∧ is_byte 44 ∧ is_byte 10) as (H34 & H44 & H10) by (unfold is_byte; lia).
  assert (Hesc : ∀ f, Forall is_byte f → Forall is_byte (escape_quotes f)).
  { induction 1 as [|c f Hc _ IH]; [constructor|]. cbn. destruct (c =? 34); repeat apply List.Forall_cons; done. }
  assert (Hfield : ∀ f, Forall is_byte f → Forall is_byte (write_field f)).
  { intros f Hf. unfold write_field. destruct (fieldNeedsQuotes f); [|done]. apply List.Forall_cons; [exact H34|]. apply Forall_app_2; [by apply Hesc|]. by repeat constructor. }
  assert (Hr : ∀ r, Forall (Forall is_byte) r → Forall is_byte (write_fields r)).
  { induction 1 as [|f r Hf Hr IH]; [by apply List.Forall_cons|]. cbn [write_fields].
    destruct r; apply Forall_app_2; [by apply Hfield|by repeat constructor|by apply Hfield|by apply List.Forall_cons]. }
  induction records as [|r records IH]; [constructor|]. cbn [map concat]. apply Forall_app_2; [|done]. apply Hr.
  apply List.Forall_forall. intros f (s & <- & _)%in_map_iff. apply bytes_is_byte.
Qed.
