(* ===== verification/Json.v ===== *)
(** * Json: JSON values and decoding into Go values

    What src/V2/pkg/http and src/V2/pkg/blockchain/utxo use of package
    encoding/json (Go 1.12), on parsed values.  [Decode] stores into a value
    that exists: absent keys and nulls leave it as it is, and a value of the wrong
    type is skipped and reported at the end.  [format] pairs a decoder with the
    JSON values that stand for a Go value, and [FormatLaws] says that decoding
    recovers it. *)

From stdpp Require Import base list strings numbers.
From Stdlib Require Import ZArith Lia Ascii String.
From S2P Require Import Prelude GoStrings.

Local Open Scope Z_scope.
Local Open Scope string_scope.
Local Open Scope list_scope.

(** A number is its literal. *)
#[warnings="-register-all"]
Inductive json :=
| JNull
| JBool (b : bool)
| JNumber (lit : string)
| JString (s : string)
| JArray (l : list json)
| JObject (kvs : list (string * json)).

(** ** Decoders *)

(** The value decoded into, and whether no value had the wrong type *)
Definition decoder (A : Type) : Type := A → json → A * bool.

Definition dec_bool : decoder bool := fun old j =>
  match j with JNull => (old, true) | JBool b => (b, true) | _ => (old, false) end.

(** An [int]: the literal of an integer that fits *)
Definition dec_int : decoder Z := fun old j =>
  match j with
  | JNull => (old, true)
  | JNumber lit => match ParseInt lit with (z, None) => (z, true) | (_, Some _) => (old, false) end
  | _ => (old, false)
  end.

Definition dec_string : decoder string := fun old j =>
  match j with JNull => (old, true) | JString s => (s, true) | _ => (old, false) end.

(** A [json.Number]; a string is taken as it is *)
Definition dec_number : decoder string := fun old j =>
  match j with JNull => (old, true) | JNumber lit => (lit, true) | JString s => (s, true) | _ => (old, false) end.

(** The elements of an array, each into the element at its place when there is
    one, else into a zero value *)
Fixpoint dec_elements {A} (zero : A) (d : decoder A) (old : list A) (l : list json) : list A * bool :=
  match l with
  | [] => ([], true)
  | j :: l =>
      let '(a, ok) := d (match old with o :: _ => o | [] => zero end) j in
      let '(rest, oks) := dec_elements zero d (tl old) l in
      (a :: rest, ok && oks)
  end.

(** A slice, nil or not *)
Definition dec_slice {A} (zero : A) (d : decoder A) : decoder (option (list A)) := fun old j =>
  match j with
  | JNull => (None, true)
  | JArray l => let '(r, ok) := dec_elements zero d (default [] old) l in (Some r, ok)
  | _ => (old, false)
  end.

(** A slice of which nil and empty are not told apart *)
Definition dec_list {A} (zero : A) (d : decoder A) : decoder (list A) := fun old j =>
  match j with
  | JNull => ([], true)
  | JArray l => dec_elements zero d old l
  | _ => (old, false)
  end.

(** A pointer, allocated when it is nil *)
Definition dec_ptr {A} (zero : A) (d : decoder A) : decoder (option A) := fun old j =>
  match j with
  | JNull => (None, true)
  | _ => let '(a, ok) := d (default zero old) j in (Some a, ok)
  end.

(** ** Structs *)

(** The members of an object, in the order of the text *)
Definition members : Type := list (string * json).

(** The field of a struct for a key: the one of that name, or the first whose
    name differs in case only *)
Definition key_of (names : list string) (key : string) : option string :=
  if bool_decide (key ∈ names) then Some key
  else find (fun name => String.eqb (ToLower name) (ToLower key)) names.

(** A field receives in turn the members whose keys stand for it; members of
    no field are skipped. *)
Fixpoint dec_field {A} (names : list string) (name : string) (d : decoder A) (old : A) (kvs : members) : A * bool :=
  match kvs with
  | [] => (old, true)
  | (k, j) :: kvs =>
      if bool_decide (key_of names k = Some name) then
        let '(a, ok) := d old j in
        let '(a, oks) := dec_field names name d a kvs in (a, ok && oks)
      else dec_field names name d old kvs
  end.

(** One more field for a constructor *)
Definition ap {A B} (f : (A → B) * bool) (a : A * bool) : B * bool := (f.1 a.1, f.2 && a.2).

(** An object into a struct, by what it does to the members *)
Definition dec_struct {A} (d : A → members → A * bool) : decoder A := fun old j =>
  match j with
  | JNull => (old, true)
  | JObject kvs => d old kvs
  | _ => (old, false)
  end.

(** ** Values of type interface *)

(** Objects become maps, in which the last of equal keys counts; encoding a map
    sorts the keys. *)
Fixpoint map_insert (k : string) (j : json) (l : members) : members :=
  match l with
  | [] => [(k, j)]
  | (k', j') :: l' =>
      match String.compare k k' with
      | Lt => (k, j) :: l
      | Eq => (k, j) :: l'
      | Gt => (k', j') :: map_insert k j l'
      end
  end.

(** A value decoded into an [interface{}] and encoded again *)
Fixpoint canon_json (j : json) : json :=
  match j with
  | JArray l => JArray (map canon_json l)
  | JObject kvs => JObject (fold_left (fun m kv => map_insert kv.1 kv.2 m) (map (fun kv => (kv.1, canon_json kv.2)) kvs) [])
  | _ => j
  end.

(** ** Formats *)

(** A Go type with the JSON values that stand for its values *)
Record format (A : Type) := {
  zero : A;
  dec : decoder A;
  rep : json → A → Prop;
}.
Arguments zero {A} f : rename.
Arguments dec {A} f : rename.
Arguments rep {A} f : rename.

(** A value decoded into a fresh variable is the one the JSON stands for, also
    when the JSON went through an [interface{}]. *)
Class FormatLaws {A} (f : format A) := {
  rep_dec j a : rep f j a → dec f (zero f) j = (a, true);
  rep_canon j a : rep f j a → rep f (canon_json j) a;
}.

Definition bool_fmt : format bool :=
  {| zero := false; dec := dec_bool; rep j b := j = JBool b ∨ j = JNull ∧ b = false |}.
Definition string_fmt : format string :=
  {| zero := ""; dec := dec_string; rep j s := j = JString s ∨ j = JNull ∧ s = "" |}.
Definition number_fmt : format string :=
  {| zero := ""; dec := dec_number; rep j s := j = JNumber s ∨ j = JNull ∧ s = "" |}.
Definition int_fmt : format Z :=
  {| zero := 0; dec := dec_int;
     rep j z := (j = JNumber (Itoa z) ∧ in_int64 z) ∨ j = JNull ∧ z = 0 |}.
Definition list_fmt {A} (f : format A) : format (list A) :=
  {| zero := []; dec := dec_list (zero f) (dec f);
     rep j l := (∃ js, j = JArray js ∧ Forall2 (rep f) js l) ∨ j = JNull ∧ l = [] |}.
Definition slice_fmt {A} (f : format A) : format (option (list A)) :=
  {| zero := None; dec := dec_slice (zero f) (dec f);
     rep j o := (∃ js l, j = JArray js ∧ o = Some l ∧ Forall2 (rep f) js l) ∨ j = JNull ∧ o = None |}.
Definition ptr_fmt {A} (f : format A) : format (option A) :=
  {| zero := None; dec := dec_ptr (zero f) (dec f);
     rep j o := (∃ a, j ≠ JNull ∧ o = Some a ∧ rep f j a) ∨ j = JNull ∧ o = None |}.

(** The value of a member *)
Definition assoc (k : string) (kvs : members) : option json := snd <$> find (fun kv => String.eqb kv.1 k) kvs.

(** The keys are distinct, and each is the name of a field or none up to
    case. *)
Definition plain (names : list string) (kvs : members) : Prop :=
  NoDup (map fst kvs) ∧ ∀ k, k ∈ map fst kvs → k ∈ names ∨ key_of names k = None.

(** The member of a name stands for the value; an absent one for zero. *)
Definition member {A} (kvs : members) (name : string) (f : format A) (a : A) : Prop :=
  match assoc name kvs with Some j => rep f j a | None => a = zero f end.

Definition struct_rep {A} (names : list string) (r : members → A → Prop) (z : A) (j : json) (a : A) : Prop :=
  (∃ kvs, j = JObject kvs ∧ plain names kvs ∧ r kvs a) ∨ j = JNull ∧ a = z.

(** ** Lemmas *)

(** Membership in a list of literals *)
Ltac in_names := apply (bool_decide_unpack _); vm_compute; exact I.

Lemma assoc_cons k k' j kvs :
  assoc k ((k', j) :: kvs) = if String.eqb k' k then Some j else assoc k kvs.
Proof. unfold assoc. cbn. by destruct (String.eqb_spec k' k). Qed.

Lemma assoc_None k kvs : k ∉ map fst kvs → assoc k kvs = None.
Proof.
  induction kvs as [|[k' j] kvs IH]; [done|]. cbn [map fst]. intros [Hne Hk]%not_elem_of_cons.
  rewrite assoc_cons. destruct (String.eqb_spec k' k); [congruence|]. by apply IH.
Qed.

Lemma key_of_name names k : k ∈ names → key_of names k = Some k.
Proof. intros H. unfold key_of. by rewrite bool_decide_true. Qed.

Lemma plain_cons names kv kvs : plain names (kv :: kvs) → (kv.1 ∉ map fst kvs) ∧ plain names kvs.
Proof.
  intros [[Hn Hd]%list.NoDup_cons Hk]. split; [done|]. split; [done|]. intros k H. apply Hk. by right.
Qed.

Lemma dec_field_absent {A} names name (d : decoder A) old kvs :
  plain names kvs → name ∈ names → name ∉ map fst kvs → dec_field names name d old kvs = (old, true).
Proof.
  intros Hp Hin. induction kvs as [|[k j] kvs IH]; [done|]. cbn [map fst dec_field].
  intros [Hne Hk]%not_elem_of_cons. rewrite bool_decide_false; [apply IH; [by eapply plain_cons|done]|].
  destruct (proj2 Hp k ltac:(by left)) as [Hk'| ->]; [|done]. rewrite key_of_name by done. congruence.
Qed.

(** With plain members a field is decoded from its member. *)
Lemma dec_field_plain {A} names name (d : decoder A) old kvs :
  plain names kvs → name ∈ names →
  dec_field names name d old kvs = match assoc name kvs with Some j => d old j | None => (old, true) end.
Proof.
  intros Hp Hin. induction kvs as [|[k j] kvs IH]; [done|]. destruct (plain_cons _ _ _ Hp) as [Hnk Hp'].
  cbn [dec_field]. rewrite assoc_cons. destruct (String.eqb_spec k name) as [->|Hne].
  - rewrite bool_decide_true by by apply key_of_name. destruct (d old j) as [a ok].
    rewrite dec_field_absent by done. by rewrite andb_true_r.
  - rewrite bool_decide_false; [by apply IH|].
    destruct (proj2 Hp k ltac:(by left)) as [Hk'| ->]; [|done]. rewrite key_of_name by done. congruence.
Qed.

Lemma dec_field_member {A} `{!FormatLaws f} names name d z kvs (a : A) :
  d = dec f → z = zero f → plain names kvs → name ∈ names → member kvs name f a →
  dec_field names name d z kvs = (a, true).
Proof.
  intros -> -> Hp Hin Hm. rewrite dec_field_plain by done. unfold member in Hm.
  destruct (assoc name kvs); [by apply rep_dec|by subst].
Qed.

(** *** Through an interface *)

Definition canon_members (kvs : members) : members :=
  fold_left (fun m kv => map_insert kv.1 kv.2 m) (map (fun kv => (kv.1, canon_json kv.2)) kvs) [].

Lemma map_insert_perm k j l : k ∉ map fst l → map_insert k j l ≡ₚ (k, j) :: l.
Proof.
  induction l as [|[k' j'] l IH]; [done|]. cbn [map fst map_insert]. intros [Hne Hk]%not_elem_of_cons.
  destruct (String.compare k k') eqn:Hc; [by apply String.compare_eq_iff in Hc|done|].
  rewrite IH by done. apply Permutation_swap.
Qed.

Lemma fold_insert_perm kvs m :
  NoDup (map fst (kvs ++ m)) → fold_left (fun m kv => map_insert kv.1 kv.2 m) kvs m ≡ₚ kvs ++ m.
Proof.
  revert m. induction kvs as [|[k j] kvs IH]; intros m Hd; [done|]. cbn [fold_left fst snd].
  cbn in Hd. apply list.NoDup_cons in Hd as [Hk Hd]. rewrite map_app in Hk. apply not_elem_of_app in Hk as [Hk Hm].
  pose proof (map_insert_perm k j m Hm) as Hp.
  rewrite IH; [rewrite Hp; symmetry; apply Permutation_middle|].
  rewrite Hp, <-Permutation_middle. cbn. apply list.NoDup_cons. split; [|done].
  rewrite map_app. apply not_elem_of_app. done.
Qed.

Lemma canon_members_perm kvs :
  NoDup (map fst kvs) → canon_members kvs ≡ₚ map (fun kv => (kv.1, canon_json kv.2)) kvs.
Proof.
  intros Hd. unfold canon_members. rewrite fold_insert_perm; rewrite app_nil_r; [done|]. by rewrite map_map.
Qed.

Lemma plain_perm names kvs kvs' : map fst kvs ≡ₚ map fst kvs' → plain names kvs → plain names kvs'.
Proof. intros Hp [Hd Hk]. split; [by rewrite <-Hp|]. intros k. rewrite <-Hp. apply Hk. Qed.

Lemma assoc_elem k j kvs : NoDup (map fst kvs) → assoc k kvs = Some j ↔ (k, j) ∈ kvs.
Proof.
  induction kvs as [|[k' j'] kvs IH]; intros Hd; [split; [done|by intros ?%elem_of_nil]|].
  cbn in Hd. apply list.NoDup_cons in Hd as [Hk Hd]. rewrite assoc_cons, elem_of_cons.
  destruct (String.eqb_spec k' k) as [->|Hne].
  - split; [intros [= ->]; by left|]. intros [[= ->]|Hin]; [done|].
    destruct Hk. apply list_elem_of_fmap. by exists (k, j).
  - rewrite IH by done. split; [by right|]. intros [[= -> ->]|]; done.
Qed.

Lemma assoc_perm k kvs kvs' : NoDup (map fst kvs) → kvs ≡ₚ kvs' → assoc k kvs = assoc k kvs'.
Proof.
  intros Hd Hp. apply option_eq. intros j. rewrite !assoc_elem; [by rewrite Hp|by rewrite <-Hp|done].
Qed.

Lemma assoc_canon k kvs : NoDup (map fst kvs) → assoc k (canon_members kvs) = canon_json <$> assoc k kvs.
Proof.
  intros Hd. pose proof (canon_members_perm _ Hd) as Hp.
  erewrite assoc_perm; [|by rewrite Hp, map_map|exact Hp]. clear Hd Hp. induction kvs as [|[k' j] kvs IH]; [done|]. cbn [map fst snd]. rewrite !assoc_cons, IH.
  by destruct (String.eqb k' k).
Qed.

Lemma plain_canon names kvs : plain names kvs → plain names (canon_members kvs).
Proof.
  intros Hp. eapply plain_perm; [|done]. by rewrite canon_members_perm, map_map by apply Hp.
Qed.

Lemma member_canon {A} `{!FormatLaws f} names kvs name (a : A) :
  plain names kvs → member kvs name f a → member (canon_members kvs) name f a.
Proof.
  intros Hp. unfold member. rewrite assoc_canon by apply Hp. destruct (assoc name kvs); [|done].
  cbn. apply rep_canon.
Qed.

(** *** The laws *)

#[export] Instance bool_laws : FormatLaws bool_fmt.
Proof. split; intros j a [->|[-> ->]]; cbn; auto. Qed.

#[export] Instance string_laws : FormatLaws string_fmt.
Proof. split; intros j a [->|[-> ->]]; cbn; auto. Qed.

#[export] Instance number_laws : FormatLaws number_fmt.
Proof. split; intros j a [->|[-> ->]]; cbn; auto. Qed.

#[export] Instance int_laws : FormatLaws int_fmt.
Proof.
  split; intros j a [[-> Ha]|[-> ->]]; cbn; auto. pose proof (Atoi_Itoa a Ha) as H. unfold Atoi in H. by rewrite H.
Qed.

Lemma dec_elements_rep {A} `{!FormatLaws f} js (l : list A) :
  Forall2 (rep f) js l → dec_elements (zero f) (dec f) [] js = (l, true).
Proof.
  induction 1 as [|j a js l Hj _ IH]; [done|]. cbn. by rewrite (rep_dec _ _ Hj), IH.
Qed.

Lemma reps_canon {A} `{!FormatLaws f} js (l : list A) :
  Forall2 (rep f) js l → Forall2 (rep f) (map canon_json js) l.
Proof. induction 1; cbn; constructor; [by apply rep_canon|done]. Qed.

#[export] Instance list_laws {A} (f : format A) `{!FormatLaws f} : FormatLaws (list_fmt f).
Proof.
  split; intros j a [(js & -> & H)|[-> ->]]; cbn; try by auto.
  - by apply dec_elements_rep.
  - left. eexists. split; [done|]. by apply reps_canon.
Qed.

#[export] Instance slice_laws {A} (f : format A) `{!FormatLaws f} : FormatLaws (slice_fmt f).
Proof.
  split; intros j a [(js & l & -> & -> & H)|[-> ->]]; cbn; try by auto.
  - by rewrite (dec_elements_rep _ _ H).
  - left. do 2 eexists. split; [done|]. split; [done|]. by apply reps_canon.
Qed.

#[export] Instance ptr_laws {A} (f : format A) `{!FormatLaws f} : FormatLaws (ptr_fmt f).
Proof.
  split; intros j a [(x & Hn & -> & H)|[-> ->]]; cbn; try by auto.
  - unfold dec_ptr. cbn. destruct j; try done; by rewrite (rep_dec _ _ H).
  - left. exists x. split; [by destruct j|]. split; [done|]. by apply rep_canon.
Qed.

Section struct_laws.
Context {A} (names : list string) (z : A) (d : A → members → A * bool) (r : members → A → Prop).

Definition struct_fmt : format A :=
  {| zero := z; dec := dec_struct d; rep := struct_rep names r z |}.

(** A struct follows the laws when its members do. *)
Lemma struct_laws :
  (∀ kvs a, plain names kvs → r kvs a → d z kvs = (a, true)) →
  (∀ kvs a, plain names kvs → r kvs a → r (canon_members kvs) a) →
  FormatLaws struct_fmt.
Proof.
  intros Hd Hc. split; intros j a [(kvs & -> & Hp & Hr)|[-> ->]]; cbn; try done.
  - by apply Hd.
  - left. exists (canon_members kvs). split; [done|]. split; [by apply plain_canon|]. by apply Hc.
  - by right.
Qed.

End struct_laws.
