(* ===== verification/JsonText.v ===== *)
(** * JsonText: JSON as text

    How package encoding/json (Go 1.12) writes a JSON value and reads one:
    escapes, UTF-8 with the replacement of malformed bytes, surrogate pairs, the
    grammar of numbers, white space, objects and arrays.  A text is the list of
    its bytes.  What is written is read back. *)

From stdpp Require Import base list strings numbers.
From Stdlib Require Import ZArith Lia.
From S2P Require Import Prelude GoStrings Json.

Local Open Scope Z_scope.

(** ** UTF-8 *)

Definition between (lo hi c : Z) : bool := (lo <=? c) && (c <=? hi).

(** The bytes of the first code point, when it is well formed *)
Definition split_rune (l : list Z) : option (list Z * list Z) :=
  match l with
  | [] => None
  | a :: l1 =>
      if a <? 128 then Some ([a], l1)
      else if between 194 223 a then
        match l1 with
        | b :: l2 => if between 128 191 b then Some ([a; b], l2) else None
        | _ => None
        end
      else if between 224 239 a then
        match l1 with
        | b :: c :: l2 =>
            if between (if a =? 224 then 160 else 128) (if a =? 237 then 159 else 191) b && between 128 191 c
            then Some ([a; b; c], l2) else None
        | _ => None
        end
      else if between 240 244 a then
        match l1 with
        | b :: c :: d :: l2 =>
            if between (if a =? 240 then 144 else 128) (if a =? 244 then 143 else 191) b && between 128 191 c && between 128 191 d
            then Some ([a; b; c; d], l2) else None
        | _ => None
        end
      else None
  end.

(** U+FFFD *)
Definition replacement : list Z := [239; 191; 189].

(** [utf8.EncodeRune] *)
Definition encode_rune (r : Z) : list Z :=
  if r <? 0x80 then [r]
  else if r <? 0x800 then [192 + r / 64; 128 + r mod 64]
  else if between 0xD800 0xDFFF r || (0x10FFFF <? r) then replacement
  else if r <? 0x10000 then [224 + r / 4096; 128 + r / 64 mod 64; 128 + r mod 64]
  else [240 + r / 262144; 128 + r / 4096 mod 64; 128 + r / 64 mod 64; 128 + r mod 64].

(** ** Writing *)

(** [\u00XX] *)
Definition escape_hex (c : Z) : list Z := [92; 117; 48; 48; hex_char (c / 16); hex_char (c mod 16)].

Definition escape (c : Z) : list Z :=
  if (c =? 34) || (c =? 92) then [92; c]
  else if c =? 10 then [92; 110]
  else if c =? 13 then [92; 114]
  else if c =? 9 then [92; 116]
  else if (c <? 32) || (c =? 60) || (c =? 62) || (c =? 38) then escape_hex c
  else [c].

(** U+2028 and U+2029 are escaped. *)
Definition write_rune (r : list Z) : list Z :=
  if bool_decide (r = [226; 128; 168]) then [92; 117; 50; 48; 50; 56]
  else if bool_decide (r = [226; 128; 169]) then [92; 117; 50; 48; 50; 57]
  else r.

(** The inside of a string; malformed bytes are replaced *)
Fixpoint quote_inside (fuel : nat) (l : list Z) : list Z :=
  match fuel with
  | O => []
  | S fuel =>
      match l with
      | [] => []
      | a :: l1 =>
          if a <? 128 then escape a ++ quote_inside fuel l1
          else
            match split_rune l with
            | Some (r, rest) => write_rune r ++ quote_inside fuel rest
            | None => [92; 117; 102; 102; 102; 100] ++ quote_inside fuel l1
            end
      end
  end.

Definition quote_json (s : string) : list Z := 34 :: quote_inside (length (bytes s)) (bytes s) ++ [34].

(** The elements with commas between them *)
Fixpoint commas (l : list (list Z)) : list Z :=
  match l with
  | [] => []
  | [x] => x
  | x :: l => x ++ 44 :: commas l
  end.

(** A value; an empty [json.Number] is written as zero *)
Fixpoint print (j : json) : list Z :=
  match j with
  | JNull => [110; 117; 108; 108]
  | JBool true => [116; 114; 117; 101]
  | JBool false => [102; 97; 108; 115; 101]
  | JNumber lit => if String.eqb lit "" then [48] else bytes lit
  | JString s => quote_json s
  | JArray l => 91 :: commas (map print l) ++ [93]
  | JObject kvs => 123 :: commas (map (fun kv => quote_json kv.1 ++ 58 :: print kv.2) kvs) ++ [125]
  end.

(** ** Reading *)

(** The four digits of [\u] *)
Definition hex4 (l : list Z) : option (Z * list Z) :=
  match l with
  | a :: b :: c :: d :: l =>
      match from_hex_char a, from_hex_char b, from_hex_char c, from_hex_char d with
      | Some a, Some b, Some c, Some d => Some (4096 * a + 256 * b + 16 * c + d, l)
      | _, _, _, _ => None
      end
  | _ => None
  end.

(** A code point after [\u], with the second half of a surrogate pair *)
Definition unicode_escape (l : list Z) : option (list Z * list Z) :=
  match hex4 l with
  | None => None
  | Some (r, l) =>
      if between 0xD800 0xDFFF r then
        match l with
        | a :: b :: l' =>
            if (a =? 92) && (b =? 117) then
              match hex4 l' with
              | Some (r2, l'') =>
                  if between 0xD800 0xDBFF r && between 0xDC00 0xDFFF r2
                  then Some (encode_rune ((r - 0xD800) * 1024 + (r2 - 0xDC00) + 0x10000), l'')
                  else Some (replacement, l)
              | None => Some (replacement, l)
              end
            else Some (replacement, l)
        | _ => Some (replacement, l)
        end
      else Some (encode_rune r, l)
  end.

(** The character after a backslash *)
Definition simple_escape (c : Z) : option Z :=
  if (c =? 34) || (c =? 92) || (c =? 47) then Some c
  else if c =? 98 then Some 8
  else if c =? 102 then Some 12
  else if c =? 110 then Some 10
  else if c =? 114 then Some 13
  else if c =? 116 then Some 9
  else None.

(** The bytes of a string up to its closing quote, and what follows *)
Fixpoint lex_string (fuel : nat) (l : list Z) : option (list Z * list Z) :=
  match fuel with
  | O => None
  | S fuel =>
      let more (r : list Z) (l : list Z) :=
        match lex_string fuel l with Some (s, rest) => Some (r ++ s, rest) | None => None end in
      match l with
      | [] => None
      | a :: l1 =>
          if a =? 34 then Some ([], l1)
          else if a =? 92 then
            match l1 with
            | [] => None
            | c :: l2 =>
                if c =? 117 then
                  match unicode_escape l2 with Some (r, l3) => more r l3 | None => None end
                else
                  match simple_escape c with Some x => more [x] l2 | None => None end
            end
          else if a <? 32 then None
          else
            match split_rune l with
            | Some (r, rest) => more r rest
            | None => more replacement l1
            end
      end
  end.

Fixpoint take_digits (l : list Z) : list Z * list Z :=
  match l with
  | c :: l' => if is_digit c then let '(d, rest) := take_digits l' in (c :: d, rest) else ([], l)
  | [] => ([], [])
  end.

(** The integer part of a number: no leading zeros *)
Definition lex_int (l : list Z) : option (list Z * list Z) :=
  match l with
  | [] => None
  | c :: l' =>
      if c =? 48 then Some ([48], l')
      else if is_digit c then let '(d, rest) := take_digits l' in Some (c :: d, rest)
      else None
  end.

Definition lex_sign (l : list Z) : list Z * list Z :=
  match l with c :: l' => if c =? 45 then ([45], l') else ([], l) | [] => ([], []) end.

(** The digits after a point *)
Definition lex_frac (l : list Z) : option (list Z * list Z) :=
  match l with
  | c :: l' =>
      if c =? 46 then
        match take_digits l' with ([], _) => None | (d, rest) => Some (46 :: d, rest) end
      else Some ([], l)
  | [] => Some ([], [])
  end.

(** The exponent *)
Definition lex_exp (l : list Z) : option (list Z * list Z) :=
  match l with
  | e :: l' =>
      if (e =? 101) || (e =? 69) then
        let '(s, l'') := match l' with
                         | c :: l'' => if (c =? 43) || (c =? 45) then ([c], l'') else ([], l')
                         | [] => ([], [])
                         end in
        match take_digits l'' with ([], _) => None | (d, rest) => Some (e :: s ++ d, rest) end
      else Some ([], l)
  | [] => Some ([], [])
  end.

Definition lex_number (l : list Z) : option (list Z * list Z) :=
  let '(s, l) := lex_sign l in
  match lex_int l with
  | None => None
  | Some (i, l) =>
      match lex_frac l with
      | None => None
      | Some (f, l) =>
          match lex_exp l with
          | None => None
          | Some (e, l) => Some (s ++ i ++ f ++ e, l)
          end
      end
  end.

Definition is_space (c : Z) : bool := (c =? 32) || (c =? 9) || (c =? 10) || (c =? 13).

Fixpoint skip_space (l : list Z) : list Z :=
  match l with c :: l' => if is_space c then skip_space l' else l | [] => [] end.

(** null, true and false *)
Definition lex_literal (l : list Z) : option (json * list Z) :=
  match strip (print JNull) l, strip (print (JBool true)) l, strip (print (JBool false)) l with
  | Some l, _, _ => Some (JNull, l)
  | _, Some l, _ => Some (JBool true, l)
  | _, _, Some l => Some (JBool false, l)
  | None, None, None => None
  end.

(** A value, the elements of an array after the opening bracket or a comma, and
    the members of an object; each with what follows *)
Fixpoint parse_value (fuel : nat) (l : list Z) : option (json * list Z) :=
  match fuel with
  | O => None
  | S fuel =>
      match skip_space l with
      | [] => None
      | c :: l1 =>
          if c =? 34 then
            match lex_string (length l1) l1 with Some (s, rest) => Some (JString (of_bytes s), rest) | None => None end
          else if c =? 91 then
            match skip_space l1 with
            | d :: rest =>
                if d =? 93 then Some (JArray [], rest)
                else match parse_elements fuel l1 with Some (js, rest) => Some (JArray js, rest) | None => None end
            | [] => None
            end
          else if c =? 123 then
            match skip_space l1 with
            | d :: rest =>
                if d =? 125 then Some (JObject [], rest)
                else match parse_members fuel l1 with Some (kvs, rest) => Some (JObject kvs, rest) | None => None end
            | [] => None
            end
          else if (c =? 45) || is_digit c then
            match lex_number (c :: l1) with Some (n, rest) => Some (JNumber (of_bytes n), rest) | None => None end
          else lex_literal (c :: l1)
      end
  end
with parse_elements (fuel : nat) (l : list Z) : option (list json * list Z) :=
  match fuel with
  | O => None
  | S fuel =>
      match parse_value fuel l with
      | None => None
      | Some (j, l1) =>
          match skip_space l1 with
          | c :: l2 =>
              if c =? 44 then
                match parse_elements fuel l2 with Some (js, rest) => Some (j :: js, rest) | None => None end
              else if c =? 93 then Some ([j], l2)
              else None
          | [] => None
          end
      end
  end
with parse_members (fuel : nat) (l : list Z) : option (members * list Z) :=
  match fuel with
  | O => None
  | S fuel =>
      match skip_space l with
      | [] => None
      | c :: l1 =>
          if c =? 34 then
            match lex_string (length l1) l1 with
            | None => None
            | Some (k, l2) =>
                match skip_space l2 with
                | [] => None
                | c :: l3 =>
                    if c =? 58 then
                      match parse_value fuel l3 with
                      | None => None
                      | Some (j, l4) =>
                          match skip_space l4 with
                          | c :: l5 =>
                              if c =? 44 then
                                match parse_members fuel l5 with
                                | Some (kvs, rest) => Some ((of_bytes k, j) :: kvs, rest)
                                | None => None
                                end
                              else if c =? 125 then Some ([(of_bytes k, j)], l5)
                              else None
                          | [] => None
                          end
                      end
                    else None
                end
            end
          else None
      end
  end.

(** The first value of a text.  Every call of the parser goes one level down or
    has read a character since the last, so twice the length is enough. *)
Definition parse (text : string) : option json :=
  let l := bytes text in fst <$> parse_value (2 * length l) l.

(** ** Texts that survive *)

(** Well-formed UTF-8 *)
Fixpoint utf8_fuel (fuel : nat) (l : list Z) : bool :=
  match l with
  | [] => true
  | _ =>
      match fuel with
      | O => false
      | S fuel => match split_rune l with Some (_, rest) => utf8_fuel fuel rest | None => false end
      end
  end.

Definition utf8 (s : string) : bool := utf8_fuel (length (bytes s)) (bytes s).

Definition valid_number (lit : string) : bool := bool_decide (lex_number (bytes lit) = Some (bytes lit, [])).

(** Strings are UTF-8 and numbers are numbers. *)
Fixpoint printable (j : json) : bool :=
  match j with
  | JNull | JBool _ => true
  | JNumber lit => valid_number lit
  | JString s => utf8 s
  | JArray l => forallb printable l
  | JObject kvs => forallb (fun kv => utf8 kv.1 && printable kv.2) kvs
  end.

(** ** Lemmas *)

Definition is_rune (r : list Z) : Prop := split_rune r = Some (r, []).

Lemma split_rune_inv l r rest : split_rune l = Some (r, rest) → l = r ++ rest ∧ is_rune r.
Proof.
  unfold is_rune, split_rune. intros H.
  repeat (case_match; simplify_eq/=); split; try done;
  repeat match goal with E : ?b = true |- context [?b] => rewrite E end; done.
Qed.

Lemma split_rune_app r l : is_rune r → split_rune (r ++ l) = Some (r, l).
Proof.
  unfold is_rune, split_rune. intros H. destruct r as [|a r]; [done|]. cbn [app].
  repeat (case_match; simplify_eq/=); done.
Qed.

(** The bytes of a rune after the first are continuation bytes. *)
Lemma rune_cases r : is_rune r → (∃ a, r = [a] ∧ a < 128) ∨ (∃ a r', r = a :: r' ∧ 194 ≤ a).
Proof.
  unfold is_rune, split_rune, between. intros H. destruct r as [|a r]; [done|].
  destruct (Z.ltb_spec a 128); [left; exists a; by injection H as <-|right; exists a, r; split; [done|]].
  repeat (case_match; simplify_eq/=); lia.
Qed.

Inductive runes : list Z → Prop :=
| runes_nil : runes []
| runes_cons r l : is_rune r → runes l → runes (r ++ l).

Lemma utf8_runes fuel l : utf8_fuel fuel l = true → runes l.
Proof.
  revert l. induction fuel as [|fuel IH]; intros [|a l]; cbn [utf8_fuel]; try (intros; constructor); [done|].
  destruct (split_rune (a :: l)) as [[r rest]|] eqn:Hs; [|done]. intros H.
  destruct (split_rune_inv _ _ _ Hs) as [-> Hr]. constructor; [done|]. by apply IH.
Qed.

Lemma hex4_escape c l : 0 ≤ c < 128 → hex4 (48 :: 48 :: hex_char (c / 16) :: hex_char (c mod 16) :: l) = Some (c, l).
Proof.
  intros Hc. cbn [hex4]. change (from_hex_char 48) with (Some 0).
  rewrite (proj2 (hex_char_range (c / 16) ltac:(split; [apply Z.div_pos|apply Z.div_lt_upper_bound]; lia))).
  rewrite (proj2 (hex_char_range (c mod 16) ltac:(apply Z.mod_pos_bound; lia))).
  do 2 f_equal. pose proof (Z.div_mod c 16). lia.
Qed.

Lemma unicode_escape_ascii c l : 0 ≤ c < 128 →
  unicode_escape (48 :: 48 :: hex_char (c / 16) :: hex_char (c mod 16) :: l) = Some ([c], l).
Proof.
  intros Hc. unfold unicode_escape. rewrite hex4_escape by done. unfold between, encode_rune.
  rewrite (proj2 (Z.leb_gt _ c)) by lia. cbn [andb]. by rewrite (proj2 (Z.ltb_lt c _)) by lia.
Qed.

(** One step of [lex_string] over what an ASCII character was written as *)
Lemma lex_escape c fuel l : 0 ≤ c < 128 →
  lex_string (S fuel) (escape c ++ l) =
    match lex_string fuel l with Some (s, rest) => Some (c :: s, rest) | None => None end.
Proof.
  intros Hc. unfold escape.
  destruct (Z.eqb_spec c 34) as [->|]; [done|]. destruct (Z.eqb_spec c 92) as [->|]; [done|]. cbn [orb].
  destruct (Z.eqb_spec c 10) as [->|]; [done|]. destruct (Z.eqb_spec c 13) as [->|]; [done|].
  destruct (Z.eqb_spec c 9) as [->|]; [done|].
  destruct ((c <? 32) || (c =? 60) || (c =? 62) || (c =? 38)) eqn:He.
  - unfold escape_hex. cbn [app lex_string]. change (92 =? 34) with false. change (92 =? 92) with true.
    change (117 =? 117) with true. cbn [app]. by rewrite unicode_escape_ascii.
  - cbn [app lex_string]. rewrite (proj2 (Z.eqb_neq c 34)), (proj2 (Z.eqb_neq c 92)) by done.
    assert (Hlt : (c <? 32) = false) by (destruct (c <? 32); [done|done]). rewrite Hlt.
    unfold split_rune. by rewrite (proj2 (Z.ltb_lt c 128)) by lia.
Qed.

(** One step over a longer code point *)
Lemma lex_rune r a r' fuel l : is_rune r → r = a :: r' → 194 ≤ a →
  lex_string (S fuel) (write_rune r ++ l) =
    match lex_string fuel l with Some (s, rest) => Some (r ++ s, rest) | None => None end.
Proof.
  intros Hr Heq Ha. unfold write_rune. case_bool_decide as H8; [by rewrite H8|]. case_bool_decide as H9; [by rewrite H9|]. clear H8 H9.
  pose proof (split_rune_app r l Hr) as Hs. rewrite Heq in Hs |- *. cbn [app] in Hs. cbn [app lex_string].
  rewrite (proj2 (Z.eqb_neq a 34)), (proj2 (Z.eqb_neq a 92)), (proj2 (Z.ltb_ge a 32)) by lia. by rewrite Hs.
Qed.

Lemma lex_quote_inside l : runes l → Forall is_byte l → ∀ n fuel rest,
  (length l ≤ n)%nat → (length (quote_inside n l) < fuel)%nat →
  lex_string fuel (quote_inside n l ++ 34 :: rest) = Some (l, rest).
Proof.
  induction 1 as [|r l Hr Hl IH]; intros Hb n fuel rest Hn Hf.
  - destruct fuel; [lia|]. by destruct n.
  - apply list.Forall_app in Hb as [Hbr Hbl].
    destruct (rune_cases r Hr) as [(a & -> & Ha)|(a & r' & Heq & Ha)].
    + destruct n as [|n]; [cbn in Hn; lia|]. cbn [app quote_inside] in *. apply Forall_inv in Hbr. unfold is_byte in Hbr.
      rewrite (proj2 (Z.ltb_lt a 128)) in Hf |- * by done. rewrite <-app_assoc. destruct fuel as [|fuel]; [lia|].
      rewrite lex_escape by lia. rewrite length_app in Hf. assert (0 < length (escape a))%nat by (unfold escape; repeat case_match; cbn; lia).
      rewrite IH; [done|done|cbn in Hn; lia|lia].
    + rewrite length_app in Hn. pose proof (split_rune_app r l Hr) as Hs.
      assert (Hq : quote_inside n (r ++ l) = write_rune r ++ quote_inside (pred n) l).
      { destruct n as [|n]; [rewrite Heq in Hn; cbn in Hn; lia|]. rewrite Heq in Hs |- *. cbn [app quote_inside pred] in Hs |- *.
        rewrite (proj2 (Z.ltb_ge a 128)) by lia. by rewrite Hs. }
      rewrite Hq in Hf |- *. rewrite <-app_assoc. destruct fuel as [|fuel]; [lia|]. rewrite (lex_rune r a r') by done.
      rewrite length_app in Hf. rewrite Heq in Hn. cbn in Hn. rewrite IH; [done|done|lia|].
      assert (0 < length (write_rune r))%nat by (rewrite Heq; unfold write_rune; repeat case_match; cbn; lia). lia.
Qed.

(** What was quoted is read back. *)
Lemma lex_string_quote s rest :
  utf8 s = true →
  lex_string (length (quote_inside (length (bytes s)) (bytes s) ++ 34 :: rest))
    (quote_inside (length (bytes s)) (bytes s) ++ 34 :: rest) = Some (bytes s, rest).
Proof.
  intros Hs. apply lex_quote_inside; [by eapply utf8_runes|apply bytes_is_byte|done|].
  rewrite length_app. cbn. lia.
Qed.

(** *** Numbers *)

(** The first character, if there is one *)
Definition head_is (P : Z → Prop) (l : list Z) : Prop := match l with [] => True | c :: _ => P c end.

Definition no_digit : list Z → Prop := head_is (fun c => is_digit c = false).
Definition no_point : list Z → Prop := head_is (fun c => is_digit c = false ∧ c ≠ 46).

(** What follows does not continue a number. *)
Definition stops : list Z → Prop := head_is (fun c => is_digit c = false ∧ c ≠ 46 ∧ c ≠ 101 ∧ c ≠ 69).

Lemma no_point_digit l : no_point l → no_digit l.
Proof. destruct l; [done|]. by intros [? _]. Qed.

Lemma stops_point l : stops l → no_point l.
Proof. destruct l; [done|]. by intros (? & ? & _). Qed.

Lemma take_digits_app l rest d r :
  no_digit rest → take_digits l = (d, r) → take_digits (l ++ rest) = (d, r ++ rest).
Proof.
  intros Hs. revert d r. induction l as [|c l IH]; intros d r; cbn.
  - intros [= <- <-]. destruct rest as [|c rest]; [done|]. cbn in Hs |- *. by rewrite Hs.
  - destruct (is_digit c); [|by intros [= <- <-]]. destruct (take_digits l) as [d' r'].
    intros [= <- <-]. by rewrite (IH d' r').
Qed.

Lemma lex_int_app l rest i r : no_digit rest → lex_int l = Some (i, r) → lex_int (l ++ rest) = Some (i, r ++ rest).
Proof.
  intros Hs. destruct l as [|c l]; [done|]. cbn. destruct (c =? 48); [by intros [= <- <-]|].
  destruct (is_digit c); [|done]. destruct (take_digits l) as [d r'] eqn:Hd. intros [= <- <-].
  by rewrite (take_digits_app _ _ _ _ Hs Hd).
Qed.

Lemma lex_frac_app l rest f r : no_point rest → lex_frac l = Some (f, r) → lex_frac (l ++ rest) = Some (f, r ++ rest).
Proof.
  intros Hs. destruct l as [|c l]; cbn.
  - intros [= <- <-]. destruct rest as [|c rest]; [done|]. cbn. by rewrite (proj2 (Z.eqb_neq c 46)) by apply Hs.
  - destruct (c =? 46); [|by intros [= <- <-]]. destruct (take_digits l) as [d r'] eqn:Hd.
    rewrite (take_digits_app _ _ _ _ (no_point_digit _ Hs) Hd). destruct d; [done|]. by intros [= <- <-].
Qed.

Lemma lex_exp_app l rest e r : stops rest → lex_exp l = Some (e, r) → lex_exp (l ++ rest) = Some (e, r ++ rest).
Proof.
  intros Hs. destruct l as [|c l]; cbn.
  - intros [= <- <-]. destruct rest as [|c rest]; [done|]. cbn.
    destruct Hs as (_ & _ & H1 & H2). by rewrite (proj2 (Z.eqb_neq c 101)), (proj2 (Z.eqb_neq c 69)).
  - destruct ((c =? 101) || (c =? 69)); [|by intros [= <- <-]]. destruct l as [|x l]; [done|]. cbn [app].
    set (sl := if (x =? 43) || (x =? 45) then ([x], l) else ([], x :: l)).
    assert (Hsl : (if (x =? 43) || (x =? 45) then ([x], l ++ rest) else ([], x :: l ++ rest)) = (sl.1, sl.2 ++ rest))
      by (unfold sl; by destruct (_ || _)).
    rewrite Hsl. destruct sl as [s l']. cbn [fst snd]. destruct (take_digits l') as [d r'] eqn:Hd.
    rewrite (take_digits_app _ _ _ _ (no_point_digit _ (stops_point _ Hs)) Hd). destruct d; [done|]. by intros [= <- <-].
Qed.

Lemma lex_number_app l rest : stops rest → lex_number l = Some (l, []) → lex_number (l ++ rest) = Some (l, rest).
Proof.
  intros Hs. unfold lex_number. destruct l as [|c l]; [done|].
  assert (Hsign : lex_sign ((c :: l) ++ rest) = ((lex_sign (c :: l)).1, (lex_sign (c :: l)).2 ++ rest))
    by (cbn; by destruct (c =? 45)).
  rewrite Hsign. destruct (lex_sign (c :: l)) as [s l']. cbn [fst snd].
  destruct (lex_int l') as [[i l1]|] eqn:Hi; [|done]. rewrite (lex_int_app _ _ _ _ (no_point_digit _ (stops_point _ Hs)) Hi).
  destruct (lex_frac l1) as [[f l2]|] eqn:Hf; [|done]. rewrite (lex_frac_app _ _ _ _ (stops_point _ Hs) Hf).
  destruct (lex_exp l2) as [[e l3]|] eqn:He; [|done]. rewrite (lex_exp_app _ _ _ _ Hs He).
  intros H. injection H as H1 H2. rewrite <-H1, H2. done.
Qed.

(** *** Values *)

(** Induction over the values inside a value *)
Section json_induction.
Context (P : json → Prop).
Context (Hnull : P JNull) (Hbool : ∀ b, P (JBool b)) (Hnumber : ∀ s, P (JNumber s)) (Hstring : ∀ s, P (JString s)).
Context (Harray : ∀ l, Forall P l → P (JArray l)) (Hobject : ∀ kvs, Forall (fun kv => P kv.2) kvs → P (JObject kvs)).

Fixpoint json_values (j : json) : P j :=
  match j with
  | JNull => Hnull
  | JBool b => Hbool b
  | JNumber s => Hnumber s
  | JString s => Hstring s
  | JArray l =>
      Harray l ((fix go (l : list json) : Forall P l :=
        match l with [] => List.Forall_nil _ | j :: l => @List.Forall_cons _ P j l (json_values j) (go l) end) l)
  | JObject kvs =>
      Hobject kvs ((fix go (l : members) : Forall (fun kv => P kv.2) l :=
        match l with
        | [] => List.Forall_nil _
        | kv :: l => @List.Forall_cons _ (fun kv => P kv.2) kv l (json_values kv.2) (go l)
        end) kvs)
  end.

End json_induction.

Lemma skip_space_head c l : is_space c = false → skip_space (c :: l) = c :: l.
Proof. intros H. cbn. by rewrite H. Qed.

(** What may follow a value in an array or an object *)
Lemma stops_delimiter c l : c = 44 ∨ c = 93 ∨ c = 125 → stops (c :: l).
Proof. intros [->|[->| ->]]; done. Qed.

(** The first character of a value is no space and closes nothing. *)
Definition opens (s : list Z) : Prop := ∃ c l, s = c :: l ∧ is_space c = false ∧ c ≠ 93 ∧ c ≠ 125.

(** [s] is a text of the value [j]. *)
Definition reads (s : list Z) (j : json) : Prop :=
  opens s ∧ ∀ fuel rest, stops rest → (2 * length s ≤ fuel)%nat → parse_value fuel (s ++ rest) = Some (j, rest).

(** [s] is a text of the string [k]. *)
Definition reads_key (s : list Z) (k : string) : Prop :=
  ∃ body, s = 34 :: body ∧ ∀ rest, lex_string (length (body ++ rest)) (body ++ rest) = Some (bytes k, rest).

Definition reads_member (s : list Z) (kv : string * json) : Prop :=
  ∃ kt vt, s = kt ++ 58 :: vt ∧ reads_key kt kv.1 ∧ reads vt kv.2.

Lemma commas_cons x l : l ≠ [] → commas (x :: l) = x ++ 44 :: commas l.
Proof. by destruct l. Qed.

(** The commas keep the first character of the first element. *)
Lemma commas_head x xs c r : x = c :: r → ∃ r', commas (x :: xs) = c :: r'.
Proof. intros ->. destruct xs; [by exists r|]. rewrite commas_cons by done. by eexists. Qed.

Lemma parse_elements_reads ss js : Forall2 reads ss js → ss ≠ [] → ∀ fuel rest,
  (2 * length (commas ss) < fuel)%nat → parse_elements fuel (commas ss ++ 93 :: rest) = Some (js, rest).
Proof.
  induction 1 as [|s j ss js [_ Hj] Hrest IH]; [done|]. intros _ fuel rest Hf. destruct fuel as [|fuel]; [lia|].
  destruct (decide (ss = [])) as [->|Hne].
  - inversion Hrest; subst. cbn [commas] in *. cbn [parse_elements].
    rewrite Hj by (lia || (apply stops_delimiter; auto)). done.
  - rewrite commas_cons in Hf |- * by done. rewrite <-app_assoc. cbn [app].
    rewrite length_app in Hf. cbn [length] in Hf. cbn [parse_elements].
    rewrite Hj by (lia || (apply stops_delimiter; auto)). rewrite skip_space_head by done.
    change (44 =? 44) with true. cbv beta iota. rewrite IH by (done || lia). done.
Qed.

(** One member and what follows it *)
Lemma parse_member_step s k j fuel more :
  reads_member s (k, j) → (2 * length s ≤ S (S fuel))%nat → stops more →
  parse_members (S fuel) (s ++ more) =
    match skip_space more with
    | c :: l5 =>
        if c =? 44 then match parse_members fuel l5 with Some (kvs, rest) => Some ((k, j) :: kvs, rest) | None => None end
        else if c =? 125 then Some ([(k, j)], l5) else None
    | [] => None
    end.
Proof.
  intros (kt & vt & -> & (body & -> & Hk) & _ & Hj) Hlen Hmore. cbn [fst snd] in *. rewrite length_app in Hlen. cbn [length] in Hlen.
  cbn [app parse_members]. rewrite skip_space_head by done. change (34 =? 34) with true. cbv beta iota.
  rewrite <-!app_assoc, Hk. cbn [app]. rewrite skip_space_head by done. change (58 =? 58) with true. cbv beta iota.
  rewrite Hj by (done || lia). by rewrite of_bytes_bytes.
Qed.

Lemma parse_members_reads ss kvs : Forall2 reads_member ss kvs → ss ≠ [] → ∀ fuel rest,
  (2 * length (commas ss) < fuel)%nat → parse_members fuel (commas ss ++ 125 :: rest) = Some (kvs, rest).
Proof.
  induction 1 as [|s [k j] ss kvs Hj Hrest IH]; [done|]. intros _ fuel rest Hf. destruct fuel as [|fuel]; [lia|].
  destruct (decide (ss = [])) as [->|Hne].
  - inversion Hrest; subst. cbn [commas] in *.
    rewrite (parse_member_step _ _ _ _ _ Hj) by (lia || (apply stops_delimiter; auto)). done.
  - rewrite commas_cons in Hf |- * by done. rewrite <-app_assoc. cbn [app]. rewrite length_app in Hf. cbn [length] in Hf.
    rewrite (parse_member_step _ _ _ _ _ Hj) by (lia || (apply stops_delimiter; auto)). rewrite skip_space_head by done.
    change (44 =? 44) with true. cbv beta iota. rewrite IH by (done || lia). done.
Qed.

Lemma reads_string s k : reads_key s k → reads s (JString k).
Proof.
  intros (body & -> & Hk). split; [by eexists _, _|]. intros [|fuel] rest _ Hf; [cbn in Hf; lia|]. cbn [app parse_value].
  rewrite skip_space_head by done. change (34 =? 34) with true. cbv beta iota. rewrite Hk. by rewrite of_bytes_bytes.
Qed.

(** The first character of a number *)
Lemma number_head lit : valid_number lit = true → ∃ c l, bytes lit = c :: l ∧ (c = 45 ∨ is_digit c = true).
Proof.
  unfold valid_number. intros H%bool_decide_eq_true. destruct (bytes lit) as [|c l]; [done|]. exists c, l. split; [done|].
  unfold lex_number in H. cbn [lex_sign] in H. destruct (Z.eqb_spec c 45); [by left|right].
  cbn in H. destruct (Z.eqb_spec c 48) as [->|]; [done|]. by destruct (is_digit c).
Qed.

Lemma reads_number lit : valid_number lit = true → reads (bytes lit) (JNumber lit).
Proof.
  intros Hv. destruct (number_head _ Hv) as (c & l & Hc & Hdig). apply bool_decide_eq_true in Hv.
  assert (Hne : is_space c = false ∧ (c =? 34) = false ∧ (c =? 91) = false ∧ (c =? 123) = false ∧ c ≠ 93 ∧ c ≠ 125).
  { unfold is_digit, is_space in *. destruct Hdig as [->|Hd]; [done|]. apply andb_true_iff in Hd as [H1%Z.leb_le H2%Z.leb_le].
    rewrite !(proj2 (Z.eqb_neq c _)) by lia. split_and!; (done || lia). }
  destruct Hne as (Hsp & H34 & H91 & H123 & H93 & H125). split; [by exists c, l|]. intros fuel rest Hrest Hf.
  destruct fuel as [|fuel]; [rewrite Hc in Hf; cbn in Hf; lia|].
  pose proof (lex_number_app _ rest Hrest Hv) as Hn. rewrite Hc in Hn |- *. cbn [app parse_value] in *.
  rewrite skip_space_head, H34, H91, H123 by done.
  replace ((c =? 45) || is_digit c) with true by (destruct Hdig as [->| ->]; [done|by rewrite orb_true_r]).
  rewrite Hn, <-Hc. by rewrite of_bytes_bytes.
Qed.

Lemma reads_null : reads [110; 117; 108; 108] JNull.
Proof. split; [by eexists _, _|]. intros [|fuel] rest _ Hf; [cbn in Hf; lia|done]. Qed.

Lemma reads_bool b : reads (print (JBool b)) (JBool b).
Proof. split; [destruct b; by eexists _, _|]. intros [|fuel] rest _ Hf; [destruct b; cbn in Hf; lia|by destruct b]. Qed.

Lemma reads_array ss js : Forall2 reads ss js → reads (91 :: commas ss ++ [93]) (JArray js).
Proof.
  intros Hss. split; [by eexists _, _|]. intros fuel rest Hrest Hf. rewrite length_cons, length_app in Hf. cbn [length] in Hf.
  destruct fuel as [|fuel]; [lia|]. cbn [app parse_value]. rewrite skip_space_head by done.
  change (91 =? 34) with false. change (91 =? 91) with true. cbv beta iota. rewrite <-app_assoc. cbn [app].
  destruct (decide (ss = [])) as [->|Hne]; [by inversion Hss|].
  pose proof (parse_elements_reads _ _ Hss Hne fuel rest ltac:(lia)) as Hpe.
  destruct Hss as [|s j ss js [(c & r & Hc & Hsp & H93 & _) _] _]; [done|].
  destruct (commas_head _ ss _ _ Hc) as [r' Hcom].
  rewrite Hcom in Hpe |- *. cbn [app] in Hpe |- *. rewrite skip_space_head by done.
  rewrite (proj2 (Z.eqb_neq c 93)) by done. by rewrite Hpe.
Qed.

Lemma reads_object ss kvs : Forall2 reads_member ss kvs → reads (123 :: commas ss ++ [125]) (JObject kvs).
Proof.
  intros Hss. split; [by eexists _, _|]. intros fuel rest Hrest Hf. rewrite length_cons, length_app in Hf. cbn [length] in Hf.
  destruct fuel as [|fuel]; [lia|]. cbn [app parse_value]. rewrite skip_space_head by done.
  change (123 =? 34) with false. change (123 =? 91) with false. change (123 =? 123) with true. cbv beta iota.
  rewrite <-app_assoc. cbn [app]. destruct (decide (ss = [])) as [->|Hne]; [by inversion Hss|].
  pose proof (parse_members_reads _ _ Hss Hne fuel rest ltac:(lia)) as Hpe.
  destruct Hss as [|s kv ss kvs (kt & vt & Hs & (body & -> & _) & _) _]; [done|].
  destruct (commas_head s ss 34 (body ++ 58 :: vt) Hs) as [r' Hcom].
  rewrite Hcom in Hpe |- *. cbn [app] in Hpe |- *. rewrite skip_space_head by done.
  change (34 =? 125) with false. cbv beta iota. by rewrite Hpe.
Qed.

Lemma quote_reads k : utf8 k = true → reads_key (quote_json k) k.
Proof.
  intros Hk. exists (quote_inside (length (bytes k)) (bytes k) ++ [34]). split; [done|]. intros rest.
  rewrite <-app_assoc. cbn [app]. by apply lex_string_quote.
Qed.

Lemma print_reads j : printable j = true → reads (print j) j.
Proof.
  induction j as [|b|lit|s|l IH|kvs IH] using json_values; cbn [print printable]; intros Hp.
  - apply reads_null.
  - apply (reads_bool b).
  - destruct (String.eqb_spec lit "") as [->|]; [done|]. by apply reads_number.
  - by apply reads_string, quote_reads.
  - apply reads_array. induction IH as [|j l Hj _ IHl]; [constructor|]. cbn [forallb] in Hp.
    apply andb_true_iff in Hp as [Hpj Hpl]. constructor; auto.
  - apply reads_object. induction IH as [|[k j] kvs Hj _ IHl]; [constructor|]. cbn [forallb fst snd] in Hp, Hj.
    apply andb_true_iff in Hp as [[Hk Hpj]%andb_true_iff Hpl]. constructor; [|auto].
    exists (quote_json k), (print j). split; [done|]. split; [by apply quote_reads|by apply Hj].
Qed.

(** ** What is read can be written *)

Lemma runes_utf8 l : runes l → ∀ fuel, (length l ≤ fuel)%nat → utf8_fuel fuel l = true.
Proof.
  induction 1 as [|r l Hr _ IH]; intros fuel Hf; [by destruct fuel|].
  assert (Hne : (0 < length r)%nat) by (destruct (rune_cases r Hr) as [(a & -> & _)|(a & r' & -> & _)]; cbn; lia).
  rewrite length_app in Hf. destruct fuel as [|fuel]; [lia|].
  destruct (r ++ l) as [|a k] eqn:Heq; [done|]. cbn [utf8_fuel]. rewrite <-Heq, split_rune_app by done. apply IH. lia.
Qed.

Lemma replacement_rune : is_rune replacement.
Proof. done. Qed.

Lemma between_true lo hi c : lo ≤ c ≤ hi → between lo hi c = true.
Proof. intros H. unfold between. by rewrite !(proj2 (Z.leb_le _ _)) by lia. Qed.

Lemma between_false lo hi c : c < lo ∨ hi < c → between lo hi c = false.
Proof. intros H. unfold between. destruct (Z.leb_spec lo c), (Z.leb_spec c hi); (done || lia). Qed.

Lemma is_rune3 a b c :
  224 ≤ a ≤ 239 → (a = 224 → 160 ≤ b) → (a = 237 → b ≤ 159) → 128 ≤ b ≤ 191 → 128 ≤ c ≤ 191 → is_rune [a; b; c].
Proof.
  intros Ha H1 H2 Hb Hc. unfold is_rune, split_rune. rewrite (proj2 (Z.ltb_ge a 128)) by lia.
  rewrite between_false, between_true, (between_true _ _ b), (between_true _ _ c); try lia; [done|].
  destruct (Z.eqb_spec a 224), (Z.eqb_spec a 237); lia.
Qed.

Lemma is_rune4 a b c d :
  240 ≤ a ≤ 244 → (a = 240 → 144 ≤ b) → (a = 244 → b ≤ 143) → 128 ≤ b ≤ 191 → 128 ≤ c ≤ 191 → 128 ≤ d ≤ 191 →
  is_rune [a; b; c; d].
Proof.
  intros Ha H1 H2 Hb Hc Hd. unfold is_rune, split_rune. rewrite (proj2 (Z.ltb_ge a 128)) by lia.
  rewrite (between_false 194 223), (between_false 224 239), (between_true 240 244), (between_true _ _ b), (between_true _ _ c),
    (between_true _ _ d); try lia; [done|].
  destruct (Z.eqb_spec a 240), (Z.eqb_spec a 244); lia.
Qed.

Lemma encode_rune_rune r : 0 ≤ r → is_rune (encode_rune r).
Proof.
  intros Hr. unfold encode_rune. destruct (Z.ltb_spec r 0x80).
  { unfold is_rune. cbn. by rewrite (proj2 (Z.ltb_lt r 128)). }
  destruct (Z.ltb_spec r 0x800).
  { unfold is_rune, split_rune. rewrite (proj2 (Z.ltb_ge _ 128)), !between_true; [done|Z.div_mod_to_equations; lia..]. }
  destruct (between 0xD800 0xDFFF r || (0x10FFFF <? r)) eqn:Hs; [done|]. apply orb_false_iff in Hs as [Hs Hmax%Z.ltb_ge].
  assert (Hsur : r < 0xD800 ∨ 0xDFFF < r).
  { destruct (Z_lt_ge_dec r 0xD800); [by left|right]. destruct (Z_lt_ge_dec 0xDFFF r); [done|].
    rewrite between_true in Hs by lia. done. }
  destruct (Z.ltb_spec r 0x10000).
  - apply is_rune3; Z.div_mod_to_equations; lia.
  - apply is_rune4; Z.div_mod_to_equations; lia.
Qed.

Lemma hex4_range l r rest : hex4 l = Some (r, rest) → 0 ≤ r < 0x10000.
Proof.
  assert (Hx : ∀ c d, from_hex_char c = Some d → 0 ≤ d < 16)
    by (intros c d; unfold from_hex_char; repeat case_match; naive_solver lia).
  unfold hex4. intros H. repeat (case_match; simplify_eq/=).
  repeat match goal with E : from_hex_char _ = Some _ |- _ => apply Hx in E end. lia.
Qed.

Lemma take_digits_inv l d r : take_digits l = (d, r) → l = d ++ r ∧ take_digits d = (d, []) ∧ no_digit r.
Proof.
  revert d r. induction l as [|c l IH]; intros d r; cbn; [by intros [= <- <-]|].
  destruct (is_digit c) eqn:Hc; [|intros [= <- <-]; by cbn]. destruct (take_digits l) as [d' r'].
  destruct (IH d' r' eq_refl) as (-> & Hd & Hr). intros [= <- <-]. split; [done|]. cbn. by rewrite Hc, Hd.
Qed.

Lemma lex_int_inv l i r : lex_int l = Some (i, r) → l = i ++ r ∧ lex_int i = Some (i, []) ∧ head_is (fun c => c ≠ 45) i.
Proof.
  destruct l as [|c l]; [done|]. cbn. destruct (Z.eqb_spec c 48) as [->|Hn]; [by intros [= <- <-]|].
  destruct (is_digit c) eqn:Hc; [|done]. destruct (take_digits l) as [d r'] eqn:Hd.
  apply take_digits_inv in Hd as (-> & Hd & _). intros [= <- <-]. split; [done|]. cbn.
  rewrite (proj2 (Z.eqb_neq c 48)), Hc, Hd by done. split; [done|]. intros ->. done.
Qed.

Lemma lex_frac_inv l f r : lex_frac l = Some (f, r) → l = f ++ r ∧ lex_frac f = Some (f, []) ∧ head_is (fun c => c = 46) f.
Proof.
  destruct l as [|c l]; cbn; [by intros [= <- <-]|]. destruct (Z.eqb_spec c 46) as [->|]; [|by intros [= <- <-]].
  destruct (take_digits l) as [d r'] eqn:Hd. apply take_digits_inv in Hd as (-> & Hd & _).
  destruct d as [|x d]; [done|]. intros [= <- <-]. split; [done|]. split; [|done].
  cbn [lex_frac]. change (46 =? 46) with true. cbv beta iota. by rewrite Hd.
Qed.

Lemma lex_exp_inv l e r :
  lex_exp l = Some (e, r) → l = e ++ r ∧ lex_exp e = Some (e, []) ∧ head_is (fun c => c = 101 ∨ c = 69) e.
Proof.
  destruct l as [|c l]; cbn; [by intros [= <- <-]|]. destruct ((c =? 101) || (c =? 69)) eqn:Hc; [|by intros [= <- <-]].
  set (sl := match l with x :: l'' => if (x =? 43) || (x =? 45) then ([x], l'') else ([], l) | [] => ([], []) end).
  assert (Hsl : l = sl.1 ++ sl.2 ∧ (sl.1 = [] ∧ head_is (fun x => ((x =? 43) || (x =? 45)) = false) sl.2 ∨
    ∃ x, sl.1 = [x] ∧ ((x =? 43) || (x =? 45)) = true)).
  { unfold sl. destruct l as [|x l]; [by split; [|left]|]. destruct ((x =? 43) || (x =? 45)) eqn:Hx; split; try done.
    - right. by exists x.
    - left. by cbn. }
  destruct sl as [s l']. cbn [fst snd] in Hsl. destruct Hsl as [-> Hs].
  destruct (take_digits l') as [d r'] eqn:Hd. apply take_digits_inv in Hd as (-> & Hd & _).
  destruct d as [|x d]; [done|]. intros [= <- <-]. split; [cbn; by rewrite <-app_assoc|]. split.
  - cbn [lex_exp]. rewrite Hc. destruct Hs as [[-> Hx]|(y & -> & Hy)]; cbn [app] in *.
    + cbn in Hx. rewrite Hx, Hd. done.
    + rewrite Hy, Hd. done.
  - cbn. apply orb_true_iff in Hc as [?%Z.eqb_eq|?%Z.eqb_eq]; auto.
Qed.

(** A number that was read is a number. *)
Lemma lex_number_valid l n r : lex_number l = Some (n, r) → l = n ++ r ∧ lex_number n = Some (n, []).
Proof.
  unfold lex_number. destruct (lex_sign l) as [s l0] eqn:Hs.
  destruct (lex_int l0) as [[i l1]|] eqn:Hi; [|done]. apply lex_int_inv in Hi as (-> & Hi & Hneg).
  destruct (lex_frac l1) as [[f l2]|] eqn:Hf; [|done]. apply lex_frac_inv in Hf as (-> & Hf & Hpt).
  destruct (lex_exp l2) as [[e l3]|] eqn:He; [|done]. apply lex_exp_inv in He as (-> & He & Hexp).
  intros [= <- <-].
  assert (Hl : l = s ++ (i ++ f ++ e ++ l3) ∧ ∀ k, lex_sign (s ++ i ++ k) = (s, i ++ k)).
  { destruct l as [|c l]; cbn in Hs; [injection Hs as <- Hs; by destruct i|].
    destruct (Z.eqb_spec c 45) as [->|Hc]; injection Hs as <- <-; split; try done.
    intros k. destruct i as [|x i]; [done|]. cbn in Hneg |- *. by rewrite (proj2 (Z.eqb_neq x 45)). }
  destruct Hl as [-> Hsign]. split; [by rewrite <-!app_assoc|]. rewrite Hsign.
  assert (Hpe : no_point e) by (destruct e as [|x e]; [done|]; cbn in Hexp |- *; by destruct Hexp as [-> | ->]).
  assert (Hdf : no_digit (f ++ e)) by (destruct f as [|x f]; [by apply no_point_digit|]; cbn in Hpt; by subst).
  rewrite (lex_int_app _ _ _ _ Hdf Hi). cbn [app]. rewrite (lex_frac_app _ _ _ _ Hpe Hf). cbn [app]. by rewrite He.
Qed.

Lemma rune_bytes r : is_rune r → head_is (fun c => 0 ≤ c) r → Forall is_byte r.
Proof.
  unfold is_rune, split_rune, between, is_byte. intros H H0. destruct r as [|a r]; [done|]. cbn in H0.
  repeat (case_match; simplify_eq/=); repeat constructor; lia.
Qed.

Lemma encode_rune_bytes r : 0 ≤ r → Forall is_byte (encode_rune r).
Proof.
  intros Hr. apply rune_bytes; [by apply encode_rune_rune|]. unfold encode_rune.
  repeat case_match; cbn; try lia; apply Z.add_nonneg_nonneg; try lia; apply Z.div_pos; lia.
Qed.

Local Abbreviation all_bytes := (Forall is_byte).

Lemma hex4_rest l r rest : hex4 l = Some (r, rest) → all_bytes l → 0 ≤ r ∧ all_bytes rest.
Proof.
  intros H Hl. split; [apply hex4_range in H; lia|]. unfold hex4 in H.
  repeat (case_match; simplify_eq/=). by do 4 apply Forall_inv_tail in Hl.
Qed.

Lemma unicode_escape_rune l r rest :
  unicode_escape l = Some (r, rest) → all_bytes l → is_rune r ∧ all_bytes r ∧ all_bytes rest.
Proof.
  unfold unicode_escape. intros H Hl. destruct (hex4 l) as [[c l1]|] eqn:H4; [|done].
  destruct (hex4_rest _ _ _ H4 Hl) as [Hc Hl1].
  assert (Hbad : is_rune replacement ∧ all_bytes replacement ∧ all_bytes l1)
    by (repeat split; [unfold replacement, is_byte; repeat constructor; lia|done]).
  destruct (between 0xD800 0xDFFF c).
  2: { injection H as <- <-. split; [by apply encode_rune_rune|]. split; [by apply encode_rune_bytes|done]. }
  destruct l1 as [|a [|b l2]]; try by injection H as <- <-.
  destruct ((a =? 92) && (b =? 117)); [|by injection H as <- <-].
  destruct (hex4 l2) as [[c2 l3]|] eqn:H4'; [|by injection H as <- <-].
  destruct (between 0xD800 0xDBFF c && between 0xDC00 0xDFFF c2) eqn:Hb; [|by injection H as <- <-].
  apply andb_true_iff in Hb as [Hb1 Hb2]. unfold between in Hb1, Hb2. injection H as <- <-.
  destruct (hex4_rest _ _ _ H4') as [_ Hl3]; [by do 2 apply Forall_inv_tail in Hl1|].
  split; [apply encode_rune_rune; lia|]. split; [apply encode_rune_bytes; lia|done].
Qed.

Lemma simple_escape_ascii c x : simple_escape c = Some x → 0 ≤ x < 128.
Proof. unfold simple_escape. intros H. repeat (case_match; simplify_eq/=); lia. Qed.

Lemma lex_string_runes fuel l s rest :
  lex_string fuel l = Some (s, rest) → all_bytes l → runes s ∧ all_bytes s ∧ all_bytes rest.
Proof.
  revert l s rest. induction fuel as [|fuel IH]; intros l s rest; [done|]. cbn [lex_string].
  assert (Hmore : ∀ r l',
    match lex_string fuel l' with Some (s, rest) => Some (r ++ s, rest) | None => None end = Some (s, rest) →
    is_rune r → all_bytes r → all_bytes l' → runes s ∧ all_bytes s ∧ all_bytes rest).
  { intros r l' H Hr Hbr Hl'. destruct (lex_string fuel l') as [[s' rest']|] eqn:Hlex; [|done]. injection H as <- <-.
    destruct (IH _ _ _ Hlex Hl') as (Hs & Hbs & Hrest). split; [by constructor|]. split; [by apply Forall_app_2|done]. }
  intros H Hl. destruct l as [|a l1]; [done|]. pose proof (Forall_inv_tail Hl) as Hl1.
  destruct (a =? 34); [injection H as <- <-; by repeat constructor|]. destruct (a =? 92).
  - destruct l1 as [|c l2]; [done|]. pose proof (Forall_inv_tail Hl1) as Hl2. destruct (c =? 117).
    + destruct (unicode_escape l2) as [[r l3]|] eqn:Hu; [|done].
      destruct (unicode_escape_rune _ _ _ Hu Hl2) as (Hr & Hbr & Hl3). by eapply Hmore.
    + destruct (simple_escape c) as [x|] eqn:Hx; [|done]. apply simple_escape_ascii in Hx.
      eapply Hmore; [exact H| |repeat constructor; unfold is_byte; lia|done].
      unfold is_rune. cbn. by rewrite (proj2 (Z.ltb_lt x 128)) by lia.
  - destruct (a <? 32); [done|]. destruct (split_rune (a :: l1)) as [[r l2]|] eqn:Hs.
    + destruct (split_rune_inv _ _ _ Hs) as [Heq Hr]. rewrite Heq in Hl. apply list.Forall_app in Hl as [Hbr Hl2].
      by eapply Hmore.
    + eapply Hmore; [exact H|done|unfold replacement, is_byte; repeat constructor; lia|done].
Qed.

Lemma skip_space_bytes l : all_bytes l → all_bytes (skip_space l).
Proof. induction 1 as [|c l Hc Hl IH]; cbn; [constructor|]. destruct (is_space c); [done|by constructor]. Qed.

Lemma strip_bytes p l r : strip p l = Some r → all_bytes l → all_bytes r.
Proof.
  revert l. induction p as [|a p IH]; intros l; cbn; [by intros [= <-]|].
  destruct l as [|b l]; [done|]. destruct (a =? b); [|done]. intros H Hl. eapply IH; [exact H|by apply Forall_inv_tail in Hl].
Qed.

Lemma lex_literal_printable l j r : lex_literal l = Some (j, r) → all_bytes l → printable j = true ∧ all_bytes r.
Proof.
  unfold lex_literal. intros H Hl. destruct (strip (print JNull) l) as [r1|] eqn:H1.
  { injection H as <- <-. split; [done|by eapply strip_bytes]. }
  destruct (strip (print (JBool true)) l) as [r2|] eqn:H2.
  { injection H as <- <-. split; [done|by eapply strip_bytes]. }
  destruct (strip (print (JBool false)) l) as [r3|] eqn:H3; [|done].
  injection H as <- <-. split; [done|by eapply strip_bytes].
Qed.

Lemma utf8_of_bytes l : runes l → all_bytes l → utf8 (of_bytes l) = true.
Proof. intros Hr Hl. unfold utf8. rewrite bytes_of_bytes by done. by apply runes_utf8. Qed.

(** One string, read where a string is expected *)
Lemma lex_key_utf8 l k r : lex_string (length l) l = Some (k, r) → all_bytes l → utf8 (of_bytes k) = true ∧ all_bytes r.
Proof. intros H Hl. destruct (lex_string_runes _ _ _ _ H Hl) as (? & ? & ?). split; [by apply utf8_of_bytes|done]. Qed.

Lemma lex_number_printable l n r : lex_number l = Some (n, r) → all_bytes l → printable (JNumber (of_bytes n)) = true ∧ all_bytes r.
Proof.
  intros H Hl. apply lex_number_valid in H as [-> H]. apply list.Forall_app in Hl as [Hn Hr]. split; [|done].
  cbn. unfold valid_number. rewrite bytes_of_bytes by done. by apply bool_decide_eq_true.
Qed.

(** The three parsers, on what is left of a text *)
Lemma parse_all_printable fuel :
  (∀ l j r, parse_value fuel l = Some (j, r) → all_bytes l → printable j = true ∧ all_bytes r) ∧
  (∀ l js r, parse_elements fuel l = Some (js, r) → all_bytes l → forallb printable js = true ∧ all_bytes r) ∧
  (∀ l kvs r, parse_members fuel l = Some (kvs, r) → all_bytes l →
    forallb (fun kv => utf8 kv.1 && printable kv.2) kvs = true ∧ all_bytes r).
Proof.
  induction fuel as [|fuel (IHv & IHe & IHm)]; [done|]. split_and!.
  - intros l j r H Hl. cbn [parse_value] in H. apply skip_space_bytes in Hl. destruct (skip_space l) as [|c l1]; [done|].
    pose proof (Forall_inv_tail Hl) as Hl1. pose proof (skip_space_bytes _ Hl1) as Hl2.
    destruct (c =? 34).
    { destruct (lex_string _ l1) as [[s rest]|] eqn:Hs; [|done]. injection H as <- <-. by apply lex_key_utf8 in Hs. }
    destruct (c =? 91).
    { destruct (skip_space l1) as [|d rest]; [done|]. destruct (d =? 93); [injection H as <- <-; by apply Forall_inv_tail in Hl2|].
      destruct (parse_elements fuel l1) as [[js rest']|] eqn:He; [|done]. injection H as <- <-. by apply IHe in He. }
    destruct (c =? 123).
    { destruct (skip_space l1) as [|d rest]; [done|]. destruct (d =? 125); [injection H as <- <-; by apply Forall_inv_tail in Hl2|].
      destruct (parse_members fuel l1) as [[kvs rest']|] eqn:He; [|done]. injection H as <- <-. by apply IHm in He. }
    destruct ((c =? 45) || is_digit c); [|by eapply lex_literal_printable].
    destruct (lex_number (c :: l1)) as [[n rest]|] eqn:Hn; [|done]. injection H as <- <-. by eapply lex_number_printable.
  - intros l js r H Hl. cbn [parse_elements] in H. destruct (parse_value fuel l) as [[j l1]|] eqn:Hv; [|done].
    destruct (IHv _ _ _ Hv Hl) as [Hj Hl1]. apply skip_space_bytes in Hl1. destruct (skip_space l1) as [|c l2]; [done|].
    apply Forall_inv_tail in Hl1. destruct (c =? 44).
    + destruct (parse_elements fuel l2) as [[js' rest]|] eqn:He; [|done]. injection H as <- <-.
      destruct (IHe _ _ _ He Hl1) as [Hjs Hr]. cbn. by rewrite Hj, Hjs.
    + destruct (c =? 93); [|done]. injection H as <- <-. cbn. by rewrite Hj.
  - intros l kvs r H Hl. cbn [parse_members] in H. apply skip_space_bytes in Hl. destruct (skip_space l) as [|c l1]; [done|].
    apply Forall_inv_tail in Hl. destruct (c =? 34); [|done]. destruct (lex_string _ l1) as [[k l2]|] eqn:Hk; [|done].
    destruct (lex_key_utf8 _ _ _ Hk Hl) as [Hku Hl2]. apply skip_space_bytes in Hl2. destruct (skip_space l2) as [|d l3]; [done|].
    apply Forall_inv_tail in Hl2. destruct (d =? 58); [|done]. destruct (parse_value fuel l3) as [[j l4]|] eqn:Hv; [|done].
    destruct (IHv _ _ _ Hv Hl2) as [Hj Hl4]. apply skip_space_bytes in Hl4. destruct (skip_space l4) as [|e l5]; [done|].
    apply Forall_inv_tail in Hl4. destruct (e =? 44).
    + destruct (parse_members fuel l5) as [[kvs' rest]|] eqn:He; [|done]. injection H as <- <-.
      destruct (IHm _ _ _ He Hl4) as [Hkvs Hr]. cbn [forallb fst snd]. by rewrite Hku, Hj, Hkvs.
    + destruct (e =? 125); [|done]. injection H as <- <-. cbn [forallb fst snd]. by rewrite Hku, Hj.
Qed.

Lemma parse_printable text j : parse text = Some j → printable j = true.
Proof.
  unfold parse. intros H. apply fmap_Some in H as ([j' r] & H & ->).
  by apply (proj1 (parse_all_printable _)) in H as [? _]; [|apply bytes_is_byte].
Qed.

(** ** Bytes and texts *)

Lemma escape_bytes c : 0 ≤ c < 128 → all_bytes (escape c).
Proof.
  intros Hc. assert (Hhi : 0 ≤ c / 16 < 16) by (split; [apply Z.div_pos|apply Z.div_lt_upper_bound]; lia).
  pose proof (Z.mod_pos_bound c 16) as Hlo. unfold escape, escape_hex.
  repeat case_match; repeat first [apply List.Forall_nil | apply List.Forall_cons]; try (unfold is_byte; lia); apply hex_char_range; lia.
Qed.

Lemma quote_inside_bytes fuel l : all_bytes l → all_bytes (quote_inside fuel l).
Proof.
  revert l. induction fuel as [|fuel IH]; intros l Hl; [constructor|]. cbn [quote_inside].
  destruct l as [|a l1]; [constructor|]. pose proof (Forall_inv Hl) as Ha. pose proof (Forall_inv_tail Hl) as Hl1.
  destruct (Z.ltb_spec a 128); [apply Forall_app_2; [apply escape_bytes; unfold is_byte in Ha; lia|by apply IH]|].
  destruct (split_rune (a :: l1)) as [[r rest]|] eqn:Hs.
  - apply split_rune_inv in Hs as [Heq _]. rewrite Heq in Hl. apply list.Forall_app in Hl as [Hr Hrest].
    apply Forall_app_2; [|by apply IH]. unfold write_rune, is_byte. repeat case_match; (exact Hr || (repeat constructor; lia)).
  - apply Forall_app_2; [unfold is_byte; repeat constructor; lia|by apply IH].
Qed.

Lemma quote_json_bytes s : all_bytes (quote_json s).
Proof.
  unfold quote_json. constructor; [unfold is_byte; lia|].
  apply Forall_app_2; [apply quote_inside_bytes, bytes_is_byte|repeat constructor; unfold is_byte; lia].
Qed.

Lemma commas_bytes l : Forall (Forall is_byte) l → all_bytes (commas l).
Proof.
  induction 1 as [|x l Hx Hl IH]; [constructor|]. destruct (decide (l = [])) as [->|Hne]; [done|].
  rewrite commas_cons by done. apply Forall_app_2; [done|]. constructor; [unfold is_byte; lia|done].
Qed.

Lemma print_bytes j : all_bytes (print j).
Proof.
  induction j as [|b|lit|s|l IH|kvs IH] using json_values; cbn [print].
  - unfold is_byte. repeat constructor; lia.
  - destruct b; unfold is_byte; repeat constructor; lia.
  - destruct (String.eqb lit ""); [unfold is_byte; repeat constructor; lia|apply bytes_is_byte].
  - apply quote_json_bytes.
  - constructor; [unfold is_byte; lia|]. apply Forall_app_2; [|repeat constructor; unfold is_byte; lia].
    apply commas_bytes, list.Forall_fmap. eapply Forall_impl; [|exact IH]. done.
  - constructor; [unfold is_byte; lia|]. apply Forall_app_2; [|repeat constructor; unfold is_byte; lia].
    apply commas_bytes, list.Forall_fmap. eapply Forall_impl; [|exact IH]. intros kv Hkv. cbv beta in *.
    apply Forall_app_2; [apply quote_json_bytes|]. constructor; [unfold is_byte; lia|done].
Qed.

(** A value that was written is the first value of the text. *)
Lemma parse_print j rest : printable j = true → stops (bytes rest) → parse (of_bytes (print j) ++ rest) = Some j.
Proof.
  intros Hp Hrest. unfold parse. rewrite bytes_app, bytes_of_bytes by apply print_bytes.
  rewrite (proj2 (print_reads j Hp)) by (rewrite ?length_app; done || lia). done.
Qed.

(** [json.Number]s that are no numbers are refused by the encoder. *)
Fixpoint encodable (j : json) : bool :=
  match j with
  | JNull | JBool _ | JString _ => true
  | JNumber lit => String.eqb lit "" || valid_number lit
  | JArray l => forallb encodable l
  | JObject kvs => forallb (fun kv => encodable kv.2) kvs
  end.

(** [json.Marshal] *)
Definition json_Marshal (j : json) : option string := if encodable j then Some (of_bytes (print j)) else None.

(** [json.NewEncoder(w).Encode]: a newline at the end *)
Definition json_Encode (j : json) : option string := if encodable j then Some (of_bytes (print j ++ [10])) else None.

Lemma printable_encodable j : printable j = true → encodable j = true.
Proof.
  induction j as [|b|lit|s|l IH|kvs IH] using json_values; cbn; intros Hp; try done.
  - rewrite Hp. apply orb_true_r.
  - rewrite forallb_forall in Hp |- *. rewrite List.Forall_forall in IH. auto.
  - rewrite forallb_forall in Hp |- *. rewrite List.Forall_forall in IH. intros kv Hin.
    specialize (Hp kv Hin). apply andb_true_iff in Hp as [_ Hp]. auto.
Qed.

Lemma parse_json_Marshal j text : printable j = true → json_Marshal j = Some text → parse text = Some j.
Proof.
  intros Hp. unfold json_Marshal. rewrite printable_encodable by done. intros [= <-].
  rewrite <-(parse_print j "") by done. f_equal. by rewrite <-of_bytes_bytes, bytes_app, app_nil_r, of_bytes_bytes.
Qed.

Lemma parse_json_Encode j text : printable j = true → json_Encode j = Some text → parse text = Some j.
Proof.
  intros Hp. unfold json_Encode. rewrite printable_encodable by done. intros [= <-]. rewrite of_bytes_app. by apply parse_print.
Qed.

(** ** Values that are printable *)

(** No leading zero *)
Lemma dec_digits_head fuel n : 0 < n < 10 ^ Z.of_nat fuel → ∃ d l, dec_digits fuel n = d :: l ∧ d ≠ 0.
Proof.
  revert n. induction fuel as [|fuel IH]; intros n Hn; [change (10 ^ Z.of_nat 0) with 1 in Hn; lia|]. cbn [dec_digits].
  rewrite Nat2Z.inj_succ, Z.pow_succ_r in Hn by lia. destruct (Z.ltb_spec n 10); [exists n, []; split; [done|lia]|].
  destruct (IH (n / 10)) as (d & l & -> & Hd); [|by eexists _, _].
  split; [apply Z.div_str_pos; lia|]. apply Z.div_lt_upper_bound; lia.
Qed.

Lemma take_digits_all l : digits l → take_digits (map (fun d => d + 48) l) = (map (fun d => d + 48) l, []).
Proof. induction 1 as [|d l Hd _ IH]; [done|]. cbn [map take_digits]. by rewrite is_digit_add, IH. Qed.

Lemma lex_int_digits_of n : 0 ≤ n → lex_int (map (fun d => d + 48) (digits_of n)) = Some (map (fun d => d + 48) (digits_of n), []).
Proof.
  intros Hn. destruct (decide (n = 0)) as [->|Hne]; [done|]. destruct (digits_of_spec n Hn) as (_ & Hd & _).
  destruct (dec_digits_head (S (Z.to_nat (Z.log2 n))) n) as (d & l & Heq & H0); [pose proof (log2_fuel n Hn); lia|].
  unfold digits_of in *. rewrite Heq in Hd |- *. cbn [map lex_int]. pose proof (Forall_inv Hd) as Hd0. cbv beta in Hd0.
  rewrite (proj2 (Z.eqb_neq (d + 48) 48)), is_digit_add by lia. by rewrite take_digits_all by by apply Forall_inv_tail in Hd.
Qed.

Lemma valid_number_Itoa z : valid_number (Itoa z) = true.
Proof.
  unfold valid_number. apply bool_decide_eq_true. unfold Itoa, lex_number. destruct (Z.ltb_spec z 0).
  - destruct (digits_of_spec (- z) ltac:(lia)) as (_ & Hd & _). rewrite bytes_app, bytes_string_of_digits by done.
    change (bytes "-") with [45]. cbn [app lex_sign]. change (45 =? 45) with true. cbv beta iota. rewrite lex_int_digits_of by lia. cbn. by rewrite !app_nil_r.
  - destruct (digits_of_spec z ltac:(lia)) as (_ & Hd & Hne). rewrite bytes_string_of_digits by done.
    assert (Hs : lex_sign (map (fun d => d + 48) (digits_of z)) = ([], map (fun d => d + 48) (digits_of z))).
    { destruct (digits_of z) as [|d l]; [done|]. apply Forall_inv in Hd. cbn. by rewrite (proj2 (Z.eqb_neq (d + 48) 45)) by lia. }
    rewrite Hs, lex_int_digits_of by lia. cbn. by rewrite !app_nil_r.
Qed.

Lemma printable_assoc kvs k j : printable (JObject kvs) = true → assoc k kvs = Some j → printable j = true.
Proof.
  cbn [printable]. induction kvs as [|[k' j'] kvs IH]; [done|]. cbn [forallb fst snd].
  intros [[_ Hj]%andb_true_iff Hp]%andb_true_iff. rewrite assoc_cons. destruct (String.eqb k' k); [by intros [= <-]|auto].
Qed.

Definition printable_members (kvs : members) : bool := forallb (fun kv => utf8 kv.1 && printable kv.2) kvs.

Lemma map_insert_printable k j l :
  utf8 k = true → printable j = true → printable_members l = true → printable_members (map_insert k j l) = true.
Proof.
  intros Hk Hj. induction l as [|[k' j'] l IH]; intros Hl; cbn [map_insert]; [cbn; rewrite Hj; by unfold utf8 in Hk; rewrite Hk|].
  unfold printable_members in *. cbn [forallb fst snd] in Hl. apply andb_true_iff in Hl as [Hl1 Hl2].
  destruct (String.compare k k'); cbn [forallb fst snd].
  - by rewrite Hk, Hj, Hl2.
  - by rewrite Hk, Hj, Hl1, Hl2.
  - by rewrite Hl1, IH.
Qed.

(** What goes through an [interface{}] can be written again. *)
Lemma canon_printable j : printable j = true → printable (canon_json j) = true.
Proof.
  induction j as [|b|lit|s|l IH|kvs IH] using json_values; intros Hp; try done.
  - cbn in *. rewrite forallb_forall in Hp. rewrite List.Forall_forall in IH. apply forallb_forall.
    intros j (j' & <- & Hin)%in_map_iff. auto.
  - cbn [canon_json printable] in *. change (printable_members kvs = true) in Hp.
    change (printable_members (fold_left (fun m kv => map_insert kv.1 kv.2 m) (map (fun kv => (kv.1, canon_json kv.2)) kvs) []) = true).
    generalize (eq_refl : printable_members [] = true). generalize ([] : members).
    revert IH Hp. induction kvs as [|[k j] kvs IHk]; intros IH Hp m Hm; [done|]. cbn [map fold_left fst snd].
    unfold printable_members in Hp. cbn [forallb fst snd] in Hp. apply andb_true_iff in Hp as [[Hk Hj]%andb_true_iff Hp].
    inversion IH as [|? ? IHj IH']; subst. apply IHk; [done|done|]. apply map_insert_printable; auto.
Qed.

(** ** Whole texts *)

(** The value of a text that has nothing else *)
Definition whole (text : string) : option json :=
  let l := bytes text in
  match parse_value (2 * length l) l with
  | Some (j, rest) => match skip_space rest with [] => Some j | _ => None end
  | None => None
  end.

Lemma reads_whole s j : Forall is_byte s → reads s j → whole (of_bytes s) = Some j.
Proof.
  intros Hb [_ Hs]. unfold whole. rewrite bytes_of_bytes by done. specialize (Hs (2 * length s)%nat [] I (Nat.le_refl _)).
  rewrite app_nil_r in Hs. by rewrite Hs.
Qed.

(** *** Characters of a text *)

Lemma runes_app l k : runes l → runes k → runes (l ++ k).
Proof. induction 1 as [|r l Hr _ IH]; intros Hk; [done|]. rewrite <-app_assoc. constructor; auto. Qed.

Definition is_ascii (c : Z) : Prop := 0 ≤ c < 128.

Lemma ascii_runes l : Forall is_ascii l → runes l.
Proof.
  induction 1 as [|c l Hc _ IH]; [constructor|]. apply (runes_cons [c]); [|done].
  unfold is_rune. cbn. unfold is_ascii in Hc. by rewrite (proj2 (Z.ltb_lt c 128)) by lia.
Qed.

Lemma ascii_bytes l : Forall is_ascii l → Forall is_byte l.
Proof. intros H. eapply Forall_impl; [|exact H]. unfold is_ascii, is_byte. lia. Qed.

Lemma take_digits_ascii l d r : take_digits l = (d, r) → Forall is_ascii d.
Proof.
  revert d r. induction l as [|c l IH]; intros d r; cbn; [by intros [= <- _]|].
  destruct (is_digit c) eqn:Hc; [|by intros [= <- _]]. destruct (take_digits l) as [d' r'].
  intros [= <- _]. constructor; [unfold is_digit, is_ascii in *; lia|by eapply IH].
Qed.

Lemma lex_int_ascii l i r : lex_int l = Some (i, r) → Forall is_ascii i.
Proof.
  destruct l as [|c l]; [done|]. cbn. destruct (c =? 48); [intros [= <- _]; repeat constructor; unfold is_ascii; lia|].
  destruct (is_digit c) eqn:Hc; [|done]. destruct (take_digits l) as [d r'] eqn:Hd. intros [= <- _].
  constructor; [unfold is_digit, is_ascii in *; lia|by eapply take_digits_ascii].
Qed.

Lemma lex_frac_ascii l f r : lex_frac l = Some (f, r) → Forall is_ascii f.
Proof.
  destruct l as [|c l]; cbn; [by intros [= <- _]|]. destruct (c =? 46); [|by intros [= <- _]].
  destruct (take_digits l) as [d r'] eqn:Hd. destruct d as [|x d]; [done|]. intros [= <- _].
  constructor; [unfold is_ascii; lia|by eapply take_digits_ascii].
Qed.

Lemma lex_exp_ascii l e r : lex_exp l = Some (e, r) → Forall is_ascii e.
Proof.
  destruct l as [|c l]; cbn; [by intros [= <- _]|]. destruct ((c =? 101) || (c =? 69)) eqn:Hc; [|by intros [= <- _]].
  assert (Hca : is_ascii c) by (unfold is_ascii; lia). destruct l as [|x l]; [done|].
  destruct ((x =? 43) || (x =? 45)) eqn:Hx; destruct (take_digits _) as [[|y d] r'] eqn:Hd; try done; intros [= <- _];
    apply take_digits_ascii in Hd; constructor; try done. constructor; [unfold is_ascii; lia|done].
Qed.

Lemma lex_number_ascii l n r : lex_number l = Some (n, r) → Forall is_ascii n.
Proof.
  unfold lex_number. destruct (lex_sign l) as [s l0] eqn:Hs.
  assert (Has : Forall is_ascii s).
  { destruct l as [|c l]; cbn in Hs; [by injection Hs as <- _|].
    destruct (c =? 45); injection Hs as <- _; [|constructor]. repeat constructor; unfold is_ascii; lia. }
  destruct (lex_int l0) as [[i l1]|] eqn:Hi; [|done]. destruct (lex_frac l1) as [[f l2]|] eqn:Hf; [|done].
  destruct (lex_exp l2) as [[e l3]|] eqn:He; [|done]. intros [= <- _].
  repeat apply Forall_app_2; [done|by eapply lex_int_ascii|by eapply lex_frac_ascii|by eapply lex_exp_ascii].
Qed.

Lemma valid_number_ascii lit : valid_number lit = true → Forall is_ascii (bytes lit).
Proof. unfold valid_number. intros H%bool_decide_eq_true. by eapply lex_number_ascii. Qed.

(** A string that is written as it is *)
Definition plain_char (c : Z) : bool := between 32 127 c && negb (c =? 34) && negb (c =? 92).
Definition plain_text (k : string) : bool := forallb plain_char (bytes k).

Lemma plain_text_ascii k : plain_text k = true → Forall is_ascii (bytes k).
Proof.
  unfold plain_text. intros H. rewrite forallb_forall in H. apply List.Forall_forall. intros c Hc.
  specialize (H c Hc). unfold plain_char, between in H. unfold is_ascii. lia.
Qed.

Lemma plain_text_reads k : plain_text k = true → reads_key (34 :: bytes k ++ [34]) k.
Proof.
  intros Hk. exists (bytes k ++ [34]). split; [done|]. intros rest. rewrite <-app_assoc. cbn [app].
  assert (Hlex : ∀ l fuel, forallb plain_char l = true → (length l < fuel)%nat → lex_string fuel (l ++ 34 :: rest) = Some (l, rest)).
  { induction l as [|c l IH]; intros fuel Hl Hf; (destruct fuel as [|fuel]; [cbn in Hf; lia|]); [done|].
    cbn [forallb] in Hl. apply andb_true_iff in Hl as [Hc Hl]. unfold plain_char, between in Hc.
    cbn [app lex_string split_rune]. rewrite (proj2 (Z.eqb_neq c 34)), (proj2 (Z.eqb_neq c 92)), (proj2 (Z.ltb_ge c 32)),
      (proj2 (Z.ltb_lt c 128)) by lia. cbn [length] in Hf. by rewrite IH by (done || lia). }
  apply Hlex; [done|]. rewrite length_app. cbn. lia.
Qed.
