(* ===== verification/JsonHoles.v ===== *)
(** * JsonHoles: JSON texts with holes

    A text with holes inside its strings, such as the output of a template, is
    read once for all fillings: when the text parses with the character 127 in
    the place of each hole, then for every filling by characters that stand for
    themselves in a JSON string the filled text parses to the filled value. *)

From stdpp Require Import base list strings numbers.
From Stdlib Require Import ZArith Lia.
From S2P Require Import Prelude GoStrings Json JsonText.

Local Open Scope Z_scope.

Definition hole : Z := 127.

(** No [\u]: such an escape could write the character of the hole. *)
Fixpoint no_unicode (l : list Z) : bool :=
  match l with
  | a :: l' => negb ((a =? 92) && match l' with b :: _ => b =? 117 | [] => false end) && no_unicode l'
  | [] => true
  end.

Definition fillable (l : list Z) : bool := forallb (between 0 127) l && no_unicode l.

Lemma fillable_cons a l : fillable (a :: l) = true → is_ascii a ∧ fillable l = true ∧ (a = 92 → head_is (fun b => b ≠ 117) l).
Proof.
  unfold fillable. cbn. intros [[Ha Hl]%andb_true_iff [Hu Hn]%andb_true_iff]%andb_true_iff. rewrite Hl, Hn.
  unfold between, is_ascii in *. split; [lia|]. split; [done|]. intros ->. destruct l as [|b l]; cbn in *; lia.
Qed.

Lemma fillable_app l k : fillable (l ++ k) = true → fillable k = true.
Proof. induction l as [|a l IH]; [done|]. intros (_ & H & _)%fillable_cons. auto. Qed.

Section fill.
Context (t : list Z) (Ht : forallb plain_char t = true).

Fixpoint fill (l : list Z) : list Z :=
  match l with
  | c :: l => if c =? hole then t ++ fill l else c :: fill l
  | [] => []
  end.

Definition fill_string (s : string) : string := of_bytes (fill (bytes s)).

Fixpoint fill_json (j : json) : json :=
  match j with
  | JString s => JString (fill_string s)
  | JArray l => JArray (map fill_json l)
  | JObject kvs => JObject (map (fun kv => (fill_string kv.1, fill_json kv.2)) kvs)
  | _ => j
  end.

Definition fill_members (kvs : members) : members := map (fun kv => (fill_string kv.1, fill_json kv.2)) kvs.

Definition solid : list Z → Prop := head_is (fun c => c ≠ hole).

Lemma fill_cons c l : c ≠ hole → fill (c :: l) = c :: fill l.
Proof. cbn. by intros ->%Z.eqb_neq. Qed.

Lemma fill_hole l : fill (hole :: l) = t ++ fill l.
Proof. done. Qed.

Lemma fill_app l k : fill (l ++ k) = fill l ++ fill k.
Proof. induction l as [|c l IH]; [done|]. cbn. rewrite IH. destruct (c =? hole); [by rewrite app_assoc|done]. Qed.

Lemma fill_bytes l : Forall is_byte t → Forall is_byte l → Forall is_byte (fill l).
Proof.
  intros Hb. induction 1 as [|c l Hc _ IH]; [constructor|]. cbn. destruct (c =? hole); [by apply Forall_app_2|by constructor].
Qed.

Lemma fill_string_of_bytes s : Forall is_byte s → fill_string (of_bytes s) = of_bytes (fill s).
Proof. intros H. unfold fill_string. by rewrite bytes_of_bytes. Qed.

(** ** Strings *)

Lemma lex_string_filling l s rest n :
  (∀ f, (n ≤ f)%nat → lex_string f l = Some (s, rest)) →
  ∀ f, (length t + n ≤ f)%nat → lex_string f (t ++ l) = Some (t ++ s, rest).
Proof.
  intros Hl. induction t as [|c k IH]; [exact Hl|]. cbn [forallb] in Ht. apply andb_true_iff in Ht as [Hc Hk].
  intros [|f] Hf; cbn [length] in Hf; [lia|]. unfold plain_char, between in Hc. cbn [app lex_string split_rune].
  rewrite (proj2 (Z.eqb_neq c 34)), (proj2 (Z.eqb_neq c 92)), (proj2 (Z.ltb_ge c 32)), (proj2 (Z.ltb_lt c 128)) by lia.
  by rewrite IH by (done || lia).
Qed.

Lemma simple_escape_solid c x : simple_escape c = Some x → c ≠ hole ∧ x ≠ hole ∧ is_ascii x.
Proof.
  unfold simple_escape, hole, is_ascii. intros H. split_and!.
  all: repeat match type of H with context [?a =? ?b] => destruct (Z.eqb_spec a b) end; try done; injection H as <-; lia.
Qed.

Lemma lex_string_fill fuel l s rest :
  lex_string fuel l = Some (s, rest) → fillable l = true →
  fillable rest = true ∧ Forall is_ascii s ∧
  ∀ fuel', (length (fill l) ≤ fuel')%nat → lex_string fuel' (fill l) = Some (fill s, fill rest).
Proof.
  revert l s rest. induction fuel as [|fuel IH]; intros l s rest H Hl; [done|]. destruct l as [|a l1]; [done|].
  cbn [lex_string] in H. apply fillable_cons in Hl as (Ha & Hl & Hu). unfold is_ascii in Ha.
  destruct (Z.eqb_spec a 34) as [->|H34].
  { injection H as <- <-. split_and!; [done|constructor|]. rewrite fill_cons by done.
    intros [|fuel'] Hf; cbn in Hf; [lia|done]. }
  destruct (Z.eqb_spec a 92) as [->|H92].
  { destruct l1 as [|c l2]; [done|]. specialize (Hu eq_refl). cbn in Hu. rewrite (proj2 (Z.eqb_neq c 117)) in H by done.
    destruct (simple_escape c) as [x|] eqn:Hx; [|done]. destruct (lex_string fuel l2) as [[s' rest']|] eqn:Hs; [|done].
    injection H as <- <-. apply fillable_cons in Hl as (Hc & Hl & _). destruct (IH _ _ _ Hs Hl) as (Hr & Has & Hf).
    destruct (simple_escape_solid _ _ Hx) as (Hch & Hxh & Hxa). split_and!; [done|by constructor|].
    cbn [app]. rewrite !fill_cons by done. intros [|fuel'] Hlen; cbn [length] in Hlen; [lia|].
    cbn [lex_string Z.eqb]. rewrite (proj2 (Z.eqb_neq c 117)), Hx, Hf by (done || lia). done. }
  destruct (Z.ltb_spec a 32); [done|]. cbn [split_rune] in H. rewrite (proj2 (Z.ltb_lt a 128)) in H by lia.
  destruct (lex_string fuel l1) as [[s' rest']|] eqn:Hs; [|done]. injection H as <- <-.
  destruct (IH _ _ _ Hs Hl) as (Hr & Has & Hf). split_and!; [done|by constructor|]. cbn [app fill].
  destruct (Z.eqb_spec a hole) as [->|Hh].
  - intros fuel' Hlen. rewrite length_app in Hlen. by apply (lex_string_filling _ _ _ (length (fill l1))).
  - intros [|fuel'] Hlen; cbn [length] in Hlen; [lia|]. cbn [lex_string split_rune].
    rewrite (proj2 (Z.eqb_neq a 34)), (proj2 (Z.eqb_neq a 92)), (proj2 (Z.ltb_ge a 32)), (proj2 (Z.ltb_lt a 128)) by lia.
    by rewrite Hf by lia.
Qed.

(** ** Numbers, literals and white space *)

Lemma take_digits_fill l d r : take_digits l = (d, r) → solid r → solid l ∧ take_digits (fill l) = (d, fill r).
Proof.
  revert d. induction l as [|c l IH]; intros d; cbn [take_digits]; [by intros [= <- <-]|].
  destruct (is_digit c) eqn:Hc.
  - destruct (take_digits l) as [d' r'] eqn:Hd. intros [= <- <-] Hr. destruct (IH d' eq_refl Hr) as [_ IH'].
    assert (c ≠ hole) by (intros ->; done). split; [done|]. rewrite fill_cons by done. cbn. by rewrite Hc, IH'.
  - intros [= <- <-] Hr. split; [done|]. rewrite fill_cons by done. cbn. by rewrite Hc.
Qed.

Lemma lex_int_fill l i r : lex_int l = Some (i, r) → solid r → solid l ∧ lex_int (fill l) = Some (i, fill r).
Proof.
  destruct l as [|c l]; [done|]. cbn [lex_int]. destruct (Z.eqb_spec c 48) as [->|Hc].
  - intros [= <- <-] Hr. by rewrite fill_cons.
  - destruct (is_digit c) eqn:Hd; [|done]. destruct (take_digits l) as [d r'] eqn:Ht'. intros [= <- <-] Hr.
    apply take_digits_fill in Ht' as [_ E]; [|done]. assert (c ≠ hole) by (intros ->; done).
    split; [done|]. rewrite fill_cons by done. cbn. by rewrite (proj2 (Z.eqb_neq c 48)), Hd, E.
Qed.

Lemma lex_frac_fill l f r : lex_frac l = Some (f, r) → solid r → solid l ∧ lex_frac (fill l) = Some (f, fill r).
Proof.
  destruct l as [|c l]; [by intros [= <- <-]|]. cbn [lex_frac]. destruct (Z.eqb_spec c 46) as [->|Hc].
  - destruct (take_digits l) as [d r'] eqn:Ht'. destruct d as [|x d]; [done|]. intros [= <- <-] Hr.
    apply take_digits_fill in Ht' as [_ E]; [|done]. split; [done|]. rewrite fill_cons by done. cbn. by rewrite E.
  - intros [= <- <-] Hr. split; [done|]. rewrite fill_cons by done. cbn. by rewrite (proj2 (Z.eqb_neq c 46)).
Qed.

Lemma lex_exp_fill l e r : lex_exp l = Some (e, r) → solid r → solid l ∧ lex_exp (fill l) = Some (e, fill r).
Proof.
  destruct l as [|c l]; [by intros [= <- <-]|]. cbn [lex_exp]. destruct ((c =? 101) || (c =? 69)) eqn:Hc.
  - destruct l as [|x l]; [done|]. destruct ((x =? 43) || (x =? 45)) eqn:Hx; destruct (take_digits _) as [[|y d] r'] eqn:Hd;
      try done; intros [= <- <-] Hr; apply take_digits_fill in Hd as [Hs E]; try done; (split; [cbn; unfold hole; lia|]);
      (rewrite !fill_cons in * by (cbn in Hs; unfold hole in *; lia)); cbn; rewrite Hc, Hx, E; done.
  - intros [= <- <-] Hr. split; [done|]. rewrite fill_cons by done. cbn. by rewrite Hc.
Qed.

Lemma lex_number_fill l m r : lex_number l = Some (m, r) → solid r → solid l ∧ lex_number (fill l) = Some (m, fill r).
Proof.
  unfold lex_number. destruct (lex_sign l) as [s l0] eqn:Hs. destruct (lex_int l0) as [[i l1]|] eqn:Hi; [|done].
  destruct (lex_frac l1) as [[f l2]|] eqn:Hf; [|done]. destruct (lex_exp l2) as [[e l3]|] eqn:He; [|done].
  intros [= <- <-] Hr. apply lex_exp_fill in He as [H2 Ee]; [|done]. apply lex_frac_fill in Hf as [H1 Ef]; [|done].
  apply lex_int_fill in Hi as [H0 Ei]; [|done].
  assert (solid l ∧ lex_sign (fill l) = (s, fill l0)) as [Hl Es].
  { destruct l as [|c l]; cbn in Hs; [by injection Hs as <- <-|]. destruct (Z.eqb_spec c 45) as [->|Hc]; injection Hs as <- <-.
    - split; [done|]. by rewrite fill_cons.
    - split; [done|]. rewrite fill_cons by done. cbn. by rewrite (proj2 (Z.eqb_neq c 45)). }
  split; [done|]. by rewrite Es, Ei, Ef, Ee.
Qed.

Lemma skip_space_fill l c r :
  skip_space l = c :: r → fillable l = true → c ≠ hole →
  solid l ∧ fillable (c :: r) = true ∧ skip_space (fill l) = c :: fill r.
Proof.
  induction l as [|a l IH]; [done|]. cbn [skip_space]. destruct (is_space a) eqn:Ha.
  - intros H Hl Hc. assert (a ≠ hole) by (intros ->; done). pose proof Hl as (_ & Hl' & _)%fillable_cons.
    destruct (IH H Hl' Hc) as (_ & Hf & E). split_and!; [done|done|]. rewrite fill_cons by done. cbn. by rewrite Ha.
  - intros [= -> ->] Hl Hc. split_and!; [done|done|]. rewrite fill_cons by done. cbn. by rewrite Ha.
Qed.

Lemma skip_space_nil l : skip_space l = [] → solid l ∧ skip_space (fill l) = [].
Proof.
  induction l as [|a l IH]; [done|]. cbn [skip_space]. destruct (is_space a) eqn:Ha; [|done].
  intros [_ E]%IH. assert (a ≠ hole) by (intros ->; done). split; [done|]. rewrite fill_cons by done. cbn. by rewrite Ha.
Qed.

Lemma strip_fill p l r : Forall (fun c => c ≠ hole) p → strip p l = Some r → strip p (fill l) = Some (fill r).
Proof.
  intros Hp. revert l. induction Hp as [|a p Ha _ IH]; intros l; cbn [strip]; [by intros [= ->]|].
  destruct l as [|b l]; [done|]. destruct (Z.eqb_spec a b) as [<-|]; [|done]. rewrite fill_cons by done. cbn. rewrite Z.eqb_refl. apply IH.
Qed.

Lemma lex_literal_fill l j r :
  lex_literal l = Some (j, r) → fillable l = true →
  fillable r = true ∧ fill_json j = j ∧ lex_literal (fill l) = Some (j, fill r).
Proof.
  intros H Hl. assert (Hcase : ∃ v, (v = JNull ∨ v = JBool true ∨ v = JBool false) ∧ j = v ∧ l = print v ++ r).
  { unfold lex_literal in H.
    destruct (strip (print JNull) l) eqn:E1; [exists JNull|destruct (strip (print (JBool true)) l) eqn:E2; [exists (JBool true)|
      destruct (strip (print (JBool false)) l) eqn:E3; [exists (JBool false)|done]]]; injection H as <- <-; auto using strip_app. }
  destruct Hcase as (v & Hv & -> & ->). split; [by eapply fillable_app|]. rewrite fill_app.
  destruct Hv as [->|[-> | ->]]; (split; [done|]); reflexivity.
Qed.

(** ** Values *)

Lemma parse_value_hole fuel l r : skip_space l = hole :: r → parse_value fuel l = None.
Proof. intros H. destruct fuel as [|fuel]; [done|]. cbn [parse_value]. by rewrite H. Qed.

(** The three functions of the parser, with enough fuel for the text *)
Definition value_fills (fuel : nat) : Prop := ∀ l j rest,
  parse_value fuel l = Some (j, rest) → fillable l = true → fillable rest = true ∧
  (solid rest → ∀ fuel', (fuel ≤ fuel')%nat → parse_value fuel' (fill l) = Some (fill_json j, fill rest)).

Definition elements_fill (fuel : nat) : Prop := ∀ l js rest,
  parse_elements fuel l = Some (js, rest) → fillable l = true → fillable rest = true ∧
  ∀ fuel', (fuel ≤ fuel')%nat → parse_elements fuel' (fill l) = Some (map fill_json js, fill rest).

Definition members_fill (fuel : nat) : Prop := ∀ l kvs rest,
  parse_members fuel l = Some (kvs, rest) → fillable l = true → fillable rest = true ∧
  ∀ fuel', (fuel ≤ fuel')%nat → parse_members fuel' (fill l) = Some (fill_members kvs, fill rest).

Lemma elements_fill_step fuel : value_fills fuel → elements_fill fuel → elements_fill (S fuel).
Proof.
  intros IHv IHe l js rest H Hl. cbn [parse_elements] in H. destruct (parse_value fuel l) as [[j l1]|] eqn:Hv; [|done].
  destruct (IHv _ _ _ Hv Hl) as [Hl1 Hv']. destruct (skip_space l1) as [|c l2] eqn:Hs; [done|].
  assert (Hc : c ≠ hole) by (intros ->; done).
  destruct (skip_space_fill _ _ _ Hs Hl1 Hc) as (Hsol & Hf & Es). apply fillable_cons in Hf as (_ & Hl2 & _).
  destruct (c =? 44) eqn:H44.
  - destruct (parse_elements fuel l2) as [[js' rest']|] eqn:He; [|done]. injection H as <- <-.
    destruct (IHe _ _ _ He Hl2) as [Hr He']. split; [done|]. intros [|fuel'] Hf; [lia|].
    cbn [parse_elements]. rewrite Hv', Es, H44, He' by (done || lia). done.
  - destruct (c =? 93) eqn:H93; [|done]. injection H as <- <-. split; [done|]. intros [|fuel'] Hf; [lia|].
    cbn [parse_elements]. rewrite Hv', Es, H44, H93 by (done || lia). done.
Qed.

Lemma members_fill_step fuel : value_fills fuel → members_fill fuel → members_fill (S fuel).
Proof.
  intros IHv IHm l kvs rest H Hl. cbn [parse_members] in H. destruct (skip_space l) as [|c l1] eqn:Hs; [done|].
  destruct (Z.eqb_spec c 34) as [->|]; [|done].
  destruct (skip_space_fill _ _ _ Hs Hl ltac:(done)) as (_ & (_ & Hl1 & _)%fillable_cons & Es).
  destruct (lex_string (length l1) l1) as [[k l2]|] eqn:Hk; [|done].
  destruct (lex_string_fill _ _ _ _ Hk Hl1) as (Hl2 & Hka & Ek).
  destruct (skip_space l2) as [|c l3] eqn:Hs2; [done|]. destruct (Z.eqb_spec c 58) as [->|]; [|done].
  destruct (skip_space_fill _ _ _ Hs2 Hl2 ltac:(done)) as (_ & (_ & Hl3 & _)%fillable_cons & Es2).
  destruct (parse_value fuel l3) as [[j l4]|] eqn:Hv; [|done]. destruct (IHv _ _ _ Hv Hl3) as [Hl4 Ev].
  destruct (skip_space l4) as [|c l5] eqn:Hs4; [done|]. assert (Hc : c ≠ hole) by (intros ->; done).
  destruct (skip_space_fill _ _ _ Hs4 Hl4 Hc) as (Hsol & (_ & Hl5 & _)%fillable_cons & Es4).
  assert (Ekey : fill_string (of_bytes k) = of_bytes (fill k)) by (by apply fill_string_of_bytes, ascii_bytes).
  destruct (c =? 44) eqn:H44.
  - destruct (parse_members fuel l5) as [[kvs' rest']|] eqn:Hm; [|done]. injection H as <- <-.
    destruct (IHm _ _ _ Hm Hl5) as [Hr Em]. split; [done|]. intros [|fuel'] Hf; [lia|]. cbn [parse_members].
    rewrite Es. cbn [Z.eqb]. rewrite Ek by lia. rewrite Es2. cbn [Z.eqb]. rewrite Ev, Es4, H44, Em by (done || lia).
    unfold fill_members. cbn [map fst snd]. by rewrite Ekey.
  - destruct (c =? 125) eqn:H125; [|done]. injection H as <- <-. split; [done|]. intros [|fuel'] Hf; [lia|]. cbn [parse_members].
    rewrite Es. cbn [Z.eqb]. rewrite Ek by lia. rewrite Es2. cbn [Z.eqb]. rewrite Ev, Es4, H44, H125 by (done || lia).
    unfold fill_members. cbn [map fst snd]. by rewrite Ekey.
Qed.

(** The first element or member does not start with a hole. *)
Lemma parse_elements_head fuel l x d r : parse_elements fuel l = Some x → skip_space l = d :: r → d ≠ hole.
Proof. intros H Hs ->. destruct fuel as [|fuel]; [done|]. cbn [parse_elements] in H. by rewrite (parse_value_hole _ _ _ Hs) in H. Qed.

Lemma parse_members_head fuel l x d r : parse_members fuel l = Some x → skip_space l = d :: r → d ≠ hole.
Proof. intros H Hs ->. destruct fuel as [|fuel]; [done|]. cbn [parse_members] in H. by rewrite Hs in H. Qed.

Lemma value_fills_step fuel : elements_fill fuel → members_fill fuel → value_fills (S fuel).
Proof.
  intros IHe IHm l j rest H Hl. destruct (skip_space l) as [|c l1] eqn:Hs; [by cbn [parse_value] in H; rewrite Hs in H|].
  assert (Hc : c ≠ hole) by (intros ->; by rewrite (parse_value_hole _ _ _ Hs) in H).
  destruct (skip_space_fill _ _ _ Hs Hl Hc) as (_ & Hcl & Es). pose proof Hcl as (_ & Hl1 & _)%fillable_cons.
  cbn [parse_value] in H. rewrite Hs in H. destruct (c =? 34) eqn:H34.
  { destruct (lex_string (length l1) l1) as [[s r]|] eqn:Hk; [|done]. injection H as <- <-.
    destruct (lex_string_fill _ _ _ _ Hk Hl1) as (Hr & Hka & Ek). split; [done|]. intros _ [|fuel'] Hf; [lia|].
    cbn [parse_value]. rewrite Es, H34, Ek by lia. cbn [fill_json]. by rewrite fill_string_of_bytes by by apply ascii_bytes. }
  destruct (c =? 91) eqn:H91.
  { destruct (skip_space l1) as [|d r] eqn:Hd; [done|]. destruct (Z.eqb_spec d 93) as [->|H93].
    - injection H as <- <-. destruct (skip_space_fill _ _ _ Hd Hl1 ltac:(done)) as (_ & (_ & Hr & _)%fillable_cons & Ed).
      split; [done|]. intros _ [|fuel'] Hf; [lia|]. cbn [parse_value]. by rewrite Es, H34, H91, Ed.
    - destruct (parse_elements fuel l1) as [[js r']|] eqn:He; [|done]. injection H as <- <-.
      destruct (skip_space_fill _ _ _ Hd Hl1 (parse_elements_head _ _ _ _ _ He Hd)) as (_ & _ & Ed).
      destruct (IHe _ _ _ He Hl1) as [Hr Ee]. split; [done|]. intros _ [|fuel'] Hf; [lia|]. cbn [parse_value].
      rewrite Es, H34, H91, Ed, (proj2 (Z.eqb_neq d 93)), Ee by (done || lia). done. }
  destruct (c =? 123) eqn:H123.
  { destruct (skip_space l1) as [|d r] eqn:Hd; [done|]. destruct (Z.eqb_spec d 125) as [->|H125].
    - injection H as <- <-. destruct (skip_space_fill _ _ _ Hd Hl1 ltac:(done)) as (_ & (_ & Hr & _)%fillable_cons & Ed).
      split; [done|]. intros _ [|fuel'] Hf; [lia|]. cbn [parse_value]. by rewrite Es, H34, H91, H123, Ed.
    - destruct (parse_members fuel l1) as [[kvs r']|] eqn:Hm; [|done]. injection H as <- <-.
      destruct (skip_space_fill _ _ _ Hd Hl1 (parse_members_head _ _ _ _ _ Hm Hd)) as (_ & _ & Ed).
      destruct (IHm _ _ _ Hm Hl1) as [Hr Em]. split; [done|]. intros _ [|fuel'] Hf; [lia|]. cbn [parse_value].
      rewrite Es, H34, H91, H123, Ed, (proj2 (Z.eqb_neq d 125)), Em by (done || lia). done. }
  destruct ((c =? 45) || is_digit c) eqn:Hn.
  { destruct (lex_number (c :: l1)) as [[m r]|] eqn:Hm; [|done]. injection H as <- <-.
    pose proof (lex_number_valid _ _ _ Hm) as [E _]. rewrite E in Hcl. split; [by eapply fillable_app|].
    intros Hr [|fuel'] Hf; [lia|]. apply lex_number_fill in Hm as [_ Em]; [|done]. rewrite fill_cons in Em by done.
    cbn [parse_value]. by rewrite Es, H34, H91, H123, Hn, Em. }
  destruct (lex_literal_fill _ _ _ H Hcl) as (Hr & Ej & El). rewrite fill_cons in El by done.
  split; [done|]. intros _ [|fuel'] Hf; [lia|]. cbn [parse_value]. by rewrite Es, H34, H91, H123, Hn, El, Ej.
Qed.

Lemma parse_fill fuel : value_fills fuel ∧ elements_fill fuel ∧ members_fill fuel.
Proof.
  induction fuel as [|fuel (IHv & IHe & IHm)]; [done|].
  auto using value_fills_step, elements_fill_step, members_fill_step.
Qed.

(** The filled text is read as the filled value. *)
Lemma whole_fill text j rest fuel :
  parse_value fuel (bytes text) = Some (j, rest) → skip_space rest = [] → fillable (bytes text) = true →
  (fuel ≤ 2 * length (fill (bytes text)))%nat → whole (of_bytes (fill (bytes text))) = Some (fill_json j).
Proof.
  intros Hp Hr Hf Hlen. unfold whole. rewrite bytes_of_bytes.
  - destruct (parse_fill fuel) as (Hv & _). destruct (Hv _ _ _ Hp Hf) as [_ H]. apply skip_space_nil in Hr as [Hs E].
    by rewrite H, E.
  - apply fill_bytes; [|apply bytes_is_byte]. rewrite forallb_forall in Ht. apply List.Forall_forall. intros x Hx.
    specialize (Ht x Hx). unfold plain_char, between, is_byte in *. lia.
Qed.

End fill.

(** ** Names with holes *)

(** Two names that differ before the first hole of either *)
Fixpoint apart_left (a b : list Z) : bool :=
  match a, b with
  | x :: a, y :: b => if (x =? hole) || (y =? hole) then false else negb (x =? y) || apart_left a b
  | x :: _, [] => negb (x =? hole)
  | [], y :: _ => negb (y =? hole)
  | [], [] => false
  end.

Definition holes (l : list Z) : nat := length (filter (fun c => c = hole) l).

(** Names that differ however the holes are filled: before the first hole, after
    the last one, or in the number of their characters *)
Definition apart (a b : list Z) : bool :=
  apart_left a b || apart_left (reverse a) (reverse b) || ((holes a =? holes b)%nat && negb (length a =? length b)%nat).

Definition solid_name (s : string) : bool := forallb (fun c => negb (c =? hole)) (bytes s).

Lemma apart_left_fill t a b : apart_left a b = true → fill t a ≠ fill t b.
Proof.
  revert b. induction a as [|x a IH]; intros [|y b]; cbn [apart_left]; [done|..].
  - intros H. rewrite (fill_cons t y) by lia. done.
  - intros H. rewrite (fill_cons t x) by lia. done.
  - destruct ((x =? hole) || (y =? hole)) eqn:Hh; [done|]. intros H. rewrite !fill_cons by lia. intros [= -> E].
    rewrite Z.eqb_refl in H. by apply IH in H.
Qed.

Lemma fill_reverse t l : fill t (reverse l) = reverse (fill (reverse t) l).
Proof.
  induction l as [|c l IH]; [done|]. rewrite reverse_cons, fill_app, IH. cbn [fill]. destruct (c =? hole).
  - by rewrite app_nil_r, reverse_app, reverse_involutive.
  - by rewrite reverse_cons.
Qed.

Lemma length_fill t l : (length (fill t l) + holes l = length l + holes l * length t)%nat.
Proof.
  unfold holes. induction l as [|c l IH]; [done|]. rewrite filter_cons. cbn [fill].
  destruct (Z.eqb_spec c hole) as [->|Hc]; (case_decide; [|done || idtac]); try done; cbn [length]; rewrite ?length_app; lia.
Qed.

Lemma length_fill_ge t l : t ≠ [] → (length l ≤ length (fill t l))%nat.
Proof. intros Ht. pose proof (length_fill t l). destruct t as [|x t]; [done|]. cbn [length] in *. nia. Qed.

Lemma apart_fill t a b : apart a b = true → fill t a ≠ fill t b.
Proof.
  unfold apart. intros [[H|H]%orb_true_iff|[Hh Hl]%andb_true_iff]%orb_true_iff E.
  - by apply (apart_left_fill t) in H.
  - apply (apart_left_fill (reverse t)) in H. rewrite !fill_reverse, reverse_involutive in H. by rewrite E in H.
  - pose proof (length_fill t a) as Ha. pose proof (length_fill t b) as Hb. rewrite E in Ha.
    apply Nat.eqb_eq in Hh. rewrite Hh in Ha. apply negb_true_iff, Nat.eqb_neq in Hl. lia.
Qed.

Lemma fill_solid t l : forallb (fun c => negb (c =? hole)) l = true → fill t l = l.
Proof.
  induction l as [|c l IH]; [done|]. cbn [forallb]. intros [Hc Hl]%andb_true_iff. rewrite fill_cons by lia. by rewrite IH.
Qed.

Lemma fill_string_solid t s : solid_name s = true → fill_string t s = s.
Proof. intros H. unfold fill_string. by rewrite fill_solid, of_bytes_bytes. Qed.

Lemma bytes_fill_string t s : Forall is_byte t → bytes (fill_string t s) = fill t (bytes s).
Proof. intros H. unfold fill_string. rewrite bytes_of_bytes; [done|]. apply fill_bytes; [done|apply bytes_is_byte]. Qed.

Lemma apart_fill_string t k k' :
  Forall is_byte t → apart (bytes k) (bytes k') = true → fill_string t k ≠ fill_string t k'.
Proof. intros Hb H E. apply (apart_fill t _ _ H). by rewrite <-!bytes_fill_string, E. Qed.
