(* ===== verification/Rpc.v ===== *)
(** * Rpc: the HTTP and JSON-RPC client

    src/V2/pkg/http/http.go.  The network and the server at its other end are
    the function [Do] on a state of their own, which every request may
    change.  The bodies of requests and responses are texts, written and read as
    in [JsonText]; the URL of a request comes from package net/url, whose
    functions are parameters. *)

From stdpp Require Import base list strings numbers.
From Stdlib Require Import ZArith Lia String.
From S2P Require Import Prelude GoStrings Config Retry Json JsonText.

Local Open Scope string_scope.
Local Open Scope Z_scope.
Local Open Scope list_scope.

(** [type Client struct]; [None] is the nil [BaseURL] *)
Record Client := {
  BaseURL : option string;
  cl_User : string;
  cl_Password : string;
  cl_Retry : RetryConfig;
  ApiKey : string;
}.

(** [type RPCRequest struct] *)
Record RPCRequest := { ID : Z; Method : string; Params : list json; rq_Version : string }.

(** [type Status struct] *)
Record Status := { Code : Z; Message : string }.

(** [type RPCResponse struct], with the type of [Result] *)
Record RPCResponse (R : Type) := { rs_ID : Z; Result : R; Error : option Status }.
Arguments Build_RPCResponse {R} _ _ _.
Arguments rs_ID {R} _.
Arguments Result {R} _.
Arguments Error {R} _.

(** What is sent *)
Record http_request := {
  rq_Method : string;
  rq_URL : string;
  rq_User : string;
  rq_Password : string;
  rq_Body : option string;
}.

(** What comes back; [Text] is [None] when reading the body fails *)
Record http_response := { StatusCode : Z; Text : option string }.

(** What a decoder gets from the body: the value its text starts with, or none
    when the text is no JSON *)
Definition Body (httpRes : http_response) : option json := Text httpRes ≫= parse.

(** [func NewClient(r *config.RPC) *Client]; [parse] is [url.Parse], whose error
    is dropped.  Pools and time limits belong to the network. *)
Definition NewClient (parse : string → option string) (r : RPC) : Client :=
  {| BaseURL := parse (URL (rpc_Coin r));
     cl_User := User (rpc_Coin r);
     cl_Password := Password (rpc_Coin r);
     cl_Retry := rpc_Retry (rpc_Base r);
     ApiKey := "" |}.

(** [func (c *Client) NewRPCRequest(method string, params ...interface{}) *RPCRequest] *)
Definition NewRPCRequest (method : string) (params : list json) : RPCRequest :=
  {| ID := 0; Method := method; Params := params; rq_Version := "2.0" |}.

(** [func (c *Client) SetApiKey(key string)] *)
Definition SetApiKey (c : Client) (key : string) : Client :=
  {| BaseURL := BaseURL c; cl_User := cl_User c; cl_Password := cl_Password c; cl_Retry := cl_Retry c; ApiKey := key |}.

(** [func (e *Status) Error() string] *)
Definition Status_Error (e : Status) : string := (Itoa (Code e) ++ ": " ++ Message e)%string.

(** The encoding of an [RPCRequest].  No parameters are a nil slice inside an
    interface: not empty for [omitempty], and encoded as null. *)
Definition enc_request (r : RPCRequest) : json :=
  JObject [("jsonrpc", JString (rq_Version r)); ("id", JNumber (Itoa (ID r))); ("method", JString (Method r));
           ("params", match Params r with [] => JNull | ps => JArray ps end)].

(** ** Decoding of responses *)

Definition status_names : list string := ["code"; "message"].

Definition dec_Status (old : Status) (kvs : members) : Status * bool :=
  ap (ap (Build_Status, true)
    (dec_field status_names "code" dec_int (Code old) kvs))
    (dec_field status_names "message" dec_string (Message old) kvs).

Definition zero_status : Status := {| Code := 0; Message := "" |}.

Definition dec_error : decoder (option Status) := dec_ptr zero_status (dec_struct dec_Status).

Definition response_names : list string := ["id"; "result"; "error"].

Definition dec_response {R} (d : decoder R) : decoder (RPCResponse R) :=
  dec_struct (fun old kvs =>
    ap (ap (ap (Build_RPCResponse, true)
      (dec_field response_names "id" dec_int (rs_ID old) kvs))
      (dec_field response_names "result" d (Result old) kvs))
      (dec_field response_names "error" dec_error (Error old) kvs)).

(** An [interface{}] that holds no pointer *)
Definition dec_any : decoder json := fun _ j => (canon_json j, true).

(** An [interface{}] that holds the pointer to the caller's variable, and
    whether it still does: a null replaces the pointer, and what follows does not
    reach the variable. *)
Definition dec_linked {A} (d : decoder A) : decoder (A * bool) := fun '(a, linked) j =>
  if linked then
    match j with
    | JNull => ((a, false), true)
    | _ => let '(a, ok) := d a j in ((a, true), ok)
    end
  else ((a, false), true).

(** ** Calls *)

Section calls.
Context {T : Type} (Do : http_request → T → gores http_response * T).
(** [rand.Int63n] of the calls made from a state *)
Context (draws : T → nat → Z).
(** The URL of a request from the base URL, the path and the API key *)
Context (request_url : string → string → string → gores string).

(** [func (c *Client) makeRequest(method, path string, body interface{}) ( *http.Request, error)].
    A number that is none cannot be encoded. *)
Definition makeRequest (c : Client) (method path : string) (body : option json) : gores http_request :=
  match BaseURL c with
  | None => Panic NilDereference
  | Some base =>
      url ← request_url base path (ApiKey c);
      buf ← match body with
            | None => Val None
            | Some j =>
                match json_Encode j with
                | Some text => Val (Some text)
                | None => Err (EWrap "error encoding request body: %+v" (ENew "number"))
                end
            end;
      Val {| rq_Method := method; rq_URL := url; rq_User := cl_User c; rq_Password := cl_Password c; rq_Body := buf |}
  end.

(** A request and its response *)
Definition exchange (c : Client) (method path : string) (body : option json) (t : T) : gores http_response * T :=
  match makeRequest c method path body with
  | Val httpReq => Do httpReq t
  | Err e => (Err e, t)
  | Panic p => (Panic p, t)
  | Exit e => (Exit e, t)
  end.

Section attempts.
Context {A : Type} (c : Client) (d : decoder A).

(** One attempt: [react] is what it does with the response and the caller's
    variable. *)
Definition attempt (method path : string) (body : option json)
    (react : http_response → A → gores unit * A) (st : T * A) : gores unit * (T * A) :=
  match exchange c method path body st.1 with
  | (Val httpRes, t) => let '(r, v) := react httpRes st.2 in (r, (t, v))
  | (Err e, t) => (Err e, (t, st.2))
  | (Panic p, t) => (Panic p, (t, st.2))
  | (Exit e, t) => (Exit e, (t, st.2))
  end.

(** The response of [CallRest] *)
Definition rest_react (httpRes : http_response) (v : A) : gores unit * A :=
  if (StatusCode httpRes <? 200) || (StatusCode httpRes >? 300) then
    match Text httpRes with
    | None => (Err (ENew "read"), v)
    | Some b => (Err (ENew (Status_Error {| Code := StatusCode httpRes; Message := b |})), v)
    end
  else
    match Body httpRes with
    | None => (Err (EWrap "failed to decode response body" (ENew "syntax")), v)
    | Some JNull => (Val tt, v)
    | Some j =>
        let '(v, ok) := d v j in
        (if ok then Val tt else Err (EWrap "failed to decode response body" (ENew "type")), v)
    end.

(** The response of [CallRPC] *)
Definition rpc_react (httpRes : http_response) (v : A) : gores unit * A :=
  match Body httpRes with
  | None => (Err (EWrap "failed to decode response body" (ENew "syntax")), v)
  | Some j =>
      let '(r, ok) := dec_response (dec_linked d) {| rs_ID := 0; Result := (v, true); Error := None |} j in
      (if ok then
         match Error r with
         | Some e => Err (ENew (Status_Error e))
         | None => Val tt
         end
       else Err (EWrap "failed to decode response body" (ENew "type")),
       (Result r).1)
  end.

(** The loop over the responses of a batch *)
Fixpoint batch_results (rs : list (RPCResponse json)) : gores (list json) :=
  match rs with
  | [] => Val []
  | r :: rs =>
      match Error r with
      | Some e => Err (ENew (Status_Error e))
      | None => results ← batch_results rs; Val (Result r :: results)
      end
  end.

Definition zero_response : RPCResponse json := {| rs_ID := 0; Result := JNull; Error := None |}.

(** The response of [CallRPCBatch]: the results are encoded again as one array
    and decoded into the caller's variable *)
Definition batch_react (httpRes : http_response) (v : A) : gores unit * A :=
  match Body httpRes with
  | None => (Err (EWrap "failed to decode response body" (ENew "syntax")), v)
  | Some j =>
      let '(rs, ok) := dec_list zero_response (dec_response dec_any) [] j in
      if ok then
        match batch_results rs with
        | Val results =>
            match json_Encode (JArray results) with
            | None => (Err (EWrap "failed to encode results" (ENew "number")), v)
            | Some buf =>
                match parse buf with
                | None => (Err (EWrap "failed to decode results" (ENew "syntax")), v)
                | Some j =>
                    let '(v, ok) := d v j in
                    (if ok then Val tt else Err (EWrap "failed to decode results" (ENew "type")), v)
                end
            end
        | Err e => (Err e, v)
        | Panic p => (Panic p, v)
        | Exit e => (Exit e, v)
        end
      else (Err (EWrap "failed to decode response body" (ENew "type")), v)
  end.

(** The retries around the attempts: the result, the caller's variable and the
    state of the network *)
Definition retried (fn : T * A → gores unit * (T * A)) (v : A) (t : T) : gores unit * A * T :=
  let '(r, (t', v), _) := Backoff fn (draws t) (Attempts (cl_Retry c)) (Sleep (cl_Retry c)) (t, v) in (r, v, t').

(** [func (c *Client) CallRest(method, path string, body interface{}, v interface{}) error],
    with a [v] that is not nil *)
Definition CallRest (method path : string) (body : option json) : A → T → gores unit * A * T :=
  retried (attempt method path body rest_react).

(** [func (c *Client) CallRPC(body interface{}, v interface{}) error] *)
Definition CallRPC (body : RPCRequest) : A → T → gores unit * A * T :=
  retried (attempt "POST" "" (Some (enc_request body)) rpc_react).

(** A slice of requests; a nil slice is encoded as null *)
Definition enc_batch (body : option (list RPCRequest)) : json :=
  match body with None => JNull | Some reqs => JArray (map enc_request reqs) end.

(** [func (c *Client) CallRPCBatch(body interface{}, v interface{}) error] *)
Definition CallRPCBatch (body : option (list RPCRequest)) : A → T → gores unit * A * T :=
  retried (attempt "POST" "" (Some (enc_batch body)) batch_react).

End attempts.

(** *** The calls of the clients of a node *)

(** What a method returns after its call: the variable, or the wrapped error *)
Definition returned {A} (msg : string) (call : gores unit * A * T) : gores A * T :=
  match call with
  | (Val _, v, t) => (Val v, t)
  | (Err e, _, t) => (Err (EWrap msg e), t)
  | (Panic p, _, t) => (Panic p, t)
  | (Exit e, _, t) => (Exit e, t)
  end.

(** A call with a fresh variable of a type *)
Definition single (c : Client) {A} (f : format A) (msg : string) (req : RPCRequest) (t : T) : gores A * T :=
  returned msg (CallRPC c (dec f) req (zero f) t).

Definition batch (c : Client) {A} (f : format A) (msg : string) (reqs : option (list RPCRequest)) (t : T) : gores (list A) * T :=
  returned msg (CallRPCBatch c (dec (list_fmt f)) reqs [] t).

(** The next call, unless the one before failed *)
Definition andThen {A B} (r : gores A * T) (msg : string) (k : A → T → gores B * T) : gores B * T :=
  match r with
  | (Val a, t) => k a t
  | (Err e, t) => (Err (EWrap msg e), t)
  | (Panic p, t) => (Panic p, t)
  | (Exit e, t) => (Exit e, t)
  end.

End calls.

(** ** What a server answers *)

(** A response object without an error that carries a result *)
Definition replies (res : json) (j : json) : Prop :=
  ∃ kvs, j = JObject kvs ∧ plain response_names kvs ∧ (∃ id, member kvs "id" int_fmt id) ∧
    assoc "result" kvs = Some res ∧ (assoc "error" kvs = None ∨ assoc "error" kvs = Some JNull).

(** A body with no result for a batch: no JSON, no array of responses, or one of
    them an error *)
Definition refuses_batch (httpRes : http_response) : bool :=
  match Body httpRes with
  | None => true
  | Some j =>
      let '(rs, ok) := dec_list zero_response (dec_response dec_any) [] j in
      negb ok || existsb (fun r => bool_decide (is_Some (Error r))) rs
  end.

(** A body with no result for a call: no JSON, or an error and a null result *)
Definition status_rep (kvs : members) (e : Status) : Prop :=
  member kvs "code" int_fmt (Code e) ∧ member kvs "message" string_fmt (Message e).

Definition status_fmt : format Status := struct_fmt status_names zero_status dec_Status status_rep.

Definition refuses_call (httpRes : http_response) : Prop :=
  Body httpRes = None ∨
  ∃ kvs id e, Body httpRes = Some (JObject kvs) ∧ plain response_names kvs ∧ member kvs "id" int_fmt id ∧
    assoc "result" kvs = Some JNull ∧ member kvs "error" (ptr_fmt status_fmt) (Some e).

#[export] Instance status_laws : FormatLaws status_fmt.
Proof.
  apply struct_laws; intros kvs e Hp [Hc Hm].
  - unfold dec_Status. rewrite (dec_field_member (f := int_fmt) status_names "code" dec_int (Code zero_status) kvs _ eq_refl eq_refl Hp ltac:(in_names) Hc).
    rewrite (dec_field_member (f := string_fmt) status_names "message" dec_string (Message zero_status) kvs _ eq_refl eq_refl Hp ltac:(in_names) Hm). by destruct e.
  - split; by eapply member_canon.
Qed.

Lemma dec_response_replies {R} (d : decoder R) old r ok res j :
  replies res j → d old res = (r, ok) →
  ∃ id, dec_response d {| rs_ID := 0; Result := old; Error := None |} j =
    ({| rs_ID := id; Result := r; Error := None |}, ok).
Proof.
  intros (kvs & -> & Hp & [id Hid] & Hres & Herr) Hd. exists id.
  unfold dec_response, dec_struct. cbn [rs_ID Result Error].
  rewrite (dec_field_member (f := int_fmt) response_names "id" dec_int 0 kvs id eq_refl eq_refl Hp ltac:(in_names) Hid).
  rewrite !dec_field_plain by (done || in_names). rewrite Hres, Hd.
  unfold ap. cbn [fst snd]. destruct Herr as [-> | ->]; cbn; by rewrite andb_true_r.
Qed.

Section reactions.
Context {A : Type} (f : format A) `{!FormatLaws f}.

(** The result of a call arrives. *)
Lemma rpc_react_replies httpRes res j a :
  Body httpRes = Some j → replies res j → res ≠ JNull → rep f res a →
  rpc_react (dec f) httpRes (zero f) = (Val tt, a).
Proof.
  intros Hb Hj Hn Ha. unfold rpc_react. rewrite Hb.
  destruct (dec_response_replies (dec_linked (dec f)) (zero f, true) (a, true) true _ _ Hj) as [id ->]; [|done].
  cbn. rewrite (rep_dec _ _ Ha). by destruct res.
Qed.

(** A refused call does not touch the caller's variable. *)
Lemma rpc_react_refuses {R} (d : decoder R) httpRes v :
  refuses_call httpRes → ∃ e, rpc_react d httpRes v = (Err e, v).
Proof.
  unfold rpc_react. intros [->|(kvs & id & e & -> & Hp & Hid & Hres & He)]; [by eexists|].
  unfold dec_response, dec_struct. cbn [rs_ID Result Error].
  rewrite (dec_field_member (f := int_fmt) response_names "id" dec_int 0 kvs id eq_refl eq_refl Hp ltac:(in_names) Hid).
  rewrite (dec_field_plain response_names "result") by (done || in_names). rewrite Hres.
  rewrite (dec_field_member (f := ptr_fmt status_fmt) response_names "error" dec_error None kvs _ eq_refl eq_refl Hp ltac:(in_names) He).
  cbn. by eexists.
Qed.

Lemma dec_responses_reply results js :
  Forall2 replies results js →
  ∃ rs, dec_elements zero_response (dec_response dec_any) [] js = (rs, true) ∧
    batch_results rs = Val (map canon_json results).
Proof.
  induction 1 as [|res j results js Hj _ (rs & Hrs & Hres)]; [by exists []|].
  destruct (dec_response_replies dec_any JNull _ _ _ _ Hj eq_refl) as [id Hr].
  cbn. fold zero_response in Hr. rewrite Hr, Hrs. eexists. split; [done|]. cbn. by rewrite Hres.
Qed.

(** The results of a body that was read *)
Lemma results_printable js results :
  printable (JArray js) = true → Forall2 replies results js → printable (JArray (map canon_json results)) = true.
Proof.
  cbn [printable]. intros Hp Hjs. induction Hjs as [|res j results js (kvs & -> & _ & _ & Hres & _) _ IH]; [done|].
  cbn [map forallb] in *. apply andb_true_iff in Hp as [Hj Hp]. rewrite IH by done.
  by rewrite (canon_printable _ (printable_assoc _ _ _ Hj Hres)).
Qed.

(** What was read and encoded is read again. *)
Lemma reencoded j : printable j = true → ∃ buf, json_Encode j = Some buf ∧ parse buf = Some j.
Proof.
  intros Hp. destruct (json_Encode j) as [buf|] eqn:Hb; [exists buf; split; [done|by eapply parse_json_Encode]|].
  unfold json_Encode in Hb. by rewrite printable_encodable in Hb.
Qed.

(** The results of a batch arrive, in the order of the responses. *)
Lemma batch_react_replies httpRes js results l :
  Body httpRes = Some (JArray js) → Forall2 replies results js → Forall2 (rep f) results l →
  batch_react (dec (list_fmt f)) httpRes [] = (Val tt, l).
Proof.
  intros Hb Hjs Hl. unfold batch_react. rewrite Hb. cbn [dec_list].
  destruct (dec_responses_reply _ _ Hjs) as (rs & -> & ->).
  assert (Hp : printable (JArray js) = true) by (apply bind_Some in Hb as (text & _ & Hb); by eapply parse_printable).
  destruct (reencoded _ (results_printable _ _ Hp Hjs)) as (buf & -> & ->).
  cbn [dec list_fmt dec_list]. by rewrite (dec_elements_rep _ _ (reps_canon _ _ Hl)).
Qed.

End reactions.

Lemma batch_results_error rs :
  existsb (fun r => bool_decide (is_Some (Error r))) rs = true → ∃ e, batch_results rs = Err e.
Proof.
  induction rs as [|r rs IH]; [done|]. cbn. destruct (Error r); [by eexists|].
  cbn. intros [e ->]%IH. by eexists.
Qed.

(** A refused batch does not touch the caller's variable. *)
Lemma batch_react_refuses {A} (d : decoder A) httpRes v :
  refuses_batch httpRes = true → ∃ e, batch_react d httpRes v = (Err e, v).
Proof.
  unfold refuses_batch, batch_react. destruct (Body httpRes); [|by eexists].
  destruct (dec_list _ _ _ _) as [rs [|]]; [|by eexists]. intros [e ->]%batch_results_error. by eexists.
Qed.

Section delivery.
Context {T : Type} (Do : http_request → T → gores http_response * T) (draws : T → nat → Z)
  (request_url : string → string → string → gores string).

(** After [k] attempts that failed in the network or were refused, the next one
    brings a response that satisfies [good]. *)
Inductive delivers (refused good : http_response → Prop) (req : http_request) : nat → T → T → Prop :=
| delivers_now t t' httpRes :
    Do req t = (Val httpRes, t') → good httpRes → delivers refused good req 0 t t'
| delivers_lost k t t' t'' e :
    Do req t = (Err e, t') → delivers refused good req k t' t'' → delivers refused good req (S k) t t''
| delivers_refused k t t' t'' httpRes :
    Do req t = (Val httpRes, t') → refused httpRes →
    delivers refused good req k t' t'' → delivers refused good req (S k) t t''.

Context {A : Type} (c : Client) (react : http_response → A → gores unit * A).

(** The settings of the retries: the sleeps stay in range. *)
Definition retry_ok : Prop :=
  in_int64 (Attempts (cl_Retry c)) ∧ Attempts (cl_Retry c) ≠ - two63 ∧ 0 < Sleep (cl_Retry c) ∧
  3 ^ Z.of_nat (max_attempts (Attempts (cl_Retry c))) * Sleep (cl_Retry c) < two63.

Section delivered.
Context (refused good : http_response → Prop) (v a : A) (method path : string) (body : option json) (req : http_request).
Context (Hreq : makeRequest request_url c method path body = Val req)
  (Hrefused : ∀ httpRes, refused httpRes → ∃ e, react httpRes v = (Err e, v))
  (Hgood : ∀ httpRes, good httpRes → react httpRes v = (Val tt, a)).

Lemma delivers_attempts k t t' :
  delivers refused good req k t t' →
  (∀ j, (j < k)%nat → fails_at (attempt Do request_url c method path body react) j (t, v)) ∧
  attempt Do request_url c method path body react (state_after (attempt Do request_url c method path body react) k (t, v))
    = (Val tt, (t', a)).
Proof.
  induction 1 as [t t' httpRes HD Hg|k t t' t'' e HD _ [IHf IHs]|k t t' t'' httpRes HD Hr _ [IHf IHs]].
  - split; [lia|]. cbn [state_after]. unfold attempt, exchange. rewrite Hreq. cbn [fst snd]. by rewrite HD, Hgood.
  - assert (Hs : attempt Do request_url c method path body react (t, v) = (Err e, (t', v)))
      by (unfold attempt, exchange; rewrite Hreq; cbn [fst snd]; by rewrite HD).
    split; [by eapply fails_S|cbn [state_after]; by rewrite Hs].
  - destruct (Hrefused _ Hr) as [e He].
    assert (Hs : attempt Do request_url c method path body react (t, v) = (Err e, (t', v)))
      by (unfold attempt, exchange; rewrite Hreq; cbn [fst snd]; by rewrite HD, He).
    split; [by eapply fails_S|cbn [state_after]; by rewrite Hs].
Qed.

(** A call succeeds when a good response comes within its attempts. *)
Lemma retried_delivers k t t' :
  retry_ok → (k < max_attempts (Attempts (cl_Retry c)))%nat → delivers refused good req k t t' →
  retried draws c (attempt Do request_url c method path body react) v t = (Val tt, a, t').
Proof.
  intros (Hin & Hmin & Hs & Hb) Hk Hd. destruct (delivers_attempts _ _ _ Hd) as [Hf Hlast]. unfold retried, Backoff.
  destruct (Backoff_decides (attempt Do request_url c method path body react)
    _ (draws t) _ (Sleep (cl_Retry c)) (t, v) Hin Hmin (Nat.le_refl _) Hs Hb)
    as (k' & sleeps & (Hk' & Hpre & Hend) & _ & _ & ->).
  assert (k' = k) as ->.
  { destruct (Nat.lt_trichotomy k' k) as [Hlt|[?|Hlt]]; [|done|].
    - specialize (Hend (Hf _ Hlt)). lia.
    - destruct (Hpre _ Hlt) as [e He]. unfold result_at in He. by rewrite Hlast in He. }
  assert (Hst : state_after (attempt Do request_url c method path body react) (S k) (t, v) = (t', a)).
  { rewrite state_after_S. by rewrite Hlast. }
  unfold result_at. by rewrite Hst, Hlast.
Qed.

End delivered.

End delivery.

(** A response that carries a value *)
Definition carries {A} (f : format A) (a : A) (httpRes : http_response) : Prop :=
  ∃ j res, Body httpRes = Some j ∧ replies res j ∧ res ≠ JNull ∧ rep f res a.

(** A call returns the value that comes within its attempts. *)
Lemma single_delivers {T} (Do : http_request → T → gores http_response * T) draws request_url c
    {A} (f : format A) `{!FormatLaws f} msg body req k t t' a :
  makeRequest request_url c "POST" "" (Some (enc_request body)) = Val req → retry_ok c →
  (k < max_attempts (Attempts (cl_Retry c)))%nat → delivers Do refuses_call (carries f a) req k t t' →
  single Do draws request_url c f msg body t = (Val a, t').
Proof.
  intros Hreq Hok Hk Hd. unfold single, CallRPC.
  erewrite retried_delivers; [done|exact Hreq| | |done|done|exact Hd].
  - intros httpRes Hr. by apply rpc_react_refuses.
  - intros httpRes (j & res & Hb & Hj & Hn & Ha). by apply (rpc_react_replies f _ res j).
Qed.

(** ** Consequences *)

(** A URL that does not parse is noticed at the first call, by a panic. *)
Lemma NewClient_bad_url {T} (Do : http_request → T → gores http_response * T) parse request_url r method path body t :
  parse (URL (rpc_Coin r)) = None → exchange Do request_url (NewClient parse r) method path body t = (Panic NilDereference, t).
Proof. intros H. unfold exchange, makeRequest. cbn. by rewrite H. Qed.

(** The HTTP status is not looked at: an object without result and error, as a
    proxy may send with a failure, counts as success and leaves the zero value. *)
Lemma rpc_react_ignores_status {A} (d : decoder A) status v :
  rpc_react d {| StatusCode := status; Text := Some (of_bytes (print (JObject [("message", JString "unauthorized")]))) |} v
    = (Val tt, v).
Proof. reflexivity. Qed.

(** Requests are numbered 0: nothing tells the responses of a batch apart. *)
Lemma requests_not_numbered m ps m' ps' : ID (NewRPCRequest m ps) = ID (NewRPCRequest m' ps').
Proof. reflexivity. Qed.

(** A result of the wrong type fails the attempt but leaves in the variable what
    was decoded before, where the next attempt finds it. *)
Lemma batch_keeps_partial :
  batch_react (dec (list_fmt (list_fmt string_fmt)))
    {| StatusCode := 200;
       Text := Some (of_bytes (print (JArray [JObject [("result", JArray [JString "old"; JNumber "1"])]]))) |} []
  = (Err (EWrap "failed to decode results" (ENew "type")), [["old"; ""]]).
Proof. reflexivity. Qed.
