(* ===== verification/Eth.v ===== *)
(** * Eth: the client of an Ethereum node

    src/V2/pkg/blockchain/eth/eth.go over the JSON-RPC client of [Rpc].  The hash
    function (golang.org/x/crypto/sha3) is a parameter.  A [json.RawMessage] is
    the value its text stands for, or nothing when it is empty. *)

From stdpp Require Import base list strings numbers.
From Stdlib Require Import ZArith Lia.
From S2P Require Import Prelude GoStrings Config Retry Json Rpc.

Local Open Scope string_scope.
Local Open Scope Z_scope.
Local Open Scope list_scope.

(** [strings.Replace(s, "0x", "", 1)] on bytes *)
Fixpoint remove_0x (l : list Z) : list Z :=
  match l with
  | a :: l' =>
      match l' with
      | b :: l'' => if (a =? 48) && (b =? 120) then l'' else a :: remove_0x l'
      | [] => l
      end
  | [] => []
  end.

Definition without_0x (s : string) : string := of_bytes (remove_0x (bytes s)).

(** [(big.Int).SetString(s, 16)]: a sign and digits *)
Fixpoint hex_value (acc : Z) (l : list Z) : option Z :=
  match l with
  | [] => Some acc
  | c :: l => match from_hex_char c with Some d => hex_value (16 * acc + d) l | None => None end
  end.

Definition SetString16 (s : string) : option Z :=
  let '(neg, l) :=
    match bytes s with
    | c :: l' => if c =? 45 then (true, l') else if c =? 43 then (false, l') else (false, bytes s)
    | [] => (false, [])
    end in
  match l with
  | [] => None
  | _ => (fun z => if neg then - z else z) <$> hex_value 0 l
  end.

(** A [json.RawMessage] variable *)
Definition raw_fmt : format (option json) :=
  {| zero := None; dec := fun _ j => (Some j, true); rep j o := o = Some j |}.

(** [struct { Number string `json:"number"` }] *)
Definition number_names : list string := ["number"].
Definition block_number_fmt : format string :=
  struct_fmt number_names "" (fun old kvs => dec_field number_names "number" dec_string old kvs)
    (fun kvs s => member kvs "number" string_fmt s).

Section eth.
Context {T : Type} (Do : http_request → T → gores http_response * T) (draws : T → nat → Z)
  (request_url : string → string → string → gores string) (client : Client).
(** The hash, and the value that a [big.Int] has after a failed [SetString],
    which the library leaves undefined *)
Context (keccak256 : list Z → list Z) (undefined : string → Z).

(** [i.SetString(strings.Replace(result, "0x", "", 1), 16)], whose result is not
    looked at *)
Definition big_of (result : string) : Z :=
  match SetString16 (without_0x result) with Some z => z | None => undefined result end.

(** [func (b *Blockchain) GetParityInfo() ( *json.RawMessage, error)] *)
Definition GetParityInfo : T → gores (option json) * T :=
  single Do draws request_url client raw_fmt "error calling GetInfo" (NewRPCRequest "parity_versionInfo" []).

(** The call with a string result *)
Definition string_call (msg method : string) (params : list json) : T → gores string * T :=
  single Do draws request_url client string_fmt msg (NewRPCRequest method params).

(** [func (b *Blockchain) GetLatestBalance(address string) ( *big.Int, error)] *)
Definition GetLatestBalance (address : string) (t : T) : gores Z * T :=
  let '(r, t) := string_call "error calling GetLatestBalance" "eth_getBalance" [JString address; JString "latest"] t in
  (result ← r; Val (big_of result), t).

(** [func (b *Blockchain) GetLatestBlockNumber() ( *string, error)] *)
Definition GetLatestBlockNumber : T → gores string * T :=
  single Do draws request_url client block_number_fmt "error calling GetLatestBlockNumber"
    (NewRPCRequest "eth_getBlockByNumber" [JString "latest"; JBool false]).

(** [func (b *Blockchain) GetLatestTransactionCount(address string) ( *string, error)] *)
Definition GetLatestTransactionCount (address : string) : T → gores string * T :=
  string_call "error calling GetLatestTransactionCount" "eth_getTransactionCount" [JString address; JString "latest"].

(** [func (b *Blockchain) GetGasPrice() ( *string, error)] *)
Definition GetGasPrice : T → gores string * T := string_call "error calling GetGasPrice" "eth_gasPrice" [].

(** The data of the contract call *)
Definition call_data (addressBytes : list Z) : gores string :=
  let sum := keccak256 (bytes "balanceOf(address)") in
  if (Z.of_nat (length sum) <? 4) then Panic SliceBounds
  else
    let funcSelector := EncodeToString (take 4 sum) in
    let addressParam := EncodeToString (replicate 12 0 ++ addressBytes) in
    Val ("0x" ++ funcSelector ++ addressParam)%string.

(** [func (b *Blockchain) GetLatestTokenBalanceOfAddress(contractAddress, address string) ( *big.Int, error)] *)
Definition GetLatestTokenBalanceOfAddress (contractAddress address : string) (t : T) : gores Z * T :=
  match DecodeString (without_0x address) with
  | None => (Err (EWrap "error decoding string: %s" (ENew "encoding/hex")), t)
  | Some addressBytes =>
      match call_data addressBytes with
      | Val data =>
          let payload := JObject [("data", JString data); ("to", JString contractAddress)] in
          let '(r, t) := string_call "error calling GetLatestTokenBalanceOfAddress" "eth_call" [payload; JString "latest"] t in
          (result ← r; Val (big_of result), t)
      | Err e => (Err e, t)
      | Panic p => (Panic p, t)
      | Exit e => (Exit e, t)
      end
  end.

(** [func (b *Blockchain) GetTransactionByHash(hash string) ( *json.RawMessage, error)] *)
Definition GetTransactionByHash (hash : string) : T → gores (option json) * T :=
  single Do draws request_url client raw_fmt "error calling GetTransactionByHash"
    (NewRPCRequest "eth_getTransactionByHash" [JString hash]).

(** [func (b *Blockchain) SendRawTransaction(rawTx string) ( *string, error)] *)
Definition eth_SendRawTransaction (rawTx : string) : T → gores string * T :=
  let rawTx := if HasPrefix rawTx "0x" then rawTx else ("0x" ++ rawTx)%string in
  string_call "error calling SendRawTransaction" "eth_sendRawTransaction" [JString rawTx].

End eth.

(** ** Lemmas *)

Lemma remove_0x_prefix l : remove_0x (48 :: 120 :: l) = l.
Proof. done. Qed.

(** The digits after the prefix *)
Lemma without_0x_prefix s : without_0x ("0x" ++ s)%string = s.
Proof. unfold without_0x. rewrite bytes_app. change (bytes "0x") with [48; 120]. cbn [app]. by rewrite remove_0x_prefix, of_bytes_bytes. Qed.

(** Digits without a sign *)
Lemma SetString16_digits s v :
  s ≠ "" → hex_value 0 (bytes s) = Some v → SetString16 s = Some v.
Proof.
  intros Hne Hv. unfold SetString16. destruct (bytes s) as [|c l] eqn:Hb.
  { apply (f_equal of_bytes) in Hb. by rewrite of_bytes_bytes in Hb. }
  assert (Hc : is_Some (from_hex_char c)) by (cbn in Hv; destruct (from_hex_char c); [by eexists|done]).
  destruct (Z.eqb_spec c 45) as [->|]; [by destruct Hc|]. destruct (Z.eqb_spec c 43) as [->|]; [by destruct Hc|].
  by rewrite Hv.
Qed.

Lemma EncodeToString_app l k : EncodeToString (l ++ k) = (EncodeToString l ++ EncodeToString k)%string.
Proof. unfold EncodeToString. by rewrite flat_map_app, of_bytes_app. Qed.

Section calls.
Context {T : Type} (Do : http_request → T → gores http_response * T) (draws : T → nat → Z)
  (request_url : string → string → string → gores string) (client : Client).
Context (keccak256 : list Z → list Z) (undefined : string → Z).

(** The balance is the number the node answers with. *)
Lemma GetLatestBalance_value address req k t t' s v :
  makeRequest request_url client "POST" ""
    (Some (enc_request (NewRPCRequest "eth_getBalance" [JString address; JString "latest"]))) = Val req →
  retry_ok client → (k < max_attempts (Attempts (cl_Retry client)))%nat →
  delivers Do refuses_call (carries string_fmt ("0x" ++ s)%string) req k t t' →
  s ≠ "" → hex_value 0 (bytes s) = Some v →
  GetLatestBalance Do draws request_url client undefined address t = (Val v, t').
Proof.
  intros Hreq Hok Hk Hd Hne Hv. unfold GetLatestBalance, string_call.
  erewrite (single_delivers Do draws request_url client string_fmt); [|done..].
  cbn. unfold big_of. by rewrite without_0x_prefix, (SetString16_digits s v).
Qed.

(** The data of the contract call is the selector and the address, padded to 32
    bytes. *)
Lemma call_data_decodes a :
  (4 ≤ length (keccak256 (bytes "balanceOf(address)")))%nat →
  Forall is_byte (keccak256 (bytes "balanceOf(address)")) → Forall is_byte a →
  ∃ data, call_data keccak256 a = Val ("0x" ++ data)%string ∧
    DecodeString data = Some (take 4 (keccak256 (bytes "balanceOf(address)")) ++ replicate 12 0 ++ a).
Proof.
  intros Hlen Hk Ha. unfold call_data. rewrite (proj2 (Z.ltb_ge _ 4)) by lia. eexists. split; [done|].
  rewrite <-EncodeToString_app. apply DecodeString_EncodeToString. apply list.Forall_app. split; [by apply Forall_take|].
  apply list.Forall_app. split; [|done]. apply Forall_replicate. done.
Qed.

(** A transaction is sent with one prefix, whether it came with it or not. *)
Lemma SendRawTransaction_prefix s :
  HasPrefix s "0x" = false →
  eth_SendRawTransaction Do draws request_url client s
    = eth_SendRawTransaction Do draws request_url client ("0x" ++ s)%string.
Proof. intros H. unfold eth_SendRawTransaction. by rewrite H, (HasPrefix_app "0x" s). Qed.

End calls.

(** A contract that does not exist answers "0x", which is no number: the balance
    is undefined and no error is reported. *)
Lemma balance_of_nothing undefined : big_of undefined "0x" = undefined "0x".
Proof. done. Qed.
