(* ===== verification/Etherscan.v ===== *)
(** * Etherscan: the API in front of an Ethereum node

    src/V2/pkg/api/etherscan/etherscan.go.  A handler reads parameters of the
    query, calls the client of [Eth] and writes one response. *)

From stdpp Require Import base list strings numbers.
From Stdlib Require Import ZArith Lia.
From S2P Require Import Prelude GoStrings Json JsonText Rpc Eth.

Local Open Scope string_scope.
Local Open Scope Z_scope.
Local Open Scope list_scope.

(** [r.URL.Query()]: the first value of each parameter *)
Definition query : Type := list (string * string).

(** [Query().Get(key)] *)
Definition get (q : query) (key : string) : string :=
  match find (fun kv => String.eqb kv.1 key) q with Some kv => kv.2 | None => "" end.

(** What is written: an error text with its code, or a [response] in JSON *)
Inductive reply :=
| Failure (code : Z) (msg : string)
| Refused (code : Z) (e : gerror)
| Respond (result : json).

(** [func makeResponse(result interface{}) *response] *)
Definition makeResponse (result : json) : json :=
  JObject [("status", JString "1"); ("message", JString "OK"); ("result", result)].

(** [render.Respond(w, r, makeResponse(res))] for a string and for a
    [json.RawMessage]; an empty one cannot be encoded *)
Definition respond_string (s : string) : reply := Respond (makeResponse (JString s)).
Definition respond_raw (m : option json) : reply :=
  match m with
  | Some j => Respond (makeResponse j)
  | None => Failure 500 "json: error calling MarshalJSON for type *json.RawMessage: unexpected end of JSON input"
  end.

Section etherscan.
Context {T : Type} (Do : http_request → T → gores http_response * T) (draws : T → nat → Z)
  (request_url : string → string → string → gores string) (bc : Client).
Context (keccak256 : list Z → list Z) (undefined : string → Z).

(** The end of a handler: an error of the client is reported with 404 *)
Definition finish {A} (write : A → reply) (r : gores A * T) : gores reply * T :=
  match r with
  | (Val a, t) => (Val (write a), t)
  | (Err e, t) => (Val (Refused 404 e), t)
  | (Panic p, t) => (Panic p, t)
  | (Exit e, t) => (Exit e, t)
  end.

(** A name between quotes *)
Definition quoted (name : string) : string := of_bytes ([34] ++ bytes name ++ [34]).

(** A parameter that must be given *)
Definition required (value name : string) (k : T → gores reply * T) (t : T) : gores reply * T :=
  if String.eqb value "" then (Val (Failure 400 (quoted name ++ " parameter required")%string), t) else k t.

(** [func (e *EtherscanServer) Info] *)
Definition Info (t : T) : gores reply * T := finish respond_raw (GetParityInfo Do draws request_url bc t).

(** [func (e *EtherscanServer) TokenBalance]; the second check is of [address]
    again *)
Definition TokenBalance (q : query) : T → gores reply * T :=
  let address := get q "address" in
  let contractAddress := get q "contractaddress" in
  required address "address" (required address "address" (fun t =>
    finish (fun i => respond_string (Itoa i))
      (GetLatestTokenBalanceOfAddress Do draws request_url bc keccak256 undefined contractAddress address t))).

(** [func (e *EtherscanServer) Balance] *)
Definition Balance (q : query) : T → gores reply * T :=
  let address := get q "address" in
  required address "address" (fun t =>
    finish (fun i => respond_string (Itoa i)) (GetLatestBalance Do draws request_url bc undefined address t)).

(** [func (e *EtherscanServer) BlockNumber] *)
Definition BlockNumber (t : T) : gores reply * T :=
  finish respond_string (GetLatestBlockNumber Do draws request_url bc t).

(** [func (e *EtherscanServer) GasPrice] *)
Definition GasPrice (t : T) : gores reply * T := finish respond_string (GetGasPrice Do draws request_url bc t).

(** [func (e *EtherscanServer) TransactionCount] *)
Definition TransactionCount (q : query) : T → gores reply * T :=
  let address := get q "address" in
  required address "address" (fun t =>
    finish respond_string (GetLatestTransactionCount Do draws request_url bc address t)).

(** [func (e *EtherscanServer) TransactionByHash] *)
Definition TransactionByHash (q : query) : T → gores reply * T :=
  let hash := get q "hash" in
  required hash "hash" (fun t => finish respond_raw (GetTransactionByHash Do draws request_url bc hash t)).

(** [func (e *EtherscanServer) SendRawTransaction] *)
Definition SendRawTransaction (q : query) : T → gores reply * T :=
  let rawTx := get q "hex" in
  required rawTx "hex" (fun t =>
    match DecodeString (without_0x rawTx) with
    | None => (Val (Failure 400 "encoding/hex"), t)
    | Some _ => finish respond_string (eth_SendRawTransaction Do draws request_url bc rawTx t)
    end).

(** [func (e *EtherscanServer) ActionRouter] *)
Definition ActionRouter (q : query) (t : T) : gores reply * T :=
  let action := get q "action" in
  if String.eqb action "tokenbalance" then TokenBalance q t
  else if String.eqb action "balance" then Balance q t
  else if String.eqb action "eth_blockNumber" then BlockNumber t
  else if String.eqb action "eth_gasPrice" then GasPrice t
  else if String.eqb action "eth_getTransactionCount" then TransactionCount q t
  else if String.eqb action "eth_getTransactionByHash" then TransactionByHash q t
  else if String.eqb action "eth_sendRawTransaction" then SendRawTransaction q t
  else (Val (Failure 404 "Action not supported"), t).

(** ** Lemmas *)

(** Nothing is sent to the node when a required parameter is missing or no
    action matches. *)
Lemma ActionRouter_missing q t :
  get q "action" ∈ ["tokenbalance"; "balance"; "eth_getTransactionCount"] → get q "address" = "" →
  ActionRouter q t = (Val (Failure 400 (quoted "address" ++ " parameter required")%string), t).
Proof.
  intros Ha Hq. unfold ActionRouter, TokenBalance, Balance, TransactionCount. rewrite Hq.
  repeat (apply elem_of_cons in Ha as [->|Ha]; [done|]). by apply elem_of_nil in Ha.
Qed.

(** The balance of an address, from the query to the response *)
Lemma Balance_responds address req k t t' s v :
  address ≠ "" →
  makeRequest request_url bc "POST" ""
    (Some (enc_request (NewRPCRequest "eth_getBalance" [JString address; JString "latest"]))) = Val req →
  retry_ok bc → (k < Retry.max_attempts (Config.Attempts (cl_Retry bc)))%nat →
  delivers Do refuses_call (carries string_fmt ("0x" ++ s)%string) req k t t' →
  s ≠ "" → hex_value 0 (bytes s) = Some v →
  ActionRouter [("action", "balance"); ("address", address)] t = (Val (respond_string (Itoa v)), t').
Proof.
  intros Ha Hreq Hok Hk Hd Hne Hv. unfold ActionRouter, Balance, required. cbn [get find fst snd].
  change (get [("action", "balance"); ("address", address)] "action") with "balance".
  change (get [("action", "balance"); ("address", address)] "address") with address. cbn.
  rewrite (proj2 (String.eqb_neq _ _) Ha).
  by erewrite GetLatestBalance_value.
Qed.

(** ** Consequences *)

(** A missing contract address is not refused: the call goes to the address
    without a name. *)
Lemma TokenBalance_without_contract address t :
  address ≠ "" →
  TokenBalance [("address", address)] t
    = finish (fun i => respond_string (Itoa i))
        (GetLatestTokenBalanceOfAddress Do draws request_url bc keccak256 undefined "" address t).
Proof.
  intros Ha. unfold TokenBalance, required. change (get [("address", address)] "address") with address.
  by rewrite (proj2 (String.eqb_neq _ _) Ha).
Qed.

(** The check removes the prefix wherever it stands: what passes it need not be
    hexadecimal. *)
Lemma SendRawTransaction_accepts t :
  SendRawTransaction [("hex", "10x2")] t
    = finish respond_string (string_call Do draws request_url bc "error calling SendRawTransaction"
        "eth_sendRawTransaction" [JString "0x10x2"] t) ∧
  DecodeString "10x2" = None.
Proof. done. Qed.

End etherscan.

(** For an unknown transaction a node answers null; the response is an error of
    the encoder. *)
Lemma TransactionByHash_unknown :
  let node (req : http_request) (t : unit) :=
    (Val {| StatusCode := 200;
            Text := Some (of_bytes (print (JObject [("result", JNull); ("error", JNull); ("id", JNumber "0")]))) |}, t) in
  TransactionByHash node (fun _ _ => 0) (fun base _ _ => Val base)
    {| BaseURL := Some "http://node"; cl_User := ""; cl_Password := "";
       cl_Retry := {| Config.Attempts := 1; Config.Sleep := 1 |}; ApiKey := "" |} [("hash", "0x00")] tt
  = (Val (respond_raw None), tt).
Proof. reflexivity. Qed.
