(* ===== verification/Utxo.v ===== *)
(** * Utxo: the data of a UTXO chain

    The types of src/V2/pkg/blockchain/utxo/types.go that the indexer, the
    store and the validators exchange.  A [json.Number] is its literal text,
    as in Go. *)

From stdpp Require Import base list strings numbers.
From Stdlib Require Import ZArith Lia.
From S2P Require Import Prelude.

Local Open Scope Z_scope.

(** [type BlockHeader struct] *)
Record BlockHeader := {
  Hash : string;
  Height : Z;
  Time : Z;
  MedianTime : Z;
  Nonce : Z;
  PrevHash : string;
  NextHash : string;
  Bits : string;
  Difficulty : string;
  Chainwork : string;
  Version : Z;
  VersionHex : string;
  MerkleRoot : string;
  Size : Z;
  StrippedSize : Z;
  Weight : Z;
  TxCount : Z;
  IsOrphan : bool;
}.

(** [type Vin struct] *)
Record Vin := {
  vin_TxID : string;
  vin_Vout : Z;
  vin_Asm : string;
  vin_Hex : string;
  vin_TxInWitness : option (list string);  (** [None] is a nil slice *)
  vin_Sequence : Z;
  vin_Coinbase : string;
}.

(** [type Vout struct] *)
Record Vout := {
  vout_Value : string;
  vout_N : Z;
  vout_Asm : string;
  vout_Hex : string;
  vout_ReqSigs : Z;
  vout_Type : string;
  vout_Addresses : list string;
}.

(** [type Tx struct] *)
Record Tx := {
  TxID : string;
  tx_Hash : string;
  tx_Version : Z;
  tx_Size : Z;
  VSize : Z;
  tx_Weight : Z;
  Locktime : string;
  Vins : list Vin;
  Vouts : list Vout;
  Hex : string;
}.

(** [type Block struct]: a header and its transactions *)
Record Block := {
  header : BlockHeader;
  Txs : list Tx;
}.

(** [type BlockNormal struct]: a header and transaction ids *)
Record BlockNormal := {
  normal_header : BlockHeader;
  normal_Txs : list string;
}.

(** [type ChainInfo struct] *)
Record ChainInfo := {
  ci_Chain : string;
  ci_Blocks : Z;
  ci_Headers : Z;
  ci_BestBlockHash : string;
  ci_Difficulty : string;
  ci_SizeOnDisk : Z;
  ci_Version : string;
  ci_Subversion : string;
  ci_ProtocolVersion : string;
  ci_Timeoffset : Z;
  ci_Warnings : string;
}.

(** [type BlockchainInfo struct] *)
Record BlockchainInfo := {
  bi_Chain : string;
  bi_Blocks : Z;
  bi_Headers : Z;
  bi_BestBlockHash : string;
  bi_Difficulty : string;
  bi_SizeOnDisk : Z;
  bi_Warnings : string;
}.

(** [type NetworkInfo struct] *)
Record NetworkInfo := {
  ni_Version : string;
  ni_Subversion : string;
  ni_ProtocolVersion : string;
  ni_Timeoffset : Z;
  ni_Warnings : string;
}.

(** [type ChainTip struct] *)
Record ChainTip := {
  tip_Height : Z;
  tip_Hash : string;
  tip_Branchlen : string;
  tip_Status : string;
}.

(** [type MempoolTx struct] *)
Record MempoolTx := {
  mtx_Hash : string;
  Fails : Z;
}.

#[global] Instance BlockHeader_eq_dec : EqDecision BlockHeader.
Proof. solve_decision. Defined.
#[global] Instance Vin_eq_dec : EqDecision Vin.
Proof. solve_decision. Defined.
#[global] Instance Vout_eq_dec : EqDecision Vout.
Proof. solve_decision. Defined.
#[global] Instance Tx_eq_dec : EqDecision Tx.
Proof. solve_decision. Defined.
#[global] Instance Block_eq_dec : EqDecision Block.
Proof. solve_decision. Defined.

(** Assignments to the two fields the store changes. *)
Definition set_next (h : BlockHeader) (next : string) : BlockHeader :=
  {| Hash := Hash h; Height := Height h; Time := Time h; MedianTime := MedianTime h; Nonce := Nonce h;
     PrevHash := PrevHash h; NextHash := next; Bits := Bits h; Difficulty := Difficulty h;
     Chainwork := Chainwork h; Version := Version h; VersionHex := VersionHex h; MerkleRoot := MerkleRoot h;
     Size := Size h; StrippedSize := StrippedSize h; Weight := Weight h; TxCount := TxCount h;
     IsOrphan := IsOrphan h |}.

Definition set_orphan (h : BlockHeader) (orphan : bool) : BlockHeader :=
  {| Hash := Hash h; Height := Height h; Time := Time h; MedianTime := MedianTime h; Nonce := Nonce h;
     PrevHash := PrevHash h; NextHash := NextHash h; Bits := Bits h; Difficulty := Difficulty h;
     Chainwork := Chainwork h; Version := Version h; VersionHex := VersionHex h; MerkleRoot := MerkleRoot h;
     Size := Size h; StrippedSize := StrippedSize h; Weight := Weight h; TxCount := TxCount h;
     IsOrphan := orphan |}.

(** [utxo.BlockHeader{}] *)
Definition zero_header : BlockHeader :=
  {| Hash := ""; Height := 0; Time := 0; MedianTime := 0; Nonce := 0; PrevHash := ""; NextHash := ""; Bits := "";
     Difficulty := ""; Chainwork := ""; Version := 0; VersionHex := ""; MerkleRoot := ""; Size := 0;
     StrippedSize := 0; Weight := 0; TxCount := 0; IsOrphan := false |}.
