(* ===== verification/NodeJson.v ===== *)
(** * NodeJson: the JSON of the node's data

    The struct tags of src/V2/pkg/blockchain/utxo/types.go: how each type is
    decoded from the JSON of a node, and which JSON stands for which value.
    Members may come in any order, others may be present, and absent ones leave
    zero values. *)

From stdpp Require Import base list strings numbers.
From Stdlib Require Import ZArith Lia String.
From S2P Require Import Prelude GoStrings Json Utxo.

Local Open Scope string_scope.
Local Open Scope Z_scope.
Local Open Scope list_scope.

(** The decoder of a struct finds every member. *)
Ltac struct_dec d r :=
  let kvs := fresh "kvs" in let x := fresh "x" in let Hp := fresh "Hp" in let Hr := fresh "Hr" in
  intros kvs x Hp Hr; unfold r in Hr; destruct_and? Hr;
  unfold d;
  repeat match goal with
  | H : member kvs ?k ?f ?a |- context [dec_field ?names ?k ?d ?z kvs] =>
      rewrite (dec_field_member (f := f) names k d z kvs a eq_refl eq_refl Hp ltac:(in_names) H); clear H
  end;
  destruct x; reflexivity.

(** Every member keeps its meaning through an [interface{}]. *)
Ltac struct_canon r :=
  let kvs := fresh "kvs" in let x := fresh "x" in let Hp := fresh "Hp" in let Hr := fresh "Hr" in
  intros kvs x Hp Hr; unfold r in *; destruct_and? Hr; split_and?; by eapply member_canon.

(** *** Block headers *)

Definition header_names : list string :=
  ["hash"; "height"; "time"; "mediantime"; "nonce"; "previousblockhash"; "nextblockhash"; "bits"; "difficulty";
  "chainwork"; "version"; "versionHex"; "merkleroot"; "size"; "strippedsize"; "weight"; "nTx"; "isOrphan"].

(** The fields of a [BlockHeader] embedded in a struct with the names [names] *)
Definition dec_header (names : list string) (old : BlockHeader) (kvs : members) : BlockHeader * bool :=
  ap (ap (ap (ap (ap (ap (ap (ap (ap (ap (ap (ap (ap (ap (ap (ap (ap (ap (Build_BlockHeader, true)
    (dec_field names "hash" dec_string (Hash old) kvs))
    (dec_field names "height" dec_int (Height old) kvs))
    (dec_field names "time" dec_int (Time old) kvs))
    (dec_field names "mediantime" dec_int (MedianTime old) kvs))
    (dec_field names "nonce" dec_int (Nonce old) kvs))
    (dec_field names "previousblockhash" dec_string (PrevHash old) kvs))
    (dec_field names "nextblockhash" dec_string (NextHash old) kvs))
    (dec_field names "bits" dec_string (Bits old) kvs))
    (dec_field names "difficulty" dec_number (Difficulty old) kvs))
    (dec_field names "chainwork" dec_string (Chainwork old) kvs))
    (dec_field names "version" dec_int (Version old) kvs))
    (dec_field names "versionHex" dec_string (VersionHex old) kvs))
    (dec_field names "merkleroot" dec_string (MerkleRoot old) kvs))
    (dec_field names "size" dec_int (Size old) kvs))
    (dec_field names "strippedsize" dec_int (StrippedSize old) kvs))
    (dec_field names "weight" dec_int (Weight old) kvs))
    (dec_field names "nTx" dec_int (TxCount old) kvs))
    (dec_field names "isOrphan" dec_bool (IsOrphan old) kvs).

Definition rep_header (kvs : members) (x : BlockHeader) : Prop :=
  member kvs "hash" string_fmt (Hash x) ∧ member kvs "height" int_fmt (Height x) ∧
  member kvs "time" int_fmt (Time x) ∧ member kvs "mediantime" int_fmt (MedianTime x) ∧
  member kvs "nonce" int_fmt (Nonce x) ∧ member kvs "previousblockhash" string_fmt (PrevHash x) ∧
  member kvs "nextblockhash" string_fmt (NextHash x) ∧ member kvs "bits" string_fmt (Bits x) ∧
  member kvs "difficulty" number_fmt (Difficulty x) ∧ member kvs "chainwork" string_fmt (Chainwork x) ∧
  member kvs "version" int_fmt (Version x) ∧ member kvs "versionHex" string_fmt (VersionHex x) ∧
  member kvs "merkleroot" string_fmt (MerkleRoot x) ∧ member kvs "size" int_fmt (Size x) ∧
  member kvs "strippedsize" int_fmt (StrippedSize x) ∧ member kvs "weight" int_fmt (Weight x) ∧
  member kvs "nTx" int_fmt (TxCount x) ∧ member kvs "isOrphan" bool_fmt (IsOrphan x).

(** *** Inputs *)

Definition sig_names : list string := ["asm"; "hex"].

(** The fields of a [ScriptSig] *)
Definition dec_sig (old : string * string) (kvs : members) : string * string * bool :=
  ap (ap (pair, true)
    (dec_field sig_names "asm" dec_string (fst old) kvs))
    (dec_field sig_names "hex" dec_string (snd old) kvs).

Definition rep_sig (kvs : members) (x : string * string) : Prop :=
  member kvs "asm" string_fmt (fst x) ∧ member kvs "hex" string_fmt (snd x).

Definition zero_sig : string * string := ("", "").

Definition sig_fmt : format (string * string) := struct_fmt sig_names zero_sig dec_sig rep_sig.

#[export] Instance sig_laws : FormatLaws sig_fmt.
Proof. apply struct_laws; [struct_dec dec_sig rep_sig|struct_canon rep_sig]. Qed.

Definition make_vin (txid : string) (vout : Z) (sig : string * string) (witness : option (list string))
    (sequence : Z) (coinbase : string) : Vin :=
  {| vin_TxID := txid; vin_Vout := vout; vin_Asm := sig.1; vin_Hex := sig.2; vin_TxInWitness := witness;
     vin_Sequence := sequence; vin_Coinbase := coinbase |}.

Definition vin_names : list string := ["txid"; "vout"; "scriptSig"; "txinwitness"; "sequence"; "coinbase"].

(** The fields of a [Vin] *)
Definition dec_vin (old : Vin) (kvs : members) : Vin * bool :=
  ap (ap (ap (ap (ap (ap (make_vin, true)
    (dec_field vin_names "txid" dec_string (vin_TxID old) kvs))
    (dec_field vin_names "vout" dec_int (vin_Vout old) kvs))
    (dec_field vin_names "scriptSig" (dec sig_fmt) (vin_Asm old, vin_Hex old) kvs))
    (dec_field vin_names "txinwitness" (dec (slice_fmt string_fmt)) (vin_TxInWitness old) kvs))
    (dec_field vin_names "sequence" dec_int (vin_Sequence old) kvs))
    (dec_field vin_names "coinbase" dec_string (vin_Coinbase old) kvs).

Definition rep_vin (kvs : members) (x : Vin) : Prop :=
  member kvs "txid" string_fmt (vin_TxID x) ∧ member kvs "vout" int_fmt (vin_Vout x) ∧
  member kvs "scriptSig" sig_fmt (vin_Asm x, vin_Hex x) ∧
  member kvs "txinwitness" (slice_fmt string_fmt) (vin_TxInWitness x) ∧
  member kvs "sequence" int_fmt (vin_Sequence x) ∧ member kvs "coinbase" string_fmt (vin_Coinbase x).

Definition zero_vin : Vin := make_vin "" 0 zero_sig None 0 "".

Definition vin_fmt : format Vin := struct_fmt vin_names zero_vin dec_vin rep_vin.

#[export] Instance vin_laws : FormatLaws vin_fmt.
Proof. apply struct_laws; [struct_dec dec_vin rep_vin|struct_canon rep_vin]. Qed.

(** *** Outputs *)

(** [ScriptPubKey] *)
Record script_pubkey := { spk_Asm : string; spk_Hex : string; ReqSigs : Z; Type_ : string; Addresses : list string }.

Definition pubkey_names : list string := ["asm"; "hex"; "reqSigs"; "type"; "addresses"].

(** The fields of a [ScriptPubKey] *)
Definition dec_pubkey (old : script_pubkey) (kvs : members) : script_pubkey * bool :=
  ap (ap (ap (ap (ap (Build_script_pubkey, true)
    (dec_field pubkey_names "asm" dec_string (spk_Asm old) kvs))
    (dec_field pubkey_names "hex" dec_string (spk_Hex old) kvs))
    (dec_field pubkey_names "reqSigs" dec_int (ReqSigs old) kvs))
    (dec_field pubkey_names "type" dec_string (Type_ old) kvs))
    (dec_field pubkey_names "addresses" (dec (list_fmt string_fmt)) (Addresses old) kvs).

Definition rep_pubkey (kvs : members) (x : script_pubkey) : Prop :=
  member kvs "asm" string_fmt (spk_Asm x) ∧ member kvs "hex" string_fmt (spk_Hex x) ∧
  member kvs "reqSigs" int_fmt (ReqSigs x) ∧ member kvs "type" string_fmt (Type_ x) ∧
  member kvs "addresses" (list_fmt string_fmt) (Addresses x).

Definition zero_pubkey : script_pubkey := Build_script_pubkey "" "" 0 "" [].

Definition pubkey_fmt : format script_pubkey := struct_fmt pubkey_names zero_pubkey dec_pubkey rep_pubkey.

#[export] Instance pubkey_laws : FormatLaws pubkey_fmt.
Proof. apply struct_laws; [struct_dec dec_pubkey rep_pubkey|struct_canon rep_pubkey]. Qed.

Definition make_vout (value : string) (n : Z) (s : script_pubkey) : Vout :=
  {| vout_Value := value; vout_N := n; vout_Asm := spk_Asm s; vout_Hex := spk_Hex s;
     vout_ReqSigs := ReqSigs s; vout_Type := Type_ s; vout_Addresses := Addresses s |}.

Definition vout_pubkey (o : Vout) : script_pubkey :=
  Build_script_pubkey (vout_Asm o) (vout_Hex o) (vout_ReqSigs o) (vout_Type o) (vout_Addresses o).

Definition vout_names : list string := ["value"; "n"; "scriptPubKey"].

(** The fields of a [Vout] *)
Definition dec_vout (old : Vout) (kvs : members) : Vout * bool :=
  ap (ap (ap (make_vout, true)
    (dec_field vout_names "value" dec_number (vout_Value old) kvs))
    (dec_field vout_names "n" dec_int (vout_N old) kvs))
    (dec_field vout_names "scriptPubKey" (dec pubkey_fmt) (vout_pubkey old) kvs).

Definition rep_vout (kvs : members) (x : Vout) : Prop :=
  member kvs "value" number_fmt (vout_Value x) ∧ member kvs "n" int_fmt (vout_N x) ∧
  member kvs "scriptPubKey" pubkey_fmt (vout_pubkey x).

Definition zero_vout : Vout := make_vout "" 0 zero_pubkey.

Definition vout_fmt : format Vout := struct_fmt vout_names zero_vout dec_vout rep_vout.

#[export] Instance vout_laws : FormatLaws vout_fmt.
Proof. apply struct_laws; [struct_dec dec_vout rep_vout|struct_canon rep_vout]. Qed.

(** *** Transactions *)

Definition tx_names : list string :=
  ["txid"; "hash"; "version"; "size"; "vsize"; "weight"; "locktime"; "vin"; "vout"; "hex"].

(** The fields of a [Tx] *)
Definition dec_tx (old : Tx) (kvs : members) : Tx * bool :=
  ap (ap (ap (ap (ap (ap (ap (ap (ap (ap (Build_Tx, true)
    (dec_field tx_names "txid" dec_string (TxID old) kvs))
    (dec_field tx_names "hash" dec_string (tx_Hash old) kvs))
    (dec_field tx_names "version" dec_int (tx_Version old) kvs))
    (dec_field tx_names "size" dec_int (tx_Size old) kvs))
    (dec_field tx_names "vsize" dec_int (VSize old) kvs))
    (dec_field tx_names "weight" dec_int (tx_Weight old) kvs))
    (dec_field tx_names "locktime" dec_number (Locktime old) kvs))
    (dec_field tx_names "vin" (dec (list_fmt vin_fmt)) (Vins old) kvs))
    (dec_field tx_names "vout" (dec (list_fmt vout_fmt)) (Vouts old) kvs))
    (dec_field tx_names "hex" dec_string (Hex old) kvs).

Definition rep_tx (kvs : members) (x : Tx) : Prop :=
  member kvs "txid" string_fmt (TxID x) ∧ member kvs "hash" string_fmt (tx_Hash x) ∧
  member kvs "version" int_fmt (tx_Version x) ∧ member kvs "size" int_fmt (tx_Size x) ∧
  member kvs "vsize" int_fmt (VSize x) ∧ member kvs "weight" int_fmt (tx_Weight x) ∧
  member kvs "locktime" number_fmt (Locktime x) ∧ member kvs "vin" (list_fmt vin_fmt) (Vins x) ∧
  member kvs "vout" (list_fmt vout_fmt) (Vouts x) ∧ member kvs "hex" string_fmt (Hex x).

Definition zero_tx : Tx :=
  {| TxID := ""; tx_Hash := ""; tx_Version := 0; tx_Size := 0; VSize := 0; tx_Weight := 0; Locktime := "";
     Vins := []; Vouts := []; Hex := "" |}.

Definition tx_fmt : format Tx := struct_fmt tx_names zero_tx dec_tx rep_tx.

#[export] Instance tx_laws : FormatLaws tx_fmt.
Proof. apply struct_laws; [struct_dec dec_tx rep_tx|struct_canon rep_tx]. Qed.

(** *** Blocks *)

Definition block_names : list string := header_names ++ ["tx"].

(** The fields of a [Block]: those of the embedded header, then [Txs] *)
Lemma tx_in_names : "tx" ∈ block_names.
Proof. in_names. Qed.

Lemma dec_header_rep kvs h : plain block_names kvs → rep_header kvs h → dec_header block_names zero_header kvs = (h, true).
Proof. revert kvs h. struct_dec dec_header rep_header. Qed.

Lemma rep_header_canon kvs h : plain block_names kvs → rep_header kvs h → rep_header (canon_members kvs) h.
Proof. revert kvs h. struct_canon rep_header. Qed.

Definition dec_block (old : Block) (kvs : members) : Block * bool :=
  ap (ap (Build_Block, true)
    (dec_header block_names (header old) kvs))
    (dec_field block_names "tx" (dec (list_fmt tx_fmt)) (Txs old) kvs).

Definition rep_block (kvs : members) (x : Block) : Prop :=
  rep_header kvs (header x) ∧ member kvs "tx" (list_fmt tx_fmt) (Txs x).

Definition zero_block : Block := Build_Block zero_header [].

Definition block_fmt : format Block := struct_fmt block_names zero_block dec_block rep_block.

#[export] Instance block_laws : FormatLaws block_fmt.
Proof.
  apply struct_laws; intros kvs x Hp [Hh Ht]; unfold dec_block, zero_block; cbn [header Txs].
  - rewrite (dec_header_rep kvs _ Hp Hh).
    rewrite (dec_field_member (f := list_fmt tx_fmt) block_names _ _ [] kvs _ eq_refl eq_refl Hp tx_in_names Ht). by destruct x.
  - split; [by eapply rep_header_canon|by eapply member_canon].
Qed.

(** The fields of a [BlockNormal]: those of the embedded header, then [Txs] *)
Definition dec_normal (old : BlockNormal) (kvs : members) : BlockNormal * bool :=
  ap (ap (Build_BlockNormal, true)
    (dec_header block_names (normal_header old) kvs))
    (dec_field block_names "tx" (dec (list_fmt string_fmt)) (normal_Txs old) kvs).

Definition rep_normal (kvs : members) (x : BlockNormal) : Prop :=
  rep_header kvs (normal_header x) ∧ member kvs "tx" (list_fmt string_fmt) (normal_Txs x).

Definition zero_normal : BlockNormal := Build_BlockNormal zero_header [].

Definition normal_fmt : format BlockNormal := struct_fmt block_names zero_normal dec_normal rep_normal.

#[export] Instance normal_laws : FormatLaws normal_fmt.
Proof.
  apply struct_laws; intros kvs x Hp [Hh Ht]; unfold dec_normal, zero_normal; cbn [normal_header normal_Txs].
  - rewrite (dec_header_rep kvs _ Hp Hh).
    rewrite (dec_field_member (f := list_fmt string_fmt) block_names _ _ [] kvs _ eq_refl eq_refl Hp tx_in_names Ht). by destruct x.
  - split; [by eapply rep_header_canon|by eapply member_canon].
Qed.

(** *** Chain and network *)

Definition chain_info_names : list string :=
  ["chain"; "blocks"; "headers"; "bestblockhash"; "difficulty"; "size_on_disk"; "warnings"].

(** The fields of a [BlockchainInfo] *)
Definition dec_chain_info (old : BlockchainInfo) (kvs : members) : BlockchainInfo * bool :=
  ap (ap (ap (ap (ap (ap (ap (Build_BlockchainInfo, true)
    (dec_field chain_info_names "chain" dec_string (bi_Chain old) kvs))
    (dec_field chain_info_names "blocks" dec_int (bi_Blocks old) kvs))
    (dec_field chain_info_names "headers" dec_int (bi_Headers old) kvs))
    (dec_field chain_info_names "bestblockhash" dec_string (bi_BestBlockHash old) kvs))
    (dec_field chain_info_names "difficulty" dec_number (bi_Difficulty old) kvs))
    (dec_field chain_info_names "size_on_disk" dec_int (bi_SizeOnDisk old) kvs))
    (dec_field chain_info_names "warnings" dec_string (bi_Warnings old) kvs).

Definition rep_chain_info (kvs : members) (x : BlockchainInfo) : Prop :=
  member kvs "chain" string_fmt (bi_Chain x) ∧ member kvs "blocks" int_fmt (bi_Blocks x) ∧
  member kvs "headers" int_fmt (bi_Headers x) ∧ member kvs "bestblockhash" string_fmt (bi_BestBlockHash x) ∧
  member kvs "difficulty" number_fmt (bi_Difficulty x) ∧ member kvs "size_on_disk" int_fmt (bi_SizeOnDisk x) ∧
  member kvs "warnings" string_fmt (bi_Warnings x).

Definition zero_chain_info : BlockchainInfo := Build_BlockchainInfo "" 0 0 "" "" 0 "".

Definition chain_info_fmt : format BlockchainInfo := struct_fmt chain_info_names zero_chain_info dec_chain_info rep_chain_info.

#[export] Instance chain_info_laws : FormatLaws chain_info_fmt.
Proof. apply struct_laws; [struct_dec dec_chain_info rep_chain_info|struct_canon rep_chain_info]. Qed.

Definition network_info_names : list string := ["version"; "subversion"; "protocolversion"; "timeoffset"; "warnings"].

(** The fields of a [NetworkInfo] *)
Definition dec_network_info (old : NetworkInfo) (kvs : members) : NetworkInfo * bool :=
  ap (ap (ap (ap (ap (Build_NetworkInfo, true)
    (dec_field network_info_names "version" dec_number (ni_Version old) kvs))
    (dec_field network_info_names "subversion" dec_string (ni_Subversion old) kvs))
    (dec_field network_info_names "protocolversion" dec_number (ni_ProtocolVersion old) kvs))
    (dec_field network_info_names "timeoffset" dec_int (ni_Timeoffset old) kvs))
    (dec_field network_info_names "warnings" dec_string (ni_Warnings old) kvs).

Definition rep_network_info (kvs : members) (x : NetworkInfo) : Prop :=
  member kvs "version" number_fmt (ni_Version x) ∧ member kvs "subversion" string_fmt (ni_Subversion x) ∧
  member kvs "protocolversion" number_fmt (ni_ProtocolVersion x) ∧
  member kvs "timeoffset" int_fmt (ni_Timeoffset x) ∧ member kvs "warnings" string_fmt (ni_Warnings x).

Definition zero_network_info : NetworkInfo := Build_NetworkInfo "" "" "" 0 "".

Definition network_info_fmt : format NetworkInfo := struct_fmt network_info_names zero_network_info dec_network_info rep_network_info.

#[export] Instance network_info_laws : FormatLaws network_info_fmt.
Proof. apply struct_laws; [struct_dec dec_network_info rep_network_info|struct_canon rep_network_info]. Qed.

Definition tip_names : list string := ["height"; "hash"; "branchlen"; "status"].

(** The fields of a [ChainTip] *)
Definition dec_tip (old : ChainTip) (kvs : members) : ChainTip * bool :=
  ap (ap (ap (ap (Build_ChainTip, true)
    (dec_field tip_names "height" dec_int (tip_Height old) kvs))
    (dec_field tip_names "hash" dec_string (tip_Hash old) kvs))
    (dec_field tip_names "branchlen" dec_number (tip_Branchlen old) kvs))
    (dec_field tip_names "status" dec_string (tip_Status old) kvs).

Definition rep_tip (kvs : members) (x : ChainTip) : Prop :=
  member kvs "height" int_fmt (tip_Height x) ∧ member kvs "hash" string_fmt (tip_Hash x) ∧
  member kvs "branchlen" number_fmt (tip_Branchlen x) ∧ member kvs "status" string_fmt (tip_Status x).

Definition zero_tip : ChainTip := Build_ChainTip 0 "" "" "".

Definition tip_fmt : format ChainTip := struct_fmt tip_names zero_tip dec_tip rep_tip.

#[export] Instance tip_laws : FormatLaws tip_fmt.
Proof. apply struct_laws; [struct_dec dec_tip rep_tip|struct_canon rep_tip]. Qed.

(** ** JSON with every member *)

(** The integers fit the [int]s of Go. *)
Definition vin_ints (x : Vin) : Prop :=
  in_int64 (vin_Vout x) ∧ in_int64 (vin_Sequence x).

Definition vout_ints (x : Vout) : Prop :=
  in_int64 (vout_N x) ∧ in_int64 (vout_ReqSigs x).

Definition tx_ints (x : Tx) : Prop :=
  in_int64 (tx_Version x) ∧ in_int64 (tx_Size x) ∧ in_int64 (VSize x) ∧ in_int64 (tx_Weight x) ∧
  Forall vin_ints (Vins x) ∧ Forall vout_ints (Vouts x).

Definition header_ints (x : BlockHeader) : Prop :=
  in_int64 (Height x) ∧ in_int64 (Time x) ∧ in_int64 (MedianTime x) ∧ in_int64 (Nonce x) ∧
  in_int64 (Version x) ∧ in_int64 (Size x) ∧ in_int64 (StrippedSize x) ∧ in_int64 (Weight x) ∧
  in_int64 (TxCount x).

Definition enc_sig (x : string * string) : members :=
  [("asm", JString (fst x)); ("hex", JString (snd x))].

Definition enc_vin (x : Vin) : members :=
  [("txid", JString (vin_TxID x)); ("vout", JNumber (Itoa (vin_Vout x)));
  ("scriptSig", JObject (enc_sig (vin_Asm x, vin_Hex x)));
  ("txinwitness", match vin_TxInWitness x with None => JNull | Some l => JArray (map JString l) end);
  ("sequence", JNumber (Itoa (vin_Sequence x))); ("coinbase", JString (vin_Coinbase x))].

Definition enc_pubkey (x : script_pubkey) : members :=
  [("asm", JString (spk_Asm x)); ("hex", JString (spk_Hex x)); ("reqSigs", JNumber (Itoa (ReqSigs x)));
  ("type", JString (Type_ x)); ("addresses", JArray (map JString (Addresses x)))].

Definition enc_vout (x : Vout) : members :=
  [("value", JNumber (vout_Value x)); ("n", JNumber (Itoa (vout_N x)));
  ("scriptPubKey", JObject (enc_pubkey (vout_pubkey x)))].

Definition enc_tx (x : Tx) : members :=
  [("txid", JString (TxID x)); ("hash", JString (tx_Hash x)); ("version", JNumber (Itoa (tx_Version x)));
  ("size", JNumber (Itoa (tx_Size x))); ("vsize", JNumber (Itoa (VSize x)));
  ("weight", JNumber (Itoa (tx_Weight x))); ("locktime", JNumber (Locktime x));
  ("vin", JArray (map (fun i => JObject (enc_vin i)) (Vins x)));
  ("vout", JArray (map (fun o => JObject (enc_vout o)) (Vouts x))); ("hex", JString (Hex x))].

Definition enc_header (x : BlockHeader) : members :=
  [("hash", JString (Hash x)); ("height", JNumber (Itoa (Height x))); ("time", JNumber (Itoa (Time x)));
  ("mediantime", JNumber (Itoa (MedianTime x))); ("nonce", JNumber (Itoa (Nonce x)));
  ("previousblockhash", JString (PrevHash x)); ("nextblockhash", JString (NextHash x));
  ("bits", JString (Bits x)); ("difficulty", JNumber (Difficulty x)); ("chainwork", JString (Chainwork x));
  ("version", JNumber (Itoa (Version x))); ("versionHex", JString (VersionHex x));
  ("merkleroot", JString (MerkleRoot x)); ("size", JNumber (Itoa (Size x)));
  ("strippedsize", JNumber (Itoa (StrippedSize x))); ("weight", JNumber (Itoa (Weight x)));
  ("nTx", JNumber (Itoa (TxCount x))); ("isOrphan", JBool (IsOrphan x))].

Definition enc_block (x : Block) : members :=
  enc_header (header x) ++ [("tx", JArray (map (fun t => JObject (enc_tx t)) (Txs x)))].

Definition enc_normal (x : BlockNormal) : members :=
  enc_header (normal_header x) ++ [("tx", JArray (map JString (normal_Txs x)))].

Lemma enc_list {A} (f : format A) (enc : A → json) (l : list A) :
  Forall (fun a => rep f (enc a) a) l → rep (list_fmt f) (JArray (map enc l)) l.
Proof. intros H. left. eexists. split; [done|]. induction H; cbn; by constructor. Qed.

Lemma enc_strings l : rep (list_fmt string_fmt) (JArray (map JString l)) l.
Proof. apply enc_list, list.Forall_forall. intros s _. by left. Qed.

Lemma plain_names names kvs :
  bool_decide (NoDup (map fst kvs) ∧ Forall (.∈ names) (map fst kvs)) → plain names kvs.
Proof. intros [Hd Hk]%bool_decide_unpack. split; [done|]. intros k ?. left. by eapply list.Forall_forall in Hk. Qed.

Lemma member_some {A} kvs name (f : format A) j a : assoc name kvs = Some j → rep f j a → member kvs name f a.
Proof. intros H. unfold member. by rewrite H. Qed.

(** The members of an encoding stand for the fields. *)
Ltac enc_members r :=
  left; eexists; split; [reflexivity|]; split;
    [apply plain_names; vm_compute; exact I|unfold r; split_and?; (eapply member_some; [reflexivity|try by left])].

Lemma enc_sig_rep x : rep sig_fmt (JObject (enc_sig x)) x.
Proof. enc_members rep_sig. Qed.

Lemma enc_vin_rep x : vin_ints x → rep vin_fmt (JObject (enc_vin x)) x.
Proof.
  intros (? & ?). enc_members rep_vin.
  - apply (enc_sig_rep (_, _)).
  - destruct (vin_TxInWitness x) as [l|]; [|by right]. left. destruct (enc_strings l) as [(js & [= <-] & Hl)|[? _]]; [|done].
    by do 2 eexists.
Qed.

Lemma enc_pubkey_rep x : in_int64 (ReqSigs x) → rep pubkey_fmt (JObject (enc_pubkey x)) x.
Proof. intros. enc_members rep_pubkey. apply enc_strings. Qed.

Lemma enc_vout_rep x : vout_ints x → rep vout_fmt (JObject (enc_vout x)) x.
Proof. intros (? & ?). enc_members rep_vout. by apply enc_pubkey_rep. Qed.

Lemma enc_tx_rep x : tx_ints x → rep tx_fmt (JObject (enc_tx x)) x.
Proof.
  intros (? & ? & ? & ? & Hi & Ho). enc_members rep_tx; apply enc_list.
  - eapply Forall_impl; [|exact Hi]. apply enc_vin_rep.
  - eapply Forall_impl; [|exact Ho]. apply enc_vout_rep.
Qed.

Lemma enc_header_rep x j : header_ints x → rep_header (enc_header x ++ [("tx", j)]) x.
Proof.
  unfold header_ints. intros Hx. destruct_and? Hx. unfold rep_header.
  split_and?; (eapply member_some; [reflexivity|by left]).
Qed.

Lemma enc_block_rep x :
  header_ints (header x) → Forall tx_ints (Txs x) → rep block_fmt (JObject (enc_block x)) x.
Proof.
  intros Hh Ht. left. eexists. split; [reflexivity|]. split; [apply plain_names; vm_compute; exact I|].
  split; [by apply enc_header_rep|]. eapply member_some; [reflexivity|].
  apply enc_list. eapply Forall_impl; [|exact Ht]. apply enc_tx_rep.
Qed.

Lemma enc_normal_rep x : header_ints (normal_header x) → rep normal_fmt (JObject (enc_normal x)) x.
Proof.
  intros Hh. left. eexists. split; [reflexivity|]. split; [apply plain_names; vm_compute; exact I|].
  split; [by apply enc_header_rep|]. eapply member_some; [reflexivity|]. apply enc_strings.
Qed.
