(* ===== verification/ConfigJson.v ===== *)
(** * ConfigJson: reading the configuration

    [Get] of src/V2/config/config.go and the struct tags of its types.  The file
    system is a parameter: what [os.Stat], [os.Open] and [ioutil.ReadAll] return. *)

From stdpp Require Import base list strings numbers.
From Stdlib Require Import ZArith Lia String.
From S2P Require Import Prelude GoStrings Config Json JsonText NodeJson.

Local Open Scope string_scope.
Local Open Scope Z_scope.
Local Open Scope list_scope.

(** The fields of [type Retry struct] *)
Definition retry_names : list string := ["attempts"; "sleep"].

Definition dec_retry (old : RetryConfig) (kvs : members) : RetryConfig * bool :=
  ap (ap (Build_RetryConfig, true)
    (dec_field retry_names "attempts" dec_int (Attempts old) kvs))
    (dec_field retry_names "sleep" dec_int (Sleep old) kvs).

Definition rep_retry (kvs : members) (x : RetryConfig) : Prop :=
  member kvs "attempts" int_fmt (Attempts x) ∧
  member kvs "sleep" int_fmt (Sleep x).

Definition zero_retry : RetryConfig := Build_RetryConfig 0 0.

Definition retry_fmt : format RetryConfig := struct_fmt retry_names zero_retry dec_retry rep_retry.

#[export] Instance retry_laws : FormatLaws retry_fmt.
Proof. apply struct_laws; [struct_dec dec_retry rep_retry|struct_canon rep_retry]. Qed.

(** The fields of [type BaseDB struct] *)
Definition base_db_names : list string := ["maxConns"; "maxConnLifetime"; "threads"; "retry"; "timeout"].

Definition dec_base_db (old : BaseDB) (kvs : members) : BaseDB * bool :=
  ap (ap (ap (ap (ap (Build_BaseDB, true)
    (dec_field base_db_names "maxConns" dec_int (MaxConns old) kvs))
    (dec_field base_db_names "maxConnLifetime" dec_int (MaxConnLifetime old) kvs))
    (dec_field base_db_names "threads" dec_int (db_Threads old) kvs))
    (dec_field base_db_names "retry" (dec retry_fmt) (db_Retry old) kvs))
    (dec_field base_db_names "timeout" dec_int (db_Timeout old) kvs).

Definition rep_base_db (kvs : members) (x : BaseDB) : Prop :=
  member kvs "maxConns" int_fmt (MaxConns x) ∧
  member kvs "maxConnLifetime" int_fmt (MaxConnLifetime x) ∧
  member kvs "threads" int_fmt (db_Threads x) ∧
  member kvs "retry" retry_fmt (db_Retry x) ∧
  member kvs "timeout" int_fmt (db_Timeout x).

Definition zero_base_db : BaseDB := Build_BaseDB 0 0 0 zero_retry 0.

Definition base_db_fmt : format BaseDB := struct_fmt base_db_names zero_base_db dec_base_db rep_base_db.

#[export] Instance base_db_laws : FormatLaws base_db_fmt.
Proof. apply struct_laws; [struct_dec dec_base_db rep_base_db|struct_canon rep_base_db]. Qed.

(** The fields of [type CoinDB struct] *)
Definition coin_db_names : list string := ["readonly"; "readwrite"].

Definition dec_coin_db (old : CoinDB) (kvs : members) : CoinDB * bool :=
  ap (ap (Build_CoinDB, true)
    (dec_field coin_db_names "readonly" dec_string (ReadOnly_ old) kvs))
    (dec_field coin_db_names "readwrite" dec_string (ReadWrite_ old) kvs).

Definition rep_coin_db (kvs : members) (x : CoinDB) : Prop :=
  member kvs "readonly" string_fmt (ReadOnly_ x) ∧
  member kvs "readwrite" string_fmt (ReadWrite_ x).

Definition zero_coin_db : CoinDB := Build_CoinDB "" "".

Definition coin_db_fmt : format CoinDB := struct_fmt coin_db_names zero_coin_db dec_coin_db rep_coin_db.

#[export] Instance coin_db_laws : FormatLaws coin_db_fmt.
Proof. apply struct_laws; [struct_dec dec_coin_db rep_coin_db|struct_canon rep_coin_db]. Qed.

(** The fields of [type BaseRPC struct] *)
Definition base_rpc_names : list string := ["threads"; "timeout"; "retry"].

Definition dec_base_rpc (old : BaseRPC) (kvs : members) : BaseRPC * bool :=
  ap (ap (ap (Build_BaseRPC, true)
    (dec_field base_rpc_names "threads" dec_int (rpc_Threads old) kvs))
    (dec_field base_rpc_names "timeout" dec_int (rpc_Timeout old) kvs))
    (dec_field base_rpc_names "retry" (dec retry_fmt) (rpc_Retry old) kvs).

Definition rep_base_rpc (kvs : members) (x : BaseRPC) : Prop :=
  member kvs "threads" int_fmt (rpc_Threads x) ∧
  member kvs "timeout" int_fmt (rpc_Timeout x) ∧
  member kvs "retry" retry_fmt (rpc_Retry x).

Definition zero_base_rpc : BaseRPC := Build_BaseRPC 0 0 zero_retry.

Definition base_rpc_fmt : format BaseRPC := struct_fmt base_rpc_names zero_base_rpc dec_base_rpc rep_base_rpc.

#[export] Instance base_rpc_laws : FormatLaws base_rpc_fmt.
Proof. apply struct_laws; [struct_dec dec_base_rpc rep_base_rpc|struct_canon rep_base_rpc]. Qed.

(** The fields of [type CoinRPC struct] *)
Definition coin_rpc_names : list string := ["url"; "user"; "password"].

Definition dec_coin_rpc (old : CoinRPC) (kvs : members) : CoinRPC * bool :=
  ap (ap (ap (Build_CoinRPC, true)
    (dec_field coin_rpc_names "url" dec_string (URL old) kvs))
    (dec_field coin_rpc_names "user" dec_string (User old) kvs))
    (dec_field coin_rpc_names "password" dec_string (Password old) kvs).

Definition rep_coin_rpc (kvs : members) (x : CoinRPC) : Prop :=
  member kvs "url" string_fmt (URL x) ∧
  member kvs "user" string_fmt (User x) ∧
  member kvs "password" string_fmt (Password x).

Definition zero_coin_rpc : CoinRPC := Build_CoinRPC "" "" "".

Definition coin_rpc_fmt : format CoinRPC := struct_fmt coin_rpc_names zero_coin_rpc dec_coin_rpc rep_coin_rpc.

#[export] Instance coin_rpc_laws : FormatLaws coin_rpc_fmt.
Proof. apply struct_laws; [struct_dec dec_coin_rpc rep_coin_rpc|struct_canon rep_coin_rpc]. Qed.

(** The fields of [type ZMQ struct] *)
Definition zmq_names : list string := ["timeout"; "subUrl"; "subs"].

Definition dec_zmq (old : ZMQ) (kvs : members) : ZMQ * bool :=
  ap (ap (ap (Build_ZMQ, true)
    (dec_field zmq_names "timeout" dec_int (zmq_Timeout old) kvs))
    (dec_field zmq_names "subUrl" dec_string (SubURL old) kvs))
    (dec_field zmq_names "subs" (dec (list_fmt string_fmt)) (Subscriptions old) kvs).

Definition rep_zmq (kvs : members) (x : ZMQ) : Prop :=
  member kvs "timeout" int_fmt (zmq_Timeout x) ∧
  member kvs "subUrl" string_fmt (SubURL x) ∧
  member kvs "subs" (list_fmt string_fmt) (Subscriptions x).

Definition zero_zmq : ZMQ := Build_ZMQ 0 "" [].

Definition zmq_fmt : format ZMQ := struct_fmt zmq_names zero_zmq dec_zmq rep_zmq.

#[export] Instance zmq_laws : FormatLaws zmq_fmt.
Proof. apply struct_laws; [struct_dec dec_zmq rep_zmq|struct_canon rep_zmq]. Qed.

(** The fields of [type Coin struct] *)
Definition coin_names : list string := ["name"; "rpc"; "zmq"; "db"].

Definition dec_coin (old : Coin) (kvs : members) : Coin * bool :=
  ap (ap (ap (ap (Build_Coin, true)
    (dec_field coin_names "name" dec_string (coin_Name old) kvs))
    (dec_field coin_names "rpc" (dec coin_rpc_fmt) (c_RPC old) kvs))
    (dec_field coin_names "zmq" (dec zmq_fmt) (c_ZMQ old) kvs))
    (dec_field coin_names "db" (dec coin_db_fmt) (c_DB old) kvs).

Definition rep_coin (kvs : members) (x : Coin) : Prop :=
  member kvs "name" string_fmt (coin_Name x) ∧
  member kvs "rpc" coin_rpc_fmt (c_RPC x) ∧
  member kvs "zmq" zmq_fmt (c_ZMQ x) ∧
  member kvs "db" coin_db_fmt (c_DB x).

Definition zero_coin : Coin := Build_Coin "" zero_coin_rpc zero_zmq zero_coin_db.

Definition coin_fmt : format Coin := struct_fmt coin_names zero_coin dec_coin rep_coin.

#[export] Instance coin_laws : FormatLaws coin_fmt.
Proof. apply struct_laws; [struct_dec dec_coin rep_coin|struct_canon rep_coin]. Qed.

(** The fields of [type Config struct] *)
Definition config_names : list string := ["db"; "rpc"; "coins"].

Definition dec_config (old : Config) (kvs : members) : Config * bool :=
  ap (ap (ap (Build_Config, true)
    (dec_field config_names "db" (dec base_db_fmt) (cfg_DB old) kvs))
    (dec_field config_names "rpc" (dec base_rpc_fmt) (cfg_RPC old) kvs))
    (dec_field config_names "coins" (dec (list_fmt coin_fmt)) (Coins old) kvs).

Definition rep_config (kvs : members) (x : Config) : Prop :=
  member kvs "db" base_db_fmt (cfg_DB x) ∧
  member kvs "rpc" base_rpc_fmt (cfg_RPC x) ∧
  member kvs "coins" (list_fmt coin_fmt) (Coins x).

Definition zero_config : Config := Build_Config zero_base_db zero_base_rpc [].

Definition config_fmt : format Config := struct_fmt config_names zero_config dec_config rep_config.

#[export] Instance config_laws : FormatLaws config_fmt.
Proof. apply struct_laws; [struct_dec dec_config rep_config|struct_canon rep_config]. Qed.

(** ** Reading *)

(** What the calls on a file return; [stat] is an error when the file does not
    exist. *)
Record file := { stat : gores unit; opened : gores unit; contents : gores string }.

(** [err.Error()] *)
Fixpoint message (e : gerror) : string :=
  match e with
  | ENew m | ESentinel m => m
  | EWrap m e => (m ++ ": " ++ message e)%string
  end.

(** [if err != nil { return nil, errors.New(err.Error()) }] *)
Definition renewed {A} (r : gores A) : gores A :=
  match r with Err e => Err (ENew (message e)) | _ => r end.

(** [func Get(path string) ( *Config, error)] *)
Definition Get (fs : string → file) (path : string) : gores Config :=
  _ ← renewed (stat (fs path));
  _ ← renewed (opened (fs path));
  data ← renewed (contents (fs path));
  match whole data with
  | None => Err (ENew "invalid JSON")
  | Some j =>
      match dec config_fmt zero_config j with
      | (c, true) => Val c
      | (_, false) => Err (ENew "json: cannot unmarshal")
      end
  end.

(** A file whose text stands for a configuration is read as that configuration,
    whatever the order of its members and the space between them. *)
Lemma Get_reads fs path text j c :
  stat (fs path) = Val tt → opened (fs path) = Val tt → contents (fs path) = Val text →
  whole text = Some j → rep config_fmt j c → Get fs path = Val c.
Proof.
  intros Hs Ho Hc Hw Hr. unfold Get. rewrite Hs, Ho, Hc. cbn [renewed mbind gores_bind]. rewrite Hw.
  change zero_config with (zero config_fmt). by rewrite (rep_dec _ _ Hr).
Qed.

(** It never panics, and a file that is missing or no JSON is an error. *)
Lemma Get_error fs path :
  returned (stat (fs path)) → returned (opened (fs path)) → returned (contents (fs path)) →
  returned (Get fs path) ∧
  ((stat (fs path) ≠ Val tt ∨ ∃ text, contents (fs path) = Val text ∧ whole text = None) → ∃ e, Get fs path = Err e).
Proof.
  unfold Get. destruct (fs path) as [s o c]. cbn [stat opened contents]. intros Hs Ho Hc.
  destruct s as [[]|e|?|?], o as [[]|e'|?|?], c as [text|e''|?|?]; try done;
    cbn [renewed mbind gores_bind]; try (by split; [|intros _; eexists]).
  destruct (whole text) as [j|] eqn:Hw.
  - split; [by destruct (dec config_fmt zero_config j) as [? []]|]. intros [?|(text' & [= <-] & E)]; [done|congruence].
  - split; [done|]. intros _. by eexists.
Qed.
