(* ===== verification/BlockTable.v ===== *)
(** * BlockTable: the block table and block_insert

    The table [block] and the PL/pgSQL function [block_insert] of
    src/V2/build/ingester-sql-ddl/template/common/txo/deploy, through which the
    indexer stores every block.  [block_insert] also maintains which block of
    each height is on the main chain: it marks siblings as orphans, and when a
    new block extends an orphaned branch it walks down that branch and
    reactivates it.

    A statement [UPDATE block SET f WHERE p] is [update p f] on the list of
    rows, and a PL/pgSQL function runs in a transaction, so an error leaves the
    table as it was.  A [SELECT INTO] that could match several rows takes the
    first in insertion order. *)

From stdpp Require Import base list strings numbers.
From Stdlib Require Import ZArith Lia.
From S2P Require Import Prelude Utxo.

Local Open Scope Z_scope.

(** ** The table *)

(** A row: the serial [id] and the columns, which are the fields of a header. *)
Record block_row := { row_id : Z; row : BlockHeader }.

(** The table and the next value of its id sequence. *)
Record block_table := { rows : list block_row; block_next_id : Z }.

#[global] Instance block_row_eq_dec : EqDecision block_row.
Proof. solve_decision. Defined.
#[global] Instance block_table_eq_dec : EqDecision block_table.
Proof. solve_decision. Defined.

Definition empty_block_table : block_table := {| rows := []; block_next_id := 1 |}.

(** [UPDATE block SET ... WHERE p] *)
Definition update (p : BlockHeader → bool) (f : BlockHeader → BlockHeader) (t : list block_row) : list block_row :=
  map (fun r => if p (row r) then {| row_id := row_id r; row := f (row r) |} else r) t.

(** [RETURNING ... INTO] of an [UPDATE]: NULL without a row, an error with
    more than one. *)
Definition returning (p : BlockHeader → bool) (t : list block_row) : gores (option block_row) :=
  match filter (fun r => Is_true (p (row r))) t with
  | [] => Val None
  | [r] => Val (Some r)
  | _ => Err (ENew "query returned more than one row")
  end.

(** [SELECT ... INTO]: the first row. *)
Definition select (p : BlockHeader → bool) (t : list block_row) : option block_row :=
  find (fun r => p (row r)) t.

Definition has_hash (h : string) (b : BlockHeader) : bool := bool_decide (Hash b = h).
Definition has_height (z : Z) (b : BlockHeader) : bool := Height b =? z.
Definition has_prev (h : string) (b : BlockHeader) : bool := bool_decide (PrevHash b = h).
Definition on_chain (b : BlockHeader) : bool := negb (IsOrphan b).

(** [SELECT height ... WHERE is_orphaned = false ORDER BY height DESC LIMIT 1] *)
Definition last_block_height (t : list block_row) : option Z :=
  fold_right (fun r acc =>
    if on_chain (row r) then Some (match acc with Some h => Z.max (Height (row r)) h | None => Height (row r) end)
    else acc) None t.

(** ** block_insert *)

(** The columns of type [INTEGER]. *)
Definition fits_int32 (z : Z) : bool := (- 2147483648 <=? z) && (z <=? 2147483647).

Definition columns_fit (b : BlockHeader) : bool :=
  fits_int32 (Version b) && fits_int32 (Size b) && fits_int32 (StrippedSize b) && fits_int32 (Weight b)
  && fits_int32 (TxCount b).

(** "Handle updating next_block_hash if block height is not 0" *)
Definition link_previous (b : BlockHeader) (t : list block_row) : list block_row :=
  if Height b >? 0 then
    let var_prev_block_height := Height b - 1 in
    match select (fun r => on_chain r && has_height var_prev_block_height r) t with
    | Some prev =>
        update (fun r => has_hash (Hash (row prev)) r && has_height var_prev_block_height r
                         && negb (bool_decide (NextHash r = Hash b)) && on_chain r)
          (fun r => set_next r (Hash b)) t
    | None => t
    end
  else t.

(** "Orphan all other blocks at this height" *)
Definition orphan_siblings (b : BlockHeader) (t : list block_row) : list block_row :=
  update (fun r => negb (has_hash (Hash b) r) && has_height (Height b) r) (fun r => set_orphan r true) t.

(** "Orphan current block and all children" *)
Fixpoint orphan_children (fuel : nat) (var_next_block_hash : string) (t : list block_row) : gores (list block_row) :=
  match fuel with
  | O => Panic FuelExhausted
  | S fuel =>
      let t := update (has_hash var_next_block_hash) (fun r => set_orphan r true) t in
      match select (has_prev var_next_block_hash) t with
      | Some child => orphan_children fuel (Hash (row child)) t
      | None => Val t
      end
  end.

(** "Missing ancestor" *)
Definition missing_ancestor (var_prev_block_height : Z) (var_next_block_hash : string) (t : list block_row) :
    gores (list block_row) :=
  let t := update (has_height var_prev_block_height) (fun r => set_orphan r true) t in
  orphan_children (S (length t)) var_next_block_hash t.

(** The loop "No missing parent ancestor, but wrong side of chain": [cur] and
    [curh] are the hash and height of the orphaned parent, [next] its child. *)
Fixpoint activate (fuel : nat) (next cur : string) (curh : Z) (t : list block_row) : gores (list block_row) :=
  match fuel with
  | O => Panic FuelExhausted
  | S fuel =>
      let t := update (fun r => negb (has_hash cur r) && has_height curh r)
                 (fun r => set_orphan (set_next r "") true) t in
      let is_cur r := has_hash cur r && has_height curh r in
      found ← returning is_cur t;
      let t := update is_cur (fun r => set_orphan (set_next r next) false) t in
      match found with
      | None => Val t  (** the row was selected before: not reached *)
      | Some c =>
          let is_parent r := has_hash (PrevHash (row c)) r && has_height (curh - 1) r in
          parent ← returning is_parent t;
          let t := update is_parent (fun r => set_next r cur) t in
          match parent with
          | None => missing_ancestor (curh - 1) cur t
          | Some p =>
              if IsOrphan (row p) then activate fuel cur (Hash (row p)) (Height (row p)) t else Val t
          end
      end
  end.

(** "Validate ancestors" *)
Definition validate_ancestors (b : BlockHeader) (t : list block_row) : gores (list block_row) :=
  match select (has_hash (PrevHash b)) t with
  | None => missing_ancestor (Height b - 1) (Hash b) t
  | Some p =>
      if IsOrphan (row p) then activate (length t) (Hash b) (Hash (row p)) (Height (row p)) t else Val t
  end.

(** [block_insert(in_block, in_mined_time, in_median_time, in_recover)] *)
Definition block_insert (b : BlockHeader) (recover : bool) (t : block_table) : gores (Z * block_table) :=
  if negb (columns_fit b) then Err (ENew "integer out of range")
  else
    let var_last_block_height := last_block_height (rows t) in
    if match var_last_block_height with Some last => (Height b <? last) && negb recover | None => false end
    then Err (ENew "Received block hash: % is less than current last block height: %.")
    else
      let t1 := link_previous b (rows t) in
      let is_b r := has_hash (Hash b) r && has_height (Height b) r in
      existing ← returning is_b t1;
      let t2 := update is_b (fun r => set_orphan (set_next r (NextHash b)) false) t1 in
      let t3 := orphan_siblings b t2 in
      match existing with
      | Some r => Val (row_id r, {| rows := t3; block_next_id := block_next_id t |})
      | None =>
          let var_id := block_next_id t in
          let t4 := t3 ++ [{| row_id := var_id; row := set_orphan b false |}] in
          t5 ← match var_last_block_height with None => Val t4 | Some _ => validate_ancestors b t4 end;
          Val (var_id, {| rows := t5; block_next_id := block_next_id t + 1 |})
      end.

(** ** Rows as nodes, and the set of nodes on the main chain

    No statement changes the hash, the height or the parent of a row.  [nodes]
    is that fixed part; [canon t] is the set of nodes not marked as orphans. *)

Definition node : Type := string * Z * string.
Definition node_of (b : BlockHeader) : node := (Hash b, Height b, PrevHash b).
Definition nhash (n : node) : string := n.1.1.
Definition nheight (n : node) : Z := n.1.2.
Definition nprev (n : node) : string := n.2.
Definition nkey (n : node) : string * Z := n.1.

Definition nodes (t : list block_row) : list node := map (fun r => node_of (row r)) t.

Definition canon (t : list block_row) (n : node) : Prop :=
  ∃ r, r ∈ t ∧ node_of (row r) = n ∧ IsOrphan (row r) = false.

Definition keeps (f : BlockHeader → BlockHeader) : Prop := ∀ b, node_of (f b) = node_of b.

Lemma canon_nodes t n : canon t n → n ∈ nodes t.
Proof. intros (r & Hr & <- & _). by apply (list_elem_of_fmap_2 (fun r => node_of (row r))). Qed.

Lemma nodes_update p f t : keeps f → nodes (update p f t) = nodes t.
Proof.
  intros Hf. unfold nodes, update. rewrite map_map. apply map_ext. intros r.
  destruct (p (row r)); [apply Hf|done].
Qed.

Lemma ids_update p f t : map row_id (update p f t) = map row_id t.
Proof. unfold update. rewrite map_map. apply map_ext. intros r. by destruct (p (row r)). Qed.

Lemma length_update p f t : length (update p f t) = length t.
Proof. apply length_map. Qed.

Lemma elem_of_update p f t r' :
  r' ∈ update p f t ↔
  ∃ r, r ∈ t ∧ r' = if p (row r) then {| row_id := row_id r; row := f (row r) |} else r.
Proof. unfold update. rewrite list_elem_of_fmap. split; intros (r & H1 & H2); eauto. Qed.

Lemma canon_update_same p f t n :
  keeps f → (∀ b, IsOrphan (f b) = IsOrphan b) → canon (update p f t) n ↔ canon t n.
Proof.
  intros Hk Ho. split.
  - intros (r' & (r & Hr & ->)%elem_of_update & Hn & Hc). exists r. split; [done|].
    destruct (p (row r)); cbn in *; [|done]. by rewrite Hk in Hn; rewrite Ho in Hc.
  - intros (r & Hr & Hn & Hc). eexists. split; [apply elem_of_update; by exists r|].
    destruct (p (row r)); cbn; [|done]. by rewrite Hk, Ho.
Qed.

Lemma canon_update_orphan p q f t n :
  (∀ b, p b = q (node_of b)) → keeps f → (∀ b, IsOrphan (f b) = true) →
  canon (update p f t) n ↔ canon t n ∧ q n = false.
Proof.
  intros Hq Hk Ho. split.
  - intros (r' & (r & Hr & ->)%elem_of_update & Hn & Hc). rewrite Hq in Hn, Hc.
    destruct (q (node_of (row r))) eqn:E; cbn in *; [by rewrite Ho in Hc|]. subst n. split; [by exists r|done].
  - intros [(r & Hr & <- & Hc) Hqn]. exists r. split; [|done].
    apply elem_of_update. exists r. by rewrite Hq, Hqn.
Qed.

Lemma canon_update_restore p q f t n :
  (∀ b, p b = q (node_of b)) → keeps f → (∀ b, IsOrphan (f b) = false) →
  canon (update p f t) n ↔ canon t n ∨ (n ∈ nodes t ∧ q n = true).
Proof.
  intros Hq Hk Ho. split.
  - intros (r' & (r & Hr & ->)%elem_of_update & Hn & Hc). rewrite Hq in Hn, Hc.
    destruct (q (node_of (row r))) eqn:E; cbn in *.
    + right. subst n. rewrite Hk. split; [|done]. by apply (list_elem_of_fmap_2 (fun r => node_of (row r))).
    + left. by exists r.
  - intros [(r & Hr & <- & Hc)|[(r & -> & Hr)%list_elem_of_fmap Hqn]].
    + eexists. split; [apply elem_of_update; by exists r|]. destruct (p (row r)); cbn; [|done]. by rewrite Hk, Ho.
    + eexists. split; [apply elem_of_update; by exists r|]. rewrite Hq, Hqn. cbn. by rewrite Hk, Ho.
Qed.

Lemma keeps_set_next x : keeps (fun r => set_next r x).
Proof. done. Qed.
Lemma keeps_set_orphan o : keeps (fun r => set_orphan r o).
Proof. done. Qed.
Lemma keeps_set_both x o : keeps (fun r => set_orphan (set_next r x) o).
Proof. done. Qed.

Create HintDb block_table.
#[export] Hint Resolve keeps_set_next keeps_set_orphan keeps_set_both : block_table.

(** The predicates of the statements, on nodes. *)
Definition q_hash (h : string) (n : node) : bool := bool_decide (nhash n = h).
Definition q_height (z : Z) (n : node) : bool := nheight n =? z.
Definition q_key (h : string) (z : Z) (n : node) : bool := q_hash h n && q_height z n.
Definition q_sibling (h : string) (z : Z) (n : node) : bool := negb (q_hash h n) && q_height z n.

Lemma q_key_spec h z n : q_key h z n = true ↔ nkey n = (h, z).
Proof.
  unfold q_key, q_hash, q_height, nhash, nheight, nkey. destruct n as [[h' z'] p]; cbn.
  rewrite andb_true_iff, bool_decide_eq_true, Z.eqb_eq. split; [by intros [-> ->]|by intros [= -> ->]].
Qed.

Lemma q_sibling_spec h z n : q_sibling h z n = false ↔ (nheight n = z → nhash n = h).
Proof.
  unfold q_sibling, q_hash, q_height. rewrite andb_false_iff, negb_false_iff, bool_decide_eq_true, Z.eqb_neq.
  split; [intros [|]; done|]. intros H. destruct (decide (nheight n = z)); auto.
Qed.

(** ** One pass: a block becomes the only one of its height *)

(** Keys are unique, so a key determines the node. *)
Definition keys_unique (N : list node) : Prop := NoDup (map nkey N).

Lemma key_determines N n m : keys_unique N → n ∈ N → m ∈ N → nkey n = nkey m → n = m.
Proof. apply (NoDup_map_inj nkey). Qed.

Lemma row_determines t r s :
  keys_unique (nodes t) → r ∈ t → s ∈ t → node_of (row r) = node_of (row s) → r = s.
Proof.
  unfold keys_unique, nodes. rewrite map_map. intros HN Hr Hs Heq.
  apply (NoDup_map_inj _ _ _ _ HN); [done..|congruence].
Qed.

Definition one_per_height (C : node → Prop) : Prop :=
  ∀ n m, C n → C m → nheight n = nheight m → n = m.

(** The main chain after the node with a key is put on it and its siblings off. *)
Definition seat (N : list node) (h : string) (z : Z) (C : node → Prop) (n : node) : Prop :=
  (C n ∧ nheight n ≠ z) ∨ (n ∈ N ∧ nkey n = (h, z)).

Lemma seat_one_per_height N h z C :
  keys_unique N → one_per_height C → one_per_height (seat N h z C).
Proof.
  intros HN HC n m [[Hn Hz]|[Hn Hk]] [[Hm Hz']|[Hm Hk']] Hh.
  - by apply HC.
  - destruct m as [[? ?] ?]. cbn in *. injection Hk' as -> ->. done.
  - destruct n as [[? ?] ?]. cbn in *. injection Hk as -> ->. done.
  - apply (key_determines N); [done..|congruence].
Qed.

Lemma canon_seat_after_restore h z x t n :
  canon (update (fun r => negb (has_hash h r) && has_height z r) (fun r => set_orphan r true)
          (update (fun r => has_hash h r && has_height z r) (fun r => set_orphan (set_next r x) false) t)) n
  ↔ seat (nodes t) h z (canon t) n.
Proof.
  rewrite (canon_update_orphan _ (q_sibling h z)), (canon_update_restore _ (q_key h z)) by done.
  rewrite q_key_spec, q_sibling_spec. unfold seat. split.
  - intros [[Hc|[Hn Hk]] Hs]; [|by right]. destruct (decide (nheight n = z)) as [Hz|]; [right|by left].
    split; [by apply canon_nodes|]. specialize (Hs Hz). destruct n as [[? ?] ?]; cbn in *. congruence.
  - intros [[Hc Hz]|[Hn Hk]]; [by split; [left|]|]. split; [by right|].
    destruct n as [[? ?] ?]; cbn in *. by injection Hk.
Qed.

Lemma canon_seat_after_orphan h z x y t n :
  canon (update (fun r => has_hash h r && has_height z r) (fun r => set_orphan (set_next r x) false)
          (update (fun r => negb (has_hash h r) && has_height z r) (fun r => set_orphan (set_next r y) true) t)) n
  ↔ seat (nodes t) h z (canon t) n.
Proof.
  rewrite (canon_update_restore _ (q_key h z)), (canon_update_orphan _ (q_sibling h z)), nodes_update by done.
  rewrite q_key_spec, q_sibling_spec. unfold seat. split.
  - intros [[Hc Hs]|]; [|by right]. destruct (decide (nheight n = z)) as [Hz|]; [right|by left].
    split; [by apply canon_nodes|]. specialize (Hs Hz). destruct n as [[? ?] ?]; cbn in *. congruence.
  - intros [[Hc Hz]|]; [left|by right]. by split.
Qed.

Lemma one_per_height_mono (C D : node → Prop) :
  (∀ n, D n → C n) → one_per_height C → one_per_height D.
Proof. intros H HC n m Hn Hm. by apply HC; apply H. Qed.

(** What every part of [block_insert] keeps: the nodes and the ids. *)
Definition same_shape (t t' : list block_row) : Prop :=
  nodes t' = nodes t ∧ map row_id t' = map row_id t.

#[global] Instance same_shape_refl : Reflexive same_shape.
Proof. by intros t. Qed.
#[global] Instance same_shape_trans : Transitive same_shape.
Proof. intros t t' t'' [H1 H2] [H3 H4]. split; congruence. Qed.

Lemma same_shape_update p f t : keeps f → same_shape t (update p f t).
Proof. intros Hf. split; [by apply nodes_update|apply ids_update]. Qed.
#[export] Hint Resolve same_shape_update : block_table.

Lemma orphan_children_shape fuel h t t' :
  orphan_children fuel h t = Val t' → same_shape t t' ∧ ∀ n, canon t' n → canon t n.
Proof.
  revert h t. induction fuel as [|fuel IH]; intros h t; cbn; [done|].
  set (t1 := update _ _ t). assert (Hs : same_shape t t1) by (apply same_shape_update; auto with block_table).
  assert (Hc : ∀ n, canon t1 n → canon t n).
  { intros n. unfold t1. rewrite (canon_update_orphan _ (q_hash h)) by done. tauto. }
  destruct (select _ t1) as [c|].
  - intros [Hs' Hc']%IH. split; [by etransitivity|]. auto.
  - by intros [= <-].
Qed.

Lemma missing_ancestor_shape z h t t' :
  missing_ancestor z h t = Val t' → same_shape t t' ∧ ∀ n, canon t' n → canon t n.
Proof.
  unfold missing_ancestor. intros [Hs Hc]%orphan_children_shape. split.
  - etransitivity; [|exact Hs]. auto with block_table.
  - intros n Hn%Hc. by rewrite (canon_update_orphan _ (q_height z)) in Hn by done; destruct Hn.
Qed.

Lemma activate_shape fuel next cur curh t t' :
  keys_unique (nodes t) → activate fuel next cur curh t = Val t' →
  same_shape t t' ∧ (one_per_height (canon t) → one_per_height (canon t')).
Proof.
  revert next cur curh t. induction fuel as [|fuel IH]; intros next cur curh t HN; cbn [activate]; [done|].
  set (t1 := update _ _ t). intros (found & _ & H)%bind_Val. set (t2 := update _ _ t1) in *.
  assert (Hs2 : same_shape t t2) by (transitivity t1; apply same_shape_update; auto with block_table).
  assert (Hc2 : one_per_height (canon t) → one_per_height (canon t2)).
  { intros H1. eapply one_per_height_mono; [|apply (seat_one_per_height (nodes t) cur curh); [done|exact H1]].
    intros n. apply canon_seat_after_orphan. }
  destruct found as [c|]; [|by injection H as <-].
  apply bind_Val in H as (parent & _ & H). set (t3 := update _ _ t2) in *.
  assert (Hs3 : same_shape t t3) by (transitivity t2; [done|]; apply same_shape_update; auto with block_table).
  assert (Hc3 : one_per_height (canon t) → one_per_height (canon t3)).
  { intros H1. eapply one_per_height_mono; [|by apply Hc2]. intros n. by apply canon_update_same. }
  destruct parent as [p|]; [destruct (IsOrphan (row p))|].
  - apply IH in H as [Hs Hc]; [|by rewrite (proj1 Hs3)]. split; [by etransitivity|auto].
  - by injection H as <-.
  - apply missing_ancestor_shape in H as [Hs Hc]. split; [by etransitivity|].
    intros H1. eapply one_per_height_mono; [exact Hc|auto].
Qed.

Lemma activate_ids fuel next cur curh t t' :
  activate fuel next cur curh t = Val t' → map row_id t' = map row_id t.
Proof.
  revert next cur curh t. induction fuel as [|fuel IH]; intros next cur curh t; cbn [activate]; [done|].
  intros (found & _ & H)%bind_Val. destruct found as [c|]; [|injection H as <-; by rewrite !ids_update].
  apply bind_Val in H as (parent & _ & H). destruct parent as [p|]; [destruct (IsOrphan (row p))|].
  - apply IH in H. by rewrite H, !ids_update.
  - injection H as <-. by rewrite !ids_update.
  - apply missing_ancestor_shape in H as [[_ Hi] _]. by rewrite Hi, !ids_update.
Qed.

(** ** The invariant of the table *)

Record table_ok (t : block_table) : Prop := {
  ok_ids : NoDup (map row_id (rows t));
  ok_next : Forall (fun r => 1 ≤ row_id r < block_next_id t) (rows t);
  ok_first : 1 ≤ block_next_id t;
  ok_keys : keys_unique (nodes (rows t));
  ok_heights : one_per_height (canon (rows t));
}.

Lemma link_previous_canon b t : same_shape t (link_previous b t) ∧ ∀ n, canon (link_previous b t) n ↔ canon t n.
Proof.
  unfold link_previous. destruct (Height b >? 0); [|done]. destruct (select _ t) as [p|]; [|done].
  split; [auto with block_table|]. intros n. by apply canon_update_same.
Qed.

Lemma returning_None p q t :
  (∀ b, p b = q (node_of b)) → returning p t = Val None ↔ ∀ n, n ∈ nodes t → q n = false.
Proof.
  intros Hq. unfold returning. destruct (filter _ t) as [|r l] eqn:Hf.
  - split; [|done]. intros _ n (r & -> & Hr)%list_elem_of_fmap. apply not_true_iff_false. intros Ht.
    apply (not_elem_of_nil r). rewrite <-Hf. apply list_elem_of_filter. by rewrite Hq, Ht.
  - assert (Hr : r ∈ filter (λ r, Is_true (p (row r))) t) by (rewrite Hf; left).
    apply list_elem_of_filter in Hr as [Hp Hr]. split; [by destruct l|]. intros Hn.
    rewrite Hq, Hn in Hp; [done|]. by apply (list_elem_of_fmap_2 (fun r => node_of (row r))).
Qed.

Lemma returning_Some p t r : returning p t = Val (Some r) → r ∈ t ∧ p (row r) = true.
Proof.
  unfold returning. destruct (filter _ t) as [|r' [|]] eqn:Hf; [done| |done]. intros [= <-].
  assert (Hr : r' ∈ filter (λ r, Is_true (p (row r))) t) by (rewrite Hf; left).
  apply list_elem_of_filter in Hr as [Hp Hr]. split; [done|]. by apply Is_true_eq_true.
Qed.

(** The table after the statements before the insertion. *)
Definition seated (b : BlockHeader) (t : list block_row) : list block_row :=
  orphan_siblings b
    (update (fun r => has_hash (Hash b) r && has_height (Height b) r)
       (fun r => set_orphan (set_next r (NextHash b)) false) (link_previous b t)).

Lemma seated_shape b t : same_shape t (seated b t).
Proof.
  transitivity (link_previous b t); [apply link_previous_canon|].
  etransitivity; [|apply same_shape_update; auto with block_table].
  apply same_shape_update; auto with block_table.
Qed.

Lemma seated_canon b t n : canon (seated b t) n ↔ seat (nodes t) (Hash b) (Height b) (canon t) n.
Proof.
  unfold seated, orphan_siblings. rewrite canon_seat_after_restore.
  destruct (link_previous_canon b t) as [[Hn _] Hc]. rewrite Hn. unfold seat. by rewrite Hc.
Qed.

(** The two ways [block_insert] succeeds: the block was there, or it is new. *)
Lemma block_insert_inv b recover t id t' :
  block_insert b recover t = Val (id, t') →
  columns_fit b = true ∧
  (∀ last, last_block_height (rows t) = Some last → recover = false → last ≤ Height b) ∧
  ((∃ r, r ∈ link_previous b (rows t) ∧ nkey (node_of (row r)) = (Hash b, Height b) ∧ id = row_id r ∧
      t' = {| rows := seated b (rows t); block_next_id := block_next_id t |}) ∨
   ((∀ n, n ∈ nodes (rows t) → nkey n ≠ (Hash b, Height b)) ∧ id = block_next_id t ∧
      block_next_id t' = block_next_id t + 1 ∧
      let t4 := seated b (rows t) ++ [{| row_id := id; row := set_orphan b false |}] in
      match last_block_height (rows t) with
      | None => rows t' = t4
      | Some _ => validate_ancestors b t4 = Val (rows t')
      end)).
Proof.
  unfold block_insert. destruct (columns_fit b); [|done]. cbn [negb].
  destruct (match last_block_height (rows t) with Some _ => _ | None => _ end) eqn:Hlast; [done|].
  intros (existing & Hex & H)%bind_Val. split; [done|]. split.
  { intros last Hl ->. rewrite Hl, andb_true_r in Hlast. by apply Z.ltb_ge in Hlast. }
  destruct existing as [r|].
  - left. injection H as <- <-. apply returning_Some in Hex as [Hr Hk]. exists r. split_and!; [done| |done|done].
    by apply (q_key_spec (Hash b) (Height b) (node_of (row r))).
  - right. apply bind_Val in H as (t5 & H5 & [= <- <-]).
    rewrite (returning_None _ (q_key (Hash b) (Height b))) in Hex by done.
    rewrite (proj1 (proj1 (link_previous_canon b (rows t)))) in Hex. split_and!; [|done|done|].
    + intros n Hn Hk. apply Hex in Hn. by apply q_key_spec in Hk; rewrite Hk in Hn.
    + cbn [rows block_next_id]. destruct (last_block_height (rows t)); [done|]. by injection H5 as <-.
Qed.

Lemma canon_snoc t i b n : canon (t ++ [{| row_id := i; row := set_orphan b false |}]) n ↔ canon t n ∨ n = node_of b.
Proof.
  unfold canon. split.
  - intros (r & [Hr|Hr]%elem_of_app & Hn & Hc); [left; by exists r|right]. apply list_elem_of_singleton in Hr. by subst.
  - intros [(r & Hr & Hn & Hc)| ->].
    + exists r. split; [apply elem_of_app; by left|done].
    + eexists. split; [apply elem_of_app; right; by apply list_elem_of_singleton|done].
Qed.

Lemma nodes_snoc t i b : nodes (t ++ [{| row_id := i; row := set_orphan b false |}]) = nodes t ++ [node_of b].
Proof. unfold nodes. by rewrite map_app. Qed.

Lemma validate_ancestors_shape b t t' :
  keys_unique (nodes t) → validate_ancestors b t = Val t' →
  same_shape t t' ∧ (one_per_height (canon t) → one_per_height (canon t')).
Proof.
  intros HN. unfold validate_ancestors. destruct (select _ t) as [p|].
  - destruct (IsOrphan (row p)); [by apply activate_shape|]. by intros [= <-].
  - intros [Hs Hc]%missing_ancestor_shape. split; [done|]. by apply one_per_height_mono.
Qed.

(** A new block seated among its siblings. *)
Lemma seated_snoc b t i :
  keys_unique (nodes t) → one_per_height (canon t) → (∀ n, n ∈ nodes t → nkey n ≠ (Hash b, Height b)) →
  let t4 := seated b t ++ [{| row_id := i; row := set_orphan b false |}] in
  keys_unique (nodes t4) ∧ one_per_height (canon t4) ∧
  ∀ n, canon t4 n ↔ (canon t n ∧ nheight n ≠ Height b) ∨ n = node_of b.
Proof.
  intros HN HC Hnew t4. unfold t4. rewrite nodes_snoc, (proj1 (seated_shape b t)).
  assert (Hc4 : ∀ n, canon (seated b t ++ [{| row_id := i; row := set_orphan b false |}]) n
    ↔ (canon t n ∧ nheight n ≠ Height b) ∨ n = node_of b).
  { intros n. rewrite canon_snoc, seated_canon. unfold seat. split; [|by intros [?| ->]; auto].
    intros [[?|[Hn Hk]]| ->]; [by left| |by right]. by apply Hnew in Hk. }
  split_and!; [| |done].
  - unfold keys_unique. rewrite map_app. apply list.NoDup_app. split_and!; [done| |apply list.NoDup_singleton].
    intros k (n & -> & Hn)%list_elem_of_fmap Hk%list_elem_of_singleton. by apply (Hnew n).
  - intros n m. rewrite !Hc4. intros [[Hn Hz]| ->] [[Hm Hz']| ->] Hh; [by apply HC|done|done|done].
Qed.

Lemma table_ok_shape t t' next :
  table_ok t → same_shape (rows t) t' → one_per_height (canon t') → block_next_id t ≤ next →
  table_ok {| rows := t'; block_next_id := next |}.
Proof.
  intros [H1 H2 H0 H3 H4] [Hn Hi] HC Hle. split; cbn [rows block_next_id].
  - by rewrite Hi.
  - rewrite list.Forall_forall in H2. apply list.Forall_forall. intros r Hr.
    assert (Hin : row_id r ∈ map row_id (rows t)) by (rewrite <-Hi; by apply (list_elem_of_fmap_2 row_id)).
    apply list_elem_of_fmap in Hin as (r' & -> & Hr'). specialize (H2 r' Hr'). lia.
  - lia.
  - by rewrite Hn.
  - done.
Qed.

Lemma table_ok_snoc b t t4 i :
  table_ok t → same_shape (rows t) t4 → i = block_next_id t →
  (∀ n, n ∈ nodes (rows t) → nkey n ≠ (Hash b, Height b)) →
  one_per_height (canon (t4 ++ [{| row_id := i; row := set_orphan b false |}])) →
  table_ok {| rows := t4 ++ [{| row_id := i; row := set_orphan b false |}]; block_next_id := i + 1 |}.
Proof.
  intros [H1 H2 H0 H3 H4] [Hn Hi] -> Hnew HC.
  assert (H2' : Forall (fun i => 1 ≤ i < block_next_id t) (map row_id t4)).
  { rewrite Hi. apply Forall_map. done. }
  split; cbn [rows block_next_id].
  - rewrite map_app, Hi. apply list.NoDup_app. split_and!; [done| |apply list.NoDup_singleton].
    intros k Hk Hk'%list_elem_of_singleton. subst k. rewrite Hi, list.Forall_forall in H2'. cbn in Hk.
    specialize (H2' _ Hk). lia.
  - apply Forall_app. split; [|apply list.Forall_singleton; cbn; lia].
    apply Forall_map in H2'. eapply Forall_impl; [|exact H2']. cbn. lia.
  - lia.
  - rewrite nodes_snoc, Hn. unfold keys_unique. rewrite map_app. apply list.NoDup_app.
    split_and!; [done| |apply list.NoDup_singleton].
    intros k (n & -> & Hin)%list_elem_of_fmap Hk%list_elem_of_singleton. by apply (Hnew n).
  - done.
Qed.

Lemma table_ok_insert b recover t id t' :
  table_ok t → block_insert b recover t = Val (id, t') → table_ok t'.
Proof.
  intros Hok (_ & _ & [(r & _ & _ & _ & ->)|(Hnew & Hid & Hnext & H)])%block_insert_inv.
  - apply table_ok_shape with (t := t); [done|apply seated_shape| |cbn; lia].
    eapply one_per_height_mono; [intros n; apply seated_canon|].
    apply seat_one_per_height; apply Hok.
  - pose proof (seated_snoc b (rows t) id (ok_keys _ Hok) (ok_heights _ Hok) Hnew) as (HN4 & HC4 & _).
    pose proof (table_ok_snoc b t _ id Hok (seated_shape b (rows t)) Hid Hnew HC4) as Hok4.
    destruct t' as [rs nx]. cbn in *. subst nx id.
    destruct (last_block_height (rows t)).
    + apply validate_ancestors_shape in H as [Hs HC]; [|done].
      apply (table_ok_shape _ _ _ Hok4 Hs); [by apply HC|cbn; lia].
    + by subst rs.
Qed.

(** ** The main chain is linked *)

(** Every block on the main chain, except the lowest, has its parent on it. *)
Definition linked (C : node → Prop) : Prop :=
  ∀ r s, C r → C s → nheight s < nheight r →
  ∃ p, C p ∧ nhash p = nprev r ∧ nheight p = nheight r - 1.

(** What a node's data satisfies: a hash names one block, and a child is one
    above its parent. *)
Record consistent (N : list node) : Prop := {
  hash_unique : ∀ n m, n ∈ N → m ∈ N → nhash n = nhash m → n = m;
  child_height : ∀ n m, n ∈ N → m ∈ N → nprev n = nhash m → nheight n = nheight m + 1;
}.

(** At most one stored child. *)
Definition only_child (N : list node) (h : string) : Prop :=
  ∀ n m, n ∈ N → m ∈ N → nprev n = h → nprev m = h → n = m.

Lemma consistent_keys N : NoDup N → consistent N → keys_unique N.
Proof.
  intros Hnd HN. unfold keys_unique. apply NoDup_fmap_2_strong; [|done].
  intros n m Hn Hm Hk. apply (hash_unique _ HN); [done..|]. by destruct n as [[? ?] ?], m as [[? ?] ?]; injection Hk.
Qed.

Lemma select_node p q t :
  (∀ b, p b = q (node_of b)) →
  match select p t with
  | Some r => r ∈ t ∧ node_of (row r) ∈ nodes t ∧ q (node_of (row r)) = true
  | None => ∀ n, n ∈ nodes t → q n = false
  end.
Proof.
  intros Hq. unfold select. destruct (find _ t) as [r|] eqn:Hf.
  - apply find_some in Hf as [Hr Hp]. apply list_elem_of_In in Hr. rewrite Hq in Hp.
    split_and!; [done| |done]. by apply (list_elem_of_fmap_2 (fun r => node_of (row r))).
  - intros n (r & -> & Hr)%list_elem_of_fmap. rewrite <-Hq.
    by apply (find_none _ _ Hf), list_elem_of_In.
Qed.

Definition q_prev (h : string) (n : node) : bool := bool_decide (nprev n = h).

(** The blocks above height [z] are linked down to the one block at [z]. *)
Record column (N : list node) (C : node → Prop) (z top : Z) (h : string) : Prop := {
  col_base : ∀ r, C r → nheight r = z → nhash r = h;
  col_up : ∀ r, C r → z < nheight r → ∃ p, C p ∧ nhash p = nprev r ∧ nheight p = nheight r - 1;
  col_top : ∀ r, C r → nheight r ≤ top;
  col_only : ∀ r, C r → z ≤ nheight r < top → only_child N (nhash r);
}.

(** A block above [z] has an ancestor just above [z]. *)
Lemma column_next N C z top h r :
  column N C z top h → C r → z < nheight r → ∃ s, C s ∧ nheight s = z + 1.
Proof.
  intros Hcol. remember (Z.to_nat (nheight r - z)) as k eqn:Hk. revert r Hk.
  induction k as [|k IH]; intros r Hk Hr Hz; [lia|].
  destruct (decide (nheight r = z + 1)) as [|Hne]; [by exists r|].
  destruct (col_up _ _ _ _ _ Hcol r Hr Hz) as (p & Hp & _ & Hh). apply (IH p); [lia|done|lia].
Qed.

Lemma orphan_children_column fuel h t t' z top :
  consistent (nodes t) → column (nodes t) (canon t) z top h →
  (∃ m, m ∈ nodes t ∧ nhash m = h ∧ nheight m = z) →
  orphan_children fuel h t = Val t' →
  ∀ n, canon t' n ↔ canon t n ∧ nheight n < z.
Proof.
  revert h t z. induction fuel as [|fuel IH]; intros h t z HN Hcol (m & Hm & Hmh & Hmz); cbn [orphan_children]; [done|].
  set (t1 := update _ _ t). assert (Hn1 : nodes t1 = nodes t) by by apply nodes_update.
  assert (Hc1 : ∀ n, canon t1 n ↔ canon t n ∧ nhash n ≠ h).
  { intros n. unfold t1. rewrite (canon_update_orphan _ (q_hash h)) by done.
    unfold q_hash. by rewrite bool_decide_eq_false. }
  assert (Hother : ∀ n, canon t n → nheight n ≠ z → nhash n ≠ h).
  { intros n Hc Hz Hh. apply canon_nodes in Hc. rewrite <-Hmh in Hh.
    apply (hash_unique _ HN) in Hh; [|done..]. by subst. }
  pose proof (select_node (has_prev h) (q_prev h) t1 ltac:(done)) as Hsel.
  destruct (select (has_prev h) t1) as [c|].
  - destruct Hsel as (_ & Hcin & Hcp). unfold q_prev in Hcp. apply bool_decide_eq_true in Hcp.
    rewrite Hn1 in Hcin.
    assert (Hcz : nheight (node_of (row c)) = z + 1).
    { rewrite (child_height _ HN _ m Hcin Hm); [by rewrite Hmz|by rewrite Hmh]. }
    intros H. assert (Heq : ∀ n, canon t' n ↔ canon t1 n ∧ nheight n < z + 1).
    { apply (IH (Hash (row c)) t1 (z + 1)); [by rewrite Hn1| |exists (node_of (row c)); by rewrite Hn1|done].
      rewrite Hn1. split.
      - intros r [Hr Hrh]%Hc1 Hrz.
        destruct (col_up _ _ _ _ _ Hcol r Hr ltac:(lia)) as (p & Hp & Hpr & Hpz).
        assert (Hph : nhash p = h) by (apply (col_base _ _ _ _ _ Hcol); [done|lia]).
        pose proof (col_top _ _ _ _ _ Hcol r Hr).
        assert (r = node_of (row c)) as ->; [|done].
        apply (col_only _ _ _ _ _ Hcol p Hp ltac:(lia)); [by apply canon_nodes|done|congruence|congruence].
      - intros r [Hr Hrh]%Hc1 Hrz.
        destruct (col_up _ _ _ _ _ Hcol r Hr ltac:(lia)) as (p & Hp & Hpr & Hpz).
        exists p. split_and!; [|done|done]. apply Hc1. split; [done|]. apply Hother; [done|lia].
      - intros r [Hr _]%Hc1. by apply (col_top _ _ _ _ _ Hcol).
      - intros r [Hr _]%Hc1 Hrz. apply (col_only _ _ _ _ _ Hcol); [done|lia]. }
    intros n. rewrite Heq, Hc1. split.
    + intros [[Hc Hh] Hlt]. split; [done|].
      destruct (decide (nheight n = z)) as [Hz|]; [|lia]. by apply (col_base _ _ _ _ _ Hcol) in Hz.
    + intros [Hc Hlt]. split; [|lia]. split; [done|]. apply Hother; [done|lia].
  - intros [= <-] n. rewrite Hc1. split.
    + intros [Hc Hh]. split; [done|].
      destruct (Z_lt_le_dec (nheight n) z) as [|Hge]; [done|exfalso].
      destruct (decide (nheight n = z)) as [Hz|]; [by apply (col_base _ _ _ _ _ Hcol) in Hz|].
      destruct (column_next _ _ _ _ _ n Hcol Hc ltac:(lia)) as (s & Hs & Hsz).
      destruct (col_up _ _ _ _ _ Hcol s Hs ltac:(lia)) as (p & Hp & Hpr & Hpz).
      assert (Hph : nhash p = h) by (apply (col_base _ _ _ _ _ Hcol); [done|lia]).
      specialize (Hsel s). rewrite Hn1 in Hsel. specialize (Hsel (canon_nodes _ _ Hs)).
      unfold q_prev in Hsel. apply bool_decide_eq_false in Hsel. congruence.
    + intros [Hc Hlt]. split; [done|]. apply Hother; [done|lia].
Qed.

Lemma returning_key h z t :
  keys_unique (nodes t) →
  (∃ r, returning (fun r => has_hash h r && has_height z r) t = Val (Some r) ∧ r ∈ t ∧
        nkey (node_of (row r)) = (h, z)) ∨
  (returning (fun r => has_hash h r && has_height z r) t = Val None ∧ ∀ n, n ∈ nodes t → nkey n ≠ (h, z)).
Proof.
  intros HN. unfold returning. set (P := λ r, Is_true _).
  assert (Hall : ∀ r, r ∈ filter P t → r ∈ t ∧ nkey (node_of (row r)) = (h, z)).
  { intros r [Hp Hr]%list_elem_of_filter. split; [done|].
    apply (q_key_spec h z (node_of (row r))). by apply Is_true_eq_true. }
  destruct (filter P t) as [|r [|r' l]] eqn:Hf.
  - right. split; [done|]. intros n (r & -> & Hr)%list_elem_of_fmap Hk%q_key_spec.
    apply (not_elem_of_nil r). rewrite <-Hf. apply list_elem_of_filter. split; [|done].
    by apply Is_true_eq_left.
  - left. exists r. split; [done|]. apply Hall. left.
  - exfalso. unfold keys_unique, nodes in HN. rewrite map_map in HN.
    assert (Hsub : filter P t `sublist_of` t) by apply sublist_filter.
    apply (fmap_sublist (fun r => nkey (node_of (row r)))) in Hsub.
    apply (λ H, sublist_NoDup _ _ H Hsub) in HN. rewrite Hf, !fmap_cons in HN.
    apply list.NoDup_cons in HN as [HN _]. apply HN.
    rewrite (proj2 (Hall r ltac:(left))), <-(proj2 (Hall r' ltac:(right; left))). left.
Qed.

(** ** The loops end *)

Definition above (z : Z) (N : list node) : nat := length (filter (fun n => z ≤ nheight n) N).
Definition below (z : Z) (N : list node) : nat := length (filter (fun n => nheight n ≤ z) N).

Lemma filter_lt (P Q : node → Prop) `{!∀ n, Decision (P n), !∀ n, Decision (Q n)} N m :
  (∀ n, P n → Q n) → m ∈ N → Q m → ¬ P m → (length (filter P N) < length (filter Q N))%nat.
Proof.
  intros HPQ Hm HQ HP.
  assert (Hle : ∀ l, (length (filter P l) ≤ length (filter Q l))%nat).
  { induction l as [|n l IH]; [done|]. rewrite !filter_cons.
    destruct (decide (P n)), (decide (Q n)); cbn; [lia| |lia|lia]. by destruct n0; apply HPQ. }
  induction N as [|n N IH]; [by apply elem_of_nil in Hm|]. rewrite !filter_cons.
  apply elem_of_cons in Hm as [<-|Hm].
  - rewrite decide_False, decide_True by done. cbn. specialize (Hle N). lia.
  - specialize (IH Hm). destruct (decide (P n)), (decide (Q n)); cbn; [lia| |lia|lia].
    by destruct n0; apply HPQ.
Qed.

Lemma orphan_children_total fuel h t m z :
  consistent (nodes t) → m ∈ nodes t → nhash m = h → nheight m = z → (above z (nodes t) ≤ fuel)%nat →
  ∃ t', orphan_children fuel h t = Val t'.
Proof.
  revert h t m z. induction fuel as [|fuel IH]; intros h t m z HN Hm Hh Hz Hf.
  - exfalso. unfold above in Hf.
    assert (Hin : m ∈ filter (λ n, z ≤ nheight n) (nodes t)) by (apply list_elem_of_filter; split; [lia|done]).
    destruct (filter _ (nodes t)); [by apply elem_of_nil in Hin|cbn in Hf; lia].
  - cbn [orphan_children]. set (t1 := update _ _ t). assert (Hn1 : nodes t1 = nodes t) by by apply nodes_update.
    pose proof (select_node (has_prev h) (q_prev h) t1 ltac:(done)) as Hsel.
    destruct (select (has_prev h) t1) as [c|]; [|by eauto].
    destruct Hsel as (_ & Hc & Hcp). unfold q_prev in Hcp. apply bool_decide_eq_true in Hcp. rewrite Hn1 in Hc.
    assert (Hcz : nheight (node_of (row c)) = z + 1).
    { rewrite (child_height _ HN _ m Hc Hm); [by rewrite Hz|by rewrite Hh]. }
    apply (IH _ t1 (node_of (row c)) (z + 1)); rewrite ?Hn1; [done..|].
    assert (above (z + 1) (nodes t) < above z (nodes t))%nat; [|lia].
    apply (filter_lt _ _ _ m); [lia|done|lia|lia].
Qed.

Lemma above_length z N : (above z N ≤ length N)%nat.
Proof. apply length_filter. Qed.
Lemma below_length z N : (below z N ≤ length N)%nat.
Proof. apply length_filter. Qed.
Lemma length_nodes t : length (nodes t) = length t.
Proof. apply length_map. Qed.

Lemma missing_ancestor_total z h t m :
  consistent (nodes t) → m ∈ nodes t → nhash m = h → ∃ t', missing_ancestor z h t = Val t'.
Proof.
  intros HN Hm Hh. unfold missing_ancestor.
  apply (orphan_children_total _ _ _ m (nheight m)); rewrite ?nodes_update by done; [done..|].
  etransitivity; [apply above_length|]. rewrite length_nodes, length_update. lia.
Qed.

Lemma activate_total fuel next cur curh t m :
  consistent (nodes t) → keys_unique (nodes t) → m ∈ nodes t → nkey m = (cur, curh) →
  (below curh (nodes t) ≤ fuel)%nat → ∃ t', activate fuel next cur curh t = Val t'.
Proof.
  revert next cur curh t m. induction fuel as [|fuel IH]; intros next cur curh t m HN HK Hm Hk Hf;
    pose proof Hk as Hmk; destruct m as [[mh mz] mp]; cbn in Hmk; injection Hmk as -> ->.
  - exfalso. unfold below in Hf.
    assert (Hin : (cur, curh, mp) ∈ filter (λ n, nheight n ≤ curh) (nodes t))
      by (apply list_elem_of_filter; split; [done|done]).
    destruct (filter _ (nodes t)); [by apply elem_of_nil in Hin|cbn in Hf; lia].
  - cbn [activate]. set (t1 := update _ _ t). assert (Hn1 : nodes t1 = nodes t) by by apply nodes_update.
    destruct (returning_key cur curh t1) as [(c & -> & Hc & Hck)|[_ Hno]]; [by rewrite Hn1| |].
    2:{ exfalso. apply (Hno (cur, curh, mp)); [by rewrite Hn1|done]. }
    cbn [mbind gores_bind]. set (t2 := update _ _ t1). assert (Hn2 : nodes t2 = nodes t).
    { unfold t2. by rewrite nodes_update. }
    destruct (returning_key (PrevHash (row c)) (curh - 1) t2) as [(p & -> & Hp & Hpk)|[-> Hno]];
      [by rewrite Hn2|..]; cbn [mbind gores_bind].
    + destruct (IsOrphan (row p)); [|by eauto].
      assert (Hpn : node_of (row p) ∈ nodes t).
      { rewrite <-Hn2. by apply (list_elem_of_fmap_2 (fun r => node_of (row r))). }
      injection Hpk as Hph Hpz. rewrite Hpz.
      apply (IH _ _ _ _ (node_of (row p))); rewrite ?nodes_update, ?Hn2 by done; [done..| |].
      * unfold nkey. cbn. by rewrite Hpz.
      * assert (below (curh - 1) (nodes t) < below curh (nodes t))%nat; [|lia].
        apply (filter_lt _ _ _ (cur, curh, mp)); [lia|done|cbn; lia|cbn; lia].
    + apply (missing_ancestor_total _ _ _ (cur, curh, mp)); rewrite ?nodes_update, ?Hn2 by done; done.
Qed.

Lemma validate_ancestors_total b t :
  consistent (nodes t) → keys_unique (nodes t) → node_of b ∈ nodes t → ∃ t', validate_ancestors b t = Val t'.
Proof.
  intros HN HK Hb. unfold validate_ancestors.
  pose proof (select_node (has_hash (PrevHash b)) (q_hash (PrevHash b)) t ltac:(done)) as Hsel.
  destruct (select _ t) as [p|]; [|by apply (missing_ancestor_total _ _ _ (node_of b))].
  destruct (IsOrphan (row p)); [|by eauto]. destruct Hsel as (_ & Hp & _).
  apply (activate_total _ _ _ _ _ (node_of (row p))); [done..|].
  rewrite <-(length_nodes t). apply below_length.
Qed.

(** ** Activating a branch keeps the chain linked *)

Lemma linked_below C z : linked C → linked (fun n => C n ∧ nheight n < z).
Proof.
  intros HC r s [Hr Hrz] [Hs Hsz] Hlt. destruct (HC r s Hr Hs Hlt) as (p & Hp & Hh & Hz).
  exists p. split_and!; [done|lia|done|done].
Qed.

Lemma linked_ext (C D : node → Prop) : (∀ n, C n ↔ D n) → linked C → linked D.
Proof.
  intros H HC r s Hr%H Hs%H Hlt. destruct (HC r s Hr Hs Hlt) as (p & Hp%H & ?). by exists p.
Qed.

(** The state of the loop: the main chain above [z] is the column over the
    block with hash [h] at [z + 1], below it is linked, and nodes off the main
    chain have one child at most. *)
Record reorg (N : list node) (C : node → Prop) (z top : Z) (next cur : string) : Prop := {
  re_column : column N C (z + 1) top next;
  re_base : ∀ r, C r → nheight r = z + 1 → nprev r = cur;
  re_below : linked (fun n => C n ∧ nheight n ≤ z);
  re_only : ∀ n, n ∈ N → nheight n ≤ z → ¬ C n → only_child N (nhash n);
  re_top : z < top;
}.

Lemma column_ext N (C D : node → Prop) z top h :
  (∀ n, C n ↔ D n) → column N C z top h → column N D z top h.
Proof.
  intros H [C1 C2 C3 C4]. split.
  - intros r Hr%H. by apply C1.
  - intros r Hr%H Hz. destruct (C2 r Hr Hz) as (p & Hp%H & ?). by exists p.
  - intros r Hr%H. by apply C3.
  - intros r Hr%H. by apply C4.
Qed.

(** Below a missing block nothing changes, above it nothing stays. *)
Lemma missing_ancestor_canon z h t t' top m :
  consistent (nodes t) → column (nodes t) (canon t) (z + 1) top h → m ∈ nodes t → nkey m = (h, z + 1) →
  missing_ancestor z h t = Val t' → ∀ n, canon t' n ↔ canon t n ∧ nheight n < z.
Proof.
  intros HN [C1 C2 C3 C4] Hm Hk. unfold missing_ancestor. set (t1 := update _ _ t).
  assert (Hn1 : nodes t1 = nodes t) by by apply nodes_update.
  assert (Hc1 : ∀ n, canon t1 n ↔ canon t n ∧ nheight n ≠ z).
  { intros n. unfold t1. rewrite (canon_update_orphan _ (q_height z)) by done.
    unfold q_height. by rewrite Z.eqb_neq. }
  intros H n. rewrite (orphan_children_column (S (length t1)) h t1 t' (z + 1) top); [|..|exact H].
  - rewrite Hc1. split; [intros [[? ?] ?]; split; [done|lia]|intros [? ?]; split; [split; [done|lia]|lia]].
  - by rewrite Hn1.
  - rewrite Hn1. split.
    + intros r [Hr _]%Hc1. by apply C1.
    + intros r [Hr _]%Hc1 Hz. destruct (C2 r Hr Hz) as (p & Hp & Hh & Hpz). exists p.
      split_and!; [|done|done]. apply Hc1. split; [done|lia].
    + intros r [Hr _]%Hc1. by apply C3.
    + intros r [Hr _]%Hc1. by apply C4.
  - exists m. destruct m as [[? ?] ?]. cbn in Hk. injection Hk as -> ->. by rewrite Hn1.
Qed.

(** The block with a hash and height is not stored, or its ancestors lead over
    stored blocks off the main chain to one, at height [lo], that is not. *)
Inductive dangling (N : list node) (C : node → Prop) : string → Z → Z → Prop :=
| dangling_missing h z : (∀ n, n ∈ N → nkey n ≠ (h, z)) → dangling N C h z z
| dangling_step p lo : p ∈ N → ¬ C p → dangling N C (nprev p) (nheight p - 1) lo → dangling N C (nhash p) (nheight p) lo.

Lemma dangling_le N C h z lo : dangling N C h z lo → lo ≤ z.
Proof. induction 1; lia. Qed.

Lemma dangling_ext N (C D : node → Prop) h z lo :
  (∀ n, nheight n ≤ z → C n ↔ D n) → dangling N C h z lo → dangling N D h z lo.
Proof.
  intros H Hd. induction Hd as [h z Hno|p lo Hp HC Hd IH]; [by constructor|].
  apply dangling_step; [done|intros HD; apply HC, H; [lia|done]|]. apply IH. intros n Hn. apply H. lia.
Qed.

Lemma dangling_stored N C p lo :
  keys_unique N → p ∈ N → dangling N C (nhash p) (nheight p) lo →
  ¬ C p ∧ dangling N C (nprev p) (nheight p - 1) lo.
Proof.
  intros HK Hp Hd. inversion Hd as [h z Hno E1 E2|q lo' Hq HC Hd' E1 E2].
  - exfalso. apply (Hno p Hp). by destruct p as [[? ?] ?].
  - assert (q = p) as ->; [|done]. apply (key_determines N); [done..|].
    destruct p as [[? ?] ?], q as [[? ?] ?]. cbn in *. by subst.
Qed.

(** Seating the parent [m] in an invariant state extends the column down. *)
Lemma seat_column N C z top next m (C' : node → Prop) :
  keys_unique N → one_per_height C → reorg N C z top next (nhash m) →
  m ∈ N → nheight m = z → ¬ C m →
  (∀ n, C' n ↔ seat N (nhash m) z C n) →
  column N C' z top (nhash m) ∧ (∀ r, C' r → nheight r = z → r = m) ∧
  (∀ n, nheight n < z → C' n ↔ C n) ∧ linked (fun n => C' n ∧ nheight n ≤ z - 1).
Proof.
  intros HK H1 [[R1 R2 R3 R4] Rb Rl Ro Rt] Hm Hmz HmC HC'.
  assert (Hmm : ∀ r, C' r → nheight r = z → r = m).
  { intros r [[_ Hz]|[Hr Hk]]%HC' Hrz; [done|]. apply (key_determines N); [done..|].
    destruct m as [[? ?] ?]. cbn in *. by subst. }
  assert (HmC' : C' m).
  { apply HC'. right. split; [done|]. destruct m as [[? ?] ?]. cbn in *. by subst. }
  assert (Hlow : ∀ n, nheight n ≠ z → C' n ↔ C n).
  { intros n Hz. rewrite HC'. unfold seat. split; [|by auto]. intros [[? _]|[_ Hk]]; [done|].
    destruct n as [[? ?] ?]. cbn in *. by injection Hk as -> ->. }
  split_and!; [split|done|intros n Hn; apply Hlow; lia|].
  - intros r Hr Hz. by rewrite (Hmm r Hr Hz).
  - intros r Hr Hz. apply Hlow in Hr; [|lia]. destruct (decide (nheight r = z + 1)) as [Hz1|].
    + exists m. split_and!; [done|symmetry; by apply Rb|lia].
    + destruct (R2 r Hr ltac:(lia)) as (p & Hp & Hh & Hpz). exists p. split_and!; [|done|done]. apply Hlow; [lia|done].
  - intros r Hr. destruct (decide (nheight r = z)); [lia|]. apply R3, Hlow; done.
  - intros r Hr Hz. destruct (decide (nheight r = z)) as [Hz0|].
    + rewrite (Hmm r Hr Hz0). apply Ro; [done|lia|done].
    + apply R4; [by apply Hlow|lia].
  - intros r s [Hr Hrz] [Hs Hsz] Hlt. apply Hlow in Hr, Hs; [|lia..].
    destruct (Rl r s) as (p & [Hp Hpz] & Hh & Hpz'); [split; [done|lia]..|done|].
    exists p. split_and!; [apply Hlow; [lia|done]|lia|done|done].
Qed.

(** A column over [m] standing on its parent [p] is linked. *)
Lemma column_linked N C z top m p :
  column N C z top (nhash m) → (∀ r, C r → nheight r = z → r = m) →
  linked (fun n => C n ∧ nheight n ≤ z - 1) → C p → nhash p = nprev m → nheight p = z - 1 → linked C.
Proof.
  intros [C1 C2 C3 C4] Hm Hl Hp Hph Hpz r s Hr Hs Hlt.
  destruct (Z_lt_le_dec z (nheight r)) as [Hz|Hz]; [by apply C2|].
  destruct (decide (nheight r = z)) as [Hrz|].
  - pose proof (Hm r Hr Hrz) as ->. exists p. split_and!; [done|done|lia].
  - destruct (Hl r s) as (q & [Hq Hqz] & Hqh & Hqz'); [split; [done|lia]..|done|]. by exists q.
Qed.

(** Where no block with the parent's key is stored, the walk over the parents
    ends at once. *)
Lemma dangling_here N C h z lo :
  (∀ n, n ∈ N → nkey n ≠ (h, z)) → dangling N C h z lo → lo = z.
Proof.
  intros Hno Hd. inversion Hd as [h' z' _ E1 E2|q lo' Hq _ _ E1 E2]; [done|].
  exfalso. apply (Hno q Hq). destruct q as [[? ?] ?]. cbn in *. by subst.
Qed.

Lemma below_agree (C D : node → Prop) z lo n :
  (∀ n, nheight n ≤ z → C n ↔ D n) → lo ≤ z + 1 → C n ∧ nheight n < lo ↔ D n ∧ nheight n < lo.
Proof. intros H Hlo. split; intros [Hx Hz]; (split; [apply H; [lia|done]|done]). Qed.

(** A missing parent cuts the main chain off at its height, whatever stood
    above. *)
Lemma missing_ancestor_cut z h t t' top m (C : node → Prop) :
  consistent (nodes t) → column (nodes t) (canon t) (z + 1) top h → m ∈ nodes t → nkey m = (h, z + 1) →
  linked (fun n => canon t n ∧ nheight n ≤ z) → (∀ n, nheight n ≤ z → canon t n ↔ C n) →
  missing_ancestor z h t = Val t' →
  linked (canon t') ∧ ∀ n, canon t' n ↔ C n ∧ nheight n < z.
Proof.
  intros HN Hcol Hm Hk Hlin Hlow H.
  pose proof (missing_ancestor_canon z h t t' top m HN Hcol Hm Hk H) as Hcan. split.
  - eapply (linked_ext (fun n => (canon t n ∧ nheight n ≤ z) ∧ nheight n < z)); [|by apply linked_below].
    intros n. rewrite Hcan. split; [tauto|]. intros [? ?]. split; [split|]; [done|lia|done].
  - intros n. rewrite Hcan. apply (below_agree _ _ z); [done|lia].
Qed.

(** One turn of the loop: [m] is seated at [z], and the loop goes on below. *)
Lemma reorg_down N (C C' : node → Prop) z top next m :
  reorg N C z top next (nhash m) →
  column N C' z top (nhash m) → (∀ r, C' r → nheight r = z → r = m) →
  (∀ n, nheight n < z → C' n ↔ C n) → linked (fun n => C' n ∧ nheight n ≤ z - 1) →
  reorg N C' (z - 1) top (nhash m) (nprev m).
Proof.
  intros [_ _ _ Ro Rt] Hcol Hbase Hlow Hlin. split.
  - by rewrite Z.sub_add.
  - intros r Hr Hz. by rewrite (Hbase r Hr ltac:(lia)).
  - done.
  - intros n Hn Hz Hnc. apply Ro; [done|lia|]. intros HC. apply Hnc, Hlow; [lia|done].
  - lia.
Qed.

Lemma activate_linked fuel next cur curh t t' top m :
  consistent (nodes t) → keys_unique (nodes t) → one_per_height (canon t) →
  reorg (nodes t) (canon t) curh top next cur →
  m ∈ nodes t → nkey m = (cur, curh) → ¬ canon t m →
  activate fuel next cur curh t = Val t' →
  linked (canon t') ∧
  ∀ lo, dangling (nodes t) (canon t) (nprev m) (curh - 1) lo → ∀ n, canon t' n ↔ canon t n ∧ nheight n < lo.
Proof.
  revert next cur curh t m. induction fuel as [|fuel IH]; intros next cur curh t m HN HK H1 Hre Hm Hk HmC;
    cbn [activate]; [done|].
  assert (Hmk : nhash m = cur ∧ nheight m = curh) by (destruct m as [[? ?] ?]; by injection Hk).
  destruct Hmk as [<- <-]. set (t1 := update _ _ t).
  assert (Hn1 : nodes t1 = nodes t) by by apply nodes_update.
  destruct (returning_key (nhash m) (nheight m) t1) as [(c & -> & Hc & Hck)|[_ Hno]]; [by rewrite Hn1| |].
  2:{ exfalso. apply (Hno m); [by rewrite Hn1|done]. }
  assert (Hcm : node_of (row c) = m).
  { apply (key_determines (nodes t)); [done| |done|congruence].
    rewrite <-Hn1. by apply (list_elem_of_fmap_2 (fun r => node_of (row r))). }
  assert (Hprev : PrevHash (row c) = nprev m) by (by rewrite <-Hcm).
  cbn [mbind gores_bind]. rewrite Hprev. set (t2 := update _ _ t1).
  assert (Hn2 : nodes t2 = nodes t) by (unfold t2; by rewrite nodes_update).
  set (t3 := update _ (λ r, set_next r _) t2).
  assert (Hn3 : nodes t3 = nodes t) by (unfold t3; by rewrite nodes_update).
  assert (Hc3 : ∀ n, canon t3 n ↔ canon t2 n) by (intros n; by apply canon_update_same).
  assert (Hseat : ∀ n, canon t3 n ↔ seat (nodes t) (nhash m) (nheight m) (canon t) n).
  { intros n. rewrite Hc3. apply canon_seat_after_orphan. }
  destruct (seat_column (nodes t) (canon t) (nheight m) top next m (canon t3))
    as (Hcol & Hbase & Hlow & Hlin); [done..|].
  assert (Hlow' : ∀ n, nheight n ≤ nheight m - 1 → canon t3 n ↔ canon t n) by (intros n ?; apply Hlow; lia).
  destruct (returning_key (nprev m) (nheight m - 1) t2) as [(p & -> & Hp & Hpk)|[-> Hno]];
    [by rewrite Hn2|..]; cbn [mbind gores_bind].
  - assert (Hpn : node_of (row p) ∈ nodes t).
    { rewrite <-Hn2. by apply (list_elem_of_fmap_2 (fun r => node_of (row r))). }
    pose proof Hpk as Hpk'. injection Hpk' as Hph Hpz.
    assert (Hpd : ∀ lo, dangling (nodes t) (canon t) (nprev m) (nheight m - 1) lo →
      ¬ canon t (node_of (row p)) ∧ dangling (nodes t) (canon t) (PrevHash (row p)) (nheight m - 1 - 1) lo).
    { intros lo. rewrite <-Hph, <-Hpz. by apply (dangling_stored _ _ (node_of (row p))). }
    destruct (IsOrphan (row p)) eqn:Hpo.
    + intros H. cbn in Hph, Hpz. rewrite Hpz, Hph in H.
      apply (IH (nhash m) (nprev m) (nheight m - 1) t3 (node_of (row p))) in H as [HL HD]; rewrite ?Hn3; try done.
      * split; [done|]. intros lo [_ Hlo]%Hpd n. pose proof (dangling_le _ _ _ _ _ Hlo) as Hle.
        rewrite (HD lo); [by apply (below_agree _ _ (nheight m - 1)); [|lia]|]. rewrite Hn3.
        eapply dangling_ext; [|exact Hlo]. intros x Hx. symmetry. apply Hlow. lia.
      * eapply one_per_height_mono; [intros n; apply Hseat|by apply seat_one_per_height].
      * by apply (reorg_down _ (canon t) _ _ _ next).
      * intros (r & Hr & Hrn & Hro)%Hc3. apply (row_determines t2) in Hrn; [|by rewrite Hn2|done..]. congruence.
    + assert (Hpc : canon t3 (node_of (row p))) by (apply Hc3; by exists p).
      intros [= <-]. split; [by eapply (column_linked _ _ _ _ m (node_of (row p)))|].
      intros lo [Hno _]%Hpd. destruct Hno. apply Hlow; [cbn in Hpz |- *; lia|done].
  - intros H. rewrite Hn2 in Hno.
    destruct (missing_ancestor_cut (nheight m - 1) (nhash m) t3 t' top m (canon t)) as [HL Hcan];
      rewrite ?Hn3, ?Z.sub_add; try done.
    split; [done|]. by intros lo ->%dangling_here.
Qed.

(** ** block_insert as a whole *)

Lemma last_block_height_spec t :
  match last_block_height t with
  | Some l => ∀ n, canon t n → nheight n ≤ l
  | None => ∀ n, ¬ canon t n
  end.
Proof.
  assert (Hcons : ∀ r t n, canon (r :: t) n ↔ (node_of (row r) = n ∧ IsOrphan (row r) = false) ∨ canon t n).
  { clear. intros r t n. unfold canon. split.
    - intros (s & [->|Hs]%elem_of_cons & Hn & Ho); [by left|right; by exists s].
    - intros [[Hn Ho]|(s & Hs & Hn & Ho)]; [exists r|exists s]; rewrite elem_of_cons; auto. }
  induction t as [|r t IH].
  - intros n (s & Hs & _). by apply elem_of_nil in Hs.
  - cbn [last_block_height fold_right]. fold (last_block_height t). unfold on_chain.
    destruct (IsOrphan (row r)) eqn:Ho; cbn [negb].
    + destruct (last_block_height t); intros n [[_ ?]|Hn]%Hcons; [congruence|by apply IH|congruence|].
      by apply IH in Hn.
    + destruct (last_block_height t); intros n [[<- _]|Hn]%Hcons; [cbn; lia|specialize (IH _ Hn); lia|done|].
      by apply IH in Hn.
Qed.

Lemma last_block_height_attained t l : last_block_height t = Some l → ∃ n, canon t n ∧ nheight n = l.
Proof.
  revert l. induction t as [|r t IH]; intros l; [done|].
  cbn [last_block_height fold_right]. fold (last_block_height t). unfold on_chain.
  assert (Hup : ∀ n, canon t n → canon (r :: t) n).
  { intros n (s & Hs & ?). exists s. by split; [right|]. }
  destruct (IsOrphan (row r)) eqn:Ho; cbn [negb].
  - intros (n & Hn & Hz)%IH. exists n. auto.
  - intros [= <-].
    assert (Hr : canon (r :: t) (node_of (row r))) by (exists r; by split; [left|]).
    destruct (last_block_height t) as [l|]; [|by exists (node_of (row r))].
    destruct (Z.max_spec (Height (row r)) l) as [[_ ->]|[_ ->]]; [|by exists (node_of (row r))].
    destruct (IH l eq_refl) as (n & Hn & Hz). exists n. auto.
Qed.

Lemma consistent_sub N N' : (∀ n, n ∈ N' → n ∈ N) → consistent N → consistent N'.
Proof. intros H [H1 H2]. split; intros n m Hn%H Hm%H; auto. Qed.

(** What the statements before the insertion leave when the block is not below
    the tip: it is the new tip. *)
Lemma seat_linked N b (C : node → Prop) :
  linked C → (∀ n, C n → nheight n ≤ Height b) →
  node_of b ∈ N → keys_unique N →
  (∃ p, C p ∧ nhash p = PrevHash b ∧ nheight p = Height b - 1) ∨ (∀ n, C n → Height b ≤ nheight n) →
  linked (seat N (Hash b) (Height b) C).
Proof.
  intros HC Hle Hb HK Hpar r s Hr Hs Hlt.
  assert (Hsb : nheight s < Height b).
  { assert (nheight r ≤ Height b); [|lia]. destruct Hr as [[Hr _]|[_ Hk]]; [by apply Hle|].
    destruct r as [[? ?] ?]. cbn in *. injection Hk as -> ->. done. }
  destruct Hs as [[Hs _]|[_ Hk]]; [|destruct s as [[? ?] ?]; cbn in *; injection Hk as -> ->; lia].
  destruct Hr as [[Hr Hz]|[Hr Hk]].
  - destruct (HC r s Hr Hs Hlt) as (p & Hp & Hh & Hpz). exists p. split_and!; [left; split; [done|]|done|done].
    specialize (Hle r Hr). lia.
  - assert (r = node_of b) as -> by (apply (key_determines N); done).
    destruct Hpar as [(p & Hp & Hh & Hpz)|Hlow]; [|specialize (Hlow s Hs); lia].
    exists p. split_and!; [left; split; [done|lia]|done|done].
Qed.

Lemma block_insert_returns b t :
  table_ok t → consistent (node_of b :: nodes (rows t)) → columns_fit b = true →
  (∀ n, canon (rows t) n → nheight n ≤ Height b) →
  ∃ id t', block_insert b false t = Val (id, t').
Proof.
  intros Hok Hcon Hcol Hle. unfold block_insert. rewrite Hcol. cbn [negb].
  assert (match last_block_height (rows t) with Some last => (Height b <? last) && true | None => false end = false) as ->.
  { destruct (last_block_height (rows t)) as [l|] eqn:Hl; [|done]. rewrite andb_true_r. apply Z.ltb_ge.
    destruct (last_block_height_attained _ _ Hl) as (n & Hn & <-). by apply Hle. }
  destruct (returning_key (Hash b) (Height b) (link_previous b (rows t))) as [(r & -> & _)|[-> Hno]];
    [rewrite (proj1 (proj1 (link_previous_canon b (rows t)))); apply Hok|by eauto|].
  cbn [mbind gores_bind]. fold (seated b (rows t)).
  destruct (last_block_height (rows t)); [|by cbn; eauto].
  rewrite (proj1 (proj1 (link_previous_canon b (rows t)))) in Hno.
  destruct (seated_snoc b (rows t) (block_next_id t) (ok_keys _ Hok) (ok_heights _ Hok) Hno) as (HK4 & _ & _).
  destruct (validate_ancestors_total b (seated b (rows t) ++ [{| row_id := block_next_id t; row := set_orphan b false |}]))
    as (t5 & Ht5); [|done| |].
  - rewrite nodes_snoc, (proj1 (seated_shape b (rows t))). eapply consistent_sub; [|exact Hcon].
    intros n. rewrite elem_of_app, list_elem_of_singleton, elem_of_cons. tauto.
  - rewrite nodes_snoc, elem_of_app, list_elem_of_singleton. by right.
  - rewrite Ht5. cbn. by eauto.
Qed.

(** The walk over the parents is the same with a block stored above it. *)
Lemma dangling_grow N N' (C C' : node → Prop) b h z lo :
  (∀ n, n ∈ N' ↔ n ∈ b :: N) → (∀ n, nheight n < nheight b → C' n ↔ C n) → z < nheight b →
  dangling N C h z lo → dangling N' C' h z lo.
Proof.
  intros HN HC Hz Hd. induction Hd as [h z Hno|p lo Hp HpC Hd IH].
  - apply dangling_missing. intros n [->|Hn]%HN%elem_of_cons; [|by apply Hno].
    intros Hk. destruct b as [[? ?] ?]. injection Hk as _ ->. cbn in Hz. lia.
  - apply dangling_step; [apply HN; by right|by rewrite HC|]. apply IH. lia.
Qed.

(** The table with the new block seated is where the loop starts. *)
Lemma seated_reorg b t i :
  let t' := seated b t ++ [{| row_id := i; row := set_orphan b false |}] in
  keys_unique (nodes t) → one_per_height (canon t) → linked (canon t) →
  (∀ n, n ∈ nodes t → nkey n ≠ (Hash b, Height b)) →
  (∀ n, canon t n → nheight n ≤ Height b) →
  (∀ n, n ∈ nodes t → ¬ canon t n → only_child (node_of b :: nodes t) (nhash n)) →
  (∀ n, n ∈ nodes t' ↔ n ∈ node_of b :: nodes t) ∧
  (∀ n, nheight n < Height b → canon t' n ↔ canon t n) ∧
  (∀ r, canon t' r → nheight r = Height b → r = node_of b) ∧
  reorg (nodes t') (canon t') (Height b - 1) (Height b) (Hash b) (PrevHash b).
Proof.
  intros t' HK H1 HL Hnew Hle Honly.
  destruct (seated_snoc b t i HK H1 Hnew) as (_ & _ & Hc). fold t' in Hc.
  assert (Hn : ∀ n, n ∈ nodes t' ↔ n ∈ node_of b :: nodes t).
  { intros n. unfold t'. rewrite nodes_snoc, (proj1 (seated_shape b t)), elem_of_app, list_elem_of_singleton, elem_of_cons.
    tauto. }
  assert (Hlow : ∀ n, nheight n < Height b → canon t' n ↔ canon t n).
  { intros n Hz. rewrite Hc. split; [intros [[? _]| ->]; [done|cbn in Hz; lia]|]. intros Hx. left. split; [done|lia]. }
  assert (Hat : ∀ r, canon t' r → nheight r = Height b → r = node_of b) by by intros r [[_ Hz]| ->]%Hc Hrz.
  split_and!; [done..|]. split.
  - rewrite Z.sub_add. split.
    + intros r Hr Hz. by rewrite (Hat r Hr Hz).
    + intros r [[Hr Hz]| ->]%Hc Hrz; [specialize (Hle r Hr); lia|cbn in Hrz; lia].
    + intros r [[Hr _]| ->]%Hc; [by apply Hle|cbn; lia].
    + intros r _ ?. lia.
  - intros r Hr Hz. by rewrite (Hat r Hr ltac:(lia)).
  - intros r s [Hr Hrz] [Hs Hsz] Hlt. apply Hlow in Hr, Hs; [|lia..].
    destruct (HL r s Hr Hs Hlt) as (p & Hp & Hh & Hz). exists p. split_and!; [apply Hlow; [lia|done]|lia|done|done].
  - intros n [->|Hx]%Hn%elem_of_cons Hz Hnc; [cbn in Hz; lia|].
    intros x y Hx'%Hn Hy%Hn. apply Honly; [done|rewrite <-Hlow by lia; done|done|done].
  - lia.
Qed.

Lemma validate_ancestors_linked b t i t' :
  keys_unique (nodes t) → one_per_height (canon t) → linked (canon t) →
  consistent (node_of b :: nodes t) →
  (∀ n, n ∈ nodes t → nkey n ≠ (Hash b, Height b)) →
  (∀ n, canon t n → nheight n ≤ Height b) →
  (∀ n, n ∈ nodes t → ¬ canon t n → only_child (node_of b :: nodes t) (nhash n)) →
  validate_ancestors b (seated b t ++ [{| row_id := i; row := set_orphan b false |}]) = Val t' →
  linked (canon t') ∧
  ∀ lo, dangling (nodes t) (canon t) (PrevHash b) (Height b - 1) lo → ∀ n, canon t' n ↔ canon t n ∧ nheight n < lo.
Proof.
  intros HK H1 HL Hcon Hnew Hle Honly.
  destruct (seated_snoc b t i HK H1 Hnew) as (HK4 & H14 & _).
  destruct (seated_reorg b t i HK H1 HL Hnew Hle Honly) as (Hn4 & Hlow & Hat & Hre).
  set (t4 := seated b t ++ _) in *.
  assert (Hcon4 : consistent (nodes t4)) by (eapply consistent_sub; [intros n; apply Hn4|done]).
  assert (Hb4 : node_of b ∈ nodes t4) by (apply Hn4; left).
  assert (Hlow' : ∀ n, nheight n ≤ Height b - 1 → canon t4 n ↔ canon t n) by (intros n ?; apply Hlow; lia).
  unfold validate_ancestors.
  pose proof (select_node (has_hash (PrevHash b)) (q_hash (PrevHash b)) t4 ltac:(done)) as Hsel.
  destruct (select _ t4) as [p|].
  - destruct Hsel as (Hp & Hpn & Hph). unfold q_hash in Hph. apply bool_decide_eq_true in Hph.
    pose proof (child_height _ Hcon4 (node_of b) (node_of (row p)) Hb4 Hpn ltac:(done)) as Hpz. cbn in Hph, Hpz.
    assert (Hpd : ∀ lo, dangling (nodes t) (canon t) (PrevHash b) (Height b - 1) lo →
      ¬ canon t4 (node_of (row p)) ∧ dangling (nodes t4) (canon t4) (nprev (node_of (row p))) (Height (row p) - 1) lo).
    { intros lo Hlo. apply (dangling_grow _ (nodes t4) _ (canon t4) (node_of b)) in Hlo; [|done|done|cbn; lia].
      rewrite <-Hph in Hlo. replace (Height b - 1) with (Height (row p)) in Hlo by lia.
      by apply (dangling_stored _ _ (node_of (row p))) in Hlo. }
    replace (Height b - 1) with (Height (row p)) in Hre, Hlow' by lia.
    destruct (IsOrphan (row p)) eqn:Hpo.
    + intros H. apply (activate_linked _ _ _ _ _ _ (Height b) (node_of (row p)) Hcon4 HK4 H14) in H as [HL' HD];
        [|by rewrite Hph|done|done|].
      * split; [done|]. intros lo [_ Hlo]%Hpd n. pose proof (dangling_le _ _ _ _ _ Hlo) as Hlolo.
        rewrite (HD lo Hlo). apply (below_agree _ _ (Height (row p))); [done|lia].
      * intros (r & Hr & Hrn & Hro). apply (row_determines t4) in Hrn; [|done..]. congruence.
    + intros [= <-]. split; [|intros lo [Hno _]%Hpd; destruct Hno; by exists p].
      destruct Hre as [Hcol _ Hlin _ _]. replace (Height (row p) + 1) with (Height b) in Hcol by lia.
      replace (Height (row p)) with (Height b - 1) in Hlin by lia.
      apply (column_linked (nodes t4) (canon t4) (Height b) (Height b) (node_of b) (node_of (row p)));
        [done..|by exists p|done|cbn; lia].
  - destruct Hre as [Hcol _ Hlin _ _]. intros H.
    destruct (missing_ancestor_cut (Height b - 1) (Hash b) t4 t' (Height b) (node_of b) (canon t)) as [HL' Hcan];
      [done..|by rewrite Z.sub_add|done|done|done|].
    split; [done|]. intros lo ->%dangling_here; [done|]. intros q Hq Hqk.
    specialize (Hsel q ltac:(apply Hn4; by right)). unfold q_hash in Hsel. apply bool_decide_eq_false in Hsel.
    destruct q as [[? ?] ?]. by injection Hqk.
Qed.

(** ** Blocks whose ancestors are stored become the tip *)

(** The block with a hash and height is stored, and so are its ancestors down
    to one on the main chain. *)
Inductive rooted (N : list node) (C : node → Prop) : string → Z → Prop :=
| rooted_main p : p ∈ N → C p → rooted N C (nhash p) (nheight p)
| rooted_step p : p ∈ N → ¬ C p → rooted N C (nprev p) (nheight p - 1) → rooted N C (nhash p) (nheight p).

Lemma rooted_ext N (C D : node → Prop) h z :
  (∀ n, nheight n ≤ z → C n ↔ D n) → rooted N C h z → rooted N D h z.
Proof.
  intros H Hr. induction Hr as [p Hp HC|p Hp HC Hr IH].
  - apply rooted_main; [done|]. apply H; [lia|done].
  - apply rooted_step; [done| |].
    + intros HD. apply HC, H; [lia|done].
    + apply IH. intros n Hn. apply H. lia.
Qed.

Lemma rooted_inv N C h z : rooted N C h z → ∃ p, p ∈ N ∧ nkey p = (h, z).
Proof. intros [p Hp _|p Hp _ _]; exists p; (split; [done|]); by destruct p as [[? ?] ?]. Qed.

Lemma activate_keeps fuel next cur curh t t' m :
  keys_unique (nodes t) → m ∈ nodes t → nkey m = (cur, curh) → ¬ canon t m →
  rooted (nodes t) (canon t) (nprev m) (curh - 1) →
  activate fuel next cur curh t = Val t' → ∀ n, canon t n → curh < nheight n → canon t' n.
Proof.
  revert next cur curh t m. induction fuel as [|fuel IH]; intros next cur curh t m HK Hm Hk HmC Hroot;
    cbn [activate]; [done|].
  set (t1 := update _ _ t). assert (Hn1 : nodes t1 = nodes t) by by apply nodes_update.
  destruct (returning_key cur curh t1) as [(c & -> & Hc & Hck)|[_ Hno]]; [by rewrite Hn1| |].
  2:{ exfalso. apply (Hno m); [by rewrite Hn1|done]. }
  assert (Hcm : node_of (row c) = m).
  { apply (key_determines (nodes t)); [done| |done|congruence].
    rewrite <-Hn1. by apply (list_elem_of_fmap_2 (fun r => node_of (row r))). }
  cbn [mbind gores_bind]. set (t2 := update _ _ t1).
  assert (Hn2 : nodes t2 = nodes t) by (unfold t2; by rewrite nodes_update).
  assert (Hc2 : ∀ n, nheight n ≠ curh → canon t2 n ↔ canon t n).
  { intros n Hz. unfold t2, t1. rewrite canon_seat_after_orphan. unfold seat. split; [|by auto].
    intros [[? _]|[_ Hnk]]; [done|]. destruct n as [[? ?] ?]. cbn in *. by injection Hnk. }
  assert (Hprev : PrevHash (row c) = nprev m) by (by rewrite <-Hcm). rewrite Hprev.
  set (t3 := update _ (λ r, set_next r _) t2).
  assert (Hn3 : nodes t3 = nodes t) by (unfold t3; by rewrite nodes_update).
  assert (Hc3 : ∀ n, canon t3 n ↔ canon t2 n) by (intros n; by apply canon_update_same).
  destruct (returning_key (nprev m) (curh - 1) t2) as [(p & -> & Hp & Hpk)|[_ Hno]]; [by rewrite Hn2|..].
  2:{ exfalso. destruct (rooted_inv _ _ _ _ Hroot) as (p & Hp & Hpk). apply (Hno p); [by rewrite Hn2|done]. }
  cbn [mbind gores_bind]. pose proof Hpk as Hpk'. injection Hpk' as Hph Hpz.
  assert (Hpn : node_of (row p) ∈ nodes t).
  { rewrite <-Hn2. by apply (list_elem_of_fmap_2 (fun r => node_of (row r))). }
  destruct (IsOrphan (row p)) eqn:Hpo.
  - intros H n Hn Hz. rewrite Hph, Hpz in H.
    assert (Hpc : ¬ canon t3 (node_of (row p))).
    { intros (r & Hr & Hrn & Hro)%Hc3. apply (row_determines t2) in Hrn; [|by rewrite Hn2|done..]. congruence. }
    apply (IH cur (nprev m) (curh - 1) t3 (node_of (row p))); rewrite ?Hn3; try done; [|apply Hc3, Hc2; [lia|done]|lia].
    + apply (rooted_ext _ (canon t)).
      { intros x Hx. rewrite Hc3. symmetry. apply Hc2. lia. }
      inversion Hroot as [q Hq HqC Hqh Hqz|q Hq HqC Hr Hqh Hqz].
      * exfalso. apply Hpc, Hc3, Hc2; [cbn; lia|].
        assert (node_of (row p) = q) as ->; [|done]. apply (key_determines (nodes t)); [done..|].
        rewrite Hpk. destruct q as [[? ?] ?]. cbn in *. by subst.
      * assert (node_of (row p) = q) as Heq; [|by rewrite Heq].
        apply (key_determines (nodes t)); [done..|].
        rewrite Hpk. destruct q as [[? ?] ?]. cbn in *. by subst.
  - intros [= <-] n Hn Hz. apply Hc3, Hc2; [lia|done].
Qed.

Lemma validate_ancestors_keeps b t t' :
  consistent (nodes t) → keys_unique (nodes t) → node_of b ∈ nodes t → canon t (node_of b) →
  rooted (nodes t) (canon t) (PrevHash b) (Height b - 1) →
  validate_ancestors b t = Val t' → canon t' (node_of b).
Proof.
  intros Hcon HK Hb HbC Hroot. unfold validate_ancestors.
  pose proof (select_node (has_hash (PrevHash b)) (q_hash (PrevHash b)) t ltac:(done)) as Hsel.
  destruct (rooted_inv _ _ _ _ Hroot) as (q & Hq & Hqk).
  destruct (select _ t) as [p|].
  - destruct Hsel as (Hp & Hpn & Hph). unfold q_hash in Hph. apply bool_decide_eq_true in Hph.
    assert (node_of (row p) = q).
    { apply (hash_unique _ Hcon); [done..|]. destruct q as [[? ?] ?]. cbn in *. injection Hqk as -> ->. done. }
    subst q. cbn in Hqk. injection Hqk as Hph' Hpz.
    destruct (IsOrphan (row p)) eqn:Hpo; [|by intros [= <-]].
    intros H. assert (HpC : ¬ canon t (node_of (row p))).
    { intros (r & Hr & Hrn & Hro). apply (row_determines t) in Hrn; [|done..]. congruence. }
    apply (activate_keeps _ _ _ _ _ _ (node_of (row p)) HK Hpn eq_refl HpC) with (n := node_of b) in H; [done| |done|cbn; lia].
    cbn [nprev node_of snd]. rewrite Hpz.
    inversion Hroot as [x Hx HxC Hxh Hxz|x Hx HxC Hr Hxh Hxz].
    + exfalso. apply HpC. assert (node_of (row p) = x) as ->; [|done].
      apply (hash_unique _ Hcon); [done..|]. by rewrite Hxh.
    + assert (node_of (row p) = x) as Heq; [apply (hash_unique _ Hcon); [done..|]; by rewrite Hxh|].
      rewrite <-Heq in Hr |- *. exact Hr.
  - intros _. exfalso. specialize (Hsel q Hq). unfold q_hash in Hsel. apply bool_decide_eq_false in Hsel.
    destruct q as [[? ?] ?]. cbn in *. by injection Hqk as -> ->.
Qed.

(** ** A second call changes nothing *)

Lemma update_id p f t : (∀ r, r ∈ t → p (row r) = true → f (row r) = row r) → update p f t = t.
Proof.
  induction t as [|r t IH]; [done|]. intros H. cbn. f_equal.
  - destruct (p (row r)) eqn:Hp; [|done]. rewrite (H r); [by destruct r|left|done].
  - apply IH. intros s Hs. apply H. by right.
Qed.

(** What the statements before the insertion establish. *)
Record settled (b : BlockHeader) (t : list block_row) : Prop := {
  set_parent : ∀ r, r ∈ t → IsOrphan (row r) = false → Height (row r) = Height b - 1 → 0 < Height b →
    NextHash (row r) = Hash b;
  set_block : ∀ r, r ∈ t → Hash (row r) = Hash b → Height (row r) = Height b →
    NextHash (row r) = NextHash b ∧ IsOrphan (row r) = false;
  set_siblings : ∀ r, r ∈ t → Hash (row r) ≠ Hash b → Height (row r) = Height b → IsOrphan (row r) = true;
}.

Lemma settled_seated b t : settled b t → seated b t = t ∧ link_previous b t = t.
Proof.
  intros [Hp Hb Hs]. assert (Hl : link_previous b t = t).
  { unfold link_previous. rewrite Z.gtb_ltb. destruct (Z.ltb_spec 0 (Height b)); [|done].
    destruct (select _ t) as [p|]; [|done]. apply update_id. intros r Hr H1.
    apply andb_true_iff in H1 as [[[_ Hz]%andb_true_iff Hn]%andb_true_iff Ho].
    unfold has_height in Hz. apply Z.eqb_eq in Hz. unfold on_chain in Ho. apply negb_true_iff in Ho, Hn.
    apply bool_decide_eq_false in Hn. by destruct Hn; apply Hp. }
  split; [|done]. unfold seated, orphan_siblings. rewrite Hl, !(update_id _ _ t).
  - done.
  - intros r Hr [H1 H2]%andb_true_iff. unfold has_hash, has_height in *.
    apply negb_true_iff, bool_decide_eq_false in H1. apply Z.eqb_eq in H2. specialize (Hs r Hr H1 H2).
    destruct (row r); cbn in *. by subst.
  - intros r Hr [H1 H2]%andb_true_iff. unfold has_hash, has_height in *.
    apply bool_decide_eq_true in H1. apply Z.eqb_eq in H2. destruct (Hb r Hr H1 H2) as [E1 E2].
    destruct (row r); cbn in *. by subst.
Qed.

Lemma link_previous_rows b t r :
  one_per_height (canon t) → r ∈ link_previous b t → IsOrphan (row r) = false →
  Height (row r) = Height b - 1 → 0 < Height b → NextHash (row r) = Hash b.
Proof.
  intros H1. unfold link_previous. rewrite Z.gtb_ltb. destruct (Z.ltb_spec 0 (Height b)) as [Hpos|]; [|lia].
  destruct (select _ t) as [p|] eqn:Hsel.
  - intros (s & Hs & ->)%elem_of_update Ho Hz _.
    unfold select in Hsel. apply find_some in Hsel as [Hp Hpc]. apply list_elem_of_In in Hp.
    apply andb_true_iff in Hpc as [Hpo Hpz]. unfold on_chain in Hpo. apply negb_true_iff in Hpo.
    unfold has_height in Hpz. apply Z.eqb_eq in Hpz.
    destruct (_ && _) eqn:Hc; [done|].
    assert (Heq : node_of (row s) = node_of (row p)).
    { apply H1; [by exists s|by exists p|cbn; lia]. }
    unfold has_hash, has_height, on_chain in Hc. injection Heq as E1 E2 E3.
    rewrite E1, bool_decide_true, Hz, Z.eqb_refl, Ho, andb_true_r in Hc by done. cbn in Hc.
    apply negb_false_iff, bool_decide_eq_true in Hc. done.
  - intros Hr Ho Hz _. exfalso. unfold select in Hsel.
    pose proof (find_none _ _ Hsel r (proj1 (list_elem_of_In _ _) Hr)) as Hn. cbn in Hn.
    unfold on_chain, has_height in Hn. by rewrite Ho, Hz, Z.eqb_refl in Hn.
Qed.

Lemma seated_settled b t : one_per_height (canon t) → settled b (seated b t).
Proof.
  intros H1. unfold seated, orphan_siblings. split.
  - intros r (s & Hs & ->)%elem_of_update.
    destruct (_ && _) eqn:Hc; [done|]. apply elem_of_update in Hs as (s' & Hs' & ->).
    destruct (has_hash (Hash b) (row s') && has_height (Height b) (row s')) eqn:Hc'.
    + cbn. apply andb_true_iff in Hc' as [_ Hz]. unfold has_height in Hz. apply Z.eqb_eq in Hz. lia.
    + by apply (link_previous_rows b t).
  - intros r (s & Hs & ->)%elem_of_update.
    destruct (negb (has_hash (Hash b) (row s)) && has_height (Height b) (row s)) eqn:Hc.
    + cbn. intros Hh. apply andb_true_iff in Hc as [Hc _]. apply negb_true_iff in Hc.
      unfold has_hash in Hc. by apply bool_decide_eq_false in Hc.
    + apply elem_of_update in Hs as (s' & Hs' & ->).
      destruct (has_hash (Hash b) (row s') && has_height (Height b) (row s')) eqn:Hc'; [done|].
      intros Hh Hz. unfold has_hash, has_height in Hc'. by rewrite Hh, Hz, bool_decide_true, Z.eqb_refl in Hc'.
  - intros r (s & Hs & ->)%elem_of_update.
    destruct (negb (has_hash (Hash b) (row s)) && has_height (Height b) (row s)) eqn:Hc; [done|].
    intros Hh Hz. unfold has_hash, has_height in Hc. by rewrite Hz, Z.eqb_refl, bool_decide_false in Hc.
Qed.

Lemma not_below_tip b t :
  (∀ n, canon t n → nheight n ≤ Height b) →
  match last_block_height t with Some last => (Height b <? last) && true | None => false end = false.
Proof.
  intros Hle. destruct (last_block_height t) as [l|] eqn:Hl; [|done]. rewrite andb_true_r. apply Z.ltb_ge.
  destruct (last_block_height_attained _ _ Hl) as (n & Hn & <-). by apply Hle.
Qed.

Lemma block_insert_settled b t r :
  table_ok t → columns_fit b = true → (∀ n, canon (rows t) n → nheight n ≤ Height b) →
  settled b (rows t) → r ∈ rows t → nkey (node_of (row r)) = (Hash b, Height b) →
  block_insert b false t = Val (row_id r, t).
Proof.
  intros Hok Hfit Hle Hset Hr Hk. unfold block_insert. rewrite Hfit. cbn [negb].
  rewrite not_below_tip by done. destruct (settled_seated b (rows t) Hset) as [Hs Hl].
  unfold seated in Hs. rewrite Hl in Hs |- *.
  destruct (returning_key (Hash b) (Height b) (rows t)) as [(r' & -> & Hr' & Hk')|[_ Hno]]; [apply Hok| |].
  - cbn [mbind gores_bind]. rewrite Hs.
    assert (r' = r) as ->; [|by destruct t].
    apply (NoDup_map_inj (fun r => nkey (node_of (row r))) (rows t)); [|done|done|congruence].
    pose proof (ok_keys _ Hok) as HK. unfold keys_unique, nodes in HK. by rewrite map_map in HK.
  - exfalso. apply (Hno (node_of (row r))); [|done]. by apply (list_elem_of_fmap_2 (fun r => node_of (row r))).
Qed.

(** ** Properties *)

Lemma rooted_more N N' C h z : (∀ n, n ∈ N → n ∈ N') → rooted N C h z → rooted N' C h z.
Proof. intros H Hr. induction Hr; [apply rooted_main; auto|apply rooted_step; auto]. Qed.

Lemma canon_dec t n : canon t n ∨ ¬ canon t n.
Proof.
  unfold canon. destruct (decide (Exists (fun r => node_of (row r) = n ∧ IsOrphan (row r) = false) t)) as [H|H].
  - left. by apply list.Exists_exists in H.
  - right. intros Hc. apply H. by apply list.Exists_exists.
Qed.

(** A block on a linked main chain has its parent there or is its lowest. *)
Lemma on_chain_parent b t :
  linked (canon t) → canon t (node_of b) →
  (∃ p, canon t p ∧ nhash p = PrevHash b ∧ nheight p = Height b - 1) ∨ (∀ n, canon t n → Height b ≤ nheight n).
Proof.
  intros HL Hb.
  destruct (decide (Exists (fun r => IsOrphan (row r) = false ∧ Height (row r) < Height b) t)) as [H|H].
  - left. apply list.Exists_exists in H as (r & Hr & Ho & Hz).
    apply (HL (node_of b) (node_of (row r))); [done|by exists r|done].
  - right. intros n (r & Hr & <- & Ho). destruct (Z_le_gt_dec (Height b) (Height (row r))) as [|Hgt]; [done|].
    exfalso. apply H, list.Exists_exists. exists r. split_and!; [done|done|lia].
Qed.

Lemma link_previous_row b t r :
  r ∈ link_previous b t → ∃ s, s ∈ t ∧ row_id s = row_id r ∧ node_of (row s) = node_of (row r).
Proof.
  unfold link_previous. repeat case_match; try by exists r. intros (s & Hs & ->)%elem_of_update.
  exists s. split; [done|]. by case_match.
Qed.

Lemma seated_row b t r :
  r ∈ link_previous b t →
  ∃ r', r' ∈ seated b t ∧ row_id r' = row_id r ∧ node_of (row r') = node_of (row r).
Proof.
  intros Hr. unfold seated, orphan_siblings. eexists. split.
  { apply elem_of_update. eexists. split; [apply elem_of_update; exists r; by split|reflexivity]. }
  by repeat case_match.
Qed.

Lemma settled_snoc b t i :
  settled b t → settled b (t ++ [{| row_id := i; row := set_orphan b false |}]).
Proof.
  intros [H1 H2 H3]. split; intros r [Hr|Hr]%elem_of_app; [by apply H1| |by apply H2| |by apply H3|];
    apply list_elem_of_singleton in Hr; subst r; cbn; [lia|done|done].
Qed.

(** With the parent on the main chain there is nothing to validate. *)
Lemma validate_on_chain b t i p t' :
  keys_unique (nodes t) → one_per_height (canon t) → consistent (node_of b :: nodes t) →
  (∀ n, n ∈ nodes t → nkey n ≠ (Hash b, Height b)) →
  canon t p → nhash p = PrevHash b → nheight p = Height b - 1 →
  validate_ancestors b (seated b t ++ [{| row_id := i; row := set_orphan b false |}]) = Val t' →
  t' = seated b t ++ [{| row_id := i; row := set_orphan b false |}].
Proof.
  intros HK H1 Hcon Hnew Hp Hph Hpz. destruct (seated_snoc b t i HK H1 Hnew) as (HK4 & _ & Hc4).
  set (t4 := seated b t ++ _) in *. unfold validate_ancestors.
  pose proof (select_node (has_hash (PrevHash b)) (q_hash (PrevHash b)) t4 ltac:(done)) as Hsel.
  assert (Hp4 : canon t4 p) by (apply Hc4; left; split; [done|lia]).
  assert (Hsub : ∀ n, n ∈ nodes t4 → n ∈ node_of b :: nodes t).
  { intros n. unfold t4. rewrite nodes_snoc, (proj1 (seated_shape b t)), elem_of_app, list_elem_of_singleton, elem_of_cons. tauto. }
  destruct (select _ t4) as [q|].
  - destruct Hsel as (Hq & Hqn & Hqh). unfold q_hash in Hqh. apply bool_decide_eq_true in Hqh.
    assert (Hqp : node_of (row q) = p).
    { apply (hash_unique _ Hcon); [by apply Hsub|by apply Hsub, canon_nodes|congruence]. }
    destruct Hp4 as (r & Hr & Hrn & Hro).
    assert (r = q) as -> by (apply (row_determines t4); [done..|congruence]).
    rewrite Hro. by intros [= <-].
  - exfalso. specialize (Hsel p (canon_nodes _ _ Hp4)). unfold q_hash in Hsel. by apply bool_decide_eq_false in Hsel.
Qed.

(** ** Where the row of a block is found *)

Lemma same_shape_row t t' r :
  same_shape t t' → r ∈ t → ∃ r', r' ∈ t' ∧ row_id r' = row_id r ∧ node_of (row r') = node_of (row r).
Proof.
  intros [Hn Hi] (i & Hr)%list_elem_of_lookup.
  assert (Hl : is_Some (t' !! i)).
  { apply lookup_lt_is_Some. rewrite <-(length_nodes t'), Hn, length_nodes. by eapply lookup_lt_Some. }
  destruct Hl as [r' Hr']. exists r'. split; [by eapply list_elem_of_lookup_2|].
  assert (Hlk : ∀ {A} (f : block_row → A), map f t' = map f t → f r' = f r).
  { intros A f Hf. apply (f_equal (lookup i)) in Hf. change (map f ?l) with (f <$> l) in Hf.
    rewrite !list_lookup_fmap, Hr, Hr' in Hf. by injection Hf. }
  split; [by apply Hlk|by apply (Hlk _ (fun r => node_of (row r)))].
Qed.

(** The statements keep every row's id, hash, height and parent, and add at most
    the block's. *)
Lemma block_insert_rows b recover t id t' :
  table_ok t → block_insert b recover t = Val (id, t') →
  (∀ r, r ∈ rows t → ∃ r', r' ∈ rows t' ∧ row_id r' = row_id r ∧ node_of (row r') = node_of (row r)) ∧
  ∀ n, n ∈ nodes (rows t') → n ∈ node_of b :: nodes (rows t).
Proof.
  intros Hok (_ & _ & [(r & _ & _ & _ & ->)|(Hnew & _ & _ & H)])%block_insert_inv.
  - cbn [rows]. split; [intros x; apply same_shape_row, seated_shape|].
    intros n. rewrite (proj1 (seated_shape b (rows t))). by right.
  - set (t4 := seated b (rows t) ++ _) in H. assert (Hs : same_shape t4 (rows t')).
    { destruct (last_block_height _); [|by rewrite H]. eapply validate_ancestors_shape; [|exact H].
      apply (seated_snoc b (rows t) id (ok_keys _ Hok) (ok_heights _ Hok) Hnew). }
    split.
    + intros x Hx. destruct (same_shape_row _ _ x (seated_shape b (rows t)) Hx) as (y & Hy & <- & <-).
      apply (same_shape_row _ _ y Hs). unfold t4. apply elem_of_app. by left.
    + intros n. rewrite (proj1 Hs). unfold t4. rewrite nodes_snoc, (proj1 (seated_shape b (rows t))), elem_of_app,
        list_elem_of_singleton, elem_of_cons. tauto.
Qed.

(** The block is stored, or its stored ancestors lead to the main chain. *)
Definition connected (b : BlockHeader) (t : list block_row) : Prop :=
  node_of b ∈ nodes t ∨ rooted (nodes t) (canon t) (PrevHash b) (Height b - 1).

(** Then the id returned is that of the block's row, now on the main chain. *)
Lemma block_insert_on_chain b recover t id t' :
  table_ok t → consistent (node_of b :: nodes (rows t)) → connected b (rows t) → block_insert b recover t = Val (id, t') →
  ∃ r, r ∈ rows t' ∧ row_id r = id ∧ node_of (row r) = node_of b ∧ IsOrphan (row r) = false.
Proof.
  intros Hok Hcon Hconn Hins. pose proof (ok_keys _ (table_ok_insert _ _ _ _ _ Hok Hins)) as HK'.
  assert (Hrow : ∀ r, r ∈ rows t' → node_of (row r) = node_of b → canon (rows t') (node_of b) → IsOrphan (row r) = false).
  { intros r Hr Hn (s & Hs & Hsn & Hso). rewrite (row_determines (rows t') r s); [done|done..|congruence]. }
  apply block_insert_inv in Hins as (_ & _ & [(r & Hr & Hk & -> & ->)|(Hnew & -> & _ & H)]).
  - destruct (seated_row b (rows t) r Hr) as (r' & Hr' & Hid & Hn). exists r'.
    assert (Hin : node_of (row r) ∈ nodes (rows t)).
    { rewrite <-(proj1 (proj1 (link_previous_canon b (rows t)))). by apply (list_elem_of_fmap_2 (fun r => node_of (row r))). }
    assert (Hb : node_of (row r') = node_of b).
    { rewrite Hn. apply (hash_unique _ Hcon); [by right|by left|by injection Hk]. }
    split_and!; try done. apply Hrow; [done..|]. cbn [rows]. apply seated_canon. right. by rewrite <-Hb, Hn.
  - destruct Hconn as [Hin|Hroot]; [by apply Hnew in Hin|].
    destruct (seated_snoc b (rows t) (block_next_id t) (ok_keys _ Hok) (ok_heights _ Hok) Hnew) as (HK4 & _ & Hc4).
    set (i := block_next_id t) in *. set (t4 := seated b (rows t) ++ _) in *.
    assert (Hn4 : nodes t4 = nodes (rows t) ++ [node_of b]) by (unfold t4; by rewrite nodes_snoc, (proj1 (seated_shape b (rows t)))).
    assert (Hnew4 : {| row_id := i; row := set_orphan b false |} ∈ t4)
      by (unfold t4; apply elem_of_app; right; by apply list_elem_of_singleton).
    destruct (last_block_height (rows t)); [|rewrite H in *; by eexists].
    destruct (validate_ancestors_shape _ _ _ HK4 H) as [Hs _].
    destruct (same_shape_row _ _ _ Hs Hnew4) as (r & Hr & Hid & Hn). exists r. split_and!; try done. apply Hrow; [done..|].
    apply (validate_ancestors_keeps b) in H; [done| |done| |apply Hc4; by right|].
    + eapply consistent_sub; [|exact Hcon]. intros n. rewrite Hn4, elem_of_app, list_elem_of_singleton, elem_of_cons. tauto.
    + rewrite Hn4, elem_of_app, list_elem_of_singleton. by right.
    + rewrite Hn4. apply (rooted_more (nodes (rows t))); [intros n Hx; apply elem_of_app; by left|].
      apply (rooted_ext _ (canon (rows t))); [|done]. intros n Hx. rewrite Hc4.
      split; [intros Hc; left; split; [done|lia]|]. intros [[? _]| ->]; [done|cbn in Hx; lia].
Qed.

(** The block may be added next to a table: what the node sends about it agrees
    with what is stored, it is not below the tip, no branch off the main chain
    forks again, and a stored block that is off the main chain is only sent
    again with its parent on it. *)
Record insertable (b : BlockHeader) (t : list block_row) : Prop := {
  ins_fit : columns_fit b = true;
  ins_consistent : consistent (node_of b :: nodes t);
  ins_tip : ∀ n, canon t n → nheight n ≤ Height b;
  ins_only : ∀ n, n ∈ nodes t → ¬ canon t n → only_child (node_of b :: nodes t) (nhash n);
  ins_again : node_of b ∈ nodes t → ¬ canon t (node_of b) →
    (∃ p, canon t p ∧ nhash p = PrevHash b ∧ nheight p = Height b - 1) ∨ (∀ n, canon t n → Height b ≤ nheight n);
}.

(** C5. [block_insert] of an insertable block succeeds and keeps the main chain a
    chain: at most one block per height, unique ids and keys, and each block's
    parent right below it, through tip extensions, replacements of the tip and
    reorganisations of any depth; and if the block's ancestors are stored down
    to the main chain, the block is on the main chain afterwards. *)
Theorem block_insert_keeps_chain (b : BlockHeader) (t : block_table) :
  table_ok t → linked (canon (rows t)) → insertable b (rows t) →
  ∃ id t', block_insert b false t = Val (id, t') ∧ table_ok t' ∧ linked (canon (rows t')) ∧
    (rooted (nodes (rows t)) (canon (rows t)) (PrevHash b) (Height b - 1) → canon (rows t') (node_of b)).
Proof.
  intros Hok HL [Hfit Hcon Htip Honly Hagain].
  destruct (block_insert_returns b t Hok Hcon Hfit Htip) as (id & t' & Hins). exists id, t'.
  pose proof (table_ok_insert _ _ _ _ _ Hok Hins) as Hok'.
  assert (Hroot : rooted (nodes (rows t)) (canon (rows t)) (PrevHash b) (Height b - 1) → canon (rows t') (node_of b)).
  { intros Hr. destruct (block_insert_on_chain _ _ _ _ _ Hok Hcon (or_intror Hr) Hins) as (r & ? & _ & ? & ?). by exists r. }
  apply block_insert_inv in Hins as Hinv. destruct Hinv as (_ & _ & [(r & Hr & Hk & Hid & ->)|(Hnew & Hid & Hnext & H)]).
  - assert (Hrb : node_of (row r) = node_of b).
    { apply (hash_unique _ Hcon); [right|left|by injection Hk].
      rewrite <-(proj1 (proj1 (link_previous_canon b (rows t)))).
      by apply (list_elem_of_fmap_2 (fun r => node_of (row r))). }
    assert (Hb : node_of b ∈ nodes (rows t)).
    { rewrite <-(proj1 (proj1 (link_previous_canon b (rows t)))), <-Hrb.
      by apply (list_elem_of_fmap_2 (fun r => node_of (row r))). }
    split_and!; [done|done| |done].
    + cbn [rows]. eapply linked_ext; [intros n; symmetry; apply seated_canon|].
      destruct (canon_dec (rows t) (node_of b)) as [Hbc|Hbc].
      * apply seat_linked; [done..|apply Hok|]. by apply on_chain_parent.
      * apply seat_linked; [done..|apply Hok|]. by apply Hagain.
  - split_and!; [done|done| |done].
    + destruct (last_block_height (rows t)) as [l|] eqn:Hl.
      * by eapply proj1, (validate_ancestors_linked b (rows t) id (rows t') (ok_keys _ Hok) (ok_heights _ Hok)).
      * rewrite H. intros x y Hx Hy. pose proof (last_block_height_spec (rows t)) as Hnone. rewrite Hl in Hnone.
        destruct (seated_snoc b (rows t) id (ok_keys _ Hok) (ok_heights _ Hok) Hnew) as (_ & _ & Hc4).
        apply Hc4 in Hx as [[Hx _]| ->]; [by apply Hnone in Hx|].
        apply Hc4 in Hy as [[Hy _]| ->]; [by apply Hnone in Hy|]. lia.
Qed.

(** ** Deciding the hypotheses on a concrete table *)

Definition chain_nodes (t : list block_row) : list node := nodes (filter (fun r => IsOrphan (row r) = false) t).

Lemma canon_chain_nodes t n : canon t n ↔ n ∈ chain_nodes t.
Proof.
  unfold canon, chain_nodes, nodes. rewrite list_elem_of_fmap. split.
  - intros (r & Hr & <- & Ho). exists r. split; [done|]. by apply list_elem_of_filter.
  - intros (r & -> & [Ho Hr]%list_elem_of_filter). by exists r.
Qed.

Definition linked_list (L : list node) : Prop :=
  Forall (fun r => Forall (fun s => nheight s < nheight r →
    Exists (fun p => nhash p = nprev r ∧ nheight p = nheight r - 1) L) L) L.

Lemma linked_list_ok t : linked_list (chain_nodes t) → linked (canon t).
Proof.
  unfold linked_list. intros H r s Hr%canon_chain_nodes Hs%canon_chain_nodes Hlt.
  rewrite list.Forall_forall in H. specialize (H r Hr). rewrite list.Forall_forall in H. specialize (H s Hs Hlt).
  apply list.Exists_exists in H as (p & Hp & ?). exists p. by rewrite canon_chain_nodes.
Qed.

Definition consistent_list (N : list node) : Prop :=
  Forall (fun n => Forall (fun m => (nhash n = nhash m → n = m) ∧ (nprev n = nhash m → nheight n = nheight m + 1)) N) N.

Lemma consistent_list_ok N : consistent_list N → consistent N.
Proof.
  unfold consistent_list. rewrite list.Forall_forall. intros H.
  split; intros n m Hn Hm; specialize (H n Hn); rewrite list.Forall_forall in H; by apply (H m Hm).
Qed.

Definition insertable_list (b : BlockHeader) (t : list block_row) : Prop :=
  columns_fit b = true ∧ consistent_list (node_of b :: nodes t) ∧
  Forall (fun n => nheight n ≤ Height b) (chain_nodes t) ∧
  Forall (fun n => n ∉ chain_nodes t →
    Forall (fun x => Forall (fun y => nprev x = nhash n → nprev y = nhash n → x = y) (node_of b :: nodes t))
      (node_of b :: nodes t)) (nodes t) ∧
  node_of b ∉ nodes t.

Lemma insertable_list_ok b t : insertable_list b t → insertable b t.
Proof.
  intros (H1 & H2 & H3 & H4 & H5). rewrite list.Forall_forall in H3, H4. split.
  - done.
  - by apply consistent_list_ok.
  - intros n Hn%canon_chain_nodes. by apply H3.
  - intros n Hn Hc x y Hx Hy Hxp Hyp. rewrite canon_chain_nodes in Hc. specialize (H4 n Hn Hc).
    rewrite list.Forall_forall in H4. specialize (H4 x Hx). rewrite list.Forall_forall in H4. by apply H4.
  - done.
Qed.

Definition table_ok_list (t : block_table) : Prop :=
  NoDup (map row_id (rows t)) ∧ Forall (fun r => 1 ≤ row_id r < block_next_id t) (rows t) ∧ 1 ≤ block_next_id t ∧
  NoDup (map nkey (nodes (rows t))) ∧
  Forall (fun n => Forall (fun m => nheight n = nheight m → n = m) (chain_nodes (rows t))) (chain_nodes (rows t)).

Lemma table_ok_list_ok t : table_ok_list t → table_ok t.
Proof.
  intros (H1 & H2 & H0 & H3 & H4). split; [done..|].
  intros n m Hn%canon_chain_nodes Hm%canon_chain_nodes. rewrite list.Forall_forall in H4. specialize (H4 n Hn).
  rewrite list.Forall_forall in H4. by apply H4.
Qed.

#[global] Instance linked_list_dec L : Decision (linked_list L).
Proof. unfold linked_list. apply _. Defined.
#[global] Instance insertable_list_dec b t : Decision (insertable_list b t).
Proof. unfold insertable_list, consistent_list. apply _. Defined.
#[global] Instance table_ok_list_dec t : Decision (table_ok_list t).
Proof. unfold table_ok_list. apply _. Defined.

(** ** Concrete chains *)

Definition test_block (hash : string) (height : Z) (prev : string) : BlockHeader :=
  {| Hash := hash; Height := height; Time := 0; MedianTime := 0; Nonce := 0; PrevHash := prev; NextHash := "";
     Bits := ""; Difficulty := "1"; Chainwork := ""; Version := 1; VersionHex := ""; MerkleRoot := ""; Size := 0;
     StrippedSize := 0; Weight := 0; TxCount := 0; IsOrphan := false |}.

(** A sequence of calls; a call that fails leaves the table as it is. *)
Fixpoint block_inserts (l : list (BlockHeader * bool)) (t : block_table) : block_table :=
  match l with
  | [] => t
  | (b, recover) :: l =>
      block_inserts l (match block_insert b recover t with Val (_, t') => t' | _ => t end)
  end.

Definition synced (l : list BlockHeader) : block_table :=
  block_inserts (map (fun b => (b, false)) l) empty_block_table.

Definition main_chain (t : block_table) : list (string * Z) := map nkey (chain_nodes (rows t)).

Definition a0 := test_block "a0" 0 "".
Definition a1 := test_block "a1" 1 "a0".
Definition a2 := test_block "a2" 2 "a1".
Definition a3 := test_block "a3" 3 "a2".
Definition b1 := test_block "b1" 1 "a0".
Definition b2 := test_block "b2" 2 "b1".
Definition b3 := test_block "b3" 3 "b2".

Lemma block_insert_keeps_chain_witness :
  ∃ id t', block_insert a2 false (synced [a0; a1; b1]) = Val (id, t') ∧ table_ok t' ∧ linked (canon (rows t')) ∧
    (rooted (nodes (rows (synced [a0; a1; b1]))) (canon (rows (synced [a0; a1; b1]))) (PrevHash a2) (Height a2 - 1) →
     canon (rows t') (node_of a2)).
Proof.
  apply block_insert_keeps_chain.
  - apply table_ok_list_ok, (bool_decide_unpack _). vm_compute. exact I.
  - apply linked_list_ok, (bool_decide_unpack _). vm_compute. exact I.
  - apply insertable_list_ok, (bool_decide_unpack _). vm_compute. exact I.
Defined.

(** The parent of a block is on the main chain. *)
Definition parent_on_chain (b : BlockHeader) (t : list block_row) : Prop :=
  ∃ p, canon t p ∧ nhash p = PrevHash b ∧ nheight p = Height b - 1.

(** The block can be put on top of the main chain: what the node sends about it
    agrees with what is stored, it is not below the tip, and its parent is on
    the main chain, or it is the first block or stored already. *)
Record attachable (b : BlockHeader) (t : list block_row) : Prop := {
  att_consistent : consistent (node_of b :: nodes t);
  att_tip : ∀ n, canon t n → nheight n ≤ Height b;
  att_parent : t = [] ∨ parent_on_chain b t ∨ node_of b ∈ nodes t;
}.

(** A new attachable block is appended to the seated rows. *)
Lemma block_insert_attached b t id t' :
  table_ok t → attachable b (rows t) → (∀ n, n ∈ nodes (rows t) → nkey n ≠ (Hash b, Height b)) →
  block_insert b false t = Val (id, t') →
  id = block_next_id t ∧ block_next_id t' = block_next_id t + 1 ∧
  rows t' = seated b (rows t) ++ [{| row_id := id; row := set_orphan b false |}].
Proof.
  intros Hok [Hcon _ Hpar] Hnew (_ & _ & [(r & Hr & Hk & _)|(_ & Hid & Hnext & H)])%block_insert_inv.
  - exfalso. apply (Hnew (node_of (row r))); [|done].
    rewrite <-(proj1 (proj1 (link_previous_canon b (rows t)))).
    by apply (list_elem_of_fmap_2 (fun r => node_of (row r))).
  - split_and!; [done|done|]. destruct Hpar as [He|[(p & Hpc & Hph & Hpz)|Hin]]; [by rewrite He in H |- *| |by apply Hnew in Hin].
    destruct (last_block_height _); [|done].
    by apply (validate_on_chain b _ id p) in H; [|apply Hok|apply Hok|..].
Qed.

(** [block_insert] of an attachable block is idempotent: a second call, as the
    retry after a lost reply makes, returns the same id and leaves the table
    as the first call left it. *)
Lemma block_insert_again (b : BlockHeader) (t : block_table) id t' :
  table_ok t → attachable b (rows t) →
  block_insert b false t = Val (id, t') → block_insert b false t' = Val (id, t').
Proof.
  intros Hok Hatt Hins. pose proof (table_ok_insert _ _ _ _ _ Hok Hins) as Hok'.
  apply block_insert_inv in Hins as Hinv. destruct Hinv as (Hfit & _ & Hinv).
  pose proof (att_tip _ _ Hatt) as Htip.
  destruct Hinv as [(r & Hr & Hk & -> & ->)|(Hnew & _)].
  - destruct (seated_row b (rows t) r Hr) as (r' & Hr' & <- & Hn). rewrite <-Hn in Hk.
    apply block_insert_settled; [done|done| |by apply seated_settled, Hok|done|done].
    intros n [[Hc _]|[_ Hnk]]%seated_canon; [by apply Htip|]. destruct n as [[? ?] ?]. cbn in *. by injection Hnk as -> ->.
  - destruct (seated_snoc b (rows t) id (ok_keys _ Hok) (ok_heights _ Hok) Hnew) as (_ & _ & Hc4).
    destruct (block_insert_attached b t id t' Hok Hatt Hnew Hins) as (_ & _ & Hrows).
    assert (Hb : {| row_id := id; row := set_orphan b false |} ∈ rows t').
    { rewrite Hrows. apply elem_of_app. right. by apply list_elem_of_singleton. }
    apply (block_insert_settled b t' _ Hok' Hfit) in Hb; [done| | |done]; rewrite Hrows.
    + intros n [[Hn _]| ->]%Hc4; [by apply Htip|cbn; lia].
    + by apply settled_snoc, seated_settled, Hok.
Qed.

(** A block that is stored already, and has no sibling, is only seated. *)
Lemma block_insert_stored b t r id t' :
  table_ok t → r ∈ rows t → node_of (row r) = node_of b → canon (rows t) (node_of b) →
  (∀ n, n ∈ nodes (rows t) → nheight n = Height b → n = node_of b) →
  block_insert b false t = Val (id, t') →
  id = row_id r ∧ same_shape (rows t) (rows t') ∧ ∀ n, canon (rows t') n ↔ canon (rows t) n.
Proof.
  intros Hok Hr Hrb Hb Hone (_ & _ & [(x & Hx & Hk & -> & ->)|(Hnew & _)])%block_insert_inv.
  - split_and!; [|apply seated_shape|].
    + apply link_previous_row in Hx as (s & Hs & Hid & Hn). rewrite <-Hid, <-Hn in *.
      f_equal. apply (row_determines (rows t)); [apply Hok|done|done|]. rewrite Hrb.
      apply Hone; [by apply (list_elem_of_fmap_2 (fun r => node_of (row r)))|]. by injection Hk.
    + intros n. cbn [rows]. rewrite seated_canon. unfold seat. split.
      * intros [[Hc _]|[Hn Hkn]]; [done|]. rewrite (Hone n Hn); [done|]. destruct n as [[? ?] ?]. by injection Hkn.
      * intros Hc. destruct (decide (nheight n = Height b)) as [E|E]; [right|by left].
        rewrite (Hone n (canon_nodes _ _ Hc) E). split; [by apply canon_nodes|done].
  - exfalso. apply (Hnew (node_of b)); [by apply canon_nodes|done].
Qed.

(** Without the parent a retry is not harmless: the first call stores the block
    off the main chain, the second puts it on. *)
Lemma retry_without_parent_activates :
  main_chain (synced [a0; b2]) = [("a0", 0)] ∧ main_chain (synced [a0; b2; b2]) = [("a0", 0); ("b2", 2)].
Proof. split; vm_compute; reflexivity. Qed.

(** Whatever blocks are inserted, in whatever order and with or without
    recovery, every reachable table has at most one main-chain block per
    height, unique ids below the sequence, and no block twice. *)
Theorem block_inserts_table_ok (l : list (BlockHeader * bool)) : table_ok (block_inserts l empty_block_table).
Proof.
  assert (H : ∀ t, table_ok t → table_ok (block_inserts l t)).
  { induction l as [|[b recover] l IH]; intros t Ht; [done|]. cbn. apply IH.
    destruct (block_insert b recover t) as [[id t']|e|p|e] eqn:Hb; [|done..]. by eapply table_ok_insert. }
  apply H. apply table_ok_list_ok, (bool_decide_unpack _). vm_compute. exact I.
Qed.

(** The condition [ins_again] is needed: when the node returns to a branch that
    was on the main chain before, two deep, the idempotency check of
    [block_insert] returns before the ancestors are validated, and the main
    chain keeps a block of the other branch. *)
Lemma reorg_back_breaks_chain :
  main_chain (synced [a0; a1; a2; b2; a0; b1; b2]) = [("a0", 0); ("b2", 2); ("b1", 1)] ∧
  main_chain (synced [a0; a1; a2; b2; a0; b1; b2; a2; a3]) = [("a0", 0); ("a2", 2); ("b1", 1); ("a3", 3)].
Proof. split; vm_compute; reflexivity. Qed.

(** The condition [ins_only] is needed: with two children of a block whose own
    parent is missing, only one of them is found when the branch is orphaned
    again. *)
Lemma rival_children_break_chain :
  main_chain (synced [a0; a1; b2; b3]) = [("a0", 0)] ∧
  main_chain (synced [a0; a1; b2; b3; test_block "d3" 3 "b2"]) = [("a0", 0); ("d3", 3)].
Proof. split; vm_compute; reflexivity. Qed.
