(* ===== verification/Store.v ===== *)
(** * Store: transactions, inputs and outputs

    The tables [transaction], [input], [output] and [metadata], and the
    PL/pgSQL functions [transaction_insert], [input_insert], [output_insert],
    [delete_invalid_txs] and [delete_orphans] of
    src/V2/build/ingester-sql-ddl/template/common/txo/deploy.  A function runs
    in a transaction: on an error the store is unchanged.  Ids come from
    sequences; the gaps an aborted insertion leaves are not modelled. *)

From stdpp Require Import base list strings gmap numbers.
From Stdlib Require Import ZArith Lia.
From S2P Require Import Prelude GoStrings Utxo BlockTable.

Local Open Scope Z_scope.

(** ** Rows *)

Record tx_row := {
  t_id : Z;
  t_index : option Z;
  t_block_id : option Z;
  t_txid : string;
  t_hash : string;
  t_version : Z;
  t_size : Z;
  t_vsize : Z;
  t_weight : Z;
  t_locktime : Z;
  t_raw : string;
}.

Record input_row := {
  i_id : Z;
  i_tx : Z;
  i_vin : Z;
  i_spent_txid : string;
  i_spent_vout : Z;
  i_asm : string;
  i_hex : string;
  i_sequence : Z;
  i_witness : option string;
  i_coinbase : string;
}.

Record output_row := {
  o_id : Z;
  o_tx : Z;
  o_vout : Z;
  o_amount : Z;
  o_asm : string;
  o_hex : string;
  o_req_sigs : Z;
  o_type : string;
  o_address : string;
  o_addresses : list string;
}.

Record store := {
  blocks : block_table;
  txs : list tx_row;
  tx_next_id : Z;
  inputs : list input_row;
  input_next_id : Z;
  outputs : list output_row;
  output_next_id : Z;
  metadata : gmap string string;
}.

Definition empty_store : store := {|
  blocks := empty_block_table;
  txs := []; tx_next_id := 1;
  inputs := []; input_next_id := 1;
  outputs := []; output_next_id := 1;
  metadata := {[ "orphanCount" := "0"; "validatedBlock" := "0" ]};
|}.

(** ** The JSON the Go code sends *)

(** [type Input struct] of src/V2/pkg/postgres/postgres.go *)
Record Input := {
  in_Vin : Z;
  in_SpentTx : string;
  in_SpentVout : Z;
  in_Asm : string;
  in_Hex : string;
  in_Sequence : Z;
  in_TxInWitness : option (list string);
  in_Coinbase : string;
}.

(** [type Output struct] *)
Record Output := {
  out_Vout : Z;
  out_SatAmount : Z;
  out_Asm : string;
  out_Hex : string;
  out_ReqSigs : Z;
  out_Type : string;
  out_Address : string;
  out_Addresses : list string;
}.

(** The object [InsertTx] builds. *)
Record tx_def := {
  d_txid : string;
  d_hash : string;
  d_version : Z;
  d_size : Z;
  d_vsize : Z;
  d_weight : Z;
  d_locktime : string;
  d_inputs : list Input;
  d_outputs : list Output;
}.

#[global] Instance Input_eq_dec : EqDecision Input.
Proof. solve_decision. Defined.
#[global] Instance Output_eq_dec : EqDecision Output.
Proof. solve_decision. Defined.
#[global] Instance tx_row_eq_dec : EqDecision tx_row.
Proof. solve_decision. Defined.
#[global] Instance input_row_eq_dec : EqDecision input_row.
Proof. solve_decision. Defined.
#[global] Instance output_row_eq_dec : EqDecision output_row.
Proof. solve_decision. Defined.
#[global] Instance store_eq_dec : EqDecision store.
Proof. solve_decision. Defined.

(** The characters PostgreSQL escapes in the text of a JSON string. *)
Definition json_escape (c : Z) : list Z :=
  if c =? 34 then [92; 34]
  else if c =? 92 then [92; 92]
  else if c =? 8 then [92; 98]
  else if c =? 9 then [92; 116]
  else if c =? 10 then [92; 110]
  else if c =? 12 then [92; 102]
  else if c =? 13 then [92; 114]
  else if c <? 32 then [92; 117; 48; 48; hex_char (c / 16); hex_char (c mod 16)]
  else [c].

Definition json_string (s : string) : list Z := 34 :: flat_map json_escape (bytes s) ++ [34].

(** The text of a JSON array of strings: [", "] between the elements. *)
Fixpoint json_elements (l : list string) : list Z :=
  match l with
  | [] => []
  | [s] => json_string s
  | s :: l => json_string s ++ 44 :: 32 :: json_elements l
  end.

Definition json_strings (l : list string) : string := of_bytes (91 :: json_elements l ++ [93]).

(** ** Insertion *)

Definition set_tables (st : store) (t : list tx_row) (tn : Z) (i : list input_row) (inx : Z)
    (o : list output_row) (onx : Z) : store :=
  {| blocks := blocks st; txs := t; tx_next_id := tn; inputs := i; input_next_id := inx;
     outputs := o; output_next_id := onx; metadata := metadata st |}.

(** The loop of [input_insert]; a row that violates the unique index on
    [(transaction_id, vin)] is skipped. *)
Fixpoint input_insert (tx : Z) (ins : list Input) (rows : list input_row) (next : Z) : gores (list input_row * Z) :=
  match ins with
  | [] => Val (rows, next)
  | i :: ins =>
      if negb (fits_int32 (in_Vin i) && fits_int32 (in_SpentVout i)) then Err (ENew "integer out of range")
      else if existsb (fun r => (i_tx r =? tx) && (i_vin r =? in_Vin i)) rows
      then input_insert tx ins rows next
      else
        let r := {| i_id := next; i_tx := tx; i_vin := in_Vin i; i_spent_txid := in_SpentTx i;
                    i_spent_vout := in_SpentVout i; i_asm := in_Asm i; i_hex := in_Hex i;
                    i_sequence := in_Sequence i; i_witness := json_strings <$> in_TxInWitness i;
                    i_coinbase := in_Coinbase i |} in
        input_insert tx ins (rows ++ [r]) (next + 1)
  end.

(** The loop of [output_insert]. *)
Fixpoint output_insert (tx : Z) (outs : list Output) (rows : list output_row) (next : Z) : gores (list output_row * Z) :=
  match outs with
  | [] => Val (rows, next)
  | o :: outs =>
      if negb (fits_int32 (out_Vout o) && fits_int32 (out_ReqSigs o)) then Err (ENew "integer out of range")
      else if existsb (fun r => (o_tx r =? tx) && (o_vout r =? out_Vout o)) rows
      then output_insert tx outs rows next
      else
        let r := {| o_id := next; o_tx := tx; o_vout := out_Vout o; o_amount := out_SatAmount o;
                    o_asm := out_Asm o; o_hex := out_Hex o; o_req_sigs := out_ReqSigs o; o_type := out_Type o;
                    o_address := out_Address o; o_addresses := out_Addresses o |} in
        output_insert tx outs (rows ++ [r]) (next + 1)
  end.

(** The JSON functions of PostgreSQL on number literals: the text [->>] gives
    back, [None] when the literal is not a JSON number. *)
Class JsonNumbers := number_text : string → option string.

(** [(text)::bigint] *)
Definition to_bigint (text : option string) : gores Z :=
  match text with
  | None => Err (ENew "invalid number literal")
  | Some text =>
      match ParseInt text with
      | (z, None) => Val z
      | (_, Some _) => Err (ENew "invalid input syntax for type bigint")
      end
  end.

(** [-1] stands for NULL in the arguments. *)
Definition null_if_minus_one (z : Z) : option Z := if z =? -1 then None else Some z.

Definition set_block (r : tx_row) (block index : option Z) : tx_row :=
  {| t_id := t_id r; t_index := index; t_block_id := block; t_txid := t_txid r; t_hash := t_hash r;
     t_version := t_version r; t_size := t_size r; t_vsize := t_vsize r; t_weight := t_weight r;
     t_locktime := t_locktime r; t_raw := t_raw r |}.

(** The value fits the column [block_id INTEGER] and refers to a block. *)
Definition block_exists (st : store) (block : option Z) : bool :=
  match block with
  | None => true
  | Some id => fits_int32 id && existsb (fun r => row_id r =? id) (rows (blocks st))
  end.

Section insert.
Context {numbers : JsonNumbers}.

(** The branch "This is a new transaction". *)
Definition insert_new (block index : option Z) (d : tx_def) (raw : string) (st : store) : gores store :=
  locktime ← to_bigint (number_text (d_locktime d));
  if negb (fits_int32 (d_version d) && fits_int32 (d_size d) && fits_int32 (d_vsize d) && fits_int32 (d_weight d))
  then Err (ENew "integer out of range")
  else if negb (block_exists st block) then Err (ENew "violates foreign key constraint")
  else if existsb (fun r => bool_decide (t_hash r = d_hash d)) (txs st)
  then Err (ENew "duplicate key value violates unique constraint")
  else
    let id := tx_next_id st in
    let r := {| t_id := id; t_index := index; t_block_id := block; t_txid := d_txid d; t_hash := d_hash d;
                t_version := d_version d; t_size := d_size d; t_vsize := d_vsize d; t_weight := d_weight d;
                t_locktime := locktime; t_raw := raw |} in
    '(ins, inext) ← input_insert id (d_inputs d) (inputs st) (input_next_id st);
    '(outs, onext) ← output_insert id (d_outputs d) (outputs st) (output_next_id st);
    Val (set_tables st (txs st ++ [r]) (id + 1) ins inext outs onext).

(** [transaction_insert(in_block_id, in_tx_def, in_raw_transaction, in_transaction_index)] *)
Definition transaction_insert (block_id : Z) (d : tx_def) (raw : string) (index : Z) (st : store) : gores store :=
  if negb (fits_int32 index) then Err (ENew "integer out of range") else
  let block := null_if_minus_one block_id in
  let index := null_if_minus_one index in
  match find (fun r => bool_decide (t_txid r = d_txid d)) (txs st) with
  | None => insert_new block index d raw st
  | Some found =>
      match block with
      | None => Val st
      | Some _ =>
          if negb (block_exists st block) then Err (ENew "violates foreign key constraint")
          else
            Val (set_tables st
              (map (fun r => if t_id r =? t_id found then set_block r block index else r) (txs st))
              (tx_next_id st) (inputs st) (input_next_id st) (outputs st) (output_next_id st))
      end
  end.

End insert.

(** ** Deletion *)

(** Rows of [input] and [output] go with their transaction: [ON DELETE CASCADE]. *)
Definition delete_txs (dead : tx_row → bool) (st : store) : store :=
  let gone id := existsb (fun r => dead r && (t_id r =? id)) (txs st) in
  set_tables st (filter (fun r => dead r = false) (txs st)) (tx_next_id st)
    (filter (fun r => gone (i_tx r) = false) (inputs st)) (input_next_id st)
    (filter (fun r => gone (o_tx r) = false) (outputs st)) (output_next_id st).

Definition pending (r : tx_row) : bool := match t_block_id r with None => true | Some _ => false end.

(** [delete_invalid_txs(in_ids)] *)
Definition delete_invalid_txs (ids : list Z) (st : store) : store :=
  delete_txs (fun r => existsb (Z.eqb (t_id r)) ids && pending r) st.

(** The transaction's block is marked as an orphan. *)
Definition orphaned (st : store) (r : tx_row) : bool :=
  match t_block_id r with
  | None => false
  | Some id => existsb (fun b => (row_id b =? id) && IsOrphan (row b)) (rows (blocks st))
  end.

(** [delete_orphans()] *)
Definition delete_orphans (st : store) : store :=
  let dead id := existsb (fun r => (t_id r =? id) && orphaned st r) (txs st) in
  let st := set_tables st (txs st) (tx_next_id st)
    (filter (fun r => dead (i_tx r) = false) (inputs st)) (input_next_id st) (outputs st) (output_next_id st) in
  let st := set_tables st (txs st) (tx_next_id st) (inputs st) (input_next_id st)
    (filter (fun r => dead (o_tx r) = false) (outputs st)) (output_next_id st) in
  delete_txs (orphaned st) st.

(** ** The invariant *)

Definition in_key (r : input_row) : Z * Z := (i_tx r, i_vin r).
Definition out_key (r : output_row) : Z * Z := (o_tx r, o_vout r).

Record store_ok (st : store) : Prop := {
  ok_blocks : table_ok (blocks st);
  ok_tx_ids : NoDup (map t_id (txs st));
  ok_tx_next : Forall (fun r => t_id r < tx_next_id st) (txs st);
  ok_txids : NoDup (map t_txid (txs st));
  ok_hashes : NoDup (map t_hash (txs st));
  ok_tx_block : ∀ r b, r ∈ txs st → t_block_id r = Some b → b ∈ map row_id (rows (blocks st));
  ok_in_tx : ∀ r, r ∈ inputs st → i_tx r ∈ map t_id (txs st);
  ok_in_keys : NoDup (map in_key (inputs st));
  ok_out_tx : ∀ r, r ∈ outputs st → o_tx r ∈ map t_id (txs st);
  ok_out_keys : NoDup (map out_key (outputs st));
}.

Lemma NoDup_snoc {A} (l : list A) x : NoDup l → x ∉ l → NoDup (l ++ [x]).
Proof.
  intros Hl Hx. apply list.NoDup_app. split_and!; [done| |apply list.NoDup_singleton].
  intros y Hy ->%list_elem_of_singleton. done.
Qed.

Lemma existsb_false {A} (f : A → bool) l : existsb f l = false ↔ ∀ x, x ∈ l → f x = false.
Proof.
  split.
  - intros H x Hx%list_elem_of_In. apply not_true_iff_false. intros Hf.
    apply not_true_iff_false in H. apply H, existsb_exists. by exists x.
  - intros H. apply not_true_iff_false. intros (x & Hx & Hf)%existsb_exists.
    apply list_elem_of_In, H in Hx. congruence.
Qed.

Lemma input_insert_inv tx ins rows next rows' next' :
  input_insert tx ins rows next = Val (rows', next') →
  ∃ new, rows' = rows ++ new ∧ Forall (fun r => i_tx r = tx) new ∧
    (NoDup (map in_key rows) → NoDup (map in_key rows')).
Proof.
  revert rows next. induction ins as [|i ins IH]; intros rows next; cbn [input_insert].
  - intros [= <- <-]. exists []. by rewrite app_nil_r.
  - destruct (negb _); [done|]. destruct (existsb _ rows) eqn:Hex; [by apply IH|].
    intros (new & -> & Hall & Hnd)%IH. eexists (_ :: new). split; [by rewrite <-app_assoc|].
    split; [by constructor|]. intros Hr. apply Hnd. rewrite map_app. apply NoDup_snoc; [done|].
    intros (r & Hk & Hin)%list_elem_of_fmap. rewrite existsb_false in Hex. specialize (Hex r Hin).
    unfold in_key in Hk. cbn in Hk. injection Hk as E1 E2. rewrite <-E1, <-E2, !Z.eqb_refl in Hex. done.
Qed.

Lemma output_insert_inv tx outs rows next rows' next' :
  output_insert tx outs rows next = Val (rows', next') →
  ∃ new, rows' = rows ++ new ∧ Forall (fun r => o_tx r = tx) new ∧
    (NoDup (map out_key rows) → NoDup (map out_key rows')).
Proof.
  revert rows next. induction outs as [|o outs IH]; intros rows next; cbn [output_insert].
  - intros [= <- <-]. exists []. by rewrite app_nil_r.
  - destruct (negb _); [done|]. destruct (existsb _ rows) eqn:Hex; [by apply IH|].
    intros (new & -> & Hall & Hnd)%IH. eexists (_ :: new). split; [by rewrite <-app_assoc|].
    split; [by constructor|]. intros Hr. apply Hnd. rewrite map_app. apply NoDup_snoc; [done|].
    intros (r & Hk & Hin)%list_elem_of_fmap. rewrite existsb_false in Hex. specialize (Hex r Hin).
    unfold out_key in Hk. cbn in Hk. injection Hk as E1 E2. rewrite <-E1, <-E2, !Z.eqb_refl in Hex. done.
Qed.

Lemma block_exists_ok st b : block_exists st (Some b) = true → b ∈ map row_id (rows (blocks st)).
Proof.
  cbn. intros [_ (r & Hr & Hb%Z.eqb_eq)%existsb_exists]%andb_true_iff. subst b.
  apply list_elem_of_fmap. exists r. split; [done|]. by apply list_elem_of_In.
Qed.

Lemma map_set_block {A} (f : tx_row → A) id block index l :
  (∀ r, f (set_block r block index) = f r) →
  map f (map (fun r => if t_id r =? id then set_block r block index else r) l) = map f l.
Proof. intros H. rewrite map_map. apply map_ext. intros r. destruct (t_id r =? id); [apply H|done]. Qed.

Section insert_props.
Context {numbers : JsonNumbers}.

Lemma insert_new_inv block index d raw st st' :
  insert_new block index d raw st = Val st' →
  ∃ locktime ins inext outs onext,
    to_bigint (number_text (d_locktime d)) = Val locktime ∧ block_exists st block = true ∧
    (∀ r, r ∈ txs st → t_hash r ≠ d_hash d) ∧
    input_insert (tx_next_id st) (d_inputs d) (inputs st) (input_next_id st) = Val (ins, inext) ∧
    output_insert (tx_next_id st) (d_outputs d) (outputs st) (output_next_id st) = Val (outs, onext) ∧
    st' = set_tables st
      (txs st ++ [{| t_id := tx_next_id st; t_index := index; t_block_id := block; t_txid := d_txid d;
                     t_hash := d_hash d; t_version := d_version d; t_size := d_size d; t_vsize := d_vsize d;
                     t_weight := d_weight d; t_locktime := locktime; t_raw := raw |}])
      (tx_next_id st + 1) ins inext outs onext.
Proof.
  unfold insert_new. intros (lt & Hlt & H)%bind_Val. destruct (negb _); [done|].
  destruct (block_exists st block) eqn:Hb; [|done]. cbn [negb] in H.
  destruct (existsb _ (txs st)) eqn:Hex; [done|].
  apply bind_Val in H as ([ins inext] & Hi & H). apply bind_Val in H as ([outs onext] & Ho & [= <-]).
  exists lt, ins, inext, outs, onext. split_and!; [done|done| |done|done|done].
  rewrite existsb_false in Hex. intros r Hr Hh. specialize (Hex r Hr). by rewrite bool_decide_true in Hex.
Qed.

Lemma find_txid_None d l :
  find (fun r => bool_decide (t_txid r = d_txid d)) l = None ↔ d_txid d ∉ map t_txid l.
Proof.
  split.
  - intros H (r & Hr & Hin%list_elem_of_In)%list_elem_of_fmap.
    apply (find_none _ _ H) in Hin. by apply bool_decide_eq_false in Hin.
  - intros H. destruct (find _ l) as [r|] eqn:Hf; [|done]. apply find_some in Hf as [Hin Hb].
    apply bool_decide_eq_true in Hb. destruct H. rewrite <-Hb.
    apply (list_elem_of_fmap_2 t_txid). by apply list_elem_of_In.
Qed.

Lemma store_ok_insert_new block index d raw st st' :
  store_ok st → d_txid d ∉ map t_txid (txs st) → insert_new block index d raw st = Val st' → store_ok st'.
Proof.
  intros [H1 H2 H3 H4 H5 H6 H7 H8 H9 H10] Hnew
    (lt & ins & inext & outs & onext & _ & Hb & Hh & Hi & Ho & ->)%insert_new_inv.
  apply input_insert_inv in Hi as (ni & -> & Hni & Hki). apply output_insert_inv in Ho as (no & -> & Hno & Hko).
  rewrite list.Forall_forall in Hni. rewrite list.Forall_forall in Hno. pose proof H3 as H3'. rewrite list.Forall_forall in H3'.
  split; cbn [set_tables blocks txs tx_next_id inputs outputs]; rewrite ?map_app; cbn [map].
  - done.
  - apply NoDup_snoc; [done|]. intros (r & Hr & Hin)%list_elem_of_fmap. specialize (H3' r Hin). cbn in Hr, H3'. lia.
  - apply Forall_app. split; [|apply list.Forall_singleton; cbn; lia].
    eapply Forall_impl; [|exact H3]. cbn. lia.
  - by apply NoDup_snoc.
  - apply NoDup_snoc; [done|]. intros (r & Hr & Hin)%list_elem_of_fmap. by apply (Hh r).
  - intros r b [Hr| ->%list_elem_of_singleton]%elem_of_app Hrb; [by eapply H6|]. cbn in Hrb. subst block.
    by apply block_exists_ok.
  - intros r [Hr|Hr]%elem_of_app; apply elem_of_app; [left; by apply H7|right].
    rewrite (Hni r Hr). by apply list_elem_of_singleton.
  - by rewrite <-map_app; apply Hki.
  - intros r [Hr|Hr]%elem_of_app; apply elem_of_app; [left; by apply H9|right].
    rewrite (Hno r Hr). by apply list_elem_of_singleton.
  - by rewrite <-map_app; apply Hko.
Qed.

Lemma store_ok_transaction_insert b d raw i st st' :
  store_ok st → transaction_insert b d raw i st = Val st' → store_ok st'.
Proof.
  intros Hok. unfold transaction_insert. destruct (negb (fits_int32 i)); [done|].
  destruct (find _ (txs st)) as [found|] eqn:Hf.
  - destruct (null_if_minus_one b) as [block|]; [|by intros [= <-]].
    destruct (block_exists st (Some block)) eqn:Hb; [|done]. cbn [negb]. intros [= <-].
    destruct Hok as [H1 H2 H3 H4 H5 H6 H7 H8 H9 H10].
    split; cbn [set_tables blocks txs tx_next_id inputs outputs]; rewrite ?map_set_block by done; try done.
    + rewrite list.Forall_forall in H3. apply list.Forall_forall.
      intros r (r' & -> & Hr')%list_elem_of_fmap. specialize (H3 r' Hr'). by destruct (t_id r' =? t_id found).
    + intros r c (r' & -> & Hr')%list_elem_of_fmap. destruct (t_id r' =? t_id found); [|by apply H6].
      cbn. intros [= <-]. by apply block_exists_ok.
  - apply find_txid_None in Hf. by apply store_ok_insert_new.
Qed.

Lemma find_map_set_block d id block index l :
  find (fun r => bool_decide (t_txid r = d_txid d))
    (map (fun r => if t_id r =? id then set_block r block index else r) l) =
  option_map (fun r => if t_id r =? id then set_block r block index else r)
    (find (fun r => bool_decide (t_txid r = d_txid d)) l).
Proof.
  induction l as [|r l IH]; [done|]. cbn.
  assert (t_txid (if t_id r =? id then set_block r block index else r) = t_txid r) as -> by by destruct (t_id r =? id).
  by case_bool_decide.
Qed.

Lemma find_app {A} (f : A → bool) l k :
  find f (l ++ k) = match find f l with Some x => Some x | None => find f k end.
Proof. induction l as [|x l IH]; [done|]. cbn. by destruct (f x). Qed.

(** Inserting the same transaction again changes nothing. *)
Lemma transaction_insert_again b d raw i st st' :
  store_ok st → transaction_insert b d raw i st = Val st' → transaction_insert b d raw i st' = Val st'.
Proof.
  intros Hok H. pose proof (store_ok_transaction_insert _ _ _ _ _ _ Hok H) as Hok'. revert H.
  unfold transaction_insert. destruct (negb (fits_int32 i)); [done|]. destruct (find _ (txs st)) as [found|] eqn:Hf.
  - destruct (null_if_minus_one b) as [block|]; [|by intros [= <-]; rewrite Hf].
    destruct (block_exists st (Some block)) eqn:Hb; [|done]. cbn [negb]. intros [= <-].
    cbn [set_tables txs]. rewrite find_map_set_block, Hf. cbn [option_map].
    assert (block_exists (set_tables st (txs st) (tx_next_id st) (inputs st) (input_next_id st)
      (outputs st) (output_next_id st)) (Some block) = true) as Hb' by done.
    cbn [block_exists set_tables blocks] in Hb'. cbn [block_exists set_tables blocks]. rewrite Hb'. cbn [negb].
    f_equal. unfold set_tables. cbn [txs tx_next_id inputs input_next_id outputs output_next_id blocks metadata].
    f_equal. rewrite map_map. apply map_ext. intros r.
    destruct (t_id r =? t_id found) eqn:E; cbn; rewrite Z.eqb_refl; cbn; rewrite ?E; done.
  - intros Hins. apply insert_new_inv in Hins as (lt & ins & inext & outs & onext & _ & Hb & Hh & Hi & Ho & ->).
    cbn [set_tables txs]. rewrite find_app, Hf. cbn [find t_txid]. rewrite bool_decide_true by done.
    destruct (null_if_minus_one b) as [block|]; [|done].
    assert (Hb' : block_exists st (Some block) = true) by done.
    cbn [block_exists set_tables blocks] in Hb' |- *. rewrite Hb'. cbn [negb t_id].
    f_equal. unfold set_tables. cbn [txs tx_next_id inputs input_next_id outputs output_next_id blocks metadata].
    f_equal. rewrite map_app. cbn [map t_id]. rewrite Z.eqb_refl. f_equal.
    rewrite <-(map_id (txs st)) at 2. apply map_ext_in. intros r Hr%list_elem_of_In.
    pose proof (ok_tx_next _ Hok) as Hn. rewrite list.Forall_forall in Hn. specialize (Hn r Hr).
    by rewrite (proj2 (Z.eqb_neq _ _)) by lia.
Qed.

End insert_props.

(** ** Deletion keeps the invariant *)

Lemma NoDup_map_filter {A B} (f : A → B) (P : A → Prop) `{!∀ x, Decision (P x)} l :
  NoDup (map f l) → NoDup (map f (filter P l)).
Proof.
  intros Hnd. eapply sublist_NoDup; [exact Hnd|]. apply fmap_sublist, sublist_filter.
Qed.

Lemma survivors dead st id :
  id ∈ map t_id (txs st) → existsb (fun r => dead r && (t_id r =? id)) (txs st) = false →
  id ∈ map t_id (filter (fun r => dead r = false) (txs st)).
Proof.
  intros (r & -> & Hr)%list_elem_of_fmap Hg. rewrite existsb_false in Hg. specialize (Hg r Hr).
  rewrite Z.eqb_refl, andb_true_r in Hg. apply (list_elem_of_fmap_2 t_id). by apply list_elem_of_filter.
Qed.

Lemma store_ok_delete_txs dead st : store_ok st → store_ok (delete_txs dead st).
Proof.
  intros [H1 H2 H3 H4 H5 H6 H7 H8 H9 H10].
  split; cbn [delete_txs set_tables blocks txs tx_next_id inputs outputs]; try (by apply NoDup_map_filter); [done|..].
  - rewrite list.Forall_forall in H3. apply list.Forall_forall. intros r [_ Hr]%list_elem_of_filter. by apply H3.
  - intros r b [_ Hr]%list_elem_of_filter. by apply H6.
  - intros r [Hg Hr]%list_elem_of_filter. apply survivors; [by apply H7|done].
  - intros r [Hg Hr]%list_elem_of_filter. apply survivors; [by apply H9|done].
Qed.

Lemma filter_twice {A} (P Q : A → Prop) `{!∀ x, Decision (P x), !∀ x, Decision (Q x)} (l : list A) :
  (∀ x, P x ↔ Q x) → filter P (filter Q l) = filter P l.
Proof.
  intros HPQ. rewrite list_filter_filter. apply list_filter_iff. intros x. rewrite HPQ. tauto.
Qed.

(** [delete_orphans] deletes the orphaned transactions with their inputs and outputs. *)
Lemma delete_orphans_eq st : delete_orphans st = delete_txs (orphaned st) st.
Proof.
  unfold delete_orphans, delete_txs. cbn [set_tables txs inputs outputs tx_next_id input_next_id output_next_id].
  unfold set_tables. cbn [blocks metadata]. f_equal; apply filter_twice; intros x.
  - assert (∀ r, orphaned {| blocks := blocks st; txs := txs st; tx_next_id := tx_next_id st;
       inputs := filter (λ r, existsb (λ r0, (t_id r0 =? i_tx r) && orphaned st r0) (txs st) = false) (inputs st);
       input_next_id := input_next_id st;
       outputs := filter (λ r, existsb (λ r0, (t_id r0 =? o_tx r) && orphaned st r0) (txs st) = false) (outputs st);
       output_next_id := output_next_id st; metadata := metadata st |} r = orphaned st r) as Ho by done.
    rewrite !existsb_false. split; intros H r Hr; specialize (H r Hr); by rewrite andb_comm.
  - rewrite !existsb_false. split; intros H r Hr; specialize (H r Hr); by rewrite andb_comm.
Qed.

(** ** Reachable stores *)

Definition set_blocks (st : store) (b : block_table) : store :=
  {| blocks := b; txs := txs st; tx_next_id := tx_next_id st; inputs := inputs st;
     input_next_id := input_next_id st; outputs := outputs st; output_next_id := output_next_id st;
     metadata := metadata st |}.

Definition set_metadata (st : store) (m : gmap string string) : store :=
  {| blocks := blocks st; txs := txs st; tx_next_id := tx_next_id st; inputs := inputs st;
     input_next_id := input_next_id st; outputs := outputs st; output_next_id := output_next_id st;
     metadata := m |}.

(** The statements the Go code issues. *)
Inductive statement :=
| BlockInsert (b : BlockHeader) (recover : bool)
| TransactionInsert (block_id : Z) (d : tx_def) (raw : string) (index : Z)
| DeleteInvalidTxs (ids : list Z)
| DeleteOrphans
| SetMetadata (key value : string).

Definition execute {numbers : JsonNumbers} (s : statement) (st : store) : gores store :=
  match s with
  | BlockInsert b recover => '(_, t) ← block_insert b recover (blocks st); Val (set_blocks st t)
  | TransactionInsert block_id d raw index => transaction_insert block_id d raw index st
  | DeleteInvalidTxs ids => Val (delete_invalid_txs ids st)
  | DeleteOrphans => Val (delete_orphans st)
  | SetMetadata key value => Val (set_metadata st (<[key := value]> (metadata st)))
  end.

(** The store after a sequence of statements, those that fail included. *)
Fixpoint history {numbers : JsonNumbers} (l : list statement) (st : store) : store :=
  match l with
  | [] => st
  | s :: l => history l (match execute s st with Val st' => st' | _ => st end)
  end.

Lemma block_insert_ids b recover t id t' :
  block_insert b recover t = Val (id, t') → ∀ i, i ∈ map row_id (rows t) → i ∈ map row_id (rows t').
Proof.
  intros (_ & _ & [(r & _ & _ & _ & ->)|(_ & _ & _ & H)])%block_insert_inv i Hi.
  - cbn. by rewrite (proj2 (seated_shape b (rows t))).
  - assert (Hi4 : i ∈ map row_id (seated b (rows t) ++ [{| row_id := id; row := set_orphan b false |}])).
    { rewrite map_app, (proj2 (seated_shape b (rows t))). apply elem_of_app. by left. }
    destruct (last_block_height (rows t)); [|by rewrite H].
    revert H. unfold validate_ancestors. destruct (select _ _) as [p|].
    + destruct (IsOrphan (row p)); [|by intros [= <-]]. intros H%activate_ids. by rewrite H.
    + intros [[_ H] _]%missing_ancestor_shape. by rewrite H.
Qed.

Lemma store_ok_block b recover st id t :
  store_ok st → block_insert b recover (blocks st) = Val (id, t) → store_ok (set_blocks st t).
Proof.
  intros [H1 H2 H3 H4 H5 H6 H7 H8 H9 H10] Hins.
  split; cbn [set_blocks blocks txs tx_next_id inputs outputs]; try done.
  - by eapply table_ok_insert.
  - intros r i Hr Hi. eapply block_insert_ids; [exact Hins|]. by eapply H6.
Qed.

Lemma store_ok_execute {numbers : JsonNumbers} s st st' :
  store_ok st → execute s st = Val st' → store_ok st'.
Proof.
  intros Hok. destruct s; cbn [execute].
  - intros ([id t] & Hins & [= <-])%bind_Val. by eapply store_ok_block.
  - by apply store_ok_transaction_insert.
  - intros [= <-]. by apply store_ok_delete_txs.
  - intros [= <-]. rewrite delete_orphans_eq. by apply store_ok_delete_txs.
  - intros [= <-]. by destruct Hok.
Qed.

Lemma store_ok_empty : store_ok empty_store.
Proof.
  split; cbn; try apply base.NoDup_nil_2; try done.
  - by apply table_ok_list_ok, (bool_decide_unpack _).
  - by intros r b ?%elem_of_nil.
  - by intros r ?%elem_of_nil.
  - by intros r ?%elem_of_nil.
Qed.

Lemma store_ok_history {numbers : JsonNumbers} l st : store_ok st → store_ok (history l st).
Proof.
  revert st. induction l as [|s l IH]; intros st Hst; [done|]. cbn. apply IH.
  destruct (execute s st) eqn:Hs; [|done..]. by eapply store_ok_execute.
Qed.

(** ** Properties *)

(** C17. From the empty schema, every sequence of the statements the services
    issue, successful or not, keeps the store consistent: unique ids, txids and
    hashes, one main-chain block per height, every transaction's block and
    every input's and output's transaction present, and no output or input
    position of a transaction stored twice. *)
Theorem history_store_ok {numbers : JsonNumbers} (l : list statement) : store_ok (history l empty_store).
Proof. apply store_ok_history, store_ok_empty. Qed.
