(* ===== verification/Postgres.v ===== *)
(** * Postgres: the database client

    The methods of [Database] in src/V2/pkg/postgres/postgres.go on the store
    of [Store].  A query is the function of the store its SQL text denotes; the
    rows of a query for several rows without an [ORDER BY] come in an order the
    database chooses ([RowOrder]).  A statement that writes is
    retried: each attempt may lose its request (nothing happens) or its reply
    (the statement is executed, the client sees an error). *)

From stdpp Require Import base list strings gmap sorting numbers.
From Stdlib Require Import ZArith Lia Ascii.
From S2P Require Import Prelude GoStrings Convert Retry Utxo BlockTable Store.

Local Open Scope Z_scope.

(** ** Result types *)

(** A timestamp column, or the time of the call for a row without one. *)
Inductive timestamp := MinedAt (unix : Z) | CallTime.

(** [type Tx struct] *)
Record DbTx := {
  db_ID : Z;
  db_TxID : string;
  db_Hash : string;
  db_Version : Z;
  db_Size : Z;
  db_VSize : Z;
  db_Weight : Z;
  db_Locktime : Z;
  db_Inputs : list Input;
  db_Outputs : list Output;
  db_BlockHash : string;
  db_BlockHeight : Z;
  db_Time : timestamp;
  db_BlockTime : option Z;
  db_Mempool : bool;
}.

(** [type SpentTxDetails struct] *)
Record SpentTxDetails := { SpentTxID : string; SpentIndex : Z; SpentHeight : Z }.

(** [type Utxo struct] *)
Record DbUtxo := {
  u_Vout : Z;
  u_Hex : string;
  u_ReqSigs : Z;
  u_Type : string;
  u_Address : string;
  u_SatAmount : Z;
  u_TxID : string;
  u_BlockHeight : Z;
  u_Timestamp : timestamp;
}.

(** [type PendingTx struct] *)
Record PendingTx := { p_ID : Z; p_TxID : string }.

#[global] Instance timestamp_eq_dec : EqDecision timestamp.
Proof. solve_decision. Defined.
#[global] Instance DbTx_eq_dec : EqDecision DbTx.
Proof. solve_decision. Defined.
#[global] Instance DbUtxo_eq_dec : EqDecision DbUtxo.
Proof. solve_decision. Defined.
#[global] Instance PendingTx_eq_dec : EqDecision PendingTx.
Proof. solve_decision. Defined.

Definition ErrNoRows : gerror := ESentinel "sql: no rows in result set".

(** [row.Scan] of a query for one row *)
Definition scan_row {A} (msg : string) (r : option A) : gores A :=
  match r with Some a => Val a | None => Err (EWrap msg ErrNoRows) end.

(** ** Queries *)

(** The queries that may return several rows and have no [ORDER BY], with
    their arguments *)
Inductive unordered :=
| TxHashesOf (hash : string) (limit offset : option Z)
| SpendersOf (txid : string) (vout : Z)
| UtxosOf (addrs : list string)
| OutputsOf (txid : string) (vout : option Z)
| InputsOf (txid : string).

(** PostgreSQL returns the rows of such a query in an order of its choice.  The
    order may be another one for every query, the pages of one list included:
    the documentation warns that [LIMIT] and [OFFSET] then give an unpredictable
    subset of the rows. *)
Class RowOrder := {
  arrange : ∀ {A : Type}, unordered → list A → list A;
  arrange_perm : ∀ {A : Type} (q : unordered) (l : list A), arrange q l ≡ₚ l;
}.

(** Two choices: as the rows were inserted, and the other way round *)
Definition insertion_order : RowOrder := {| arrange A q l := l; arrange_perm A q l := Permutation_refl l |}.
Definition reverse_order : RowOrder :=
  {| arrange A q l := rev l; arrange_perm A q l := Permutation_sym (Permutation_rev l) |}.

Lemma arrange_elem {order : RowOrder} {A} q (l : list A) x : x ∈ arrange q l ↔ x ∈ l.
Proof. by rewrite arrange_perm. Qed.

Lemma arrange_short {order : RowOrder} {A} q (l : list A) : (length l ≤ 1)%nat → arrange q l = l.
Proof.
  intros Hl. pose proof (arrange_perm q l) as H. destruct l as [|x [|]]; [by apply Permutation_nil_r in H| |cbn in Hl; lia].
  by apply Permutation_singleton_r in H.
Qed.

(** [func (d *Database) Get(key string) (string, error)] *)
Definition Get (key : string) (st : store) : gores string :=
  scan_row "failed to get value for key" (metadata st !! key).

(** [func (d *Database) GetOrphanCount() (int, error)] *)
Definition GetOrphanCount (st : store) : gores Z :=
  Val (Z.of_nat (length (filter (fun r => IsOrphan (row r) = true) (rows (blocks st))))).

(** The transaction ids [limitClause] admits: all, or [AND id >= bound]. *)
Definition admits (limit : option Z) (id : Z) : bool :=
  match limit with None => true | Some bound => bound <=? id end.

Definition by_id (a b : tx_row) : Prop := t_id a ≤ t_id b.
#[global] Instance by_id_dec : RelDecision by_id.
Proof. intros a b. unfold by_id. apply _. Defined.

(** [func (d *Database) GetPendingTxs(limitClause string) ([]*PendingTx, error)] *)
Definition GetPendingTxs (limit : option Z) (st : store) : gores (list PendingTx) :=
  Val (map (fun r => {| p_ID := t_id r; p_TxID := t_txid r |})
    (merge_sort by_id (filter (fun r => pending r && admits limit (t_id r) = true) (txs st)))).

(** The first row of a table by id *)
Definition first_by {A} (key : A → Z) (l : list A) : option A :=
  fold_right (fun a acc => match acc with Some b => if key b <? key a then Some b else Some a | None => Some a end) None l.

(** [func (d *Database) GetTxAtBlockTime(date time.Time) (int, error)] *)
Definition GetTxAtBlockTime (date : Z) (st : store) : gores Z :=
  let block := first_by row_id (filter (fun r => date <= Time (row r)) (rows (blocks st))) in
  scan_row "failed to get highest validated transaction"
    (b ← block; t_id <$> first_by t_id (filter (fun r => t_block_id r = Some (row_id b)) (txs st))).

(** The last row on the main chain by height: [ORDER BY height DESC LIMIT 1]. *)
Definition highest (t : list block_row) : option block_row :=
  first_by (fun r => - Height (row r)) (filter (fun r => IsOrphan (row r) = false) t).

(** [func (d *Database) LastBlock() (utxo.Block, error)]: the hash and height
    of the last block, or nil *)
Definition LastBlock (st : store) : gores (option (string * Z)) :=
  Val ((fun r => (Hash (row r), Height (row r))) <$> highest (rows (blocks st))).

(** [func (d *Database) GetBlock(val interface{}) (utxo.Block, error)] *)
Inductive block_val := ByHeight (h : Z) | ByHash (h : string).

Definition GetBlock (val : block_val) (st : store) : gores BlockHeader :=
  scan_row "failed to get block"
    (row <$> match val with
             | ByHeight h => select (fun r => has_height h r && on_chain r) (rows (blocks st))
             | ByHash h => select (has_hash h) (rows (blocks st))
             end).

(** [LEFT JOIN block ON transaction.block_id = block.id AND block.is_orphaned = FALSE] *)
Definition tx_block (st : store) (t : tx_row) : option BlockHeader :=
  id ← t_block_id t;
  row <$> find (fun r => (row_id r =? id) && on_chain (row r)) (rows (blocks st)).

(** [LIMIT] and [OFFSET]; a negative number is an error. *)
Definition paginate {A} (limit offset : option Z) (l : list A) : gores (list A) :=
  let neg o := match o with Some z => z <? 0 | None => false end in
  if neg limit || neg offset then Err (ENew "LIMIT and OFFSET must not be negative")
  else
    let l := match offset with Some o => drop (Z.to_nat o) l | None => l end in
    Val (match limit with Some n => take (Z.to_nat n) l | None => l end).

(** The main-chain transactions of the block with a hash. *)
Definition block_txs (hash : string) (st : store) : list tx_row :=
  filter (fun t => match t_block_id t with
                   | Some id => existsb (fun r => (row_id r =? id) && has_hash hash (row r) && on_chain (row r))
                                  (rows (blocks st))
                   | None => false
                   end = true) (txs st).

(** [func (d *Database) GetTxHashesByBlockHash(hash, limitClause, offsetClause string) ([]string, error)] *)
Definition GetTxHashesByBlockHash {order : RowOrder} (hash : string) (limit offset : option Z) (st : store) : gores (list string) :=
  l ← wrap_err "failed to get txhashes from block hash"
        (paginate limit offset (arrange (TxHashesOf hash limit offset) (block_txs hash st)));
  Val (map t_txid l).

(** [func (d *Database) GetTotalTxsByBlockHash(hash string) (int, error)] *)
Definition GetTotalTxsByBlockHash (hash : string) (st : store) : gores Z :=
  Val (Z.of_nat (length (block_txs hash st))).

Definition tx_of (st : store) (id : Z) : option tx_row := find (fun t => t_id t =? id) (txs st).

(** [func (d *Database) GetSpentTxDetails(txid string, vout int) *SpentTxDetails] *)
Definition GetSpentTxDetails {order : RowOrder} (txid : string) (vout : Z) (st : store) : option SpentTxDetails :=
  head (arrange (SpendersOf txid vout) (omap (fun i =>
    t ← tx_of st (i_tx i);
    if bool_decide (i_spent_txid i = txid) && (i_spent_vout i =? vout)
    then Some {| SpentTxID := t_txid t; SpentIndex := i_vin i;
                 SpentHeight := match tx_block st t with Some b => Height b | None => -1 end |}
    else None) (inputs st))).

(** An output is spent when an input names it. *)
Definition is_spent (st : store) (txid : string) (vout : Z) : bool :=
  existsb (fun i => bool_decide (i_spent_txid i = txid) && (i_spent_vout i =? vout)) (inputs st).

Definition utxo_of (st : store) (o : output_row) (t : tx_row) : DbUtxo :=
  {| u_Vout := o_vout o; u_Hex := o_hex o; u_ReqSigs := o_req_sigs o; u_Type := o_type o;
     u_Address := o_address o; u_SatAmount := o_amount o; u_TxID := t_txid t;
     u_BlockHeight := match tx_block st t with Some b => Height b | None => -1 end;
     u_Timestamp := match tx_block st t with Some b => MinedAt (Time b) | None => CallTime end |}.

(** The rows the query of [GetUtxosByAddrs] selects *)
Definition utxo_rows (addrs : list string) (st : store) : list DbUtxo :=
  omap (fun o =>
    t ← tx_of st (o_tx o);
    if bool_decide (o_address o ∈ addrs) && negb (is_spent st (t_txid t) (o_vout o))
    then Some (utxo_of st o t) else None) (outputs st).

(** [func (d *Database) GetUtxosByAddrs(addrs []string) ([]*Utxo, error)] *)
Definition GetUtxosByAddrs {order : RowOrder} (addrs : list string) (st : store) : gores (list DbUtxo) :=
  Val (arrange (UtxosOf addrs) (utxo_rows addrs st)).

Definition output_of (o : output_row) : Output :=
  {| out_Vout := o_vout o; out_SatAmount := o_amount o; out_Asm := o_asm o; out_Hex := o_hex o;
     out_ReqSigs := o_req_sigs o; out_Type := o_type o; out_Address := o_address o; out_Addresses := [] |}.

(** [func (d *Database) GetOutputsByTxID(txid string, voutClause string) ([]Output, error)];
    the clause is empty or asks for one [vout] *)
Definition GetOutputsByTxID {order : RowOrder} (txid : string) (vout : option Z) (st : store) : gores (list Output) :=
  Val (map output_of (arrange (OutputsOf txid vout) (filter (fun o =>
    match tx_of st (o_tx o) with Some t => bool_decide (t_txid t = txid) | None => false end
    && match vout with Some v => o_vout o =? v | None => true end = true) (outputs st)))).

(** The four characters the replacer of [GetInputsByTxID] removes. *)
Definition strip (s : string) : string :=
  of_bytes (filter (fun c => c ≠ 91 ∧ c ≠ 93 ∧ c ≠ 32 ∧ c ≠ 34) (bytes s)).

(** The column [tx_in_witness] as [GetInputsByTxID] reads it. *)
Definition read_witness (text : option string) : option (list string) :=
  match text with
  | None => None
  | Some str => Some (if bool_decide (str = "[]") then [] else Split "," (strip str))
  end.

Definition input_of (i : input_row) : Input :=
  {| in_Vin := i_vin i; in_SpentTx := i_spent_txid i; in_SpentVout := i_spent_vout i; in_Asm := i_asm i;
     in_Hex := i_hex i; in_Sequence := i_sequence i; in_TxInWitness := read_witness (i_witness i);
     in_Coinbase := i_coinbase i |}.

(** [func (d *Database) GetInputsByTxID(txid string) ([]Input, error)] *)
Definition GetInputsByTxID {order : RowOrder} (txid : string) (st : store) : gores (list Input) :=
  Val (map input_of (arrange (InputsOf txid) (filter (fun i =>
    match tx_of st (i_tx i) with Some t => bool_decide (t_txid t = txid) | None => false end = true) (inputs st)))).

(** [func (d *Database) GetTxByTxID(txid string) (Tx, error)] *)
Definition GetTxByTxID {order : RowOrder} (txid : string) (st : store) : gores DbTx :=
  t ← scan_row "failed to get transaction from txid" (find (fun t => bool_decide (t_txid t = txid)) (txs st));
  ins ← wrap_err "failed to get transaction from txid" (GetInputsByTxID (t_txid t) st);
  outs ← wrap_err "failed to get transaction from txid" (GetOutputsByTxID (t_txid t) None st);
  let block := tx_block st t in
  Val {| db_ID := t_id t; db_TxID := t_txid t; db_Hash := t_hash t; db_Version := t_version t;
         db_Size := t_size t; db_VSize := t_vsize t; db_Weight := t_weight t; db_Locktime := t_locktime t;
         db_Inputs := ins; db_Outputs := outs;
         db_BlockHash := match block with Some b => Hash b | None => "" end;
         db_BlockHeight := match block with Some b => Height b | None => -1 end;
         db_Time := match block with Some b => MinedAt (Time b) | None => CallTime end;
         db_BlockTime := Time <$> block;
         db_Mempool := match block with Some _ => false | None => true end |}.

(** [func (d *Database) GetRawTxByTxID(txid string) (RawTx, error)] *)
Definition GetRawTxByTxID (txid : string) (st : store) : gores string :=
  t_raw <$> scan_row "failed to get rawTx for txid" (find (fun t => bool_decide (t_txid t = txid)) (txs st)).

(** The transactions with an output to one of the addresses ... *)
Definition receives (addrs : list string) (st : store) (t : tx_row) : bool :=
  existsb (fun o => (o_tx o =? t_id t) && bool_decide (o_address o ∈ addrs)) (outputs st).

(** ... and those with an input that spends such an output. *)
Definition spends (addrs : list string) (st : store) (t : tx_row) : bool :=
  existsb (fun i => (i_tx i =? t_id t) &&
    existsb (fun s => bool_decide (t_txid s = i_spent_txid i) &&
      existsb (fun o => (o_tx o =? t_id s) && (o_vout o =? i_spent_vout i) && bool_decide (o_address o ∈ addrs))
        (outputs st)) (txs st)) (inputs st).

Definition by_id_desc (a b : Z * string) : Prop := b.1 ≤ a.1.
#[global] Instance by_id_desc_dec : RelDecision by_id_desc.
Proof. intros a b. unfold by_id_desc. apply _. Defined.

(** The [UNION] of the two selections of a column list: duplicates removed. *)
Definition address_union {A} `{EqDecision A} (cols : tx_row → A) (addrs : list string) (st : store) : list A :=
  remove_dups (map cols (filter (fun t => receives addrs st t = true) (txs st))
               ++ map cols (filter (fun t => spends addrs st t = true) (txs st))).

(** [func (d *Database) GetTxIDsByAddresses(addrs []string, limitClause, whereClause, offsetClause string)];
    every caller passes an empty [whereClause] *)
Definition GetTxIDsByAddresses (addrs : list string) (limit offset : option Z) (st : store) : gores (list string) :=
  l ← wrap_err "failed to get tx details from addresses"
        (paginate limit offset (merge_sort by_id_desc (address_union (fun t => (t_id t, t_txid t)) addrs st)));
  Val (map snd l).

(** [func (d *Database) GetTotalTxsByAddresses(addrs []string) (int, error)] *)
Definition GetTotalTxsByAddresses (addrs : list string) (st : store) : gores Z :=
  Val (Z.of_nat (length (address_union t_id addrs st))).

(** ** Statements that write *)

(** What can happen to one attempt. *)
Inductive fault := NoFault | LostRequest | LostReply.

(** The store and the faults of the attempts to come. *)
Definition conn : Type := store * list fault.

Definition next_fault (c : conn) : fault * conn :=
  match c.2 with [] => (NoFault, c) | f :: fs => (f, (c.1, fs)) end.

Definition connection_error : gerror := ENew "connection lost".

(** One execution of a statement over the connection. *)
Definition exec {A} (msg : string) (stmt : store → gores (A * store)) (c : conn) : gores A * conn :=
  let '(f, (st, fs)) := next_fault c in
  match f with
  | LostRequest => (Err (EWrap msg connection_error), (st, fs))
  | LostReply =>
      match stmt st with
      | Val (_, st') => (Err (EWrap msg connection_error), (st', fs))
      | _ => (Err (EWrap msg connection_error), (st, fs))
      end
  | NoFault =>
      match stmt st with
      | Val (a, st') => (Val a, (st', fs))
      | Err e => (Err (EWrap msg e), (st, fs))
      | Panic p => (Panic p, (st, fs))
      | Exit e => (Exit e, (st, fs))
      end
  end.

Section writes.
Context {numbers : JsonNumbers} (attempts : Z).

(** [func (d *Database) Set(key, value string) error] *)
Definition Set_ (key value : string) (c : conn) : gores unit * conn :=
  exec "failed to set key" (fun st => st' ← execute (SetMetadata key value) st; Val (tt, st')) c.

(** [func (d *Database) DeleteOrphans() error] *)
Definition DeleteOrphans_ (c : conn) : gores unit * conn :=
  (Simple (exec "failed to delete orphans" (fun st => st' ← execute DeleteOrphans st; Val (tt, st')))
     attempts 3 c).1.

(** [func (d *Database) DeleteInvalidTxs(ids []int) error] *)
Definition DeleteInvalidTxs_ (ids : list Z) (c : conn) : gores unit * conn :=
  (Simple (exec "failed to delete invalid txs" (fun st => st' ← execute (DeleteInvalidTxs ids) st; Val (tt, st')))
     attempts 3 c).1.

(** The header as [block_insert] receives it: the JSON object without the
    times, which are passed beside it, and without [IsOrphan]; the difficulty
    in the form PostgreSQL gives a JSON number. *)
Definition sent_header (b : BlockHeader) : gores BlockHeader :=
  match number_text (Difficulty b) with
  | None => Err (EWrap "failed to marshal object" (ENew "invalid number literal"))
  | Some d =>
      Val {| Hash := Hash b; Height := Height b; Time := Time b; MedianTime := MedianTime b; Nonce := Nonce b;
             PrevHash := PrevHash b; NextHash := NextHash b; Bits := Bits b; Difficulty := d;
             Chainwork := Chainwork b; Version := Version b; VersionHex := VersionHex b;
             MerkleRoot := MerkleRoot b; Size := Size b; StrippedSize := StrippedSize b; Weight := Weight b;
             TxCount := TxCount b; IsOrphan := false |}
  end.

(** The closure [InsertBlock] retries; it assigns [blockID]. *)
Definition insert_block_once (b : BlockHeader) (recover : bool) (s : conn * Z) : gores unit * (conn * Z) :=
  let '(c, blockID) := s in
  match sent_header b with
  | Val h =>
      match exec "failed to insert block"
              (fun st => '(id, t) ← block_insert h recover (blocks st); Val (id, set_blocks st t)) c with
      | (Val id, c') => (Val tt, (c', id))
      | (Err e, c') => (Err e, (c', blockID))
      | (Panic p, c') => (Panic p, (c', blockID))
      | (Exit e, c') => (Exit e, (c', blockID))
      end
  | Err e => (Err e, s)
  | Panic p => (Panic p, s)
  | Exit e => (Exit e, s)
  end.

(** [func (d *Database) InsertBlock(b *utxo.Block, recover bool) (int, error)]:
    [return blockID, retry.Simple(...)] reads [blockID] after the call *)
Definition InsertBlock (b : BlockHeader) (recover : bool) (c : conn) : gores Z * conn :=
  let '(r, (c', blockID), _) := Simple (insert_block_once b recover) attempts 3 (c, 0) in
  ((fun _ => blockID) <$> r, c').

(** The loop over [tx.Vins] *)
Definition make_inputs (vins : list Vin) : list Input :=
  imap (fun i v => {| in_Vin := Z.of_nat i; in_SpentTx := vin_TxID v; in_SpentVout := vin_Vout v;
                      in_Asm := vin_Asm v; in_Hex := vin_Hex v; in_Sequence := vin_Sequence v;
                      in_TxInWitness := vin_TxInWitness v; in_Coinbase := vin_Coinbase v |}) vins.

(** The address of an output: its only address, or a marker *)
Definition single_address (l : list string) : string :=
  match l with [a] => a | _ => "unsupported addr" end.

(** The loop over [tx.Vouts] *)
Fixpoint make_outputs (vouts : list Vout) : gores (list Output) :=
  match vouts with
  | [] => Val []
  | o :: vouts =>
      sats ← wrap_err "failed to insert vout" (ToSatoshi (vout_Value o));
      rest ← make_outputs vouts;
      Val ({| out_Vout := vout_N o; out_SatAmount := sats; out_Asm := vout_Asm o; out_Hex := vout_Hex o;
              out_ReqSigs := vout_ReqSigs o; out_Type := vout_Type o;
              out_Address := single_address (vout_Addresses o); out_Addresses := vout_Addresses o |} :: rest)
  end.

(** [txObj] *)
Definition make_tx (tx : Tx) : gores tx_def :=
  outs ← make_outputs (Vouts tx);
  match number_text (Locktime tx) with
  | None => Err (EWrap "failed to marshal object" (ENew "invalid number literal"))
  | Some _ =>
      Val {| d_txid := TxID tx; d_hash := tx_Hash tx; d_version := tx_Version tx; d_size := tx_Size tx;
             d_vsize := VSize tx; d_weight := tx_Weight tx; d_locktime := Locktime tx;
             d_inputs := make_inputs (Vins tx); d_outputs := outs |}
  end.

(** [func (d *Database) InsertTx(tx *utxo.Tx, txIndex int, blockID int) error] *)
Definition InsertTx (tx : Tx) (txIndex blockID : Z) (c : conn) : gores unit * conn :=
  match make_tx tx with
  | Val d =>
      (Simple (exec "failed to insert transaction"
         (fun st => st' ← execute (TransactionInsert blockID d (Hex tx) txIndex) st; Val (tt, st')))
         attempts 3 c).1
  | Err e => (Err e, c)
  | Panic p => (Panic p, c)
  | Exit e => (Exit e, c)
  end.

End writes.

(** ** Retried statements *)

(** A statement that does nothing when it is repeated. *)
Definition repeatable {A} (stmt : store → gores (A * store)) (st : store) : Prop :=
  ∀ a st', stmt st = Val (a, st') → stmt st' = Val (a, st').

(** What is known of the store while a repeatable statement is retried. *)
Definition at_most_once {A} (stmt : store → gores (A * store)) (st0 st : store) : Prop :=
  st = st0 ∨ ∃ a, stmt st0 = Val (a, st).

(** What a finished attempt has done. *)
Definition outcome {A} (stmt : store → gores (A * store)) (st0 : store) (r : gores A) (st : store) : Prop :=
  match r with
  | Val a => stmt st0 = Val (a, st)
  | Err _ => at_most_once stmt st0 st
  | _ => st = st0
  end.

Lemma exec_outcome {A} msg (stmt : store → gores (A * store)) st0 c r c' :
  repeatable stmt st0 → at_most_once stmt st0 c.1 → exec msg stmt c = (r, c') → outcome stmt st0 r c'.1.
Proof.
  intros Hrep Hst. unfold exec. destruct c as [st fs]. cbn in Hst.
  assert (Hnf : ∃ f fs', next_fault (st, fs) = (f, (st, fs'))).
  { unfold next_fault. destruct fs; cbn; by eauto. }
  destruct Hnf as (f & fs' & ->).
  assert (Hval : ∀ a st', stmt st = Val (a, st') → stmt st0 = Val (a, st')).
  { intros a st' H. destruct Hst as [->|[a' Ha']]; [done|]. rewrite (Hrep _ _ Ha') in H. injection H as <- <-. done. }
  assert (Hbad : ∀ r', stmt st = r' → (∀ x, r' ≠ Val x) → st = st0).
  { intros r' H Hr'. destruct Hst as [->|[a' Ha']]; [done|]. rewrite (Hrep _ _ Ha') in H. by destruct (Hr' (a', st)). }
  destruct f.
  - destruct (stmt st) as [[a st']|e|p|e] eqn:Hs; intros [= <- <-]; cbn;
      [by apply Hval|left|..]; apply (Hbad _ eq_refl); by intros ? [=].
  - intros [= <- <-]. done.
  - destruct (stmt st) as [[a st']|e|p|e] eqn:Hs; intros [= <- <-]; cbn; [right; exists a; by apply Hval|done..].
Qed.

Lemma Simple_exec_outcome msg (stmt : store → gores (unit * store)) attempts sleep c r c' sl :
  repeatable stmt c.1 → Simple (exec msg stmt) attempts sleep c = (r, c', sl) → outcome stmt c.1 r c'.1.
Proof.
  intros Hrep H.
  apply (Simple_invariant (exec msg stmt) (fun x => at_most_once stmt c.1 x.1)
    (fun r x => outcome stmt c.1 r x.1)) in H; [done| |by left].
  intros x Hx. destruct (exec msg stmt x) as [r' x'] eqn:He. apply (exec_outcome _ _ _ _ _ _ Hrep Hx) in He.
  split; [done|]. intros e ->. exact He.
Qed.

Section write_props.
Context {numbers : JsonNumbers} (attempts : Z).

Lemma InsertTx_outcome (tx : Tx) (txIndex blockID : Z) (st st' : store) (fs fs' : list fault) r :
  store_ok st → InsertTx attempts tx txIndex blockID (st, fs) = (r, (st', fs')) →
  match r with
  | Val _ => ∃ d, make_tx tx = Val d ∧ transaction_insert blockID d (Hex tx) txIndex st = Val st'
  | Err _ => st' = st ∨ ∃ d, make_tx tx = Val d ∧ transaction_insert blockID d (Hex tx) txIndex st = Val st'
  | _ => st' = st
  end.
Proof.
  intros Hok. unfold InsertTx. destruct (make_tx tx) as [d|e|p|e]; [|intros [= <- <- <-]; by auto..].
  match goal with |- (Simple ?f ?a ?s ?c).1 = _ → _ => destruct (Simple f a s c) as [[r' c'] sl] eqn:H end.
  cbn [fst]. intros [= -> ->].
  apply Simple_exec_outcome in H.
  - unfold outcome, at_most_once in H. cbn [fst] in H. destruct r as [u|e|p|e]; [| |done|done].
    + apply bind_Val in H as (x & Hx & [= _ <-]). by exists d.
    + destruct H as [H|[a (x & Hx & [= _ <-])%bind_Val]]; [by left|right]. by exists d.
  - intros a x (y & Hy & [= <- <-])%bind_Val. cbn [execute] in *.
    by rewrite (transaction_insert_again _ _ _ _ _ _ Hok Hy).
Qed.

(** C9. [InsertTx] stores a transaction exactly once however its attempts
    fail: when it reports success the store is that of one successful
    [transaction_insert], and when it reports an error the statement was
    executed once or not at all, even if replies were lost and the statement
    was executed again. *)
Theorem InsertTx_exactly_once (tx : Tx) (txIndex blockID : Z) (st st' : store) (fs fs' : list fault) r :
  store_ok st → InsertTx attempts tx txIndex blockID (st, fs) = (r, (st', fs')) →
  match r with
  | Val _ => ∃ d, make_tx tx = Val d ∧ transaction_insert blockID d (Hex tx) txIndex st = Val st'
  | Err _ => st' = st ∨ ∃ d, make_tx tx = Val d ∧ transaction_insert blockID d (Hex tx) txIndex st = Val st'
  | _ => st' = st
  end.
Proof. apply InsertTx_outcome. Qed.

End write_props.

(** A repeatable statement that succeeds in the end does so after as many
    faults as there are attempts left. *)
Lemma Simple_exec_live msg (stmt : store → gores (unit * store)) st0 st1 fuel attempts sleep st pre post :
  repeatable stmt st0 → stmt st0 = Val (tt, st1) → st = st0 ∨ st = st1 →
  in_int64 attempts → attempts ≠ - two63 → (Z.to_nat attempts ≤ fuel)%nat →
  Forall (fun f => f ≠ NoFault) pre → (length pre < max_attempts attempts)%nat →
  Simple_fuel (exec msg stmt) fuel attempts sleep (st, pre ++ NoFault :: post)
  = (Val tt, (st1, post), replicate (length pre) sleep).
Proof.
  intros Hrep Hst0. pose proof (Hrep _ _ Hst0) as Hst1.
  assert (Hany : ∀ st, st = st0 ∨ st = st1 → stmt st = Val (tt, st1)) by (intros ? [-> | ->]; done).
  intros Hst Hr Hmin Hf Hpre. revert attempts st pre Hst Hr Hmin Hf Hpre.
  induction fuel as [|fuel IH]; intros attempts st pre Hst Hr Hmin Hf Hpre Hlen.
  - assert (length pre = 0%nat) as ->%nil_length_inv by (unfold max_attempts in Hlen; lia). cbn.
    by rewrite (Hany st Hst).
  - cbn [Simple_fuel]. destruct Hpre as [|f pre Hne Hpre].
    { cbn. by rewrite (Hany st Hst). }
    assert (Hex : ∃ e st', (st' = st0 ∨ st' = st1) ∧
      exec msg stmt (st, (f :: pre) ++ NoFault :: post) = (Err e, (st', pre ++ NoFault :: post))).
    { unfold exec. cbn. destruct f; [done|by eauto|]. rewrite (Hany st Hst). by eauto. }
    destruct Hex as (e & st' & Hst' & ->).
    assert (1 < attempts) by (unfold max_attempts in Hlen; cbn in Hlen; lia).
    rewrite attempts_pred by done. rewrite Z.gtb_ltb, (proj2 (Z.ltb_lt 0 _)) by lia.
    rewrite (IH (attempts - 1) st' pre); [done|done| |unfold two63 in *; lia|lia|done|].
    + unfold in_int64, two63 in *. lia.
    + unfold max_attempts in *. cbn in Hlen. lia.
Qed.

(** [InsertTx] gets through: if the statement itself succeeds and fewer
    attempts fail than [InsertTx] makes, it reports success and the transaction
    is stored. *)
Theorem InsertTx_gets_through {numbers : JsonNumbers} (attempts : Z) (tx : Tx) d (txIndex blockID : Z)
    (st st' : store) (pre post : list fault) :
  store_ok st → make_tx tx = Val d → transaction_insert blockID d (Hex tx) txIndex st = Val st' →
  in_int64 attempts → attempts ≠ - two63 →
  Forall (fun f => f ≠ NoFault) pre → (length pre < max_attempts attempts)%nat →
  InsertTx attempts tx txIndex blockID (st, pre ++ NoFault :: post) = (Val tt, (st', post)).
Proof.
  intros Hok Hd Hins Hr Hmin Hpre Hlen. unfold InsertTx. rewrite Hd. unfold Simple.
  rewrite (Simple_exec_live _ _ st st'); [done| | |by left|done..].
  - intros a x (y & Hy & [= <- <-])%bind_Val. cbn [execute] in *.
    by rewrite (transaction_insert_again _ _ _ _ _ _ Hok Hy).
  - cbn [execute]. by rewrite Hins.
Qed.

(** ** What was inserted is read back *)

Definition input_row_of (next tx : Z) (i : Input) : input_row :=
  {| i_id := next; i_tx := tx; i_vin := in_Vin i; i_spent_txid := in_SpentTx i;
     i_spent_vout := in_SpentVout i; i_asm := in_Asm i; i_hex := in_Hex i;
     i_sequence := in_Sequence i; i_witness := json_strings <$> in_TxInWitness i;
     i_coinbase := in_Coinbase i |}.

Definition output_row_of (next tx : Z) (o : Output) : output_row :=
  {| o_id := next; o_tx := tx; o_vout := out_Vout o; o_amount := out_SatAmount o;
     o_asm := out_Asm o; o_hex := out_Hex o; o_req_sigs := out_ReqSigs o; o_type := out_Type o;
     o_address := out_Address o; o_addresses := out_Addresses o |}.

Fixpoint input_rows (next tx : Z) (l : list Input) : list input_row :=
  match l with [] => [] | i :: l => input_row_of next tx i :: input_rows (next + 1) tx l end.

Fixpoint output_rows (next tx : Z) (l : list Output) : list output_row :=
  match l with [] => [] | o :: l => output_row_of next tx o :: output_rows (next + 1) tx l end.

Lemma input_insert_exact tx ins rows next rows' next' :
  (∀ r i, r ∈ rows → i ∈ ins → i_tx r = tx → i_vin r ≠ in_Vin i) → NoDup (map in_Vin ins) →
  input_insert tx ins rows next = Val (rows', next') → rows' = rows ++ input_rows next tx ins.
Proof.
  revert rows next. induction ins as [|i ins IH]; intros rows next Hfresh Hnd; cbn [input_insert input_rows].
  - intros [= <- _]. by rewrite app_nil_r.
  - cbn in Hnd. apply list.NoDup_cons in Hnd as [Hi Hnd]. destruct (negb _); [done|].
    destruct (existsb _ rows) eqn:Hex.
    { apply existsb_exists in Hex as (r & Hr%list_elem_of_In & [E1 E2]%andb_true_iff).
      apply Z.eqb_eq in E1, E2. destruct (Hfresh r i Hr ltac:(left) E1 E2). }
    intros H. apply IH in H as ->; [by rewrite <-app_assoc| |done].
    intros r j [Hr|Hr]%elem_of_app Hj Htx; [by apply Hfresh; [|right|]|].
    apply list_elem_of_singleton in Hr. subst r. cbn. intros Heq. apply Hi. rewrite Heq.
    by apply (list_elem_of_fmap_2 in_Vin).
Qed.

Lemma output_insert_exact tx outs rows next rows' next' :
  (∀ r o, r ∈ rows → o ∈ outs → o_tx r = tx → o_vout r ≠ out_Vout o) → NoDup (map out_Vout outs) →
  output_insert tx outs rows next = Val (rows', next') → rows' = rows ++ output_rows next tx outs.
Proof.
  revert rows next. induction outs as [|o outs IH]; intros rows next Hfresh Hnd; cbn [output_insert output_rows].
  - intros [= <- _]. by rewrite app_nil_r.
  - cbn in Hnd. apply list.NoDup_cons in Hnd as [Hi Hnd]. destruct (negb _); [done|].
    destruct (existsb _ rows) eqn:Hex.
    { apply existsb_exists in Hex as (r & Hr%list_elem_of_In & [E1 E2]%andb_true_iff).
      apply Z.eqb_eq in E1, E2. destruct (Hfresh r o Hr ltac:(left) E1 E2). }
    intros H. apply IH in H as ->; [by rewrite <-app_assoc| |done].
    intros r j [Hr|Hr]%elem_of_app Hj Htx; [by apply Hfresh; [|right|]|].
    apply list_elem_of_singleton in Hr. subst r. cbn. intros Heq. apply Hi. rewrite Heq.
    by apply (list_elem_of_fmap_2 out_Vout).
Qed.

Lemma make_inputs_NoDup vins : NoDup (map in_Vin (make_inputs vins)).
Proof.
  apply list.NoDup_alt. intros i j x Hi Hj. change (map in_Vin ?l) with (in_Vin <$> l) in *.
  unfold make_inputs in *. rewrite list_lookup_fmap, list_lookup_imap in Hi, Hj.
  destruct (vins !! i); [|done]. destruct (vins !! j); [|done]. cbn in *.
  injection Hi as <-. injection Hj as Hj. lia.
Qed.

(** ** The witness column *)

(** A character that needs no escape and is none the reader removes. *)
Definition plain_char (c : Z) : Prop := 32 < c ∧ c ≠ 34 ∧ c ≠ 44 ∧ c ≠ 91 ∧ c ≠ 92 ∧ c ≠ 93.
Definition plain (s : string) : Prop := Forall plain_char (bytes s).

Lemma json_escape_plain c : plain_char c → json_escape c = [c].
Proof.
  unfold plain_char, json_escape. intros (? & ? & ? & ? & ? & ?).
  by rewrite !(proj2 (Z.eqb_neq _ _)), (proj2 (Z.ltb_ge _ _)) by lia.
Qed.

Lemma escape_plain s : plain s → flat_map json_escape (bytes s) = bytes s.
Proof.
  unfold plain. intros H. induction H as [|c l Hc Hl IH]; [done|]. cbn. by rewrite json_escape_plain, IH.
Qed.

Definition kept (c : Z) : Prop := c ≠ 91 ∧ c ≠ 93 ∧ c ≠ 32 ∧ c ≠ 34.

Lemma filter_plain s : plain s → filter kept (bytes s) = bytes s.
Proof.
  unfold plain. intros H. induction H as [|c l Hc Hl IH]; [done|].
  rewrite filter_cons_True, IH; [done|]. unfold plain_char in Hc. unfold kept. lia.
Qed.

Lemma filter_json_string s : plain s → filter kept (json_string s) = bytes s.
Proof.
  intros Hs. unfold json_string. rewrite filter_cons_False by (unfold kept; lia).
  rewrite list.filter_app, escape_plain, filter_plain, filter_cons_False, list.filter_nil, app_nil_r; [done|unfold kept; lia|done|done].
Qed.

Lemma filter_json_elements w : Forall plain w → filter kept (json_elements w) = bytes (Join w ",").
Proof.
  induction 1 as [|s w Hs Hw IH]; [done|]. destruct w as [|s' w]; [by apply filter_json_string|].
  change (json_elements (s :: s' :: w)) with (json_string s ++ 44 :: 32 :: json_elements (s' :: w)).
  change (Join (s :: s' :: w) ",") with (s ++ "," ++ Join (s' :: w) ",")%string.
  rewrite list.filter_app, filter_json_string, filter_cons_True, filter_cons_False, IH, !bytes_app;
    [done|unfold kept; lia|unfold kept; lia|done].
Qed.

Lemma json_string_bytes s : plain s → Forall is_byte (json_string s).
Proof.
  intros Hs. unfold json_string. rewrite escape_plain by done.
  constructor; [unfold is_byte; lia|]. apply Forall_app. split; [apply bytes_is_byte|].
  constructor; [unfold is_byte; lia|constructor].
Qed.

Lemma json_elements_bytes w : Forall plain w → Forall is_byte (json_elements w).
Proof.
  induction 1 as [|s w Hs Hw IH]; [constructor|]. destruct w as [|s' w]; [by apply json_string_bytes|].
  change (json_elements (s :: s' :: w)) with (json_string s ++ 44 :: 32 :: json_elements (s' :: w)).
  apply Forall_app. split; [by apply json_string_bytes|].
  constructor; [unfold is_byte; lia|]. constructor; [unfold is_byte; lia|done].
Qed.

(** The witness an input was inserted with is the one read back. *)
Lemma read_witness_json w : Forall plain w → read_witness (Some (json_strings w)) = Some w.
Proof.
  intros Hw. unfold read_witness. f_equal.
  assert (Hb : bytes (json_strings w) = 91 :: json_elements w ++ [93]).
  { unfold json_strings. apply bytes_of_bytes. constructor; [unfold is_byte; lia|].
    apply Forall_app. split; [by apply json_elements_bytes|]. constructor; [unfold is_byte; lia|constructor]. }
  destruct w as [|s w].
  - by rewrite bool_decide_true.
  - rewrite bool_decide_false.
    2:{ intros H%(f_equal bytes). rewrite Hb in H. destruct w; cbn in H; discriminate. }
    unfold strip. rewrite Hb, filter_cons_False by (unfold kept; lia).
    change (fun c => c ≠ 91 ∧ c ≠ 93 ∧ c ≠ 32 ∧ c ≠ 34) with kept.
    rewrite list.filter_app, filter_json_elements, filter_cons_False, list.filter_nil, app_nil_r, of_bytes_bytes;
      [|unfold kept; lia|done].
    apply Split_Join; [done|]. eapply Forall_impl; [|exact Hw]. intros x Hx Hin.
    unfold plain in Hx. rewrite list.Forall_forall in Hx. specialize (Hx _ Hin).
    destruct Hx as (_ & _ & Hx & _). by apply Hx.
Qed.

(** ** Reading a new transaction back *)

Lemma make_outputs_spec vouts outs :
  make_outputs vouts = Val outs →
  Forall2 (fun v o => out_Vout o = vout_N v ∧ ToSatoshi (vout_Value v) = Val (out_SatAmount o) ∧
    out_Asm o = vout_Asm v ∧ out_Hex o = vout_Hex v ∧ out_ReqSigs o = vout_ReqSigs v ∧ out_Type o = vout_Type v ∧
    out_Address o = single_address (vout_Addresses v)) vouts outs.
Proof.
  revert outs. induction vouts as [|v vouts IH]; intros outs; cbn [make_outputs].
  - intros [= <-]. constructor.
  - intros (sats & Hs & (rest & Hr & [= <-])%bind_Val)%bind_Val. constructor; [|by apply IH]. cbn.
    split_and!; try done. unfold wrap_err in Hs. by destruct (ToSatoshi (vout_Value v)).
Qed.

Lemma make_outputs_vouts vouts outs : make_outputs vouts = Val outs → map out_Vout outs = map vout_N vouts.
Proof.
  intros H%make_outputs_spec. induction H as [|v o vs os (E & _) _ IH]; [done|]. cbn. by rewrite E, IH.
Qed.

(** The store after a new transaction. *)
Record inserted {numbers : JsonNumbers} (block_id : Z) (d : tx_def) (raw : string) (index : Z) (st st' : store)
    (r : tx_row) : Prop := {
  ins_blocks : blocks st' = blocks st;
  ins_txs : txs st' = txs st ++ [r];
  ins_inputs : inputs st' = inputs st ++ input_rows (input_next_id st) (t_id r) (d_inputs d);
  ins_outputs : outputs st' = outputs st ++ output_rows (output_next_id st) (t_id r) (d_outputs d);
  ins_fresh : t_id r ∉ map t_id (txs st);
  ins_row : to_bigint (number_text (d_locktime d)) = Val (t_locktime r) ∧ t_index r = null_if_minus_one index ∧
    t_block_id r = null_if_minus_one block_id ∧ t_txid r = d_txid d ∧ t_hash r = d_hash d ∧
    t_version r = d_version d ∧ t_size r = d_size d ∧ t_vsize r = d_vsize d ∧ t_weight r = d_weight d ∧ t_raw r = raw;
}.

Lemma transaction_insert_inserted {numbers : JsonNumbers} block_id d raw index st st' :
  store_ok st → d_txid d ∉ map t_txid (txs st) →
  NoDup (map in_Vin (d_inputs d)) → NoDup (map out_Vout (d_outputs d)) →
  transaction_insert block_id d raw index st = Val st' →
  ∃ r, inserted block_id d raw index st st' r.
Proof.
  intros Hok Hnew Hin Hout. unfold transaction_insert. destruct (negb _); [done|].
  rewrite (proj2 (find_txid_None d (txs st)) Hnew).
  intros (lt & ins & inext & outs & onext & Hlt & _ & _ & Hi & Ho & ->)%insert_new_inv.
  assert (Hfresh : tx_next_id st ∉ map t_id (txs st)).
  { intros (r & Hr & Hin')%list_elem_of_fmap. pose proof (ok_tx_next _ Hok) as Hn.
    rewrite list.Forall_forall in Hn. specialize (Hn r Hin'). cbn in Hn. lia. }
  apply input_insert_exact in Hi as ->; [|intros r i Hr _ Htx; destruct Hfresh; rewrite <-Htx; by apply Hok|done].
  apply output_insert_exact in Ho as ->; [|intros r o Hr _ Htx; destruct Hfresh; rewrite <-Htx; by apply Hok|done].
  eexists. by split.
Qed.

Lemma tx_of_app_old st l id :
  id ∈ map t_id (txs st) → find (fun t => t_id t =? id) (txs st ++ l) = tx_of st id.
Proof.
  intros (r & -> & Hr)%list_elem_of_fmap. unfold tx_of. rewrite find_app.
  destruct (find _ (txs st)) eqn:Hf; [done|].
  pose proof (find_none _ _ Hf r (proj1 (list_elem_of_In _ _) Hr)) as Hn. cbn in Hn. by rewrite Z.eqb_refl in Hn.
Qed.

Lemma tx_of_app_new (l : list tx_row) r :
  t_id r ∉ map t_id l → find (fun t => t_id t =? t_id r) (l ++ [r]) = Some r.
Proof.
  intros Hr. rewrite find_app. destruct (find _ l) as [s|] eqn:Hf.
  - apply find_some in Hf as [Hs Heq%Z.eqb_eq]. destruct Hr. rewrite <-Heq.
    apply (list_elem_of_fmap_2 t_id). by apply list_elem_of_In.
  - cbn. by rewrite Z.eqb_refl.
Qed.

Lemma tx_of_Some st id t : tx_of st id = Some t → t ∈ txs st ∧ t_id t = id.
Proof. unfold tx_of. intros [H1%list_elem_of_In H2%Z.eqb_eq]%find_some. done. Qed.

Lemma filter_all_false {A} (f : A → bool) (l : list A) : (∀ x, x ∈ l → f x = false) → filter (fun x => f x = true) l = [].
Proof.
  induction l as [|x l IH]; [done|]. intros H. rewrite filter_cons_False.
  - apply IH. intros y Hy. apply H. by right.
  - rewrite (H x); [done|left].
Qed.

Lemma filter_all_true {A} (f : A → bool) (l : list A) : (∀ x, x ∈ l → f x = true) → filter (fun x => f x = true) l = l.
Proof.
  induction l as [|x l IH]; [done|]. intros H. rewrite filter_cons_True by (apply H; left).
  f_equal. apply IH. intros y Hy. apply H. by right.
Qed.

Lemma filter_andb_true {A} (f : A → bool) (l : list A) :
  filter (fun x => f x && true = true) l = filter (fun x => f x = true) l.
Proof. apply list_filter_iff. intros x. by rewrite andb_true_r. Qed.

Lemma input_rows_tx next tx l r : r ∈ input_rows next tx l → i_tx r = tx.
Proof.
  revert next. induction l as [|i l IH]; intros next; cbn; [by intros ?%elem_of_nil|].
  intros [->|Hr]%elem_of_cons; [done|by eapply IH].
Qed.

Lemma output_rows_tx next tx l r : r ∈ output_rows next tx l → o_tx r = tx.
Proof.
  revert next. induction l as [|i l IH]; intros next; cbn; [by intros ?%elem_of_nil|].
  intros [->|Hr]%elem_of_cons; [done|by eapply IH].
Qed.

(** Witnesses made of plain strings survive. *)
Definition witness_plain (i : Input) : Prop := Forall plain (default [] (in_TxInWitness i)).

Lemma input_of_rows next tx l : Forall witness_plain l → map input_of (input_rows next tx l) = l.
Proof.
  intros H. revert next. induction H as [|i l Hi Hl IH]; intros next; [done|]. cbn [map input_rows].
  rewrite IH. f_equal.
  assert (Hw : read_witness (json_strings <$> in_TxInWitness i) = in_TxInWitness i).
  { unfold witness_plain in Hi. destruct (in_TxInWitness i) as [w|]; [by apply read_witness_json|done]. }
  unfold input_of. cbn [input_row_of i_vin i_spent_txid i_spent_vout i_asm i_hex i_sequence i_witness i_coinbase].
  rewrite Hw. by destruct i.
Qed.

Definition without_addresses (o : Output) : Output :=
  {| out_Vout := out_Vout o; out_SatAmount := out_SatAmount o; out_Asm := out_Asm o; out_Hex := out_Hex o;
     out_ReqSigs := out_ReqSigs o; out_Type := out_Type o; out_Address := out_Address o; out_Addresses := [] |}.

Lemma output_of_rows next tx l : map output_of (output_rows next tx l) = map without_addresses l.
Proof. revert next. induction l as [|o l IH]; intros next; [done|]. cbn. by rewrite IH. Qed.

(** The rows of the new transaction are the ones its txid selects. *)
Lemma select_new_rows {numbers : JsonNumbers} {A} (tx : A → Z) block_id d raw index st st' r (old new : list A) txid :
  txid = d_txid d → store_ok st → d_txid d ∉ map t_txid (txs st) → inserted block_id d raw index st st' r →
  (∀ x, x ∈ old → tx x ∈ map t_id (txs st)) → (∀ x, x ∈ new → tx x = t_id r) →
  filter (fun x => match tx_of st' (tx x) with Some t => bool_decide (t_txid t = txid) | None => false end = true)
    (old ++ new) = new.
Proof.
  intros -> Hok Hnew Hins Hold Hnewx. rewrite list.filter_app, filter_all_false, filter_all_true; [done|..].
  - intros x Hx. rewrite (Hnewx x Hx). unfold tx_of. rewrite (ins_txs _ _ _ _ _ _ _ Hins), tx_of_app_new by apply Hins.
    apply bool_decide_eq_true. apply Hins.
  - intros x Hx. unfold tx_of. rewrite (ins_txs _ _ _ _ _ _ _ Hins), tx_of_app_old by by apply Hold.
    destruct (tx_of st (tx x)) as [t|] eqn:Ht; [|done]. apply tx_of_Some in Ht as [Ht _].
    apply bool_decide_eq_false. intros Heq. apply Hnew. rewrite <-Heq. by apply (list_elem_of_fmap_2 t_txid).
Qed.

(** C14. A new transaction is read back as it was inserted: same ids and
    numbers, its inputs with their positions and witnesses, its outputs with
    their positions and amounts in satoshis, both in the order the database
    chooses, its raw text, and the main-chain block it was inserted under, or none
    while it is pending. *)
Theorem GetTxByTxID_InsertTx {numbers : JsonNumbers} {order : RowOrder} (tx : Tx) d (txIndex blockID : Z) (st st' : store) :
  store_ok st → make_tx tx = Val d → TxID tx ∉ map t_txid (txs st) →
  NoDup (map vout_N (Vouts tx)) → Forall witness_plain (make_inputs (Vins tx)) →
  transaction_insert blockID d (Hex tx) txIndex st = Val st' →
  ∃ t, GetTxByTxID (TxID tx) st' = Val t ∧
    db_TxID t = TxID tx ∧ db_Hash t = tx_Hash tx ∧ db_Version t = tx_Version tx ∧ db_Size t = tx_Size tx ∧
    db_VSize t = VSize tx ∧ db_Weight t = tx_Weight tx ∧
    to_bigint (number_text (Locktime tx)) = Val (db_Locktime t) ∧
    db_Inputs t ≡ₚ make_inputs (Vins tx) ∧
    (∃ outs, db_Outputs t ≡ₚ outs ∧ Forall2 (fun v o => out_Vout o = vout_N v ∧ ToSatoshi (vout_Value v) = Val (out_SatAmount o) ∧
      out_Asm o = vout_Asm v ∧ out_Hex o = vout_Hex v ∧ out_ReqSigs o = vout_ReqSigs v ∧ out_Type o = vout_Type v ∧
      out_Address o = single_address (vout_Addresses v)) (Vouts tx) outs) ∧
    match (id ← null_if_minus_one blockID;
           find (fun r => (row_id r =? id) && on_chain (row r)) (rows (blocks st))) with
    | Some b => db_Mempool t = false ∧ db_BlockHeight t = Height (row b) ∧ db_BlockHash t = Hash (row b) ∧
                db_BlockTime t = Some (Time (row b))
    | None => db_Mempool t = true ∧ db_BlockHeight t = -1
    end ∧
    GetRawTxByTxID (TxID tx) st' = Val (Hex tx).
Proof.
  intros Hok Hd Hnew Hvout Hwit Htx. unfold make_tx in Hd. apply bind_Val in Hd as (outs & Houts & Hd).
  destruct (number_text (Locktime tx)) as [lt|] eqn:Hlt; [|done]. injection Hd as <-.
  match type of Htx with transaction_insert _ ?d0 _ _ _ = _ => set (d := d0) in * end.
  destruct (transaction_insert_inserted blockID d (Hex tx) txIndex st st' Hok Hnew (make_inputs_NoDup _))
    as (r & Hins); [cbn; by rewrite (make_outputs_vouts _ _ Houts)|done|].
  assert (Hfind : find (λ t, bool_decide (t_txid t = TxID tx)) (txs st') = Some r).
  { rewrite (ins_txs _ _ _ _ _ _ _ Hins), find_app.
    destruct (find _ (txs st)) as [s|] eqn:Hf.
    { apply find_some in Hf as [Hs%list_elem_of_In Hb%bool_decide_eq_true]. destruct Hnew. rewrite <-Hb.
      by apply (list_elem_of_fmap_2 t_txid). }
    cbn [find]. rewrite bool_decide_true; [done|apply Hins]. }
  assert (Hid : t_txid r = TxID tx) by apply Hins.
  assert (Hblk : tx_block st' r = row <$> (id ← null_if_minus_one blockID;
           find (fun r => (row_id r =? id) && on_chain (row r)) (rows (blocks st)))).
  { unfold tx_block. rewrite (ins_blocks _ _ _ _ _ _ _ Hins). destruct Hins as [_ _ _ _ _ (_ & _ & -> & _)].
    by destruct (null_if_minus_one blockID). }
  assert (∃ l, GetInputsByTxID (TxID tx) st' = Val l ∧ l ≡ₚ make_inputs (Vins tx)) as (ins & Hi & Hins').
  { eexists. split; [done|]. rewrite arrange_perm. rewrite (ins_inputs _ _ _ _ _ _ _ Hins), (select_new_rows i_tx blockID d (Hex tx) txIndex st st' r _ _ (TxID tx) eq_refl Hok Hnew Hins).
    - by rewrite input_of_rows.
    - apply Hok.
    - apply input_rows_tx. }
  assert (∃ l, GetOutputsByTxID (TxID tx) None st' = Val l ∧ l ≡ₚ map without_addresses outs) as (outs' & Ho & Houts').
  { eexists. split; [done|]. rewrite arrange_perm, (filter_andb_true (fun o => match tx_of st' (o_tx o) with
      Some t => bool_decide (t_txid t = TxID tx) | None => false end)), (ins_outputs _ _ _ _ _ _ _ Hins), (select_new_rows o_tx blockID d (Hex tx) txIndex st st' r _ _ (TxID tx) eq_refl Hok Hnew Hins).
    - by rewrite output_of_rows.
    - apply Hok.
    - apply output_rows_tx. }
  eexists. split.
  { unfold GetTxByTxID. rewrite Hfind. cbn [scan_row mbind gores_bind]. rewrite Hid, Hi, Ho. cbn [wrap_err mbind gores_bind].
    reflexivity. }
  cbn [db_TxID db_Hash db_Version db_Size db_VSize db_Weight db_Locktime db_Inputs db_Outputs db_Mempool db_BlockHeight
       db_BlockHash db_BlockTime].
  pose proof (ins_row _ _ _ _ _ _ _ Hins) as (R1 & _ & _ & _ & R5 & R6 & R7 & R8 & R9 & R10). cbn in R1, R5, R6, R7, R8, R9.
  split_and!; try done.
  - by rewrite Hlt in R1.
  - exists (map without_addresses outs). split; [done|].
    apply make_outputs_spec in Houts. clear -Houts. induction Houts; cbn; by constructor.
  - rewrite Hblk. by destruct (_ ≫= _).
  - unfold GetRawTxByTxID. rewrite Hfind. cbn. by rewrite R10.
Qed.

(** ** Concrete transactions *)

Definition test_numbers : JsonNumbers := fun s => Some s.

Definition test_vin (txid : string) (n : Z) : Vin :=
  {| vin_TxID := txid; vin_Vout := n; vin_Asm := ""; vin_Hex := ""; vin_TxInWitness := Some ["3044"; "02ab"];
     vin_Sequence := 4294967295; vin_Coinbase := "" |}.

Definition test_vout (value : string) (n : Z) (addr : string) : Vout :=
  {| vout_Value := value; vout_N := n; vout_Asm := ""; vout_Hex := "76a9"; vout_ReqSigs := 1;
     vout_Type := "pubkeyhash"; vout_Addresses := [addr] |}.

Definition test_tx (txid : string) (vins : list Vin) (vouts : list Vout) : Tx :=
  {| TxID := txid; tx_Hash := txid; tx_Version := 2; tx_Size := 226; VSize := 144; tx_Weight := 573;
     Locktime := "0"; Vins := vins; Vouts := vouts; Hex := "0200" |}.

Definition tx1 : Tx := test_tx "t1" [test_vin "" (-1)] [test_vout "12.5" 0 "alice"].
Definition tx2 : Tx :=
  test_tx "t2" [test_vin "t1" 0] [test_vout "2.5" 0 "bob"; test_vout "9.99990000" 1 "alice"].

Definition def_of (tx : Tx) : tx_def :=
  match @make_tx test_numbers tx with
  | Val d => d
  | _ => {| d_txid := ""; d_hash := ""; d_version := 0; d_size := 0; d_vsize := 0; d_weight := 0; d_locktime := "";
            d_inputs := []; d_outputs := [] |}
  end.

(** Two blocks and a transaction in the second. *)
Definition store1 : store :=
  @history test_numbers [BlockInsert a0 false; BlockInsert a1 false; TransactionInsert 2 (def_of tx1) "0200" 0] empty_store.

(** [tx2] as a pending transaction. *)
Definition store2 : store := @history test_numbers [TransactionInsert (-1) (def_of tx2) "0200" (-1)] store1.

Lemma store1_ok : store_ok store1.
Proof. apply store_ok_history, store_ok_empty. Qed.

Lemma InsertTx_exactly_once_witness :
  @InsertTx test_numbers 5 tx2 (-1) (-1) (store1, [LostReply; LostRequest]) = (Val tt, (store2, [])) ∧
  ∃ d, @make_tx test_numbers tx2 = Val d ∧ @transaction_insert test_numbers (-1) d "0200" (-1) store1 = Val store2.
Proof.
  split; [vm_compute; reflexivity|].
  apply (@InsertTx_exactly_once test_numbers 5 tx2 (-1) (-1) store1 store2 [LostReply; LostRequest] [] (Val tt)).
  - apply store1_ok.
  - vm_compute. reflexivity.
Defined.

Lemma InsertTx_gets_through_witness :
  @InsertTx test_numbers 5 tx2 (-1) (-1) (store1, [LostReply; LostRequest; LostReply; NoFault]) = (Val tt, (store2, [])).
Proof.
  apply (@InsertTx_gets_through test_numbers 5 tx2 (def_of tx2) (-1) (-1) store1 store2
    [LostReply; LostRequest; LostReply] []).
  - apply store1_ok.
  - vm_compute. reflexivity.
  - vm_compute. reflexivity.
  - unfold in_int64, two63. lia.
  - done.
  - by repeat constructor.
  - vm_compute. lia.
Defined.

Lemma GetTxByTxID_InsertTx_witness :
  ∃ t, @GetTxByTxID reverse_order "t2" store2 = Val t ∧
    db_TxID t = "t2" ∧ db_Hash t = "t2" ∧ db_Version t = 2 ∧ db_Size t = 226 ∧ db_VSize t = 144 ∧ db_Weight t = 573 ∧
    to_bigint (Some "0") = Val (db_Locktime t) ∧
    db_Inputs t ≡ₚ make_inputs [test_vin "t1" 0] ∧
    (∃ outs, db_Outputs t ≡ₚ outs ∧ Forall2 (fun v o => out_Vout o = vout_N v ∧ ToSatoshi (vout_Value v) = Val (out_SatAmount o) ∧
      out_Asm o = vout_Asm v ∧ out_Hex o = vout_Hex v ∧ out_ReqSigs o = vout_ReqSigs v ∧ out_Type o = vout_Type v ∧
      out_Address o = single_address (vout_Addresses v)) (Vouts tx2) outs) ∧
    (db_Mempool t = true ∧ db_BlockHeight t = -1) ∧
    GetRawTxByTxID "t2" store2 = Val "0200".
Proof.
  apply (@GetTxByTxID_InsertTx test_numbers reverse_order tx2 (def_of tx2) (-1) (-1) store1 store2).
  - apply store1_ok.
  - vm_compute. reflexivity.
  - apply (bool_decide_unpack _). vm_compute. exact I.
  - apply (bool_decide_unpack _). vm_compute. exact I.
  - apply list.Forall_singleton. unfold witness_plain. cbn.
    constructor; [|constructor; [|constructor]]; apply (bool_decide_unpack _); vm_compute; exact I.
  - vm_compute. reflexivity.
Defined.
