(* ===== verification/Ledger.v ===== *)
(** * Ledger: what the queries of the store say about its history

    Theorems on the queries of [Postgres]: unspent outputs, the history of a
    set of addresses, and blocks read back after [InsertBlock]. *)

From stdpp Require Import base list strings gmap sorting numbers.
From Stdlib Require Import ZArith Lia Permutation.
From S2P Require Import Prelude GoStrings Convert Retry Utxo BlockTable Store Postgres.

Local Open Scope Z_scope.

(** ** Unspent outputs *)

(** An input of the transaction spends the output. *)
Definition spent_by (ins : list Input) (txid : string) (vout : Z) : bool :=
  existsb (fun i => bool_decide (in_SpentTx i = txid) && (in_SpentVout i =? vout)) ins.

Lemma existsb_input_rows next tx l txid vout :
  existsb (fun i => bool_decide (i_spent_txid i = txid) && (i_spent_vout i =? vout)) (input_rows next tx l)
  = spent_by l txid vout.
Proof. revert next. induction l as [|i l IH]; intros next; [done|]. cbn. by rewrite IH. Qed.

Lemma omap_app {A B} (f : A → option B) (l k : list A) : omap f (l ++ k) = omap f l ++ omap f k.
Proof. induction l as [|x l IH]; [done|]. cbn. destruct (f x); cbn; by rewrite IH. Qed.

Lemma omap_ext_in {A B} (f g : A → option B) (l : list A) : (∀ x, x ∈ l → f x = g x) → omap f l = omap g l.
Proof.
  induction l as [|x l IH]; intros H; [done|]. cbn. rewrite (H x) by left.
  rewrite IH; [done|]. intros y Hy. apply H. by right.
Qed.

Lemma omap_filter {A B} (f : A → option B) (p : B → bool) (l : list A) :
  filter (fun b => p b = true) (omap f l) = omap (fun a => b ← f a; if p b then Some b else None) l.
Proof.
  induction l as [|x l IH]; [done|]. cbn [omap list_omap]. destruct (f x) as [b|]; cbn [mbind option_bind]; [|done].
  destruct (p b) eqn:Hp; [by rewrite filter_cons_True, IH|by rewrite filter_cons_False, IH; [|rewrite Hp]].
Qed.

Section insert_new_tx.
Context {numbers : JsonNumbers} (block_id : Z) (d : tx_def) (raw : string) (index : Z) (st st' : store) (r : tx_row).
Context (Hok : store_ok st) (Hins : inserted block_id d raw index st st' r).

Lemma tx_of_old id : id ∈ map t_id (txs st) → tx_of st' id = tx_of st id.
Proof. intros H. unfold tx_of at 1. by rewrite (ins_txs _ _ _ _ _ _ _ Hins), tx_of_app_old. Qed.

Lemma tx_of_new : tx_of st' (t_id r) = Some r.
Proof. unfold tx_of. rewrite (ins_txs _ _ _ _ _ _ _ Hins). apply tx_of_app_new, Hins. Qed.

Lemma tx_block_same t : tx_block st' t = tx_block st t.
Proof. unfold tx_block. by rewrite (ins_blocks _ _ _ _ _ _ _ Hins). Qed.

Lemma is_spent_insert txid vout : is_spent st' txid vout = is_spent st txid vout || spent_by (d_inputs d) txid vout.
Proof. unfold is_spent. by rewrite (ins_inputs _ _ _ _ _ _ _ Hins), existsb_app, existsb_input_rows. Qed.

Lemma utxo_of_same o t : utxo_of st' o t = utxo_of st o t.
Proof. unfold utxo_of. by rewrite !tx_block_same. Qed.

(** The output of the new transaction as an unspent output. *)
Definition new_utxo (addrs : list string) (o : Output) : option DbUtxo :=
  if bool_decide (out_Address o ∈ addrs) && negb (is_spent st (d_txid d) (out_Vout o))
     && negb (spent_by (d_inputs d) (d_txid d) (out_Vout o))
  then Some (utxo_of st (output_row_of 0 0 o) r) else None.

Lemma utxo_rows_insert addrs :
  utxo_rows addrs st' =
  filter (fun u => negb (spent_by (d_inputs d) (u_TxID u) (u_Vout u)) = true) (utxo_rows addrs st)
  ++ omap (new_utxo addrs) (d_outputs d).
Proof.
  unfold utxo_rows. rewrite (ins_outputs _ _ _ _ _ _ _ Hins), omap_app. f_equal.
  - rewrite omap_filter. apply omap_ext_in. intros o Ho.
    rewrite tx_of_old by by apply Hok. destruct (tx_of st (o_tx o)) as [t|]; [|done]. cbn.
    rewrite is_spent_insert, utxo_of_same. destruct (bool_decide _), (is_spent st _ _); cbn; try done.
  - generalize (output_next_id st). induction (d_outputs d) as [|o l IH]; intros next; [done|].
    cbn [output_rows omap list_omap o_tx output_row_of]. rewrite IH, tx_of_new. cbn [mbind option_bind].
    unfold new_utxo. rewrite is_spent_insert. destruct Hins as [_ _ _ _ _ (_ & _ & _ & Htxid & _)]. rewrite Htxid.
    cbn [o_address o_vout]. destruct (bool_decide _), (is_spent st _ _), (spent_by _ _ _); cbn; try done.
    by rewrite utxo_of_same.
Qed.

End insert_new_tx.

(** ** The history of a set of addresses *)

Lemma remove_dups_map {A B} `{EqDecision A, EqDecision B} (h : A → B) (l : list A) :
  (∀ x y, x ∈ l → y ∈ l → h x = h y → x = y) → remove_dups (map h l) = map h (remove_dups l).
Proof.
  induction l as [|x l IH]; intros Hinj; [done|]. cbn.
  rewrite IH by (intros y z Hy Hz; apply Hinj; by right).
  destruct (decide_rel elem_of (h x) (map h l)) as [Hin|Hin], (decide_rel elem_of x l) as [Hx|Hx]; try done.
  - apply list_elem_of_fmap in Hin as (y & Heq & Hy). destruct Hx. by rewrite (Hinj x y); [|left|right|].
  - destruct Hin. by apply (list_elem_of_fmap_2 h).
Qed.

Lemma Permutation_map_lift {A B} (h : A → B) (l : list B) (k : list A) :
  l ≡ₚ map h k → ∃ k', l = map h k' ∧ k' ≡ₚ k.
Proof. intros H. destruct (Permutation_map_inv h _ H) as (k' & -> & Hk). by exists k'. Qed.

(** The transaction concerns one of the addresses. *)
Definition touches (addrs : list string) (st : store) (t : tx_row) : Prop :=
  receives addrs st t = true ∨ spends addrs st t = true.

Definition touching (addrs : list string) (st : store) : list tx_row :=
  remove_dups (filter (fun t => receives addrs st t = true) (txs st)
               ++ filter (fun t => spends addrs st t = true) (txs st)).

Lemma elem_of_touching addrs st t : t ∈ touching addrs st ↔ t ∈ txs st ∧ touches addrs st t.
Proof.
  unfold touching, touches. rewrite elem_of_remove_dups, elem_of_app, !list_elem_of_filter. tauto.
Qed.

Lemma address_union_touching {A} `{EqDecision A} (cols : tx_row → A) addrs st :
  (∀ x y, x ∈ txs st → y ∈ txs st → cols x = cols y → x = y) →
  address_union cols addrs st = map cols (touching addrs st).
Proof.
  intros Hinj. unfold address_union, touching. rewrite <-map_app, remove_dups_map; [done|].
  intros x y Hx Hy. apply Hinj.
  - apply elem_of_app in Hx as [Hx|Hx]; by apply list_elem_of_filter in Hx as [_ Hx].
  - apply elem_of_app in Hy as [Hy|Hy]; by apply list_elem_of_filter in Hy as [_ Hy].
Qed.

#[global] Instance by_id_desc_total : Total by_id_desc.
Proof. intros [a ?] [b ?]. unfold by_id_desc. cbn. lia. Qed.
#[global] Instance by_id_desc_trans : Transitive by_id_desc.
Proof. intros [a ?] [b ?] [c ?]. unfold by_id_desc. cbn. lia. Qed.

(** The transactions of the addresses, newest first. *)
Definition newest_first (rows : list tx_row) : Prop := StronglySorted (fun a b => t_id b < t_id a) rows.

Lemma newest_first_map rows :
  NoDup (map t_id rows) → StronglySorted by_id_desc (map (fun t => (t_id t, t_txid t)) rows) → newest_first rows.
Proof.
  unfold newest_first. induction rows as [|t rows IH]; intros Hnd Hs; [constructor|].
  cbn in Hnd, Hs. apply list.NoDup_cons in Hnd as [Ht Hnd]. apply StronglySorted_inv in Hs as [Hs Hall].
  constructor; [by apply IH|]. rewrite list.Forall_forall in Hall. apply list.Forall_forall. intros x Hx.
  specialize (Hall (t_id x, t_txid x)).
  assert (H : (t_id x, t_txid x) ∈ map (λ t : tx_row, (t_id t, t_txid t)) rows)
    by by apply (list_elem_of_fmap_2 (fun t => (t_id t, t_txid t))).
  specialize (Hall H). unfold by_id_desc in Hall. cbn in Hall.
  assert (t_id x ≠ t_id t); [|lia]. intros E. apply Ht. rewrite <-E. by apply (list_elem_of_fmap_2 t_id).
Qed.

(** The rows behind the query. *)
Lemma address_history addrs st :
  store_ok st →
  ∃ rows, newest_first rows ∧ (∀ t, t ∈ rows ↔ t ∈ txs st ∧ touches addrs st t) ∧
    merge_sort by_id_desc (address_union (fun t => (t_id t, t_txid t)) addrs st)
      = map (fun t => (t_id t, t_txid t)) rows ∧
    length (address_union t_id addrs st) = length rows.
Proof.
  intros Hok.
  assert (Hinj : ∀ x y, x ∈ txs st → y ∈ txs st → t_id x = t_id y → x = y).
  { intros x y. apply (NoDup_map_inj t_id). apply Hok. }
  rewrite !address_union_touching; [|done|intros x y Hx Hy [= E _]; by apply Hinj].
  set (l := map _ (touching addrs st)).
  destruct (Permutation_map_lift (fun t => (t_id t, t_txid t)) (merge_sort by_id_desc l) (touching addrs st))
    as (rows & Hrows & Hperm); [apply merge_sort_Permutation|].
  exists rows. split_and!; [| |done|by rewrite length_map, Hperm].
  - apply newest_first_map.
    + apply (NoDup_fmap_2_strong t_id).
      * intros x y Hx Hy. rewrite Hperm in Hx. rewrite Hperm in Hy.
        apply elem_of_touching in Hx as [Hx _], Hy as [Hy _]. by apply Hinj.
      * rewrite Hperm. apply NoDup_remove_dups.
    + rewrite <-Hrows. apply StronglySorted_merge_sort; apply _.
  - intros t. by rewrite Hperm, elem_of_touching.
Qed.

(** C15. [GetTxIDsByAddresses] lists each transaction with an output to one of
    the addresses or an input that spends such an output exactly once, newest
    first; [limit] and [offset] give the corresponding page of that list, and
    [GetTotalTxsByAddresses] is its length. *)
Theorem GetTxIDsByAddresses_history (addrs : list string) (st : store) :
  store_ok st →
  ∃ rows, newest_first rows ∧ (∀ t, t ∈ rows ↔ t ∈ txs st ∧ touches addrs st t) ∧
    GetTotalTxsByAddresses addrs st = Val (Z.of_nat (length rows)) ∧
    GetTxIDsByAddresses addrs None None st = Val (map t_txid rows) ∧
    NoDup (map t_txid rows) ∧
    ∀ limit offset, 0 ≤ limit → 0 ≤ offset →
      GetTxIDsByAddresses addrs (Some limit) (Some offset) st
      = Val (take (Z.to_nat limit) (drop (Z.to_nat offset) (map t_txid rows))).
Proof.
  intros Hok. destruct (address_history addrs st Hok) as (rows & Hs & Hin & Hsort & Hlen). exists rows.
  assert (Hsnd : ∀ l : list tx_row, map snd (map (λ t : tx_row, (t_id t, t_txid t)) l) = map t_txid l)
    by (intros l; by rewrite map_map).
  split_and!; [done|done| | | |].
  - unfold GetTotalTxsByAddresses. by rewrite Hlen.
  - unfold GetTxIDsByAddresses. rewrite Hsort. cbn. by rewrite Hsnd.
  - apply (NoDup_fmap_2_strong t_txid).
    + intros x y [Hx _]%Hin [Hy _]%Hin. by apply (NoDup_map_inj t_txid (txs st)); [apply Hok|..].
    + clear -Hs. unfold newest_first in Hs. induction Hs as [|t l _ IH Hall]; [constructor|].
      constructor; [|done]. intros Ht. rewrite list.Forall_forall in Hall. specialize (Hall t Ht). cbn in Hall. lia.
  - intros limit offset Hl Ho. unfold GetTxIDsByAddresses, paginate.
    rewrite (proj2 (Z.ltb_ge _ _) Hl), (proj2 (Z.ltb_ge _ _) Ho), Hsort. cbn.
    by rewrite <-(firstn_map snd), <-(skipn_map snd), Hsnd.
Qed.

Lemma GetTxIDsByAddresses_history_witness :
  (∃ rows, newest_first rows ∧ (∀ t, t ∈ rows ↔ t ∈ txs store2 ∧ touches ["alice"] store2 t) ∧
    GetTotalTxsByAddresses ["alice"] store2 = Val (Z.of_nat (length rows)) ∧
    GetTxIDsByAddresses ["alice"] None None store2 = Val (map t_txid rows) ∧
    NoDup (map t_txid rows) ∧
    ∀ limit offset, 0 ≤ limit → 0 ≤ offset →
      GetTxIDsByAddresses ["alice"] (Some limit) (Some offset) store2
      = Val (take (Z.to_nat limit) (drop (Z.to_nat offset) (map t_txid rows)))) ∧
  GetTxIDsByAddresses ["alice"] None None store2 = Val ["t2"; "t1"].
Proof.
  split; [|by vm_compute]. apply GetTxIDsByAddresses_history. apply store_ok_history, store1_ok.
Defined.

(** ** Blocks *)

(** The statement behind [InsertBlock]. *)
Definition block_stmt (h : BlockHeader) (recover : bool) (st : store) : gores (Z * store) :=
  '(id, t) ← block_insert h recover (blocks st); Val (id, set_blocks st t).

Lemma block_stmt_repeatable h st :
  store_ok st → attachable h (rows (blocks st)) →
  repeatable (block_stmt h false) st.
Proof.
  intros Hok Hatt id st' ([id' t] & H & [= -> <-])%bind_Val. unfold block_stmt. cbn [blocks set_blocks].
  by rewrite (block_insert_again h (blocks st) id t (ok_blocks _ Hok) Hatt H).
Qed.

(** The outcome of the attempts, where repeating the statement is harmless. *)
Lemma InsertBlock_repeated {numbers : JsonNumbers} (attempts : Z) (b h : BlockHeader) (st st' : store)
    (fs fs' : list fault) r :
  sent_header b = Val h → repeatable (block_stmt h false) st →
  InsertBlock attempts b false (st, fs) = (r, (st', fs')) →
  match r with
  | Val id => ∃ t, block_insert h false (blocks st) = Val (id, t) ∧ st' = set_blocks st t
  | Err _ => st' = st ∨ ∃ id t, block_insert h false (blocks st) = Val (id, t) ∧ st' = set_blocks st t
  | _ => st' = st
  end.
Proof.
  intros Hh Hrep. unfold InsertBlock.
  destruct (Simple _ attempts 3 _) as [[r' [c' id]] sl] eqn:H. intros [= <- ->].
  apply (Simple_invariant (insert_block_once b false) (fun x => at_most_once (block_stmt h false) st x.1.1)
    (fun r x => outcome (block_stmt h false) st ((fun _ => x.2) <$> r) x.1.1)) in H; [|clear H|by left].
  - cbn in H. unfold outcome, at_most_once in H. destruct r' as [[]|e|p|e]; cbn [fmap gores_fmap] in *; [| |done|done].
    + apply bind_Val in H as ([id' t] & Ht & [= <- <-]). by exists t.
    + destruct H as [->|(a & ([id' t] & Ht & [= <- <-])%bind_Val)]; [by left|right]. by exists id', t.
  - intros [c0 id0] Hc. unfold insert_block_once. rewrite Hh. fold (block_stmt h false).
    destruct (exec _ _ c0) as [r0 c1] eqn:He. apply (exec_outcome _ _ _ _ _ _ Hrep Hc) in He.
    destruct r0; cbn in *; split; try done.
Qed.

Lemma InsertBlock_outcome {numbers : JsonNumbers} (attempts : Z) (b h : BlockHeader) (st st' : store)
    (fs fs' : list fault) r :
  store_ok st → sent_header b = Val h → attachable h (rows (blocks st)) →
  InsertBlock attempts b false (st, fs) = (r, (st', fs')) →
  match r with
  | Val id => ∃ t, block_insert h false (blocks st) = Val (id, t) ∧ st' = set_blocks st t
  | Err _ => st' = st ∨ ∃ id t, block_insert h false (blocks st) = Val (id, t) ∧ st' = set_blocks st t
  | _ => st' = st
  end.
Proof. intros Hok Hh Hatt. by apply InsertBlock_repeated, block_stmt_repeatable. Qed.

(** C10. [InsertBlock] of a block that attaches to the main chain stores it
    exactly once however its attempts fail: on success the store is that of one
    [block_insert] and the id returned is the block's, also when an earlier
    attempt's reply was lost; on an error the function was executed once or
    not at all. *)
Theorem InsertBlock_exactly_once {numbers : JsonNumbers} (attempts : Z) (b h : BlockHeader) (st st' : store)
    (fs fs' : list fault) r :
  store_ok st → sent_header b = Val h → attachable h (rows (blocks st)) →
  InsertBlock attempts b false (st, fs) = (r, (st', fs')) →
  match r with
  | Val id => block_stmt h false st = Val (id, st')
  | Err _ => st' = st ∨ ∃ id, block_stmt h false st = Val (id, st')
  | _ => st' = st
  end.
Proof.
  intros Hok Hh Hatt H. apply (InsertBlock_outcome _ b h) in H; [|done..]. unfold block_stmt. destruct r as [id| | |]; [|destruct H as [|H]|done|done].
  - destruct H as (t & -> & ->). done.
  - by left.
  - right. destruct H as (id & t & -> & ->). by exists id.
Qed.

Lemma first_by_spec {A} (key : A → Z) (l : list A) :
  match first_by key l with
  | Some a => a ∈ l ∧ ∀ x, x ∈ l → key a ≤ key x
  | None => l = []
  end.
Proof.
  unfold first_by. induction l as [|x l IH]; [done|]. cbn.
  destruct (fold_right _ None l) as [b|].
  - destruct IH as [Hb Hle]. destruct (Z.ltb_spec (key b) (key x)).
    + split; [by right|]. intros y [->|Hy]%elem_of_cons; [lia|by apply Hle].
    + split; [left|]. intros y [->|Hy]%elem_of_cons; [lia|]. specialize (Hle y Hy). lia.
  - subst l. split; [left|]. intros y Hy%list_elem_of_singleton. by subst.
Qed.

(** Blocks are read from the main chain. *)
Lemma GetBlock_canon n st :
  table_ok (blocks st) → canon (rows (blocks st)) n →
  ∃ x, GetBlock (ByHeight (nheight n)) st = Val x ∧ node_of x = n ∧ IsOrphan x = false.
Proof.
  intros Hok (r & Hr & <- & Ho). unfold GetBlock. destruct (select _ (rows (blocks st))) as [s|] eqn:Hs.
  - apply find_some in Hs as [Hin%list_elem_of_In [E1%Z.eqb_eq E2]%andb_true_iff].
    unfold on_chain in E2. apply negb_true_iff in E2. exists (row s). split_and!; [done| |done].
    by apply (ok_heights _ Hok); [exists s|exists r|].
  - pose proof (find_none _ _ Hs r (proj1 (list_elem_of_In _ _) Hr)) as Hno. cbn in Hno.
    unfold has_height, on_chain in Hno. by rewrite Ho, Z.eqb_refl in Hno.
Qed.

Lemma GetBlock_gap h st :
  (∀ n, canon (rows (blocks st)) n → nheight n ≠ h) →
  GetBlock (ByHeight h) st = Err (EWrap "failed to get block" ErrNoRows).
Proof.
  intros Hno. unfold GetBlock. destruct (select _ (rows (blocks st))) as [s|] eqn:Hs; [|done]. exfalso.
  apply find_some in Hs as [Hin%list_elem_of_In [E1%Z.eqb_eq E2]%andb_true_iff].
  unfold on_chain in E2. apply negb_true_iff in E2. apply (Hno (node_of (row s))); [by exists s|done].
Qed.

Lemma LastBlock_canon n st :
  table_ok (blocks st) → canon (rows (blocks st)) n → (∀ x, canon (rows (blocks st)) x → nheight x ≤ nheight n) →
  LastBlock st = Val (Some (nhash n, nheight n)).
Proof.
  intros Hok (r & Hr & <- & Ho) Hmax. unfold LastBlock, highest.
  pose proof (first_by_spec (fun r => - Height (row r)) (filter (fun r => IsOrphan (row r) = false) (rows (blocks st)))) as Hf.
  assert (Hr' : r ∈ filter (fun r => IsOrphan (row r) = false) (rows (blocks st))) by by apply list_elem_of_filter.
  destruct (first_by _ _) as [a|]; [|rewrite Hf in Hr'; by apply elem_of_nil in Hr'].
  destruct Hf as [[Hao Ha]%list_elem_of_filter Hle]. specialize (Hle r Hr'). cbn in Hle.
  assert (Hca : canon (rows (blocks st)) (node_of (row a))) by by exists a.
  pose proof (Hmax _ Hca) as Hle'. cbn in Hle'.
  assert (E : node_of (row a) = node_of (row r)) by (apply (ok_heights _ Hok); [done|by exists r|cbn; lia]).
  injection E as E1 E2 E3. cbn. by rewrite E1, E2.
Qed.

Section read_block.
Context (h : BlockHeader) (st : store) (id : Z) (t' : block_table).
Context (Hok : store_ok st) (Hatt : attachable h (rows (blocks st))).
Context (Hnew : ∀ n, n ∈ nodes (rows (blocks st)) → nkey n ≠ (Hash h, Height h)).
Context (H : block_insert h false (blocks st) = Val (id, t')).

Lemma new_block_rows :
  rows t' = seated h (rows (blocks st)) ++ [{| row_id := id; row := set_orphan h false |}].
Proof. by apply (block_insert_attached h (blocks st) id t' (ok_blocks _ Hok)). Qed.

Lemma seated_node r : r ∈ seated h (rows (blocks st)) → node_of (row r) ∈ nodes (rows (blocks st)).
Proof.
  intros Hr. rewrite <-(proj1 (seated_shape h (rows (blocks st)))).
  by apply (list_elem_of_fmap_2 (fun r => node_of (row r))).
Qed.

Lemma seated_other_hash r : r ∈ seated h (rows (blocks st)) → Hash (row r) ≠ Hash h.
Proof.
  intros Hr%seated_node Hh. apply (Hnew _ Hr).
  assert (node_of (row r) = node_of h) as ->; [|done].
  apply (hash_unique _ (att_consistent _ _ Hatt)); [by right|left|done].
Qed.

Lemma seated_other_height r :
  r ∈ seated h (rows (blocks st)) → IsOrphan (row r) = false → Height (row r) ≠ Height h.
Proof.
  intros Hr Ho Hz. assert (Hc : canon (seated h (rows (blocks st))) (node_of (row r))) by by exists r.
  apply seated_canon in Hc as [[_ Hne]|[Hin Hk]]; [done|]. by apply (Hnew _ Hin).
Qed.

Lemma find_new (p : BlockHeader → bool) :
  (∀ r, r ∈ seated h (rows (blocks st)) → p (row r) = false) → p (set_orphan h false) = true →
  row <$> select p (rows t') = Some (set_orphan h false).
Proof.
  intros Hno Hyes. unfold select. rewrite new_block_rows, find_app.
  destruct (find _ (seated _ _)) as [r|] eqn:Hf.
  - apply find_some in Hf as [Hr%list_elem_of_In Hpr]. by rewrite (Hno r Hr) in Hpr.
  - cbn [find row]. by rewrite Hyes.
Qed.

Lemma read_block_hash : GetBlock (ByHash (Hash h)) (set_blocks st t') = Val (set_orphan h false).
Proof.
  unfold GetBlock. cbn [blocks set_blocks]. rewrite find_new; [done| |by apply bool_decide_eq_true].
  intros r Hr. by apply bool_decide_eq_false, seated_other_hash.
Qed.

Lemma read_block_height : GetBlock (ByHeight (Height h)) (set_blocks st t') = Val (set_orphan h false).
Proof.
  unfold GetBlock. cbn [blocks set_blocks]. rewrite find_new; [done| |].
  - intros r Hr. unfold has_height, on_chain. destruct (IsOrphan (row r)) eqn:Ho; [by rewrite andb_false_r|].
    by rewrite (proj2 (Z.eqb_neq _ _) (seated_other_height r Hr Ho)).
  - unfold has_height, on_chain. cbn. by rewrite Z.eqb_refl.
Qed.

Lemma read_last_block : LastBlock (set_blocks st t') = Val (Some (Hash h, Height h)).
Proof.
  unfold LastBlock, highest. cbn [blocks set_blocks].
  pose proof (first_by_spec (fun r => - Height (row r)) (filter (fun r => IsOrphan (row r) = false) (rows t'))) as Hf.
  set (new := {| row_id := id; row := set_orphan h false |}).
  assert (Hn : new ∈ filter (fun r => IsOrphan (row r) = false) (rows t')).
  { apply list_elem_of_filter. split; [done|]. rewrite new_block_rows. apply elem_of_app. right.
    by apply list_elem_of_singleton. }
  destruct (first_by _ _) as [a|]; [|rewrite Hf in Hn; by apply elem_of_nil in Hn].
  destruct Hf as [[Ho Ha]%list_elem_of_filter Hle]. specialize (Hle new Hn). cbn in Hle.
  rewrite new_block_rows in Ha. apply elem_of_app in Ha as [Ha|Ha].
  - exfalso. pose proof (seated_other_height a Ha Ho) as Hne.
    assert (Hc : canon (seated h (rows (blocks st))) (node_of (row a))) by by exists a.
    apply seated_canon in Hc as [[Hc _]|[Hin Hk]]; [|by apply (Hnew _ Hin)].
    pose proof (att_tip _ _ Hatt _ Hc) as Htip. cbn in Htip. lia.
  - apply list_elem_of_singleton in Ha. by subst a.
Qed.

Lemma read_parent :
  0 < Height h → parent_on_chain h (rows (blocks st)) → ∃ p, GetBlock (ByHash (PrevHash h)) (set_blocks st t') = Val p ∧
    Height p = Height h - 1 ∧ NextHash p = Hash h ∧ IsOrphan p = false.
Proof.
  intros Hpos (p & Hpc & Hph & Hpz).
  assert (Hc : canon (seated h (rows (blocks st))) p) by (apply seated_canon; left; split; [done|lia]).
  destruct Hc as (r & Hr & Hrn & Hro).
  assert (Hall : ∀ x, x ∈ rows t' → Hash (row x) = PrevHash h → x = r).
  { intros x Hx Hh. pose proof (table_ok_insert _ _ _ _ _ (ok_blocks _ Hok) H) as Hok'.
    apply (row_determines (rows t')); [apply Hok'|done|rewrite new_block_rows; apply elem_of_app; by left|].
    rewrite Hrn. apply (hash_unique _ (att_consistent _ _ Hatt)); [|right; by apply canon_nodes|by rewrite Hph].
    rewrite new_block_rows in Hx. apply elem_of_app in Hx as [Hx|Hx]; [right; by apply seated_node|].
    apply list_elem_of_singleton in Hx. subst x. left. }
  exists (row r). unfold GetBlock. cbn [blocks set_blocks]. split_and!.
  - destruct (select _ (rows t')) as [x|] eqn:Hs.
    + apply find_some in Hs as [Hx%list_elem_of_In Hhx%bool_decide_eq_true]. by rewrite (Hall x Hx Hhx).
    + exfalso. assert (Hin : r ∈ rows t') by (rewrite new_block_rows; apply elem_of_app; by left).
      pose proof (find_none _ _ Hs r (proj1 (list_elem_of_In _ _) Hin)) as Hn. cbn in Hn.
      apply bool_decide_eq_false in Hn. apply Hn. rewrite <-Hph, <-Hrn. done.
  - rewrite <-Hpz, <-Hrn. done.
  - apply (set_parent h (seated h (rows (blocks st)))); [apply seated_settled, Hok|done|done| |done].
    rewrite <-Hpz, <-Hrn. done.
  - done.
Qed.

End read_block.

(** The block is read back by its hash and by its height. *)
Definition block_stored (h : BlockHeader) (st : store) : Prop :=
  GetBlock (ByHash (Hash h)) st = Val h ∧ GetBlock (ByHeight (Height h)) st = Val h.

(** C16. A new block that [InsertBlock] reports stored under a parent on the main
    chain is read back: [GetBlock] by its hash and by its height returns the
    header sent, [LastBlock] is this block, and its parent's next hash is this
    block's hash. *)
Theorem GetBlock_InsertBlock {numbers : JsonNumbers} (attempts : Z) (b h : BlockHeader) (st st' : store)
    (fs fs' : list fault) id :
  store_ok st → sent_header b = Val h → attachable h (rows (blocks st)) →
  (∀ n, n ∈ nodes (rows (blocks st)) → nkey n ≠ (Hash h, Height h)) →
  0 < Height h → parent_on_chain h (rows (blocks st)) →
  InsertBlock attempts b false (st, fs) = (Val id, (st', fs')) →
  block_stored h st' ∧ LastBlock st' = Val (Some (Hash b, Height b)) ∧
  ∃ p, GetBlock (ByHash (PrevHash b)) st' = Val p ∧ Height p = Height b - 1 ∧ NextHash p = Hash b.
Proof.
  intros Hok Hh Hatt Hnew Hpos Hpar H. apply (InsertBlock_outcome _ b h) in H as (t' & Ht & ->); [|done..].
  assert (E : Hash b = Hash h ∧ Height b = Height h ∧ PrevHash b = PrevHash h ∧ set_orphan h false = h).
  { unfold sent_header in Hh. destruct (number_text _); [|done]. by injection Hh as <-. }
  destruct E as (-> & -> & -> & E). destruct (read_parent h st id t') as (p & Hg & Hz & Hn & _); [done..|].
  split_and!; [split; [rewrite <-E at 2; by apply (read_block_hash h st id)|rewrite <-E at 2; by apply (read_block_height h st id)]
    |by apply (read_last_block h st id)|by exists p].
Qed.

(** [a2] arrives at [store1]. *)
Lemma a2_attaches :
  attachable a2 (rows (blocks store1)) ∧ parent_on_chain a2 (rows (blocks store1)) ∧
  (∀ n, n ∈ nodes (rows (blocks store1)) → nkey n ≠ (Hash a2, Height a2)).
Proof.
  assert (Hi : insertable a2 (rows (blocks store1))).
  { apply insertable_list_ok, (bool_decide_unpack _). vm_compute. exact I. }
  assert (Hp : parent_on_chain a2 (rows (blocks store1))).
  { exists (node_of a1). split; [|done]. apply canon_chain_nodes, (bool_decide_unpack _). vm_compute. exact I. }
  split_and!; [split; [apply Hi|apply Hi|by right; left]|done|].
  apply list.Forall_forall, (bool_decide_unpack _). vm_compute. exact I.
Qed.

Definition store3 : store := @history test_numbers [BlockInsert a2 false] store1.

Lemma InsertBlock_exactly_once_witness :
  @InsertBlock test_numbers 5 a2 false (store1, [LostReply; LostReply]) = (Val 3, (store3, [])) ∧
  block_stmt a2 false store1 = Val (3, store3).
Proof.
  split; [vm_compute; reflexivity|]. destruct a2_attaches as (H1 & _).
  apply (@InsertBlock_exactly_once test_numbers 5 a2 a2 store1 store3 [LostReply; LostReply] [] (Val 3)).
  - apply store1_ok.
  - vm_compute. reflexivity.
  - exact H1.
  - vm_compute. reflexivity.
Defined.

Lemma GetBlock_InsertBlock_witness :
  block_stored a2 store3 ∧
  LastBlock store3 = Val (Some ("a2", 2)) ∧
  ∃ p, GetBlock (ByHash "a1") store3 = Val p ∧ Height p = 1 ∧ NextHash p = "a2".
Proof.
  destruct a2_attaches as (H1 & H2 & H3).
  apply (@GetBlock_InsertBlock test_numbers 5 a2 a2 store1 store3 [LostReply; LostReply] [] 3).
  - apply store1_ok.
  - vm_compute. reflexivity.
  - exact H1.
  - exact H3.
  - vm_compute. reflexivity.
  - exact H2.
  - vm_compute. reflexivity.
Defined.
