(* ===== verification/Indexer.v ===== *)
(** * Indexer: heights, ordering and writing of blocks

    The functions of src/V2/cmd/indexer/main.go.  [processBlockHeights] cuts
    the range of heights into batches, [getBlocks] workers fetch them
    concurrently, [orderBlock] restores the order, [writeBlock] stores the blocks
    and [writeTx] workers store their transactions.  This file holds the
    sequential functions; [Pipeline] composes them into the goroutines of
    [initialSync]. *)

From stdpp Require Import base list strings sorting numbers.
From Stdlib Require Import ZArith Lia Permutation.
From S2P Require Import Prelude GoStrings Utxo.

Local Open Scope Z_scope.

(** ** Start and end *)

(** [func (idxr *Indexer) setStartBlock()]; [last] is what [db.LastBlock] returns *)
Definition setStartBlock (syncTip : bool) (startBlock : Z) (last : gores (option Z)) : gores Z :=
  if syncTip then
    blk ← fatal_err last;
    Val (match blk with None => 0 | Some height => height end)
  else Val startBlock.

(** [func (idxr *Indexer) setEndBlock()]; [info] is what [bc.GetChainInfo] returns *)
Definition setEndBlock (syncTip : bool) (startBlock endBlock : Z) (info : gores ChainInfo) : gores Z :=
  if syncTip then
    info ← fatal_err info;
    Val (ci_Blocks info)
  else Val (if endBlock <? startBlock then startBlock else endBlock).

Section heights.
Context (syncTip : bool) (startBlock batchSize : Z) (infos : nat → gores ChainInfo).

(** The loop "Constructs heights array by batch size" *)
Fixpoint heights_loop (n : nat) (x i endBlock : Z) : list Z :=
  match n with
  | O => []
  | S n =>
      let block := int64 (i + x) in
      if block >? endBlock then [] else block :: heights_loop n (x + 1) i endBlock
  end.

Definition heights (i endBlock : Z) : list Z := heights_loop (Z.to_nat batchSize) 0 i endBlock.

(** [func (idxr *Indexer) processBlockHeights(blockHeightsChan chan<- interface{})]:
    the batches it sends, and the last [endBlock] or how it ended.  [infos k] is
    the answer to its call number [k] of [GetChainInfo]. *)
Fixpoint processBlockHeights (fuel k : nat) (i endBlock : Z) : list (list Z) * gores Z :=
  match fuel with
  | O => ([], Panic FuelExhausted)
  | S fuel =>
      if i <=? endBlock then
        let final := (i >=? int64 (endBlock - batchSize)) && (i <=? endBlock) in
        match (if final then setEndBlock syncTip startBlock endBlock (infos k) else Val endBlock) with
        | Val endBlock =>
            let '(rest, r) :=
              processBlockHeights fuel (if final then S k else k) (int64 (i + batchSize)) endBlock in
            (heights i endBlock :: rest, r)
        | Err e => ([], Err e)
        | Panic p => ([], Panic p)
        | Exit e => ([], Exit e)
        end
      else ([], Val endBlock)
  end.

(** ** What it sends *)

Lemma heights_loop_seqZ n x i endBlock :
  0 ≤ x → - two63 ≤ i → i + x + Z.of_nat n < two63 →
  heights_loop n x i endBlock = seqZ (i + x) (Z.min (Z.of_nat n) (endBlock + 1 - (i + x))).
Proof.
  intros Hx Hi. revert x Hx. induction n as [|n IH]; intros x Hx Hb; cbn [heights_loop].
  - rewrite seqZ_nil by lia. done.
  - rewrite int64_id by (unfold in_int64, two63 in *; lia). rewrite Z.gtb_ltb.
    destruct (Z.ltb_spec endBlock (i + x)) as [Hlt|Hge].
    + rewrite seqZ_nil by lia. done.
    + rewrite IH by lia. rewrite (seqZ_cons (i + x)) by lia. f_equal. f_equal; lia.
Qed.

Lemma heights_seqZ i endBlock :
  1 ≤ batchSize → - two63 ≤ i → i + batchSize < two63 →
  heights i endBlock = seqZ i (Z.min batchSize (endBlock + 1 - i)).
Proof.
  intros Hb Hi Hlt. unfold heights. rewrite heights_loop_seqZ by lia. f_equal; lia.
Qed.

(** The answers of the node: at most [top]. *)
Definition answers (top : Z) : Prop :=
  ∀ k, ∃ info, infos k = Val info ∧ ci_Blocks info ≤ top ∧ - two63 ≤ ci_Blocks info - batchSize.

(** The height the last refresh of [endBlock] gave. *)
Definition refreshed (endBlock : Z) : Prop :=
  if syncTip then ∃ k info, infos k = Val info ∧ ci_Blocks info = endBlock else startBlock ≤ endBlock.

Lemma setEndBlock_refreshes top k endBlock :
  answers top → endBlock ≤ top → startBlock ≤ top → - two63 ≤ startBlock - batchSize →
  ∃ e, setEndBlock syncTip startBlock endBlock (infos k) = Val e ∧ e ≤ top ∧
    (syncTip = true → - two63 ≤ e - batchSize) ∧ (syncTip = false → e = Z.max startBlock endBlock) ∧ refreshed e.
Proof.
  intros Ha He Hs Hlo. unfold setEndBlock, refreshed. destruct syncTip.
  - destruct (Ha k) as (info & Hk & Htop & Hmin). rewrite Hk. cbn. exists (ci_Blocks info). split_and!; try done. by exists k, info.
  - eexists. split; [done|]. destruct (Z.ltb_spec endBlock startBlock); split_and!; try done; lia.
Qed.

(** One round: the batch of height [i], and the loop goes on behind it. *)
Lemma processBlockHeights_run top fuel k i endBlock :
  1 ≤ batchSize → startBlock ≤ top → - two63 ≤ startBlock - batchSize → top + 2 * batchSize < two63 → answers top →
  startBlock ≤ i → - two63 ≤ endBlock - batchSize → endBlock ≤ top → (Z.to_nat (top + 1 - i) < fuel)%nat →
  ∃ batches e, processBlockHeights fuel k i endBlock = (batches, Val e) ∧
    Forall (fun b => Z.of_nat (length b) ≤ batchSize) batches ∧
    ∃ n, concat batches = seqZ i n ∧ 0 ≤ n ∧ e < i + n ∧
      (i ≤ endBlock → refreshed e) ∧ (endBlock < i → batches = [] ∧ e = endBlock) ∧
      (syncTip = false → i ≤ endBlock → n = endBlock + 1 - i ∧ e = endBlock).
Proof.
  intros Hb Hst Hlo Htop Ha. revert k i endBlock.
  induction fuel as [|fuel IH]; intros k i endBlock Hi Hmin He Hf; [lia|]. cbn [processBlockHeights].
  destruct (Z.leb_spec i endBlock) as [Hle|Hgt].
  2:{ exists [], endBlock. split_and!; [done|constructor|]. exists 0. by split_and!; try done; lia. }
  set (final := _ && _).
  assert (Hround : ∃ e, (if final then setEndBlock syncTip startBlock endBlock (infos k) else Val endBlock) = Val e ∧
    e ≤ top ∧ - two63 ≤ e - batchSize ∧ (e < i + batchSize → refreshed e) ∧ (syncTip = false → e = endBlock)).
  { destruct final eqn:Hfin; subst final.
    - destruct (setEndBlock_refreshes top k endBlock) as (e & Hset & H1 & H2 & H3 & H4); [done..|].
      exists e. split_and!; try done.
      + destruct syncTip; [by apply H2|]. specialize (H3 eq_refl). lia.
      + intros Hs. specialize (H3 Hs). lia.
    - exists endBlock. split_and!; try done. intros Hlt. exfalso.
      rewrite int64_id in Hfin by (unfold in_int64, two63 in *; lia). rewrite Z.geb_leb in Hfin.
      rewrite (proj2 (Z.leb_le _ _)) in Hfin by lia. done. }
  destruct Hround as (e & -> & Hetop & Hemin & Href & Hoff).
  rewrite int64_id by (unfold in_int64, two63 in *; lia).
  destruct (IH (if final then S k else k) (i + batchSize) e) as (bs & e' & -> & Hlen & n & Hn & Hn0 & He' & Href' & Hend & Hoff');
    [lia|done|done|lia|].
  rewrite heights_seqZ by lia. exists (seqZ i (Z.min batchSize (e + 1 - i)) :: bs), e'. split_and!; [done| |].
  { constructor; [|done]. rewrite length_seqZ. lia. }
  cbn [concat]. destruct (Z_lt_le_dec e (i + batchSize)) as [Hlast|Hmore].
  - destruct (Hend Hlast) as [-> ->]. cbn. rewrite app_nil_r.
    exists (Z.max 0 (e + 1 - i)). split_and!; [|lia|lia|by auto|lia|].
    + destruct (Z_le_gt_dec 0 (e + 1 - i)); [f_equal; lia|]. by rewrite !seqZ_nil by lia.
    + intros Hs _. specialize (Hoff Hs). subst e. lia.
  - rewrite Hn. replace (Z.min batchSize (e + 1 - i)) with batchSize by lia. rewrite <-seqZ_app by lia.
    exists (batchSize + n). split_and!; [done|lia|lia|by auto|lia|].
    intros Hs _. specialize (Hoff Hs). subst e. destruct (Hoff' Hs Hmore). lia.
Qed.

End heights.

(** A batch size of zero never gets past the first height. *)
Lemma zero_batch_loops fuel k i endBlock infos :
  in_int64 i → i ≤ endBlock → (processBlockHeights false i 0 infos fuel k i endBlock).2 = Panic FuelExhausted.
Proof.
  intros Hi Hle. revert k. induction fuel as [|fuel IH]; intros k; [done|]. cbn [processBlockHeights].
  rewrite (proj2 (Z.leb_le _ _) Hle). unfold setEndBlock. rewrite (proj2 (Z.ltb_ge _ _) Hle).
  destruct (_ && _); cbn beta iota zeta; rewrite Z.add_0_r, int64_id by done;
    [specialize (IH (S k))|specialize (IH k)]; by destruct (processBlockHeights _ _ _ _ fuel _ _ _).
Qed.

(** ** Ordering *)

(** [sort.Slice] by [less]: some rearrangement in order; the order of equal
    elements is not specified. *)
Class SortSlice (A : Type) := sort_slice : (A → A → bool) → list A → list A.

Class SortSliceLaws {A} (S : SortSlice A) (less : A → A → bool) := {
  sort_perm : ∀ l, sort_slice less l ≡ₚ l;
  sort_sorted : ∀ l, StronglySorted (fun a b => less b a = false) (sort_slice less l);
}.

Definition block_height (b : Block) : Z := Height (header b).

Definition less_height (a b : Block) : bool := block_height a <? block_height b.

Section ordering.
Context {S : SortSlice Block}.

(** The loop over the sorted store: the blocks sent, the next height, and the
    store from the first block not sent. *)
Fixpoint send_run (nextBlock : Z) (blockStore : list Block) : list Block * Z * list Block :=
  match blockStore with
  | [] => ([], nextBlock, [])
  | block :: rest =>
      if block_height block =? nextBlock then
        let '(sent, next, rest) := send_run (int64 (block_height block + 1)) rest in
        (block :: sent, next, rest)
      else ([], nextBlock, blockStore)
  end.

(** One round of [orderBlock]: a batch arrives. *)
Definition order_round (st : Z * list Block) (blks : list Block) : list Block * (Z * list Block) :=
  let '(nextBlock, blockStore) := st in
  let '(sent, next, rest) := send_run nextBlock (sort_slice less_height (blockStore ++ blks)) in
  (sent, (next, rest)).

(** [func (idxr *Indexer) orderBlock(orderedBlockChan chan<- *utxo.Block, blocksChan <-chan []*utxo.Block)]:
    what it has sent and its state after the batches received *)
Fixpoint order_rounds (st : Z * list Block) (arrivals : list (list Block)) : list Block * (Z * list Block) :=
  match arrivals with
  | [] => ([], st)
  | blks :: arrivals =>
      let '(sent, st) := order_round st blks in
      let '(more, st) := order_rounds st arrivals in
      (sent ++ more, st)
  end.

Definition orderBlock (startBlock : Z) (arrivals : list (list Block)) : list Block * (Z * list Block) :=
  order_rounds (startBlock, []) arrivals.

(** ** The order of what is sent *)

Definition ascending (l : list Block) : Prop := StronglySorted (fun a b => block_height a ≤ block_height b) l.

Lemma send_run_spec next l sent next' rest :
  in_int64 next → (∀ b, b ∈ l → block_height b < two63 - 1) → send_run next l = (sent, next', rest) →
  l = sent ++ rest ∧ map block_height sent = seqZ next (Z.of_nat (length sent)) ∧
  next' = next + Z.of_nat (length sent) ∧ in_int64 next' ∧
  match rest with [] => True | b :: _ => block_height b ≠ next' end.
Proof.
  revert next sent next' rest. induction l as [|b l IH]; intros next sent next' rest Hn Hb; cbn [send_run].
  - intros [= <- <- <-]. cbn. split_and!; try done; lia.
  - destruct (Z.eqb_spec (block_height b) next) as [He|He].
    + assert (Hlt : block_height b < two63 - 1) by (apply Hb; left).
      rewrite int64_id by (unfold in_int64, two63 in *; lia).
      destruct (send_run _ l) as [[sent1 next1] rest1] eqn:H1. intros [= <- <- <-].
      apply IH in H1 as (-> & Hm & -> & Hr & Hrest); [|unfold in_int64, two63 in *; lia|intros; apply Hb; by right].
      cbn [map length app]. split_and!; try done.
      * rewrite Hm, (seqZ_cons next) by lia. f_equal; [done|]. f_equal; lia.
      * lia.
    + intros [= <- <- <-]. cbn. split_and!; try done; lia.
Qed.

(** The state of [orderBlock] after [arrived]. *)
Record ordered (start : Z) (arrived sent : list Block) (next : Z) (store : list Block) : Prop := {
  ord_run : map block_height sent = seqZ start (Z.of_nat (length sent));
  ord_next : next = start + Z.of_nat (length sent);
  ord_range : in_int64 next;
  ord_perm : sent ++ store ≡ₚ arrived;
  ord_sorted : ascending store;
  ord_head : match store with [] => True | b :: _ => block_height b ≠ next end;
}.

Context {laws : SortSliceLaws S less_height}.

Lemma sorted_ascending l : ascending (sort_slice less_height l).
Proof.
  unfold ascending. eapply StronglySorted_weaken; [|apply sort_sorted].
  intros a b. unfold less_height. intros H%Z.ltb_ge. done.
Qed.

Lemma StronglySorted_app_r {A} (R : A → A → Prop) l k : StronglySorted R (l ++ k) → StronglySorted R k.
Proof. induction l; [done|]. cbn. intros [H _]%StronglySorted_inv. by apply IHl. Qed.

Lemma order_round_ordered start arrived sent next store blks sent' next' store' :
  (∀ b, b ∈ arrived ++ blks → block_height b < two63 - 1) →
  ordered start arrived sent next store → order_round (next, store) blks = (sent', (next', store')) →
  ordered start (arrived ++ blks) (sent ++ sent') next' store'.
Proof.
  intros Hb [Hrun Hnext Hrange Hperm _ _]. unfold order_round.
  destruct (send_run _ _) as [[s n] r] eqn:Hsend. intros [= <- <- <-].
  pose proof (sort_perm (less := less_height) (store ++ blks)) as Hp.
  pose proof (sorted_ascending (store ++ blks)) as Ha.
  assert (Hall : ∀ b, b ∈ sort_slice less_height (store ++ blks) → block_height b < two63 - 1).
  { intros b. rewrite Hp. intros Hin. apply Hb. rewrite <-Hperm, !elem_of_app.
    apply elem_of_app in Hin as [|]; auto. }
  apply send_run_spec in Hsend as (Heq & Hm & -> & Hr & Hhead); [|done..].
  rewrite Heq in Hp, Ha. split; try done.
  - rewrite map_app, Hrun, Hm, length_app, Nat2Z.inj_add, seqZ_app by lia. by rewrite Hnext.
  - rewrite length_app. lia.
  - rewrite <-app_assoc, Hp, app_assoc. by rewrite Hperm.
  - by apply StronglySorted_app_r in Ha.
Qed.

Lemma order_rounds_ordered start arrived sent next store arrivals :
  (∀ b, b ∈ arrived ++ concat arrivals → block_height b < two63 - 1) →
  ordered start arrived sent next store →
  let '(more, (next', store')) := order_rounds (next, store) arrivals in
  ordered start (arrived ++ concat arrivals) (sent ++ more) next' store'.
Proof.
  revert arrived sent next store. induction arrivals as [|blks arrivals IH]; intros arrived sent next store Hb Ho; cbn.
  - by rewrite !app_nil_r.
  - destruct (send_run _ _) as [[s n] r] eqn:Hs.
    assert (Hround : order_round (next, store) blks = (s, (n, r))) by (unfold order_round; by rewrite Hs).
    cbn [concat] in Hb. rewrite app_assoc in Hb.
    apply (order_round_ordered start arrived sent) in Hround; [|intros b Hin; apply Hb, elem_of_app; by left|done].
    specialize (IH _ _ _ _ Hb Hround). destruct (order_rounds (n, r) arrivals) as [more [n' r']].
    by rewrite !app_assoc.
Qed.

Lemma orderBlock_ordered start arrivals :
  in_int64 start → (∀ b, b ∈ concat arrivals → block_height b < two63 - 1) →
  let '(sent, (next, store)) := orderBlock start arrivals in ordered start (concat arrivals) sent next store.
Proof.
  intros Hs Hb. apply (order_rounds_ordered start [] [] start []); [done|].
  split; try done; [cbn; lia|constructor].
Qed.

(** With one block per height the store holds only blocks behind a gap. *)
Lemma ordered_gap start arrived sent next store :
  ordered start arrived sent next store → NoDup (map block_height arrived) → (∀ b, b ∈ arrived → start ≤ block_height b) →
  (next ∉ map block_height arrived) ∧ ∀ b, b ∈ store → next < block_height b.
Proof.
  intros [Hrun Hnext _ Hperm Hsort Hhead] Hnd Hlow.
  assert (Hheights : map block_height sent ++ map block_height store ≡ₚ map block_height arrived)
    by (rewrite <-map_app; by apply Permutation_map).
  assert (Habove : ∀ b, b ∈ store → next ≤ block_height b).
  { intros b Hin. destruct (Z_le_gt_dec next (block_height b)) as [|Hlt]; [done|exfalso].
    rewrite <-Hheights in Hnd. apply list.NoDup_app in Hnd as (_ & Hdis & _).
    apply (Hdis (block_height b)); [|by apply (list_elem_of_fmap_2 block_height)].
    rewrite Hrun, elem_of_seqZ. assert (Hb : b ∈ arrived) by (rewrite <-Hperm; apply elem_of_app; by right).
    specialize (Hlow b Hb). lia. }
  assert (Hstrict : ∀ b, b ∈ store → next < block_height b).
  { unfold ascending in Hsort. destruct store as [|c store]; [by intros b ?%elem_of_nil|].
    assert (next < block_height c) by (specialize (Habove c ltac:(left)); lia).
    apply StronglySorted_inv in Hsort as [_ Hall]. rewrite list.Forall_forall in Hall.
    intros b [->|Hin]%elem_of_cons; [done|]. specialize (Hall b Hin). lia. }
  split; [|done]. rewrite <-Hheights, elem_of_app. intros [Hin|Hin].
  - rewrite Hrun, elem_of_seqZ in Hin. lia.
  - apply list_elem_of_fmap in Hin as (b & Hb & Hin). specialize (Hstrict b Hin). lia.
Qed.

End ordering.

(** ** Properties *)


(** A node whose tip grows while it is followed. *)
Definition growing (k : nat) : gores ChainInfo :=
  Val {| ci_Chain := "main"; ci_Blocks := Z.min (9 + 2 * Z.of_nat k) 13; ci_Headers := 0; ci_BestBlockHash := "";
         ci_Difficulty := ""; ci_SizeOnDisk := 0; ci_Version := ""; ci_Subversion := ""; ci_ProtocolVersion := "";
         ci_Timeoffset := 0; ci_Warnings := "" |}.


(** C11. [orderBlock] restores the order of the blocks however the fetching
    goroutines deliver their batches: if the blocks delivered have the heights
    [startBlock ..  startBlock + n - 1], each once, it sends all of them by
    ascending height and keeps nothing; and after any part of the deliveries it
    has sent everything up to the first height still missing. *)
Theorem orderBlock_restores_order {S : SortSlice Block} {laws : SortSliceLaws S less_height} (startBlock n : Z)
    (arrivals : list (list Block)) :
  0 ≤ n → in_int64 startBlock → startBlock + n < two63 →
  map block_height (concat arrivals) ≡ₚ seqZ startBlock n →
  (∃ sent, orderBlock startBlock arrivals = (sent, (startBlock + n, [])) ∧
    map block_height sent = seqZ startBlock n ∧ sent ≡ₚ concat arrivals) ∧
  ∀ early late, arrivals = early ++ late →
    ∃ k, map block_height (orderBlock startBlock early).1 = seqZ startBlock k ∧
      startBlock + k ∉ map block_height (concat early).
Proof.
  intros Hn0 Hs Hn Hp.
  assert (Hin : ∀ b, b ∈ concat arrivals → startBlock ≤ block_height b < startBlock + n).
  { intros b Hb. apply (list_elem_of_fmap_2 block_height) in Hb. change (block_height <$> ?l) with (map block_height l) in Hb.
    rewrite Hp, elem_of_seqZ in Hb. lia. }
  assert (Hnd : NoDup (map block_height (concat arrivals))) by (rewrite Hp; apply NoDup_seqZ).
  split.
  - pose proof (orderBlock_ordered startBlock arrivals Hs) as Ho.
    destruct (orderBlock startBlock arrivals) as [sent [next store]].
    specialize (Ho ltac:(intros b Hb; specialize (Hin b Hb); lia)).
    destruct (ordered_gap _ _ _ _ _ Ho Hnd) as [Hgap Habove]; [intros b Hb; specialize (Hin b Hb); lia|].
    destruct Ho as [Hrun Hnext _ Hperm _ _].
    rewrite Hp, elem_of_seqZ in Hgap.
    assert (Hlen : map block_height sent ++ map block_height store ≡ₚ seqZ startBlock n)
      by (rewrite <-map_app, <-Hp; by apply Permutation_map).
    destruct store as [|b store].
    + rewrite app_nil_r in Hperm, Hlen. apply Permutation_length in Hlen.
      rewrite length_map, length_seqZ in Hlen. exists sent. split_and!; [|rewrite Hrun; f_equal; lia|done].
      rewrite Hnext. repeat f_equal. lia.
    + exfalso. specialize (Habove b ltac:(left)).
      assert (Hb : b ∈ concat arrivals) by (rewrite <-Hperm; apply elem_of_app; right; left).
      specialize (Hin b Hb). lia.
  - intros early late ->. rewrite concat_app in Hin, Hnd.
    assert (Hin' : ∀ b, b ∈ concat early → startBlock ≤ block_height b < startBlock + n)
      by (intros b Hb; apply Hin, elem_of_app; by left).
    pose proof (orderBlock_ordered startBlock early Hs) as Ho.
    destruct (orderBlock startBlock early) as [sent [next store]].
    specialize (Ho ltac:(intros b Hb; specialize (Hin' b Hb); lia)). exists (Z.of_nat (length sent)).
    rewrite map_app in Hnd. apply list.NoDup_app in Hnd as (Hnd & _ & _).
    destruct (ordered_gap _ _ _ _ _ Ho Hnd) as [Hgap _]; [intros b Hb; specialize (Hin' b Hb); lia|].
    destruct Ho as [Hrun Hnext _ _ _ _]. by rewrite <-Hnext.
Qed.

(** A concrete sort: merge sort. *)
Definition not_less {A} (less : A → A → bool) (a b : A) : Prop := less b a = false.
#[global] Instance not_less_dec {A} (less : A → A → bool) : RelDecision (not_less less).
Proof. intros a b. unfold not_less. apply _. Defined.

Definition merge_sort_slice : SortSlice Block := fun less l => merge_sort (not_less less) l.

Lemma merge_sort_laws : SortSliceLaws merge_sort_slice less_height.
Proof.
  split.
  - intros l. apply merge_sort_Permutation.
  - intros l. apply StronglySorted_merge_sort.
    + intros a b c. unfold not_less, less_height. rewrite !Z.ltb_ge. lia.
    + intros a b. unfold not_less, less_height. rewrite !Z.ltb_ge. lia.
Qed.

Definition block_at (h : Z) : Block := {| header := {|
  Hash := Itoa h; Height := h; Time := 0; MedianTime := 0; Nonce := 0; PrevHash := Itoa (h - 1); NextHash := "";
  Bits := ""; Difficulty := "1"; Chainwork := ""; Version := 1; VersionHex := ""; MerkleRoot := ""; Size := 0;
  StrippedSize := 0; Weight := 0; TxCount := 0; IsOrphan := false |}; Txs := [] |}.

Lemma orderBlock_restores_order_witness :
  let arrivals := [[block_at 9]; [block_at 7; block_at 8]; [block_at 5; block_at 6]] in
  ((∃ sent, @orderBlock merge_sort_slice 5 arrivals = (sent, (5 + 5, [])) ∧
      map block_height sent = seqZ 5 5 ∧ sent ≡ₚ concat arrivals) ∧
   ∀ early late, arrivals = early ++ late →
     ∃ k, map block_height (@orderBlock merge_sort_slice 5 early).1 = seqZ 5 k ∧
       5 + k ∉ map block_height (concat early)) ∧
  map block_height (@orderBlock merge_sort_slice 5 arrivals).1 = [5; 6; 7; 8; 9].
Proof.
  split; [|vm_compute; reflexivity].
  apply (@orderBlock_restores_order merge_sort_slice merge_sort_laws 5 5); [lia|unfold in_int64, two63; lia|unfold two63; lia|].
  apply (bool_decide_unpack _). vm_compute. exact I.
Defined.
