(* ===== verification/InsightTypes.v ===== *)
(** * InsightTypes: the values the insight API writes

    The types of src/V2/pkg/api/insight/types.go, with the types of
    src/V2/pkg/blockchain/utxo/types.go that occur in a block.  A pointer is an
    option, and so is a slice, of which nil and empty are told apart: the JSON
    encoders write them differently. *)

From stdpp Require Import base list strings numbers.
From Stdlib Require Import ZArith Lia.
From S2P Require Import Prelude Amounts Utxo.

Local Open Scope Z_scope.

(** A slice *)
Definition slice (A : Type) : Type := option (list A).

(** [type ScriptSig struct] *)
Record ScriptSig := { ss_Asm : option string; ss_Hex : string }.

(** [type insightVin struct] *)
Record insightVin := {
  iv_TxID : string;
  iv_Vout : option Z;
  iv_N : Z;
  iv_ScriptSig : option ScriptSig;
  iv_TxInWitness : slice string;
  iv_Sequence : Z;
  iv_Coinbase : string;
  iv_Address : string;
  iv_ValueSat : Z;
  iv_Value : float64;
}.

(** The type of [ScriptPubKey] in [insightVout] *)
Record ScriptPubKey := {
  sp_Asm : string;
  sp_Hex : string;
  sp_ReqSigs : Z;
  sp_Addresses : slice string;
  sp_Type : string;
}.

(** [type insightVout struct] *)
Record insightVout := {
  io_Value : string;
  io_N : Z;
  io_ScriptPubKey : ScriptPubKey;
  io_SpentTxID : option string;
  io_SpentTxIndex : option Z;
  io_SpentTxBlockHeight : option Z;
}.

(** [type insightTx struct] *)
Record insightTx := {
  it_TxID : string;
  it_Hash : string;
  it_Version : Z;
  it_Size : Z;
  it_VSize : Z;
  it_Weight : Z;
  it_Locktime : Z;
  it_Vin : slice (option insightVin);
  it_Vout : slice (option insightVout);
  it_BlockHash : string;
  it_BlockHeight : Z;
  it_Confirmations : Z;
  it_Time : Z;
  it_BlockTime : Z;
  it_IsCoinBase : bool;
  it_ValueOut : float64;
  it_ValueIn : float64;
  it_Fees : option float64;
}.

(** [type insightUtxo struct] *)
Record insightUtxo := {
  iu_Address : string;
  iu_TxID : string;
  iu_Vout : Z;
  iu_ScriptPubKey : string;
  iu_ReqSigs : Z;
  iu_Type : string;
  iu_Amount : float64;
  iu_Satoshis : Z;
  iu_BlockHeight : Z;
  iu_Confirmations : Z;
  iu_Timestamp : Z;
}.

(** [type insightUtxos []*insightUtxo] *)
Definition insightUtxos : Type := slice (option insightUtxo).

(** [type insightTxHistoryByAddrs struct] *)
Record insightTxHistoryByAddrs := { ih_TotalItems : Z; ih_From : Z; ih_To : Z; ih_Txs : slice (option insightTx) }.

(** [type insightTxsByBlock struct] *)
Record insightTxsByBlock := { ip_PagesTotal : Z; ip_Txs : slice (option insightTx) }.

(** The type of [ScriptSig] in [utxo.Vin] *)
Record utxoScriptSig := { us_Asm : string; us_Hex : string }.

(** [utxo.Vin] *)
Record utxoVin := {
  uv_TxID : string;
  uv_Vout : Z;
  uv_ScriptSig : utxoScriptSig;
  uv_TxInWitness : slice string;
  uv_Sequence : Z;
  uv_Coinbase : string;
}.

(** The type of [ScriptPubKey] in [utxo.Vout] *)
Record utxoScriptPubKey := {
  up_Asm : string;
  up_Hex : string;
  up_ReqSigs : Z;
  up_Type : string;
  up_Addresses : slice string;
}.

(** [utxo.Vout] *)
Record utxoVout := { uo_Value : string; uo_N : Z; uo_ScriptPubKey : utxoScriptPubKey }.

(** [utxo.Tx] *)
Record utxoTx := {
  ut_TxID : string;
  ut_Hash : string;
  ut_Version : Z;
  ut_Size : Z;
  ut_VSize : Z;
  ut_Weight : Z;
  ut_Locktime : string;
  ut_Vins : slice utxoVin;
  ut_Vouts : slice utxoVout;
  ut_Hex : string;
}.

(** [utxo.Block] *)
Record utxoBlock := { ub_BlockHeader : BlockHeader; ub_Txs : slice utxoTx }.

(** [type insightBlock struct]; the embedded pointer may be nil *)
Record insightBlock := { ib_Block : option utxoBlock; ib_Confirmations : Z }.

Definition float_zero : float64 := {| f_neg := false; f_mant := 0; f_exp := 0 |}.
