(* ===== verification/EasyJson.v ===== *)
(** * EasyJson: the code easyjson generates

    The shapes of which src/V2/pkg/api/insight/types_easyjson.go is made:
    objects written field by field, with or without [omitempty], arrays, pointers,
    and the loops that read them.  The writer and the lexer are types of
    github.com/mailru/easyjson; they are parameters, with what the generated
    code relies on as laws.  The writer appends to a text; the lexer goes through
    the tokens of a JSON text, and its separators are taken by [WantColon] and
    [WantComma]. *)

From stdpp Require Import base list strings numbers.
From Stdlib Require Import ZArith Lia.
From S2P Require Import Prelude GoStrings Json JsonText Amounts.

Local Open Scope Z_scope.

(** ** Package jwriter *)

(** Binary numbers that stand for one [float64] each *)
Definition canonical (f : float64) : Prop :=
  (f_mant f = 0 ∧ f_exp f = 0) ∨ (2 ^ 52 ≤ f_mant f < 2 ^ 53 ∧ -1074 ≤ f_exp f ≤ 971).

(** The shortest text of a [float64], a JSON number *)
Class FloatText := {
  float_text : float64 → string;
  float_text_valid f : canonical f → valid_number (float_text f) = true;
}.

(** [jwriter.Writer]; [NilSliceAsEmpty] is [w.Flags & jwriter.NilSliceAsEmpty != 0] *)
Class Jwriter := {
  Writer : Type;
  NewWriter : Writer;
  RawByte : Z → Writer → Writer;
  RawString : list Z → Writer → Writer;
  WriteString : string → Writer → Writer;
  WriteInt : Z → Writer → Writer;
  WriteInt64 : Z → Writer → Writer;
  WriteBool : bool → Writer → Writer;
  WriteFloat64 : float64 → Writer → Writer;
  NilSliceAsEmpty : Writer → bool;
  BuildBytes : Writer → list Z;
  WriterError : Writer → option gerror;
}.

Class JwriterLaws (W : Jwriter) (F : FloatText) := {
  (** The writer has its default flags and no error, and has written a text. *)
  Wrote : Writer → list Z → Prop;
  (** How a string is quoted: a JSON string in UTF-8 *)
  string_text : string → list Z;
  string_text_reads s : utf8 s = true → reads_key (string_text s) s;
  string_text_runes s : runes (string_text s) ∧ Forall is_byte (string_text s);
  wrote_new : Wrote NewWriter [];
  wrote_byte w t c : Wrote w t → Wrote (RawByte c w) (t ++ [c]);
  wrote_raw w t l : Wrote w t → Wrote (RawString l w) (t ++ l);
  wrote_string w t s : Wrote w t → Wrote (WriteString s w) (t ++ string_text s);
  wrote_int w t z : Wrote w t → Wrote (WriteInt z w) (t ++ bytes (Itoa z));
  wrote_int64 w t z : Wrote w t → Wrote (WriteInt64 z w) (t ++ bytes (Itoa z));
  wrote_bool w t b : Wrote w t → Wrote (WriteBool b w) (t ++ print (JBool b));
  wrote_float w t f : Wrote w t → Wrote (WriteFloat64 f w) (t ++ bytes (float_text f));
  wrote_flags w t : Wrote w t → NilSliceAsEmpty w = false;
  wrote_done w t : Wrote w t → BuildBytes w = t ∧ WriterError w = None;
}.

(** ** Encoders *)

Section encoders.
Context {W : Jwriter}.

(** What is appended to a writer *)
Definition enc : Type := Writer → Writer.

Definition seq (a b : enc) : enc := fun out => b (a out).

(** [const prefix string = ",\"key\":"] *)
Definition prefix (key : string) : list Z := 44 :: 34 :: bytes key ++ [34; 58].

(** The first field of an object, [out.RawString(prefix[1:])], and the others *)
Definition first_field (key : string) (e : enc) : enc := fun out => e (RawString (tl (prefix key)) out).
Definition field (key : string) (e : enc) : enc := fun out => e (RawString (prefix key) out).

(** [if first { first = false; out.RawString(prefix[1:]) } else { out.RawString(prefix) }] *)
Definition flagged_field (first : bool) (key : string) (e : enc) : enc :=
  if first then first_field key e else field key e.

(** A field with [omitempty] *)
Definition when (b : bool) (e : enc) : enc := fun out => if b then e out else out.

(** The same for a pointer *)
Definition when_some {A} (o : option A) (e : A → enc) : enc := fun out => match o with Some a => e a out | None => out end.

Definition object (body : enc) : enc := fun out => RawByte 125 (body (RawByte 123 out)).

Definition null : enc := RawString [110; 117; 108; 108].

(** A pointer *)
Definition nullable {A} (o : option A) (e : A → enc) : enc := match o with None => null | Some a => e a end.

(** [for i, x := range l { if i > 0 { out.RawByte(',') }; ... }] *)
Fixpoint elements {A} (i : nat) (e : A → enc) (l : list A) : enc := fun out =>
  match l with
  | [] => out
  | x :: l => elements (S i) e l (e x (when (0 <? i)%nat (RawByte 44) out))
  end.

Definition array {A} (e : A → enc) (l : list A) : enc := fun out => RawByte 93 (elements 0 e l (RawByte 91 out)).

(** A slice without [omitempty] *)
Definition slice_or_null {A} (e : A → enc) (s : option (list A)) : enc := fun out =>
  if (match s with None => true | Some _ => false end && negb (NilSliceAsEmpty out))%bool then null out
  else array e (default [] s) out.

(** [MarshalJSON] of an encoder *)
Definition marshal (e : enc) : list Z * option gerror := let w := e NewWriter in (BuildBytes w, WriterError w).

End encoders.

Declare Scope enc_scope.
Delimit Scope enc_scope with enc.
Infix "▷" := seq (at level 60, right associativity) : enc_scope.

(** *** What encoders write *)

Section written.
Context {W : Jwriter} {F : FloatText} {L : JwriterLaws W F}.

Definition outputs (e : enc) (s : list Z) : Prop := ∀ w t, Wrote w t → Wrote (e w) (t ++ s).

Definition good_text (s : list Z) : Prop := runes s ∧ Forall is_byte s.

(** The encoder writes a text of the value. *)
Definition writes (e : enc) (j : json) : Prop := ∃ s, reads s j ∧ good_text s ∧ outputs e s.

Lemma good_app s t : good_text s → good_text t → good_text (s ++ t).
Proof. intros [H1 H2] [H3 H4]. split; [by apply runes_app|by apply Forall_app_2]. Qed.

Lemma good_ascii s : Forall is_ascii s → good_text s.
Proof. intros H. split; [by apply ascii_runes|by apply ascii_bytes]. Qed.

Lemma good_char c : 0 ≤ c < 128 → good_text [c].
Proof. intros H. apply good_ascii. by repeat constructor; apply H. Qed.

Lemma good_commas ss : Forall good_text ss → good_text (commas ss).
Proof.
  induction 1 as [|s ss Hs _ IH]; [by apply good_ascii|]. destruct (decide (ss = [])) as [->|Hne]; [done|].
  rewrite commas_cons by done. apply good_app; [done|]. apply (good_app [44]); [by apply good_char|done].
Qed.

Lemma writes_string s : utf8 s = true → writes (WriteString s) (JString s).
Proof.
  intros Hs. exists (string_text s). split; [by apply reads_string, string_text_reads|].
  split; [apply string_text_runes|]. intros w t. apply wrote_string.
Qed.

Lemma number_good lit : valid_number lit = true → good_text (bytes lit).
Proof. intros H. by apply good_ascii, valid_number_ascii. Qed.

Lemma writes_int z : writes (WriteInt z) (JNumber (Itoa z)).
Proof.
  exists (bytes (Itoa z)). pose proof (valid_number_Itoa z) as Hv. split; [by apply reads_number|].
  split; [by apply number_good|]. intros w t. apply wrote_int.
Qed.

Lemma writes_int64 z : writes (WriteInt64 z) (JNumber (Itoa z)).
Proof.
  exists (bytes (Itoa z)). pose proof (valid_number_Itoa z) as Hv. split; [by apply reads_number|].
  split; [by apply number_good|]. intros w t. apply wrote_int64.
Qed.

Lemma writes_float f : canonical f → writes (WriteFloat64 f) (JNumber (float_text f)).
Proof.
  intros Hf. exists (bytes (float_text f)). pose proof (float_text_valid f Hf) as Hv. split; [by apply reads_number|].
  split; [by apply number_good|]. intros w t. apply wrote_float.
Qed.

Lemma writes_bool b : writes (WriteBool b) (JBool b).
Proof.
  exists (print (JBool b)). split; [apply reads_bool|]. split; [|intros w t; apply wrote_bool].
  apply good_ascii. destruct b; unfold is_ascii; repeat constructor; lia.
Qed.

Lemma writes_null : writes null JNull.
Proof.
  exists [110; 117; 108; 108]. split; [apply reads_null|]. split; [|intros w t; apply wrote_raw].
  apply good_ascii. unfold is_ascii. repeat constructor; lia.
Qed.

Lemma writes_nullable {A} (o : option A) e tree :
  (∀ a, o = Some a → writes (e a) (tree a)) → writes (nullable o e) (match o with Some a => tree a | None => JNull end).
Proof. intros H. destruct o; [by apply H|apply writes_null]. Qed.

(** *** Arrays *)

Lemma commas_concat s ss : commas (s :: ss) = s ++ List.concat (map (cons 44) ss).
Proof.
  revert s. induction ss as [|s' ss IH]; intros s; [cbn; by rewrite app_nil_r|].
  rewrite commas_cons by done. by rewrite IH.
Qed.

Lemma outputs_elements {A} (e : A → enc) l ss i :
  Forall2 (fun x s => outputs (e x) s) l ss → outputs (elements i e l) (if (0 <? i)%nat then List.concat (map (cons 44) ss) else commas ss).
Proof.
  intros Hl. revert i. induction Hl as [|x s l ss Hx _ IH]; intros i w t Hw; [destruct (0 <? i)%nat; cbn; by rewrite app_nil_r|].
  cbn [elements]. specialize (IH (S i)). cbn [Nat.ltb Nat.leb] in IH. destruct (0 <? i)%nat; cbn [when].
  - cbn [map List.concat]. rewrite app_assoc. apply IH. change (44 :: s) with ([44] ++ s). rewrite app_assoc. by apply Hx, wrote_byte.
  - destruct ss as [|s' ss]; [specialize (IH _ _ (Hx _ _ Hw)); cbn in IH; by rewrite app_nil_r in IH|].
    rewrite commas_concat, app_assoc. by apply IH, Hx.
Qed.

Lemma writes_array {A} (e : A → enc) l js : Forall2 (fun x j => writes (e x) j) l js → writes (array e l) (JArray js).
Proof.
  intros Hl. assert (∃ ss, Forall2 reads ss js ∧ Forall good_text ss ∧ Forall2 (fun x s => outputs (e x) s) l ss) as (ss & Hr & Hg & Ho).
  { induction Hl as [|x j l js (s & Hr & Hg & Ho) _ (ss & IH1 & IH2 & IH3)]; [by exists []|]. exists (s :: ss). split; [by constructor|]. split; by constructor. }
  exists (91 :: commas ss ++ [93]). split; [by apply reads_array|]. split.
  - apply (good_app [91]); [by apply good_char|]. apply good_app; [by apply good_commas|by apply good_char].
  - intros w t Hw. change (91 :: commas ss ++ [93]) with ([91] ++ commas ss ++ [93]). rewrite !app_assoc.
    apply wrote_byte. apply (outputs_elements e l ss 0 Ho). by apply wrote_byte.
Qed.

Lemma writes_array_map {A} (e : A → enc) (tree : A → json) l :
  Forall (fun x => writes (e x) (tree x)) l → writes (array e l) (JArray (map tree l)).
Proof. intros Hl. apply writes_array. induction Hl; by constructor. Qed.

Lemma writes_slice {A} (e : A → enc) (tree : A → json) (s : option (list A)) :
  Forall (fun x => writes (e x) (tree x)) (default [] s) →
  writes (slice_or_null e s) (match s with Some l => JArray (map tree l) | None => JNull end).
Proof.
  intros Hl. destruct s as [l|].
  - destruct (writes_array_map e tree l Hl) as (s & Hr & Hg & Ho). by exists s.
  - destruct writes_null as (s & Hr & Hg & Ho). exists s. split; [done|]. split; [done|]. intros w t Hw.
    unfold slice_or_null. rewrite (wrote_flags w t Hw). by apply Ho.
Qed.

(** *** Objects *)

(** The encoder writes members after others. *)
Definition adds (e : enc) (kvs : members) : Prop :=
  ∃ ss, Forall2 reads_member ss kvs ∧ Forall good_text ss ∧ outputs e (List.concat (map (cons 44) ss)).

(** The encoder writes the first members. *)
Definition starts (e : enc) (kvs : members) : Prop :=
  ∃ s ss, Forall2 reads_member (s :: ss) kvs ∧ Forall good_text (s :: ss) ∧ outputs e (s ++ List.concat (map (cons 44) ss)).

Lemma field_member k e j : plain_text k = true → writes e j →
  ∃ s, reads_member s (k, j) ∧ good_text s ∧ outputs (first_field k e) s ∧ outputs (field k e) (44 :: s).
Proof.
  intros Hk (s & Hr & Hg & Ho). exists (tl (prefix k) ++ s). split; [|split; [|split]].
  - exists (34 :: bytes k ++ [34]), s. split; [cbn; by rewrite <-!app_assoc|]. split; [by apply plain_text_reads|done].
  - apply good_app; [|done]. cbn [prefix tl]. apply (good_app [34]); [by apply good_char|].
    apply good_app; [by apply good_ascii, plain_text_ascii|]. apply (good_app [34] [58]); by apply good_char.
  - intros w t Hw. rewrite app_assoc. by apply Ho, wrote_raw.
  - intros w t Hw. change (44 :: tl (prefix k) ++ s) with (prefix k ++ s). rewrite app_assoc. by apply Ho, wrote_raw.
Qed.

Lemma starts_first k e j : plain_text k = true → writes e j → starts (first_field k e) [(k, j)].
Proof.
  intros Hk He. destruct (field_member k e j Hk He) as (s & Hm & Hg & Ho & _). exists s, [].
  split; [by constructor|]. split; [by constructor|]. cbn. by rewrite app_nil_r.
Qed.

Lemma adds_field k e j : plain_text k = true → writes e j → adds (field k e) [(k, j)].
Proof.
  intros Hk He. destruct (field_member k e j Hk He) as (s & Hm & Hg & _ & Ho). exists [s].
  split; [by constructor|]. split; [by constructor|]. cbn. by rewrite app_nil_r.
Qed.

Lemma adds_nothing : adds (fun out => out) [].
Proof. exists []. repeat constructor. intros w t Hw. cbn. by rewrite app_nil_r. Qed.

Lemma adds_when b e kvs : (b = true → adds e kvs) → adds (when b e) (if b then kvs else []).
Proof. intros H. destruct b; [by apply H|apply adds_nothing]. Qed.

Lemma outputs_seq a b s t : outputs a s → outputs b t → outputs (seq a b) (s ++ t).
Proof. intros Ha Hb w u Hw. rewrite app_assoc. by apply Hb, Ha. Qed.

Lemma adds_seq a b kvs kvs' : adds a kvs → adds b kvs' → adds (seq a b) (kvs ++ kvs').
Proof.
  intros (ss & H1 & H2 & H3) (ss' & H4 & H5 & H6). exists (ss ++ ss'). split; [by apply Forall2_app|].
  split; [by apply Forall_app_2|]. rewrite map_app, concat_app. by apply outputs_seq.
Qed.

Lemma starts_seq a b kvs kvs' : starts a kvs → adds b kvs' → starts (seq a b) (kvs ++ kvs').
Proof.
  intros (s & ss & H1 & H2 & H3) (ss' & H4 & H5 & H6). exists s, (ss ++ ss'). split; [by apply (Forall2_app H1 H4)|].
  split; [by apply (Forall_app_2 _ _ _ H2 H5)|]. rewrite map_app, concat_app, app_assoc. by apply outputs_seq.
Qed.

Lemma writes_object e kvs : starts e kvs → writes (object e) (JObject kvs).
Proof.
  intros (s & ss & Hr & Hg & Ho). exists (123 :: commas (s :: ss) ++ [125]). split; [by apply reads_object|]. split.
  - apply (good_app [123]); [by apply good_char|]. apply good_app; [by apply good_commas|by apply good_char].
  - intros w t Hw. rewrite commas_concat. change (123 :: ?l) with ([123] ++ l). rewrite !app_assoc.
    apply wrote_byte. rewrite <-app_assoc. by apply Ho, wrote_byte.
Qed.

(** What [MarshalJSON] returns: a JSON text in UTF-8, and no error *)
Lemma marshal_writes e j : writes e j →
  ∃ text, marshal e = (bytes text, None) ∧ utf8 text = true ∧ whole text = Some j.
Proof.
  intros (s & Hr & [Hg Hb] & Ho). exists (of_bytes s). pose proof (Ho _ _ wrote_new) as Hw. cbn [app] in Hw.
  unfold marshal. destruct (wrote_done _ _ Hw) as [-> ->]. rewrite bytes_of_bytes by done.
  split; [done|]. split; [by apply utf8_of_bytes|by apply reads_whole].
Qed.

End written.

(** ** Package jlexer *)

Inductive token :=
| TDelim (c : Z)
| TColon
| TComma
| TString (s : string)
| TNumber (lit : string)
| TBool (b : bool)
| TNull.

(** Elements with commas between them *)
Fixpoint separated (l : list (list token)) : list token :=
  match l with
  | [] => []
  | [x] => x
  | x :: l => x ++ TComma :: separated l
  end.

(** The tokens of a value *)
Fixpoint tokens (j : json) : list token :=
  match j with
  | JNull => [TNull]
  | JBool b => [TBool b]
  | JNumber lit => [TNumber lit]
  | JString s => [TString s]
  | JArray l => TDelim 91 :: separated (map tokens l) ++ [TDelim 93]
  | JObject kvs => TDelim 123 :: separated (map (fun kv => TString kv.1 :: TColon :: tokens kv.2) kvs) ++ [TDelim 125]
  end.

(** [jlexer.Lexer]; looking at the next token may read it, so [IsNull] and
    [IsDelim] change the lexer *)
Class Jlexer := {
  Lexer : Type;
  NewLexer : string → Lexer;
  IsStart : Lexer → bool;
  IsNull : Lexer → bool * Lexer;
  IsDelim : Z → Lexer → bool * Lexer;
  Skip : Lexer → Lexer;
  SkipRecursive : Lexer → Lexer;
  Delim : Z → Lexer → Lexer;
  WantColon : Lexer → Lexer;
  WantComma : Lexer → Lexer;
  Consumed : Lexer → Lexer;
  UnsafeString : Lexer → string * Lexer;
  ReadString : Lexer → string * Lexer;
  ReadInt : Lexer → Z * Lexer;
  ReadInt64 : Lexer → Z * Lexer;
  ReadBool : Lexer → bool * Lexer;
  ReadFloat64 : Lexer → float64 * Lexer;
  JsonNumber : Lexer → string * Lexer;
  LexerError : Lexer → option gerror;
}.

(** What the lexer does on a JSON text; nothing is said of other texts. *)
Class JlexerLaws (X : Jlexer) (F : FloatText) := {
  (** No error so far, and these tokens are ahead *)
  Sees : Lexer → list token → Prop;
  (** The same, before anything was read *)
  Fresh : Lexer → list token → Prop;
  new_fresh text j : utf8 text = true → whole text = Some j → Fresh (NewLexer text) (tokens j);
  fresh_start l toks : Fresh l toks → IsStart l = true;
  fresh_null l tok toks : Fresh l (tok :: toks) →
    ∃ l', IsNull l = (match tok with TNull => true | _ => false end, l') ∧ Sees l' (tok :: toks);
  sees_start l toks : Sees l toks → IsStart l = false;
  sees_null l tok toks : Sees l (tok :: toks) →
    ∃ l', IsNull l = (match tok with TNull => true | _ => false end, l') ∧ Sees l' (tok :: toks);
  sees_is_delim c l tok toks : Sees l (tok :: toks) →
    ∃ l', IsDelim c l = (match tok with TDelim d => d =? c | _ => false end, l') ∧ Sees l' (tok :: toks);
  sees_skip l tok toks : Sees l (tok :: toks) → Sees (Skip l) toks;
  sees_skip_recursive l j toks : Sees l (tokens j ++ toks) → Sees (SkipRecursive l) toks;
  sees_delim c l toks : Sees l (TDelim c :: toks) → Sees (Delim c l) toks;
  sees_colon l toks : Sees l (TColon :: toks) → Sees (WantColon l) toks;
  sees_comma l toks : Sees l (TComma :: toks) → Sees (WantComma l) toks;
  sees_close c l toks : c = 93 ∨ c = 125 → Sees l (TDelim c :: toks) → Sees (WantComma l) (TDelim c :: toks);
  sees_end l : Sees l [] → Sees (Consumed l) [];
  sees_key l s toks : Sees l (TString s :: toks) → ∃ l', UnsafeString l = (s, l') ∧ Sees l' toks;
  sees_string l s toks : Sees l (TString s :: toks) → ∃ l', ReadString l = (s, l') ∧ Sees l' toks;
  sees_int l z toks : in_int64 z → Sees l (TNumber (Itoa z) :: toks) → ∃ l', ReadInt l = (z, l') ∧ Sees l' toks;
  sees_int64 l z toks : in_int64 z → Sees l (TNumber (Itoa z) :: toks) → ∃ l', ReadInt64 l = (z, l') ∧ Sees l' toks;
  sees_bool l b toks : Sees l (TBool b :: toks) → ∃ l', ReadBool l = (b, l') ∧ Sees l' toks;
  sees_float l f toks : canonical f → Sees l (TNumber (float_text f) :: toks) → ∃ l', ReadFloat64 l = (f, l') ∧ Sees l' toks;
  sees_number l s toks : Sees l (TString s :: toks) → ∃ l', JsonNumber l = (s, l') ∧ Sees l' toks;
  sees_no_error l toks : Sees l toks → LexerError l = None;
}.

(** ** Decoders *)

Section decoders.
Context {X : Jlexer}.
(** The rounds of the loops *)
Context (fuel : nat).

(** What is decoded into a variable; [None] when a loop runs out of rounds or a
    nil pointer is dereferenced *)
Definition reader (A : Type) : Type := A → Lexer → option (A * Lexer).

(** [out = in.T()] *)
Definition scalar {T} (read : Lexer → T * Lexer) : reader T := fun _ inp => Some (read inp).

(** [out.F] is the variable *)
Definition into {A T} (get : A → T) (set : T → A → A) (d : reader T) : reader A := fun out inp =>
  '(v, inp) ← d (get out) inp; Some (set v out, inp).

(** A pointer: nil for null, else decoded into, and allocated when it is nil *)
Definition pointer {T} (zero : T) (d : reader T) : reader (option T) := fun out inp =>
  let '(is_null, inp) := IsNull inp in
  if is_null then Some (None, Skip inp)
  else '(v, inp) ← d (default zero out) inp; Some (Some v, inp).

(** [for !in.IsDelim(']') { var v T; ...; out = append(out, v); in.WantComma() }] *)
Fixpoint read_elements {T} (n : nat) (zero : T) (d : reader T) (acc : list T) (inp : Lexer) : option (list T * Lexer) :=
  match n with
  | O => None
  | S n =>
      let '(closed, inp) := IsDelim 93 inp in
      if closed then Some (acc, inp)
      else '(v, inp) ← d zero inp; read_elements n zero d (acc ++ [v]) (WantComma inp)
  end.

(** The items of a slice; one that exists is emptied, and the other is made,
    after a look at whether it stays empty *)
Definition read_items {T} (zero : T) (d : reader T) : reader (option (list T)) := fun out inp =>
  let inp := Delim 91 inp in
  let inp := match out with None => (IsDelim 93 inp).2 | Some _ => inp end in
  '(l, inp) ← read_elements fuel zero d [] inp;
  Some (Some l, Delim 93 inp).

Definition read_slice {T} (zero : T) (d : reader T) : reader (option (list T)) := fun out inp =>
  let '(is_null, inp) := IsNull inp in
  if is_null then Some (None, Skip inp) else read_items zero d out inp.

(** [switch key { case ...: ...; default: in.SkipRecursive() }] *)
Definition switch {A} (cases : list (string * reader A)) (key : string) : reader A :=
  match find (fun c => String.eqb c.1 key) cases with
  | Some (_, d) => d
  | None => fun out inp => Some (out, SkipRecursive inp)
  end.

(** The loop over the members of an object; null members are skipped *)
Fixpoint read_members {A} (n : nat) (cases : list (string * reader A)) (out : A) (inp : Lexer) : option (A * Lexer) :=
  match n with
  | O => None
  | S n =>
      let '(closed, inp) := IsDelim 125 inp in
      if closed then Some (out, inp)
      else
        let '(key, inp) := UnsafeString inp in
        let inp := WantColon inp in
        let '(is_null, inp) := IsNull inp in
        if is_null then read_members n cases out (WantComma (Skip inp))
        else '(out, inp) ← switch cases key out inp; read_members n cases out (WantComma inp)
  end.

(** A struct; [init] is what is done to it before its members *)
Definition read_object {A} (init : A → A) (cases : list (string * reader A)) : reader A := fun out inp =>
  let isTopLevel := IsStart inp in
  let '(is_null, inp) := IsNull inp in
  if is_null then Some (out, Skip (if isTopLevel then Consumed inp else inp))
  else
    '(out, inp) ← read_members fuel cases (init out) (Delim 123 inp);
    let inp := Delim 125 inp in
    Some (out, if isTopLevel then Consumed inp else inp).

(** A slice that is the whole value *)
Definition read_top_slice {T} (zero : T) (d : reader T) : reader (option (list T)) := fun out inp =>
  let isTopLevel := IsStart inp in
  '(out, inp) ← read_slice zero d out inp;
  Some (out, if isTopLevel then Consumed inp else inp).

End decoders.

(** [UnmarshalJSON]: every round of a loop reads at least one character, so the
    length of the text bounds the rounds. *)
Definition unmarshal {X : Jlexer} {A} (d : nat → reader A) (data : string) (v : A) : option (A * option gerror) :=
  '(v, r) ← d (S (length (bytes data))) v (NewLexer data);
  Some (v, LexerError r).

(** *** What decoders read *)

Section readers.
Context {X : Jlexer} {F : FloatText} {L : JlexerLaws X F}.

(** From the tokens of [j] ahead, the variable becomes [a']. *)
Definition decodes {A} (d : nat → reader A) (j : json) (a a' : A) : Prop :=
  ∀ fuel inp toks, (length (tokens j) ≤ fuel)%nat → Sees inp (tokens j ++ toks) →
  ∃ inp', d fuel a inp = Some (a', inp') ∧ Sees inp' toks.

Lemma decodes_scalar {T} (read : Lexer → T * Lexer) j a v :
  (∀ inp toks, Sees inp (tokens j ++ toks) → ∃ inp', read inp = (v, inp') ∧ Sees inp' toks) →
  decodes (fun _ => scalar read) j a v.
Proof. intros H fuel inp toks _ Hs. destruct (H _ _ Hs) as (inp' & Hr & Hs'). exists inp'. unfold scalar. by rewrite Hr. Qed.

Lemma decodes_string s a : decodes (fun _ => scalar ReadString) (JString s) a s.
Proof. apply decodes_scalar. intros inp toks. apply sees_string. Qed.

Lemma decodes_number s a : decodes (fun _ => scalar JsonNumber) (JString s) a s.
Proof. apply decodes_scalar. intros inp toks. apply sees_number. Qed.

Lemma decodes_int z a : in_int64 z → decodes (fun _ => scalar ReadInt) (JNumber (Itoa z)) a z.
Proof. intros Hz. apply decodes_scalar. intros inp toks. by apply sees_int. Qed.

Lemma decodes_int64 z a : in_int64 z → decodes (fun _ => scalar ReadInt64) (JNumber (Itoa z)) a z.
Proof. intros Hz. apply decodes_scalar. intros inp toks. by apply sees_int64. Qed.

Lemma decodes_bool b a : decodes (fun _ => scalar ReadBool) (JBool b) a b.
Proof. apply decodes_scalar. intros inp toks. apply sees_bool. Qed.

Lemma decodes_float f a : canonical f → decodes (fun _ => scalar ReadFloat64) (JNumber (float_text f)) a f.
Proof. intros Hf. apply decodes_scalar. intros inp toks. by apply sees_float. Qed.

Lemma decodes_into {A T} (get : A → T) set (d : nat → reader T) j a v :
  decodes d j (get a) v → decodes (fun n => into get set (d n)) j a (set v a).
Proof.
  intros Hd fuel inp toks Hf Hs. destruct (Hd fuel inp toks Hf Hs) as (inp' & Hr & Hs'). exists inp'.
  unfold into. by rewrite Hr.
Qed.

(** The first token of a value *)
Lemma tokens_head j : ∃ tok toks, tokens j = tok :: toks ∧ (tok = TNull ↔ j = JNull) ∧ tok ≠ TDelim 93 ∧ tok ≠ TDelim 125.
Proof. destruct j; cbn; by eexists _, _. Qed.

Lemma sees_value_null inp j toks : Sees inp (tokens j ++ toks) →
  ∃ inp', IsNull inp = (match j with JNull => true | _ => false end, inp') ∧ Sees inp' (tokens j ++ toks).
Proof.
  destruct (tokens_head j) as (tok & ts & Htok & [Hn1 Hn2] & _). rewrite Htok. cbn [app]. intros Hs.
  destruct (sees_null _ _ _ Hs) as (inp' & -> & Hs'). exists inp'. split; [|done]. f_equal.
  destruct j; [by rewrite Hn2|..]; destruct tok; try done; by specialize (Hn1 eq_refl).
Qed.

Lemma sees_value_close inp j toks c : c = 93 ∨ c = 125 → Sees inp (tokens j ++ toks) →
  ∃ inp', IsDelim c inp = (false, inp') ∧ Sees inp' (tokens j ++ toks).
Proof.
  intros Hc. destruct (tokens_head j) as (tok & ts & -> & _ & H93 & H125). cbn [app]. intros Hs.
  destruct (sees_is_delim c _ _ _ Hs) as (inp' & -> & Hs'). exists inp'. split; [|done]. f_equal.
  destruct tok as [d| | | | | |]; try done. apply Z.eqb_neq. intros ->. by destruct Hc as [-> | ->].
Qed.

Lemma decodes_pointer {T} (zero : T) (d : nat → reader T) j a v :
  j ≠ JNull → decodes d j (default zero a) v → decodes (fun n => pointer zero (d n)) j a (Some v).
Proof.
  intros Hj Hd fuel inp toks Hf Hs. destruct (sees_value_null _ _ _ Hs) as (inp1 & Hn & Hs1).
  destruct (Hd fuel inp1 toks Hf Hs1) as (inp2 & Hr & Hs2). exists inp2. unfold pointer. rewrite Hn.
  destruct j; try done; by rewrite Hr.
Qed.

Lemma decodes_pointer_new {T} (zero : T) (d : nat → reader T) j v :
  j ≠ JNull → decodes d j zero v → decodes (fun n => pointer zero (d n)) j None (Some v).
Proof. apply (decodes_pointer zero d j None v). Qed.

Lemma decodes_pointer_null {T} (zero : T) (d : nat → reader T) a : decodes (fun n => pointer zero (d n)) JNull a None.
Proof.
  intros fuel inp toks _ Hs. destruct (sees_null _ _ _ Hs) as (inp1 & Hn & Hs1). exists (Skip inp1).
  unfold pointer. rewrite Hn. split; [done|]. by eapply sees_skip.
Qed.

Lemma separated_cons x l : l ≠ [] → separated (x :: l) = x ++ TComma :: separated l.
Proof. by destruct l. Qed.

Lemma separated_length x l :
  (length (separated (x :: l)) = length x + match l with [] => 0 | _ => S (length (separated l)) end)%nat.
Proof. destruct l as [|y l]; [cbn [separated]; lia|]. rewrite separated_cons by done. rewrite length_app. done. Qed.

(** *** Arrays *)

Lemma read_elements_ok {T} (zero : T) (d : nat → reader T) js l : Forall2 (fun j v => decodes d j zero v) js l →
  ∀ n fuel acc inp toks, (length (separated (map tokens js)) < n)%nat → (length (separated (map tokens js)) ≤ fuel)%nat →
  Sees inp (separated (map tokens js) ++ TDelim 93 :: toks) →
  ∃ inp', read_elements n zero (d fuel) acc inp = Some (acc ++ l, inp') ∧ Sees inp' (TDelim 93 :: toks).
Proof.
  induction 1 as [|j v js l Hj Hrest IH]; intros n fuel acc inp toks Hn Hf Hs; (destruct n as [|n]; [lia|]); cbn [read_elements].
  - destruct (sees_is_delim 93 _ _ _ Hs) as (inp' & -> & Hs'). exists inp'. by rewrite app_nil_r.
  - cbn [map] in *. rewrite separated_length in Hn, Hf.
    assert (Hs1 : ∃ more, separated (tokens j :: map tokens js) ++ TDelim 93 :: toks = tokens j ++ more ∧
      ∀ inp, Sees inp more → Sees (WantComma inp) (separated (map tokens js) ++ TDelim 93 :: toks)).
    { destruct js as [|j' js]; [by exists (TDelim 93 :: toks); split; [|intros inp0; apply sees_close; left]|].
      exists (TComma :: separated (map tokens (j' :: js)) ++ TDelim 93 :: toks). split; [|intros inp0; apply sees_comma].
      rewrite separated_cons by done. by rewrite <-app_assoc. }
    destruct Hs1 as (more & Hm & Hcomma). rewrite Hm in Hs.
    destruct (sees_value_close _ _ _ 93 ltac:(auto) Hs) as (inp1 & -> & Hs1).
    destruct (Hj fuel inp1 more ltac:(lia) Hs1) as (inp2 & -> & Hs2). cbn [mbind option_bind].
    assert (Hlen : (0 < length (tokens j))%nat) by (destruct (tokens_head j) as (? & ? & -> & _); cbn; lia).
    destruct (IH n fuel (acc ++ [v]) (WantComma inp2) toks) as (inp3 & -> & Hs3); [|destruct js; cbn in *; lia|by apply Hcomma|].
    { destruct js; cbn [map separated length] in *; lia. }
    exists inp3. by rewrite <-app_assoc.
Qed.

Lemma read_items_ok {T} (zero : T) (d : nat → reader T) js l a fuel inp toks :
  Forall2 (fun j v => decodes d j zero v) js l → (length (tokens (JArray js)) ≤ fuel)%nat → Sees inp (tokens (JArray js) ++ toks) →
  ∃ inp', read_items fuel zero (d fuel) a inp = Some (Some l, inp') ∧ Sees inp' toks.
Proof.
  intros Hl Hf Hs. cbn [tokens] in Hf. rewrite length_cons, length_app in Hf. cbn [length] in Hf.
  cbn [tokens app] in Hs. rewrite <-app_assoc in Hs. cbn [app] in Hs. apply sees_delim in Hs. unfold read_items.
  set (inp2 := match a with None => (IsDelim 93 (Delim 91 inp)).2 | Some _ => Delim 91 inp end).
  assert (Hs2 : Sees inp2 (separated (map tokens js) ++ TDelim 93 :: toks)).
  { unfold inp2. destruct a; [done|]. destruct (separated (map tokens js) ++ TDelim 93 :: toks) as [|tok ts] eqn:Heq; [by destruct (separated _)|].
    by destruct (sees_is_delim 93 _ _ _ Hs) as (inp' & -> & Hs'). }
  destruct (read_elements_ok zero d js l Hl fuel fuel [] inp2 toks) as (inp3 & -> & Hs3); [lia|lia|done|].
  cbn. exists (Delim 93 inp3). split; [done|]. by apply sees_delim.
Qed.

Lemma decodes_slice {T} (zero : T) (d : nat → reader T) js l a :
  Forall2 (fun j v => decodes d j zero v) js l → decodes (fun n => read_slice n zero (d n)) (JArray js) a (Some l).
Proof.
  intros Hl fuel inp toks Hf Hs. destruct (sees_value_null _ _ _ Hs) as (inp1 & Hn & Hs1).
  unfold read_slice. rewrite Hn. by apply (read_items_ok zero d js).
Qed.

(** *** Objects *)

(** The members of an object, one after the other *)
Inductive assigns {A} (cases : nat → list (string * reader A)) : members → A → A → Prop :=
| assigns_nil a : assigns cases [] a a
| assigns_null k kvs a a' : assigns cases kvs a a' → assigns cases ((k, JNull) :: kvs) a a'
| assigns_member k j kvs a a1 a' :
    j ≠ JNull → decodes (fun n => switch (cases n) k) j a a1 → assigns cases kvs a1 a' → assigns cases ((k, j) :: kvs) a a'.

Definition member_tokens (kv : string * json) : list token := TString kv.1 :: TColon :: tokens kv.2.

Lemma read_members_ok {A} (cases : nat → list (string * reader A)) kvs a a' : assigns cases kvs a a' →
  ∀ n fuel inp toks, (length (separated (map member_tokens kvs)) < n)%nat → (length (separated (map member_tokens kvs)) ≤ fuel)%nat →
  Sees inp (separated (map member_tokens kvs) ++ TDelim 125 :: toks) →
  ∃ inp', read_members n (cases fuel) a inp = Some (a', inp') ∧ Sees inp' (TDelim 125 :: toks).
Proof.
  assert (Hstep : ∀ k j kvs inp toks, Sees inp (separated (map member_tokens ((k, j) :: kvs)) ++ TDelim 125 :: toks) →
    ∃ inp1 more, IsDelim 125 inp = (false, inp1) ∧
      (∃ inp2, UnsafeString inp1 = (k, inp2) ∧ Sees (WantColon inp2) (tokens j ++ more)) ∧
      ∀ inp, Sees inp more → Sees (WantComma inp) (separated (map member_tokens kvs) ++ TDelim 125 :: toks)).
  { intros k j kvs0 inp toks Hs.
    assert (Hm : ∃ more, separated (map member_tokens ((k, j) :: kvs0)) ++ TDelim 125 :: toks = TString k :: TColon :: tokens j ++ more ∧
      ∀ inp, Sees inp more → Sees (WantComma inp) (separated (map member_tokens kvs0) ++ TDelim 125 :: toks)).
    { destruct kvs0 as [|kv kvs0]; [by exists (TDelim 125 :: toks); split; [|intros inp0; apply sees_close; right]|].
      exists (TComma :: separated (map member_tokens (kv :: kvs0)) ++ TDelim 125 :: toks). split; [|intros inp0; apply sees_comma].
      cbn [map]. rewrite separated_cons by done. unfold member_tokens at 1. cbn [fst snd app]. by rewrite <-app_assoc. }
    destruct Hm as (more & Hm & Hcomma). rewrite Hm in Hs.
    destruct (sees_is_delim 125 _ _ _ Hs) as (inp1 & Hd & Hs1). destruct (sees_key _ _ _ Hs1) as (inp2 & Hk & Hs2).
    apply sees_colon in Hs2. exists inp1, more. split; [done|]. split; [by exists inp2|done]. }
  intros Ha. induction Ha as [a|k kvs a a' _ IH|k j kvs a a1 a' Hj Hd _ IH]; intros n fuel inp toks Hn Hf Hs;
    (destruct n as [|n]; [lia|]); cbn [read_members].
  - destruct (sees_is_delim 125 _ _ _ Hs) as (inp' & -> & Hs'). by exists inp'.
  - destruct (Hstep _ _ _ _ _ Hs) as (inp1 & more & -> & (inp2 & -> & Hs2) & Hcomma).
    destruct (sees_value_null _ _ _ Hs2) as (inp3 & -> & Hs3). cbn [map] in Hn, Hf. rewrite separated_length in Hn, Hf. cbn in Hn, Hf.
    apply (IH n fuel); [destruct kvs; cbn in *; lia|destruct kvs; cbn in *; lia|]. apply Hcomma. exact (sees_skip _ TNull _ Hs3).
  - destruct (Hstep _ _ _ _ _ Hs) as (inp1 & more & -> & (inp2 & -> & Hs2) & Hcomma).
    destruct (sees_value_null _ _ _ Hs2) as (inp3 & Hnull & Hs3). rewrite Hnull. cbn [map] in Hn, Hf. rewrite separated_length in Hn, Hf.
    unfold member_tokens at 1 in Hn. unfold member_tokens at 1 in Hf. cbn [length fst snd] in Hn, Hf.
    destruct (Hd fuel inp3 more ltac:(lia) Hs3) as (inp4 & Hr & Hs4).
    destruct (IH n fuel (WantComma inp4) toks) as (inp5 & Hr5 & Hs5); [destruct kvs; cbn in *; lia|destruct kvs; cbn in *; lia|by apply Hcomma|].
    exists inp5. split; [|done]. destruct j; try done; by rewrite Hr.
Qed.

Lemma decodes_object {A} (init : A → A) (cases : nat → list (string * reader A)) kvs a a' :
  assigns cases kvs (init a) a' → decodes (fun n => read_object n init (cases n)) (JObject kvs) a a'.
Proof.
  intros Ha fuel inp toks Hf Hs. cbn [tokens] in Hf. change (map _ kvs) with (map member_tokens kvs) in Hf.
  rewrite length_cons, length_app in Hf. cbn [length] in Hf. unfold read_object. rewrite (sees_start _ _ Hs).
  destruct (sees_value_null _ _ _ Hs) as (inp1 & -> & Hs1). cbn [tokens app] in Hs1. rewrite <-app_assoc in Hs1. cbn [app] in Hs1.
  apply sees_delim in Hs1. change (map _ kvs) with (map member_tokens kvs) in Hs1.
  destruct (read_members_ok cases kvs (init a) a' Ha fuel fuel _ toks ltac:(lia) ltac:(lia) Hs1) as (inp2 & -> & Hs2).
  cbn. exists (Delim 125 inp2). split; [done|]. by apply sees_delim.
Qed.

(** *** Lengths of texts *)

Lemma unicode_escape_length l r rest : unicode_escape l = Some (r, rest) → (length rest ≤ length l)%nat.
Proof.
  unfold unicode_escape, hex4. intros H. repeat (case_match; simplify_eq/=); lia.
Qed.

Lemma lex_string_length fuel l s rest : lex_string fuel l = Some (s, rest) → (length rest < length l)%nat.
Proof.
  revert l s rest. induction fuel as [|fuel IH]; intros l s rest; [done|]. cbn [lex_string].
  assert (Hmore : ∀ r l', match lex_string fuel l' with Some (s, rest) => Some (r ++ s, rest) | None => None end = Some (s, rest) →
    (length rest < length l')%nat).
  { intros r l' H. destruct (lex_string fuel l') as [[s' rest']|] eqn:Hl; [|done]. injection H as <- <-. by eapply IH. }
  intros H. destruct l as [|a l1]; [done|]. cbn [length].
  destruct (a =? 34); [injection H as <- <-; lia|]. destruct (a =? 92).
  - destruct l1 as [|c l2]; [done|]. cbn [length]. destruct (c =? 117).
    + destruct (unicode_escape l2) as [[r l3]|] eqn:Hu; [|done]. apply unicode_escape_length in Hu. apply Hmore in H. lia.
    + destruct (simple_escape c); [|done]. apply Hmore in H. lia.
  - destruct (a <? 32); [done|]. destruct (split_rune (a :: l1)) as [[r l2]|] eqn:Hs; [|apply Hmore in H; lia].
    apply split_rune_inv in Hs as [Heq Hr]. apply Hmore in H. apply (f_equal length) in Heq.
    rewrite length_app in Heq. cbn [length] in Heq. destruct (rune_cases r Hr) as [(x & -> & _)|(x & r' & -> & _)]; cbn in Heq; lia.
Qed.

Lemma skip_space_length l : (length (skip_space l) ≤ length l)%nat.
Proof. induction l as [|c l IH]; cbn; [lia|]. destruct (is_space c); cbn; lia. Qed.

Lemma lex_number_length l n r : lex_number l = Some (n, r) → (length r < length l)%nat.
Proof.
  intros H. apply lex_number_valid in H as [-> H]. rewrite length_app. destruct n; [done|]. cbn. lia.
Qed.

Lemma strip_length p l r : strip p l = Some r → length l = (length p + length r)%nat.
Proof.
  revert l. induction p as [|a p IH]; intros l; cbn; [by intros [= <-]|]. destruct l as [|b l]; [done|].
  destruct (a =? b); [|done]. intros H%IH. cbn. lia.
Qed.

Lemma lex_literal_length l j r : lex_literal l = Some (j, r) → (length (tokens j) + length r ≤ length l)%nat.
Proof.
  unfold lex_literal. intros H. destruct (strip (print JNull) l) as [r1|] eqn:H1.
  { injection H as <- <-. apply strip_length in H1. cbn in *. lia. }
  destruct (strip (print (JBool true)) l) as [r2|] eqn:H2.
  { injection H as <- <-. apply strip_length in H2. cbn in *. lia. }
  destruct (strip (print (JBool false)) l) as [r3|] eqn:H3; [|done].
  injection H as <- <-. apply strip_length in H3. cbn in *. lia.
Qed.

(** A text is at least as long as its tokens are many. *)
Lemma parse_lengths fuel :
  (∀ l j r, parse_value fuel l = Some (j, r) → (length (tokens j) + length r ≤ length l)%nat) ∧
  (∀ l js r, parse_elements fuel l = Some (js, r) → (length (separated (map tokens js)) + 1 + length r ≤ length l)%nat) ∧
  (∀ l kvs r, parse_members fuel l = Some (kvs, r) → (length (separated (map member_tokens kvs)) + 1 + length r ≤ length l)%nat).
Proof.
  induction fuel as [|fuel (IHv & IHe & IHm)]; [done|]. split_and!.
  - intros l j r H. cbn [parse_value] in H. pose proof (skip_space_length l) as Hl. destruct (skip_space l) as [|c l1]; [done|].
    cbn [length] in Hl. pose proof (skip_space_length l1) as Hl1. destruct (c =? 34).
    { destruct (lex_string _ l1) as [[s rest]|] eqn:Hs; [|done]. injection H as <- <-. apply lex_string_length in Hs. cbn. lia. }
    destruct (c =? 91).
    { destruct (skip_space l1) as [|d rest]; [done|]. cbn [length] in Hl1. destruct (d =? 93); [injection H as <- <-; cbn; lia|].
      destruct (parse_elements fuel l1) as [[js rest']|] eqn:He; [|done]. injection H as <- <-. apply IHe in He.
      cbn [tokens length]. rewrite length_app. cbn [length]. lia. }
    destruct (c =? 123).
    { destruct (skip_space l1) as [|d rest]; [done|]. cbn [length] in Hl1. destruct (d =? 125); [injection H as <- <-; cbn; lia|].
      destruct (parse_members fuel l1) as [[kvs rest']|] eqn:He; [|done]. injection H as <- <-. apply IHm in He.
      cbn [tokens length]. rewrite length_app. cbn [length]. change (map _ kvs) with (map member_tokens kvs). lia. }
    destruct ((c =? 45) || is_digit c); [|apply lex_literal_length in H; cbn [length] in H; lia].
    destruct (lex_number (c :: l1)) as [[n rest]|] eqn:Hn; [|done]. injection H as <- <-. apply lex_number_length in Hn. cbn in *. lia.
  - intros l js r H. cbn [parse_elements] in H. destruct (parse_value fuel l) as [[j l1]|] eqn:Hv; [|done]. apply IHv in Hv.
    pose proof (skip_space_length l1) as Hl1. destruct (skip_space l1) as [|c l2]; [done|]. cbn [length] in Hl1. destruct (c =? 44).
    + destruct (parse_elements fuel l2) as [[js' rest]|] eqn:He; [|done]. injection H as <- <-. apply IHe in He.
      cbn [map]. rewrite separated_length. destruct js'; cbn [map separated length] in *; lia.
    + destruct (c =? 93); [|done]. injection H as <- <-. cbn [map separated]. lia.
  - intros l kvs r H. cbn [parse_members] in H. pose proof (skip_space_length l) as Hl. destruct (skip_space l) as [|c l1]; [done|].
    cbn [length] in Hl. destruct (c =? 34); [|done]. destruct (lex_string _ l1) as [[k l2]|] eqn:Hk; [|done]. apply lex_string_length in Hk.
    pose proof (skip_space_length l2) as Hl2. destruct (skip_space l2) as [|d l3]; [done|]. cbn [length] in Hl2.
    destruct (d =? 58); [|done]. destruct (parse_value fuel l3) as [[j l4]|] eqn:Hv; [|done]. apply IHv in Hv.
    pose proof (skip_space_length l4) as Hl4. destruct (skip_space l4) as [|e l5]; [done|]. cbn [length] in Hl4. destruct (e =? 44).
    + destruct (parse_members fuel l5) as [[kvs' rest]|] eqn:He; [|done]. injection H as <- <-. apply IHm in He.
      cbn [map]. rewrite separated_length. unfold member_tokens at 1. destruct kvs'; cbn [map separated length fst snd] in *; lia.
    + destruct (e =? 125); [|done]. injection H as <- <-. cbn [map separated]. unfold member_tokens. cbn [length fst snd]. lia.
Qed.

Lemma whole_length text j : whole text = Some j → (length (tokens j) ≤ length (bytes text))%nat.
Proof.
  unfold whole. destruct (parse_value _ _) as [[j' r]|] eqn:H; [|done]. apply (proj1 (parse_lengths _)) in H.
  destruct (skip_space r); [|done]. intros [= <-]. lia.
Qed.

(** *** Whole texts *)

Lemma unmarshal_object {A} (init : A → A) (cases : nat → list (string * reader A)) text kvs a a' :
  utf8 text = true → whole text = Some (JObject kvs) → assigns cases kvs (init a) a' →
  unmarshal (fun n => read_object n init (cases n)) text a = Some (a', None).
Proof.
  intros Hu Hw Ha. pose proof (whole_length _ _ Hw) as Hlen. pose proof (new_fresh _ _ Hu Hw) as Hf.
  unfold unmarshal, read_object. rewrite (fresh_start _ _ Hf). cbn [tokens] in Hf.
  destruct (fresh_null _ _ _ Hf) as (inp1 & -> & Hs1). apply sees_delim in Hs1.
  change (map _ kvs) with (map member_tokens kvs) in Hs1. cbn [tokens] in Hlen.
  change (map _ kvs) with (map member_tokens kvs) in Hlen. rewrite length_cons, length_app in Hlen. cbn [length] in Hlen.
  destruct (read_members_ok cases kvs (init a) a' Ha (S (length (bytes text))) (S (length (bytes text))) _ [] ltac:(lia) ltac:(lia) Hs1)
    as (inp2 & -> & Hs2). cbn [mbind option_bind].
  apply sees_delim, sees_end in Hs2. by rewrite (sees_no_error _ _ Hs2).
Qed.

Lemma unmarshal_slice {T} (zero : T) (d : nat → reader T) text js l a :
  utf8 text = true → whole text = Some (JArray js) → Forall2 (fun j v => decodes d j zero v) js l →
  unmarshal (fun n => read_top_slice n zero (d n)) text a = Some (Some l, None).
Proof.
  intros Hu Hw Hl. pose proof (whole_length _ _ Hw) as Hlen. pose proof (new_fresh _ _ Hu Hw) as Hf.
  unfold unmarshal, read_top_slice, read_slice. rewrite (fresh_start _ _ Hf). cbn [tokens] in Hf.
  destruct (fresh_null _ _ _ Hf) as (inp1 & -> & Hs1).
  destruct (read_items_ok zero d js l a (S (length (bytes text))) inp1 []) as (inp2 & -> & Hs2);
    [done|lia|cbn [tokens]; by rewrite app_nil_r|].
  cbn. apply sees_end in Hs2. by rewrite (sees_no_error _ _ Hs2).
Qed.

Lemma unmarshal_slice_null {T} (zero : T) (d : nat → reader T) text a :
  utf8 text = true → whole text = Some JNull → unmarshal (fun n => read_top_slice n zero (d n)) text a = Some (None, None).
Proof.
  intros Hu Hw. pose proof (new_fresh _ _ Hu Hw) as Hf.
  unfold unmarshal, read_top_slice, read_slice. rewrite (fresh_start _ _ Hf). cbn [tokens] in Hf.
  destruct (fresh_null _ _ _ Hf) as (inp1 & -> & Hs1). cbn.
  pose proof (sees_end _ (sees_skip _ _ _ Hs1)) as Hs2. by rewrite (sees_no_error _ _ Hs2).
Qed.

End readers.

(** ** The JSON values of Go values *)

Definition jint (z : Z) : json := JNumber (Itoa z).
Definition jfloat {F : FloatText} (f : float64) : json := JNumber (float_text f).
Definition jopt {A} (tree : A → json) (o : option A) : json := match o with Some a => tree a | None => JNull end.
Definition jslice {A} (tree : A → json) (s : option (list A)) : json := match s with Some l => JArray (map tree l) | None => JNull end.

(** Members that may be left out *)
Definition jwhen (b : bool) (kv : string * json) : members := if b then [kv] else [].
Definition jsome {A} (key : string) (tree : A → json) (o : option A) : members :=
  match o with Some a => [(key, tree a)] | None => [] end.

Definition text_ok (s : string) : Prop := utf8 s = true.

(** A property of what a pointer points to *)
Definition pointed {A} (P : A → Prop) (o : option A) : Prop := match o with Some a => P a | None => True end.

(** *** Schemas *)

(** Types of JSON values; the flag of a field is set when it may be absent *)
#[warnings="-register-all"]
Inductive schema :=
| SString
| SInt
| SNumber
| SBool
| SNullable (s : schema)
| SArray (s : schema)
| SObject (fields : list (string * bool * schema)).

(** A value has a type; the members of an object come in the order of the
    fields, each at most once. *)
#[warnings="-register-all"]
Inductive conforms : schema → json → Prop :=
| conforms_string s : conforms SString (JString s)
| conforms_int z : in_int64 z → conforms SInt (jint z)
| conforms_number lit : valid_number lit = true → conforms SNumber (JNumber lit)
| conforms_bool b : conforms SBool (JBool b)
| conforms_null s : conforms (SNullable s) JNull
| conforms_some s j : conforms s j → conforms (SNullable s) j
| conforms_array s l : Forall (conforms s) l → conforms (SArray s) (JArray l)
| conforms_object fs kvs : conforms_fields fs kvs → conforms (SObject fs) (JObject kvs)
with conforms_fields : list (string * bool * schema) → members → Prop :=
| fields_nil : conforms_fields [] []
| fields_member k optional s fs j kvs :
    conforms s j → conforms_fields fs kvs → conforms_fields ((k, optional, s) :: fs) ((k, j) :: kvs)
| fields_omitted k s fs kvs : conforms_fields fs kvs → conforms_fields ((k, true, s) :: fs) kvs.

Lemma fields_last k optional s j : conforms s j → conforms_fields [(k, optional, s)] [(k, j)].
Proof. intros H. apply fields_member; [done|constructor]. Qed.

Lemma fields_app k optional s fs j kvs :
  conforms s j → conforms_fields fs kvs → conforms_fields ((k, optional, s) :: fs) ([(k, j)] ++ kvs).
Proof. apply fields_member. Qed.

Lemma fields_when k s fs b j kvs :
  (b = true → conforms s j) → conforms_fields fs kvs → conforms_fields ((k, true, s) :: fs) (jwhen b (k, j) ++ kvs).
Proof. intros Hj Hk. destruct b; [by apply fields_member; [apply Hj|]|by apply fields_omitted]. Qed.

Lemma fields_some {A} k s fs (tree : A → json) o kvs :
  pointed (fun a => conforms s (tree a)) o → conforms_fields fs kvs → conforms_fields ((k, true, s) :: fs) (jsome k tree o ++ kvs).
Proof. intros Ho Hk. destruct o; [by apply fields_member|by apply fields_omitted]. Qed.

Lemma fields_when_last k s b j : (b = true → conforms s j) → conforms_fields [(k, true, s)] (jwhen b (k, j)).
Proof. intros Hj. destruct b; [by apply fields_last, Hj|]. apply fields_omitted. constructor. Qed.

Lemma fields_some_last {A} k s (tree : A → json) o :
  pointed (fun a => conforms s (tree a)) o → conforms_fields [(k, true, s)] (jsome k tree o).
Proof. intros Ho. destruct o; [by apply fields_last|]. apply fields_omitted. constructor. Qed.

Lemma conforms_float {F : FloatText} f : canonical f → conforms SNumber (jfloat f).
Proof. intros Hf. by apply conforms_number, float_text_valid. Qed.

Lemma conforms_opt {A} s (tree : A → json) o : pointed (fun a => conforms s (tree a)) o → conforms (SNullable s) (jopt tree o).
Proof. intros Ho. destruct o; [by apply conforms_some|apply conforms_null]. Qed.

Lemma conforms_list {A} s (tree : A → json) l : Forall (fun a => conforms s (tree a)) l → conforms (SArray s) (JArray (map tree l)).
Proof. intros Hl. apply conforms_array. induction Hl; by constructor. Qed.

Lemma conforms_slice {A} s (tree : A → json) o :
  Forall (fun a => conforms s (tree a)) (default [] o) → conforms (SNullable (SArray s)) (jslice tree o).
Proof. intros Ho. destruct o; [by apply conforms_some, conforms_list|apply conforms_null]. Qed.

Lemma conforms_some_slice {A} s (tree : A → json) o :
  o ≠ None → Forall (fun a => conforms s (tree a)) (default [] o) → conforms (SArray s) (jslice tree o).
Proof. intros Hne Ho. destruct o; [by apply conforms_list|done]. Qed.

(** *** Members of objects, written *)

Section writing.
Context {W : Jwriter} {F : FloatText} {L : JwriterLaws W F}.

Lemma adds_when_field b k e j : plain_text k = true → (b = true → writes e j) → adds (when b (field k e)) (jwhen b (k, j)).
Proof. intros Hk He. destruct b; [by apply adds_field, He|apply adds_nothing]. Qed.

Lemma adds_some {A} (o : option A) k e (tree : A → json) :
  plain_text k = true → pointed (fun a => writes (e a) (tree a)) o → adds (when_some o (fun a => field k (e a))) (jsome k tree o).
Proof. intros Hk He. destruct o; [by apply adds_field|apply adds_nothing]. Qed.

Lemma writes_pointer {A} (o : option A) e tree : pointed (fun a => writes (e a) (tree a)) o → writes (nullable o e) (jopt tree o).
Proof. intros H. destruct o; [done|apply writes_null]. Qed.

Lemma writes_jslice {A} (e : A → enc) (tree : A → json) (s : option (list A)) :
  Forall (fun x => writes (e x) (tree x)) (default [] s) → writes (slice_or_null e s) (jslice tree s).
Proof. apply writes_slice. Qed.

(** A slice that is not empty *)
Lemma writes_some_slice {A} (e : A → enc) (tree : A → json) (s : option (list A)) :
  s ≠ None → Forall (fun x => writes (e x) (tree x)) (default [] s) → writes (array e (default [] s)) (jslice tree s).
Proof. intros Hs Hl. destruct s; [by apply writes_array_map|done]. Qed.

End writing.

(** *** Members of objects, read *)

Section reading.
Context {X : Jlexer} {F : FloatText} {L : JlexerLaws X F}.
Context {A : Type} (cases : nat → list (string * reader A)).

Lemma assigns_app kvs kvs' a a1 a' : assigns cases kvs a a1 → assigns cases kvs' a1 a' → assigns cases (kvs ++ kvs') a a'.
Proof. induction 1; intros H'; [done|by apply assigns_null; auto|by eapply assigns_member; eauto]. Qed.

Section fields.
Context {T : Type} (k : string) (get : A → T) (set : T → A → A) (d : nat → reader T).
Context (Hcase : ∀ n, switch (cases n) k = into get set (d n)).

Lemma assigns_field j a v : j ≠ JNull → decodes d j (get a) v → assigns cases [(k, j)] a (set v a).
Proof.
  intros Hj Hd. eapply assigns_member; [done| |apply assigns_nil]. intros fuel inp toks Hf Hs.
  rewrite Hcase. by apply (decodes_into get set d j a v Hd).
Qed.

Lemma assigns_when b j a v :
  set (get a) a = a → (b = true → j ≠ JNull ∧ decodes d j (get a) v) →
  assigns cases (jwhen b (k, j)) a (set (if b then v else get a) a).
Proof. intros Heta Hd. destruct b; [destruct Hd; [done|by apply assigns_field]|]. rewrite Heta. apply assigns_nil. Qed.

End fields.

Lemma assigns_pointer {T U} k (get : A → option T) set d (tree : U → json) (o : option U) (g : U → T) a :
  (∀ n, switch (cases n) k = into get set (d n)) → get a = None → set None a = a →
  pointed (fun x => tree x ≠ JNull ∧ decodes d (tree x) None (Some (g x))) o →
  assigns cases [(k, jopt tree o)] a (set (g <$> o) a).
Proof.
  intros Hcase Hnone Heta Ho. destruct o as [x|]; cbn.
  - destruct Ho as [Hx Hd]. apply (assigns_field k get set d Hcase); [done|]. by rewrite Hnone.
  - rewrite Heta. apply assigns_null, assigns_nil.
Qed.

Lemma assigns_some {T U} k (get : A → option T) set d (tree : U → json) (o : option U) (g : U → T) a :
  (∀ n, switch (cases n) k = into get set (d n)) → get a = None → set None a = a →
  pointed (fun x => tree x ≠ JNull ∧ decodes d (tree x) None (Some (g x))) o →
  assigns cases (jsome k tree o) a (set (g <$> o) a).
Proof.
  intros Hcase Hnone Heta Ho. destruct o as [x|]; cbn.
  - destruct Ho as [Hx Hd]. apply (assigns_field k get set d Hcase); [done|]. by rewrite Hnone.
  - rewrite Heta. apply assigns_nil.
Qed.

Lemma assigns_eq kvs a a1 a' : assigns cases kvs a a1 → a1 = a' → assigns cases kvs a a'.
Proof. by intros ? <-. Qed.

End reading.

Section reading_slices.
Context {X : Jlexer} {F : FloatText} {L : JlexerLaws X F}.

Lemma decodes_list {T U} (zero : T) (d : nat → reader T) (tree : U → json) (g : U → T) l a :
  Forall (fun x => decodes d (tree x) zero (g x)) l →
  decodes (fun n => read_slice n zero (d n)) (JArray (map tree l)) a (Some (map g l)).
Proof. intros Hl. apply decodes_slice. induction Hl; by constructor. Qed.

Lemma decodes_some_slice {T U} (zero : T) (d : nat → reader T) (tree : U → json) (g : U → T) s a :
  s ≠ None → Forall (fun x => decodes d (tree x) zero (g x)) (default [] s) →
  decodes (fun n => read_slice n zero (d n)) (jslice tree s) a (map g <$> s).
Proof. intros Hne Hs. destruct s; [by apply decodes_list|done]. Qed.

(** The elements of a slice of pointers *)
Lemma decodes_opt {T U} (zero : T) (d : nat → reader T) (tree : U → json) (g : U → T) o :
  pointed (fun x => tree x ≠ JNull ∧ decodes d (tree x) zero (g x)) o →
  decodes (fun n => pointer zero (d n)) (jopt tree o) None (g <$> o).
Proof.
  intros Ho. destruct o as [x|]; [|apply decodes_pointer_null]. destruct Ho. by apply decodes_pointer.
Qed.

Lemma assigns_slice {A T U} (cases : nat → list (string * reader A)) k (get : A → option (list T)) set zero d (tree : U → json) (s : option (list U)) (g : U → T) a :
  (∀ n, switch (cases n) k = into get set (read_slice n zero (d n))) → get a = None → set None a = a →
  Forall (fun x => decodes d (tree x) zero (g x)) (default [] s) →
  assigns cases [(k, jslice tree s)] a (set (map g <$> s) a).
Proof.
  intros Hcase Hnone Heta Hs.
  apply (assigns_pointer cases k get set (fun n => read_slice n zero (d n)) (fun l => JArray (map tree l)) s (map g) a); try done.
  destruct s as [l|]; [|done]. split; [done|]. by apply decodes_list.
Qed.

End reading_slices.
