(* ===== verification/EasyJsonModel.v ===== *)
(** * EasyJsonModel: a writer and a lexer

    A writer that is the text written so far, a lexer that is the list of the
    tokens ahead, and exact decimal texts of floating point numbers.  They satisfy
    the laws of [EasyJson], which therefore have a model. *)

From stdpp Require Import base list strings numbers.
From Stdlib Require Import ZArith Lia.
From S2P Require Import Prelude GoStrings Json JsonText Amounts InsightTypes EasyJson.

Local Open Scope string_scope.
Local Open Scope Z_scope.
Local Open Scope list_scope.

(** ** Floating point numbers *)

(** The digits and the power of ten of the value: [m * 2^-k] is [m * 5^k * 10^-k]. *)
Definition exact_text (f : float64) : string :=
  ((if f_neg f then "-" else "") ++
   (if (f_exp f <? 0)%Z then Itoa (f_mant f * 5 ^ (- f_exp f)) ++ "e-" ++ Itoa (- f_exp f)
    else Itoa (f_mant f * 2 ^ f_exp f)))%string.

Definition digit_value (l : list Z) : Z := dec_val 0 (map (fun c => c - 48) l).

(** The number whose text it is *)
Definition read_float (lit : string) : float64 :=
  let '(sign, l) := lex_sign (bytes lit) in
  let neg := match sign with [] => false | _ => true end in
  let '(int, rest) := take_digits l in
  let n := digit_value int in
  match rest with
  | _ :: _ :: exp => let k := digit_value exp in {| f_neg := neg; f_mant := n / 5 ^ k; f_exp := - k |}
  | _ =>
      if n =? 0 then {| f_neg := neg; f_mant := 0; f_exp := 0 |}
      else let e := Z.log2 n - 52 in {| f_neg := neg; f_mant := n / 2 ^ e; f_exp := e |}
  end.

Lemma bytes_Itoa n : 0 ≤ n → bytes (Itoa n) = map (fun d => d + 48) (digits_of n).
Proof.
  intros Hn. unfold Itoa. rewrite (proj2 (Z.ltb_ge n 0)) by lia. destruct (digits_of_spec n Hn) as (_ & Hd & _).
  by apply bytes_string_of_digits.
Qed.

Lemma digit_value_Itoa n : 0 ≤ n → digit_value (bytes (Itoa n)) = n.
Proof.
  intros Hn. rewrite bytes_Itoa by done. unfold digit_value. rewrite map_map, (map_ext _ (fun d => d)) by (intros; lia).
  rewrite map_id. apply (digits_of_spec n Hn).
Qed.

Lemma take_digits_Itoa n rest : 0 ≤ n → no_digit rest → take_digits (bytes (Itoa n) ++ rest) = (bytes (Itoa n), rest).
Proof.
  intros Hn Hr. rewrite bytes_Itoa by done. destruct (digits_of_spec n Hn) as (_ & Hd & _).
  exact (take_digits_app _ rest _ [] Hr (take_digits_all _ Hd)).
Qed.

Lemma lex_sign_text (neg : bool) n rest : 0 ≤ n →
  lex_sign (bytes (if neg then "-" else "") ++ bytes (Itoa n) ++ rest) = (bytes (if neg then "-" else ""), bytes (Itoa n) ++ rest).
Proof.
  intros Hn. destruct neg; [done|]. cbn [bytes app]. rewrite bytes_Itoa by done. destruct (digits_of_spec n Hn) as (_ & Hd & Hne).
  destruct (digits_of n) as [|d l]; [done|]. apply Forall_inv in Hd. cbn. by rewrite (proj2 (Z.eqb_neq (d + 48) 45)) by lia.
Qed.

Lemma canonical_nonneg f : canonical f → 0 ≤ f_mant f.
Proof. intros [[-> _]|[[H _] _]]; [lia|]. pose proof (Z.pow_pos_nonneg 2 52). lia. Qed.

Lemma exact_text_bytes f :
  bytes (exact_text f) = bytes (if f_neg f then "-" else "") ++
    (if f_exp f <? 0 then bytes (Itoa (f_mant f * 5 ^ (- f_exp f))) ++ 101 :: 45 :: bytes (Itoa (- f_exp f))
     else bytes (Itoa (f_mant f * 2 ^ f_exp f)) ++ []).
Proof. unfold exact_text. rewrite bytes_app. destruct (f_exp f <? 0); [by rewrite !bytes_app|by rewrite app_nil_r]. Qed.

Lemma read_exact f : canonical f → read_float (exact_text f) = f.
Proof.
  intros Hf. pose proof (canonical_nonneg f Hf) as Hm. unfold read_float. rewrite exact_text_bytes.
  assert (Hneg : ∀ b : bool, match bytes (if b then "-" else "") with [] => false | _ => true end = b) by by intros [].
  destruct f as [neg m e]. cbn [f_neg f_mant f_exp] in *. destruct (Z.ltb_spec e 0) as [He|He].
  - assert (Hp : 0 < 5 ^ (- e)) by (apply Z.pow_pos_nonneg; lia).
    rewrite lex_sign_text, Hneg by nia. rewrite take_digits_Itoa by (nia || done).
    rewrite !digit_value_Itoa by (nia || lia). rewrite Z.div_mul, Z.opp_involutive by lia. done.
  - assert (Hp : 0 < 2 ^ e) by (apply Z.pow_pos_nonneg; lia).
    rewrite lex_sign_text, Hneg by nia. rewrite take_digits_Itoa by (nia || done). rewrite digit_value_Itoa by nia.
    destruct Hf as [[Hm0 He0]|[Hr _]]; cbn [f_mant f_exp] in *; [by rewrite Hm0, He0|].
    assert (0 < 2 ^ 52) by (apply Z.pow_pos_nonneg; lia). rewrite (proj2 (Z.eqb_neq _ 0)) by nia.
    assert (Hlog : Z.log2 (m * 2 ^ e) = 52 + e).
    { rewrite Z.log2_mul_pow2 by lia. rewrite (Z.log2_unique m 52); [lia|lia|]. change (Z.succ 52) with 53. lia. }
    rewrite Hlog. replace (52 + e - 52) with e by lia. by rewrite Z.div_mul by lia.
Qed.

Lemma exact_text_valid f : canonical f → valid_number (exact_text f) = true.
Proof.
  intros Hf. pose proof (canonical_nonneg f Hf) as Hm. unfold valid_number. apply bool_decide_eq_true. rewrite exact_text_bytes.
  destruct (Z.ltb_spec (f_exp f) 0) as [He|He].
  - assert (Hp : 0 < 5 ^ (- f_exp f)) by (apply Z.pow_pos_nonneg; lia). assert (Hn : 0 ≤ f_mant f * 5 ^ (- f_exp f)) by nia.
    unfold lex_number. rewrite lex_sign_text by done. rewrite (bytes_Itoa (f_mant f * _)) by done.
    rewrite (lex_int_app _ (101 :: 45 :: bytes (Itoa (- f_exp f))) _ _ eq_refl (lex_int_digits_of _ Hn)). cbn [app lex_frac]. change (101 =? 46) with false. cbv beta iota.
    cbn [lex_exp]. change ((101 =? 101) || (101 =? 69)) with true. change ((45 =? 43) || (45 =? 45)) with true. cbv beta iota.
    pose proof (take_digits_Itoa (- f_exp f) [] ltac:(lia) I) as Ht. rewrite app_nil_r in Ht. rewrite Ht.
    destruct (bytes (Itoa (- f_exp f))) as [|c l] eqn:Hb; [|done].
    rewrite bytes_Itoa in Hb by lia. destruct (digits_of_spec (- f_exp f) ltac:(lia)) as (_ & _ & Hne). by destruct (digits_of (- f_exp f)).
  - assert (Hp : 0 < 2 ^ f_exp f) by (apply Z.pow_pos_nonneg; lia). assert (Hn : 0 ≤ f_mant f * 2 ^ f_exp f) by nia.
    unfold lex_number. rewrite lex_sign_text by done. rewrite app_nil_r, bytes_Itoa by done. rewrite lex_int_digits_of by done.
    cbn. by rewrite app_nil_r.
Qed.

Definition exact_floats : FloatText := {| float_text := exact_text; float_text_valid := exact_text_valid |}.

(** ** The writer *)

Definition text_writer : Jwriter := {|
  Writer := list Z;
  NewWriter := [];
  RawByte c w := w ++ [c];
  RawString l w := w ++ l;
  WriteString s w := w ++ quote_json s;
  WriteInt z w := w ++ bytes (Itoa z);
  WriteInt64 z w := w ++ bytes (Itoa z);
  WriteBool b w := w ++ print (JBool b);
  WriteFloat64 f w := w ++ bytes (exact_text f);
  NilSliceAsEmpty _ := false;
  BuildBytes w := w;
  WriterError _ := None;
|}.

Lemma escape_ascii c : 0 ≤ c < 128 → Forall is_ascii (escape c).
Proof.
  intros Hc. unfold escape, escape_hex. assert (0 ≤ c / 16 < 16 ∧ 0 ≤ c mod 16 < 16) as [H1 H2]
    by (split; [split; [apply Z.div_pos|apply Z.div_lt_upper_bound]; lia|apply Z.mod_pos_bound; lia]).
  assert (Hh : ∀ n, 0 ≤ n < 16 → is_ascii (hex_char n)) by (intros n Hn; unfold hex_char, is_ascii; destruct (Z.ltb_spec n 10); lia).
  repeat case_match; repeat first [apply List.Forall_nil | apply List.Forall_cons]; try (unfold is_ascii; lia); by apply Hh.
Qed.

Lemma quote_inside_runes fuel l : Forall is_byte l → runes (quote_inside fuel l).
Proof.
  revert l. induction fuel as [|fuel IH]; intros l Hl; [constructor|]. cbn [quote_inside].
  destruct l as [|a l1]; [constructor|]. pose proof (Forall_inv Hl) as Ha. pose proof (Forall_inv_tail Hl) as Hl1.
  destruct (Z.ltb_spec a 128).
  { apply runes_app; [apply ascii_runes, escape_ascii; unfold is_byte in Ha; lia|by apply IH]. }
  destruct (split_rune (a :: l1)) as [[r rest]|] eqn:Hs.
  - apply split_rune_inv in Hs as [Heq Hr]. rewrite Heq in Hl. apply list.Forall_app in Hl as [_ Hrest].
    apply runes_app; [|by apply IH]. rewrite <-(app_nil_r (write_rune r)). unfold write_rune.
    repeat case_bool_decide; [apply runes_app; [apply ascii_runes; unfold is_ascii; repeat constructor; lia|constructor]..|].
    by constructor; [|constructor].
  - apply runes_app; [apply ascii_runes; unfold is_ascii; repeat constructor; lia|by apply IH].
Qed.

Lemma quote_json_runes s : runes (quote_json s) ∧ Forall is_byte (quote_json s).
Proof.
  split; [|apply quote_json_bytes]. unfold quote_json. apply (runes_app [34]); [apply ascii_runes; unfold is_ascii; repeat constructor; lia|].
  apply runes_app; [apply quote_inside_runes, bytes_is_byte|apply ascii_runes; unfold is_ascii; repeat constructor; lia].
Qed.

Definition text_writer_laws : JwriterLaws text_writer exact_floats.
Proof.
  by refine {| Wrote := (fun w t => w = t) : @Writer text_writer → _; string_text := quote_json; string_text_reads := quote_reads;
    string_text_runes := quote_json_runes |}; cbn; intros; subst.
Defined.

(** ** The lexer *)

Record token_lexer := { tl_start : bool; tl_failed : bool; tl_tokens : list token }.

Definition with_tokens (toks : list token) : token_lexer := {| tl_start := false; tl_failed := false; tl_tokens := toks |}.
Definition failed : token_lexer := {| tl_start := false; tl_failed := true; tl_tokens := [] |}.

(** The next token, as an operation takes it *)
Definition take_token {A} (f : token → option A) (zero : A) (l : token_lexer) : A * token_lexer :=
  match tl_tokens l with
  | tok :: toks => match f tok with Some a => (a, with_tokens toks) | None => (zero, failed) end
  | [] => (zero, failed)
  end.

(** The next token, as an operation looks at it *)
Definition peek_token (f : token → bool) (l : token_lexer) : bool * token_lexer :=
  (match tl_tokens l with tok :: _ => f tok | [] => false end,
   {| tl_start := false; tl_failed := tl_failed l; tl_tokens := tl_tokens l |}).

Definition token_string (tok : token) : option string := match tok with TString s => Some s | _ => None end.

(** The end of a value that is open [depth] times *)
Fixpoint skip_value (depth : nat) (toks : list token) : list token :=
  match toks with
  | [] => []
  | tok :: toks =>
      let depth :=
        match tok with
        | TDelim c => if (c =? 91) || (c =? 123) then S depth else pred depth
        | _ => depth
        end in
      match depth with O => toks | S _ => skip_value depth toks end
  end.

Definition tokens_lexer : Jlexer := {|
  Lexer := token_lexer;
  NewLexer text :=
    match whole text with
    | Some j => {| tl_start := true; tl_failed := false; tl_tokens := tokens j |}
    | None => {| tl_start := true; tl_failed := true; tl_tokens := [] |}
    end;
  IsStart := tl_start;
  IsNull := peek_token (fun tok => match tok with TNull => true | _ => false end);
  IsDelim c l :=
    let '(b, l) := peek_token (fun tok => match tok with TDelim d => d =? c | _ => false end) l in ((tl_failed l || b)%bool, l);
  Skip l := (take_token (fun _ => Some tt) tt l).2;
  SkipRecursive l := with_tokens (skip_value 0 (tl_tokens l));
  Delim c l := (take_token (fun tok => match tok with TDelim d => if d =? c then Some tt else None | _ => None end) tt l).2;
  WantColon l := (take_token (fun tok => match tok with TColon => Some tt | _ => None end) tt l).2;
  WantComma l :=
    match tl_tokens l with
    | TComma :: toks => with_tokens toks
    | TDelim c :: _ => if (c =? 93) || (c =? 125) then l else failed
    | _ => failed
    end;
  Consumed l := match tl_tokens l with [] => l | _ => failed end;
  UnsafeString := take_token token_string "";
  ReadString := take_token token_string "";
  ReadInt := take_token (fun tok => match tok with TNumber lit => Some (ParseInt lit).1 | _ => None end) 0;
  ReadInt64 := take_token (fun tok => match tok with TNumber lit => Some (ParseInt lit).1 | _ => None end) 0;
  ReadBool := take_token (fun tok => match tok with TBool b => Some b | _ => None end) false;
  ReadFloat64 := take_token (fun tok => match tok with TNumber lit => Some (read_float lit) | _ => None end) float_zero;
  JsonNumber := take_token (fun tok => match tok with TString s => Some s | TNumber lit => Some lit | _ => None end) "";
  LexerError l := if tl_failed l then Some (ENew "parse error") else None;
|}.

(** Inside a value, the tokens of another are skipped. *)
Lemma skip_tokens j : (∀ toks, skip_value 0 (tokens j ++ toks) = toks) ∧
  ∀ depth toks, skip_value (S depth) (tokens j ++ toks) = skip_value (S depth) toks.
Proof.
  assert (Hsep : ∀ l : list (list token), Forall (fun x => ∀ depth toks, skip_value (S depth) (x ++ toks) = skip_value (S depth) toks) l →
    ∀ depth toks, skip_value (S depth) (separated l ++ toks) = skip_value (S depth) toks).
  { induction 1 as [|x l Hx Hl IH]; intros depth toks; [done|]. destruct (decide (l = [])) as [->|Hne]; [apply Hx|].
    rewrite separated_cons by done. rewrite <-app_assoc, Hx. cbn. apply IH. }
  induction j as [|b|lit|s|l IH|kvs IH] using json_values; try done.
  - assert (Hl : Forall (fun x => ∀ depth toks, skip_value (S depth) (x ++ toks) = skip_value (S depth) toks) (map tokens l)).
    { clear Hsep. induction IH as [|j l Hj _ IHl]; constructor; [apply Hj|done]. }
    split; intros; cbn [tokens app skip_value Z.eqb Pos.eqb orb]; rewrite <-app_assoc, (Hsep _ Hl); done.
  - assert (Hl : Forall (fun x => ∀ depth toks, skip_value (S depth) (x ++ toks) = skip_value (S depth) toks)
      (map (fun kv => TString kv.1 :: TColon :: tokens kv.2) kvs)).
    { clear Hsep. induction IH as [|j l Hj _ IHl]; constructor; [|done]. intros depth toks. cbn. apply Hj. }
    split; intros; cbn [tokens app skip_value Z.eqb Pos.eqb orb]; rewrite <-app_assoc, (Hsep _ Hl); done.
Qed.

Definition tokens_lexer_laws : JlexerLaws tokens_lexer exact_floats.
Proof.
  refine {| Sees := (fun l toks => l = with_tokens toks) : @Lexer tokens_lexer → _;
            Fresh := (fun l toks => l = {| tl_start := true; tl_failed := false; tl_tokens := toks |}) : @Lexer tokens_lexer → _ |}.
  all: cbn; intros; subst; try done; try (eexists; split; [reflexivity|done]).
  - by match goal with H : whole _ = Some _ |- _ => rewrite H end.
  - unfold with_tokens at 1. cbn. f_equal. apply skip_tokens.
  - unfold with_tokens, take_token. cbn. by rewrite Z.eqb_refl.
  - match goal with H : _ = 93 ∨ _ |- _ => destruct H as [-> | ->] end; done.
  - eexists. split; [|done]. unfold take_token. cbn. change (ParseInt (Itoa z)) with (Atoi (Itoa z)). by rewrite Atoi_Itoa.
  - eexists. split; [|done]. unfold take_token. cbn. change (ParseInt (Itoa z)) with (Atoi (Itoa z)). by rewrite Atoi_Itoa.
  - eexists. split; [|done]. unfold take_token. cbn. by rewrite read_exact.
Defined.
