(* ===== verification/InsightJson.v ===== *)
(** * InsightJson: the JSON of the insight API

    src/V2/pkg/api/insight/types_easyjson.go: how the values of [InsightTypes]
    are written and read, in the shapes of [EasyJson].  The methods
    [MarshalJSON] and [UnmarshalJSON] of the nine types start a writer or a lexer of
    their own; [MarshalEasyJSON] and [UnmarshalEasyJSON] are the encoders and
    decoders themselves. *)

From stdpp Require Import base list strings numbers.
From Stdlib Require Import ZArith Lia.
From S2P Require Import Prelude GoStrings Json JsonText Amounts Utxo InsightTypes EasyJson.

Local Open Scope string_scope.
Local Open Scope Z_scope.
Local Open Scope list_scope.
Local Open Scope enc_scope.

(** ** Records *)

#[export] Instance settable_ScriptSig : Settable ScriptSig := fun x =>
  {|
    ss_Asm := ss_Asm x; ss_Hex := ss_Hex x
  |}.

#[export] Instance settable_ScriptPubKey : Settable ScriptPubKey := fun x =>
  {|
    sp_Asm := sp_Asm x; sp_Hex := sp_Hex x; sp_ReqSigs := sp_ReqSigs x; sp_Addresses := sp_Addresses x;
    sp_Type := sp_Type x
  |}.

#[export] Instance settable_insightVout : Settable insightVout := fun x =>
  {|
    io_Value := io_Value x; io_N := io_N x; io_ScriptPubKey := io_ScriptPubKey x;
    io_SpentTxID := io_SpentTxID x; io_SpentTxIndex := io_SpentTxIndex x;
    io_SpentTxBlockHeight := io_SpentTxBlockHeight x
  |}.

#[export] Instance settable_insightVin : Settable insightVin := fun x =>
  {|
    iv_TxID := iv_TxID x; iv_Vout := iv_Vout x; iv_N := iv_N x; iv_ScriptSig := iv_ScriptSig x;
    iv_TxInWitness := iv_TxInWitness x; iv_Sequence := iv_Sequence x; iv_Coinbase := iv_Coinbase x;
    iv_Address := iv_Address x; iv_ValueSat := iv_ValueSat x; iv_Value := iv_Value x
  |}.

#[export] Instance settable_insightUtxo : Settable insightUtxo := fun x =>
  {|
    iu_Address := iu_Address x; iu_TxID := iu_TxID x; iu_Vout := iu_Vout x;
    iu_ScriptPubKey := iu_ScriptPubKey x; iu_ReqSigs := iu_ReqSigs x; iu_Type := iu_Type x;
    iu_Amount := iu_Amount x; iu_Satoshis := iu_Satoshis x; iu_BlockHeight := iu_BlockHeight x;
    iu_Confirmations := iu_Confirmations x; iu_Timestamp := iu_Timestamp x
  |}.

#[export] Instance settable_insightTx : Settable insightTx := fun x =>
  {|
    it_TxID := it_TxID x; it_Hash := it_Hash x; it_Version := it_Version x; it_Size := it_Size x;
    it_VSize := it_VSize x; it_Weight := it_Weight x; it_Locktime := it_Locktime x; it_Vin := it_Vin x;
    it_Vout := it_Vout x; it_BlockHash := it_BlockHash x; it_BlockHeight := it_BlockHeight x;
    it_Confirmations := it_Confirmations x; it_Time := it_Time x; it_BlockTime := it_BlockTime x;
    it_IsCoinBase := it_IsCoinBase x; it_ValueOut := it_ValueOut x; it_ValueIn := it_ValueIn x;
    it_Fees := it_Fees x
  |}.

#[export] Instance settable_insightTxsByBlock : Settable insightTxsByBlock := fun x =>
  {|
    ip_PagesTotal := ip_PagesTotal x; ip_Txs := ip_Txs x
  |}.

#[export] Instance settable_insightTxHistoryByAddrs : Settable insightTxHistoryByAddrs := fun x =>
  {|
    ih_TotalItems := ih_TotalItems x; ih_From := ih_From x; ih_To := ih_To x; ih_Txs := ih_Txs x
  |}.

#[export] Instance settable_utxoScriptSig : Settable utxoScriptSig := fun x =>
  {|
    us_Asm := us_Asm x; us_Hex := us_Hex x
  |}.

#[export] Instance settable_utxoVin : Settable utxoVin := fun x =>
  {|
    uv_TxID := uv_TxID x; uv_Vout := uv_Vout x; uv_ScriptSig := uv_ScriptSig x;
    uv_TxInWitness := uv_TxInWitness x; uv_Sequence := uv_Sequence x; uv_Coinbase := uv_Coinbase x
  |}.

#[export] Instance settable_utxoScriptPubKey : Settable utxoScriptPubKey := fun x =>
  {|
    up_Asm := up_Asm x; up_Hex := up_Hex x; up_ReqSigs := up_ReqSigs x; up_Type := up_Type x;
    up_Addresses := up_Addresses x
  |}.

#[export] Instance settable_utxoVout : Settable utxoVout := fun x =>
  {|
    uo_Value := uo_Value x; uo_N := uo_N x; uo_ScriptPubKey := uo_ScriptPubKey x
  |}.

#[export] Instance settable_utxoTx : Settable utxoTx := fun x =>
  {|
    ut_TxID := ut_TxID x; ut_Hash := ut_Hash x; ut_Version := ut_Version x; ut_Size := ut_Size x;
    ut_VSize := ut_VSize x; ut_Weight := ut_Weight x; ut_Locktime := ut_Locktime x; ut_Vins := ut_Vins x;
    ut_Vouts := ut_Vouts x; ut_Hex := ut_Hex x
  |}.

#[export] Instance settable_BlockHeader : Settable BlockHeader := fun x =>
  {|
    Hash := Hash x; Height := Height x; Time := Time x; MedianTime := MedianTime x; Nonce := Nonce x;
    PrevHash := PrevHash x; NextHash := NextHash x; Bits := Bits x; Difficulty := Difficulty x;
    Chainwork := Chainwork x; Version := Version x; VersionHex := VersionHex x; MerkleRoot := MerkleRoot x;
    Size := Size x; StrippedSize := StrippedSize x; Weight := Weight x; TxCount := TxCount x;
    IsOrphan := IsOrphan x
  |}.

#[export] Instance settable_utxoBlock : Settable utxoBlock := fun x => {| ub_BlockHeader := ub_BlockHeader x; ub_Txs := ub_Txs x |}.

#[export] Instance settable_insightBlock : Settable insightBlock := fun x =>
  {| ib_Block := ib_Block x; ib_Confirmations := ib_Confirmations x |}.

(** [new(T)] *)

Definition zero_ScriptSig : ScriptSig :=
  {|
    ss_Asm := None; ss_Hex := ""
  |}.

Definition zero_ScriptPubKey : ScriptPubKey :=
  {|
    sp_Asm := ""; sp_Hex := ""; sp_ReqSigs := 0; sp_Addresses := None; sp_Type := ""
  |}.

Definition zero_insightVout : insightVout :=
  {|
    io_Value := ""; io_N := 0; io_ScriptPubKey := zero_ScriptPubKey; io_SpentTxID := None;
    io_SpentTxIndex := None; io_SpentTxBlockHeight := None
  |}.

Definition zero_insightVin : insightVin :=
  {|
    iv_TxID := ""; iv_Vout := None; iv_N := 0; iv_ScriptSig := None; iv_TxInWitness := None; iv_Sequence := 0;
    iv_Coinbase := ""; iv_Address := ""; iv_ValueSat := 0; iv_Value := float_zero
  |}.

Definition zero_insightUtxo : insightUtxo :=
  {|
    iu_Address := ""; iu_TxID := ""; iu_Vout := 0; iu_ScriptPubKey := ""; iu_ReqSigs := 0; iu_Type := "";
    iu_Amount := float_zero; iu_Satoshis := 0; iu_BlockHeight := 0; iu_Confirmations := 0; iu_Timestamp := 0
  |}.

Definition zero_insightTx : insightTx :=
  {|
    it_TxID := ""; it_Hash := ""; it_Version := 0; it_Size := 0; it_VSize := 0; it_Weight := 0;
    it_Locktime := 0; it_Vin := None; it_Vout := None; it_BlockHash := ""; it_BlockHeight := 0;
    it_Confirmations := 0; it_Time := 0; it_BlockTime := 0; it_IsCoinBase := false; it_ValueOut := float_zero;
    it_ValueIn := float_zero; it_Fees := None
  |}.

Definition zero_insightTxsByBlock : insightTxsByBlock :=
  {|
    ip_PagesTotal := 0; ip_Txs := None
  |}.

Definition zero_insightTxHistoryByAddrs : insightTxHistoryByAddrs :=
  {|
    ih_TotalItems := 0; ih_From := 0; ih_To := 0; ih_Txs := None
  |}.

Definition zero_utxoScriptSig : utxoScriptSig :=
  {|
    us_Asm := ""; us_Hex := ""
  |}.

Definition zero_utxoVin : utxoVin :=
  {|
    uv_TxID := ""; uv_Vout := 0; uv_ScriptSig := zero_utxoScriptSig; uv_TxInWitness := None; uv_Sequence := 0;
    uv_Coinbase := ""
  |}.

Definition zero_utxoScriptPubKey : utxoScriptPubKey :=
  {|
    up_Asm := ""; up_Hex := ""; up_ReqSigs := 0; up_Type := ""; up_Addresses := None
  |}.

Definition zero_utxoVout : utxoVout :=
  {|
    uo_Value := ""; uo_N := 0; uo_ScriptPubKey := zero_utxoScriptPubKey
  |}.

Definition zero_utxoTx : utxoTx :=
  {|
    ut_TxID := ""; ut_Hash := ""; ut_Version := 0; ut_Size := 0; ut_VSize := 0; ut_Weight := 0;
    ut_Locktime := ""; ut_Vins := None; ut_Vouts := None; ut_Hex := ""
  |}.

Definition zero_BlockHeader : BlockHeader :=
  {|
    Hash := ""; Height := 0; Time := 0; MedianTime := 0; Nonce := 0; PrevHash := ""; NextHash := "";
    Bits := ""; Difficulty := ""; Chainwork := ""; Version := 0; VersionHex := ""; MerkleRoot := ""; Size := 0;
    StrippedSize := 0; Weight := 0; TxCount := 0; IsOrphan := false
  |}.

Definition zero_utxoBlock : utxoBlock := {| ub_BlockHeader := zero_BlockHeader; ub_Txs := None |}.

Definition zero_insightBlock : insightBlock := {| ib_Block := None; ib_Confirmations := 0 |}.

(** ** Encoders *)

(** [x == 0] for a [float64]: also for the negative zero *)
Definition is_zero (f : float64) : bool := f_mant f =? 0.

(** [len(s) == 0] *)
Definition is_empty {A} (s : slice A) : bool := match s with None | Some [] => true | Some _ => false end.

Section encode.
Context {W : Jwriter}.

(** [easyjson6601e8cdEncode...Insight8(out *jwriter.Writer, in ScriptSig)] *)
Definition encode_ScriptSig (v : ScriptSig) : enc := object (
  first_field "asm" (nullable (ss_Asm v) WriteString) ▷
  field "hex" (WriteString (ss_Hex v))).

(** [easyjson6601e8cdEncode...(out *jwriter.Writer, in struct of insightVout.ScriptPubKey)] *)
Definition encode_ScriptPubKey (v : ScriptPubKey) : enc := object (
  first_field "asm" (WriteString (sp_Asm v)) ▷
  field "hex" (WriteString (sp_Hex v)) ▷
  when (negb (sp_ReqSigs v =? 0)) (field "reqSigs" (WriteInt (sp_ReqSigs v))) ▷
  when (negb (is_empty (sp_Addresses v))) (field "addresses" (array WriteString (default [] (sp_Addresses v)))) ▷
  when (negb (String.eqb (sp_Type v) "")) (field "type" (WriteString (sp_Type v)))).

(** [easyjson6601e8cdEncode...Insight(out *jwriter.Writer, in insightVout)] *)
Definition encode_insightVout (v : insightVout) : enc := object (
  first_field "value" (WriteString (io_Value v)) ▷
  field "n" (WriteInt (io_N v)) ▷
  field "scriptPubKey" (encode_ScriptPubKey (io_ScriptPubKey v)) ▷
  field "spentTxId" (nullable (io_SpentTxID v) WriteString) ▷
  field "spentIndex" (nullable (io_SpentTxIndex v) WriteInt) ▷
  field "spentHeight" (nullable (io_SpentTxBlockHeight v) WriteInt64)).

(** [easyjson6601e8cdEncode...Insight1(out *jwriter.Writer, in insightVin)]: the fields that
    have others before them, and all of them *)
Definition encode_vin_tail (v : insightVin) : enc :=
  field "scriptSig" (nullable (iv_ScriptSig v) encode_ScriptSig) ▷
  when (negb (is_empty (iv_TxInWitness v))) (field "txinwitness" (array WriteString (default [] (iv_TxInWitness v)))) ▷
  field "sequence" (WriteInt (iv_Sequence v)) ▷
  when (negb (String.eqb (iv_Coinbase v) "")) (field "coinbase" (WriteString (iv_Coinbase v))) ▷
  when (negb (String.eqb (iv_Address v) "")) (field "addr" (WriteString (iv_Address v))) ▷
  when (negb (iv_ValueSat v =? 0)) (field "valueSat" (WriteInt64 (iv_ValueSat v))) ▷
  when (negb (is_zero (iv_Value v))) (field "value" (WriteFloat64 (iv_Value v))).

Definition encode_insightVin (v : insightVin) : enc := object (fun out =>
  let first := true in
  let '(out, first) :=
    if negb (String.eqb (iv_TxID v) "") then (first_field "txid" (WriteString (iv_TxID v)) out, false) else (out, first) in
  let '(out, first) :=
    match iv_Vout v with Some n => (flagged_field first "vout" (WriteInt n) out, false) | None => (out, first) end in
  (flagged_field first "n" (WriteInt (iv_N v)) ▷ encode_vin_tail v) out).

(** [easyjson6601e8cdEncode...Insight3(out *jwriter.Writer, in insightUtxo)] *)
Definition encode_insightUtxo (v : insightUtxo) : enc := object (
  first_field "address" (WriteString (iu_Address v)) ▷
  field "txid" (WriteString (iu_TxID v)) ▷
  field "vout" (WriteInt (iu_Vout v)) ▷
  field "scriptPubKey" (WriteString (iu_ScriptPubKey v)) ▷
  when (negb (iu_ReqSigs v =? 0)) (field "reqSigs" (WriteInt (iu_ReqSigs v))) ▷
  when (negb (String.eqb (iu_Type v) "")) (field "type" (WriteString (iu_Type v))) ▷
  field "amount" (WriteFloat64 (iu_Amount v)) ▷
  field "satoshis" (WriteInt64 (iu_Satoshis v)) ▷
  field "blockheight" (WriteInt64 (iu_BlockHeight v)) ▷
  field "confirmations" (WriteInt (iu_Confirmations v)) ▷
  field "ts" (WriteInt64 (iu_Timestamp v))).

(** [easyjson6601e8cdEncode...Insight6(out *jwriter.Writer, in insightTx)] *)
Definition encode_insightTx (v : insightTx) : enc := object (
  first_field "txid" (WriteString (it_TxID v)) ▷
  field "hash" (WriteString (it_Hash v)) ▷
  field "version" (WriteInt (it_Version v)) ▷
  field "size" (WriteInt (it_Size v)) ▷
  field "vsize" (WriteInt (it_VSize v)) ▷
  field "weight" (WriteInt (it_Weight v)) ▷
  field "locktime" (WriteInt (it_Locktime v)) ▷
  field "vin" (slice_or_null (fun p => nullable p encode_insightVin) (it_Vin v)) ▷
  field "vout" (slice_or_null (fun p => nullable p encode_insightVout) (it_Vout v)) ▷
  when (negb (String.eqb (it_BlockHash v) "")) (field "blockhash" (WriteString (it_BlockHash v))) ▷
  field "blockheight" (WriteInt64 (it_BlockHeight v)) ▷
  field "confirmations" (WriteInt (it_Confirmations v)) ▷
  field "time" (WriteInt64 (it_Time v)) ▷
  when (negb (it_BlockTime v =? 0)) (field "blocktime" (WriteInt64 (it_BlockTime v))) ▷
  when (it_IsCoinBase v) (field "isCoinBase" (WriteBool (it_IsCoinBase v))) ▷
  field "valueOut" (WriteFloat64 (it_ValueOut v)) ▷
  when (negb (is_zero (it_ValueIn v))) (field "valueIn" (WriteFloat64 (it_ValueIn v))) ▷
  when_some (it_Fees v) (fun x => field "fees" (WriteFloat64 x))).

(** [easyjson6601e8cdEncode...Insight4(out *jwriter.Writer, in insightTxsByBlock)] *)
Definition encode_insightTxsByBlock (v : insightTxsByBlock) : enc := object (
  first_field "pagesTotal" (WriteInt (ip_PagesTotal v)) ▷
  field "txs" (slice_or_null (fun p => nullable p encode_insightTx) (ip_Txs v))).

(** [easyjson6601e8cdEncode...Insight5(out *jwriter.Writer, in insightTxHistoryByAddrs)] *)
Definition encode_insightTxHistoryByAddrs (v : insightTxHistoryByAddrs) : enc := object (
  first_field "totalItems" (WriteInt (ih_TotalItems v)) ▷
  field "from" (WriteInt (ih_From v)) ▷
  field "to" (WriteInt (ih_To v)) ▷
  field "items" (slice_or_null (fun p => nullable p encode_insightTx) (ih_Txs v))).

(** [easyjson6601e8cdEncode...2(out *jwriter.Writer, in struct)] *)
Definition encode_utxoScriptSig (v : utxoScriptSig) : enc := object (
  first_field "asm" (WriteString (us_Asm v)) ▷
  field "hex" (WriteString (us_Hex v))).

(** [easyjson6601e8cdEncode...Utxo1(out *jwriter.Writer, in utxo.Vin)] *)
Definition encode_utxoVin (v : utxoVin) : enc := object (
  first_field "txid" (WriteString (uv_TxID v)) ▷
  field "vout" (WriteInt (uv_Vout v)) ▷
  field "scriptSig" (encode_utxoScriptSig (uv_ScriptSig v)) ▷
  field "txinwitness" (slice_or_null WriteString (uv_TxInWitness v)) ▷
  field "sequence" (WriteInt (uv_Sequence v)) ▷
  field "coinbase" (WriteString (uv_Coinbase v))).

(** [easyjson6601e8cdEncode...1(out *jwriter.Writer, in struct)] *)
Definition encode_utxoScriptPubKey (v : utxoScriptPubKey) : enc := object (
  first_field "asm" (WriteString (up_Asm v)) ▷
  field "hex" (WriteString (up_Hex v)) ▷
  field "reqSigs" (WriteInt (up_ReqSigs v)) ▷
  field "type" (WriteString (up_Type v)) ▷
  field "addresses" (slice_or_null WriteString (up_Addresses v))).

(** [easyjson6601e8cdEncode...Utxo2(out *jwriter.Writer, in utxo.Vout)] *)
Definition encode_utxoVout (v : utxoVout) : enc := object (
  first_field "value" (WriteString (uo_Value v)) ▷
  field "n" (WriteInt (uo_N v)) ▷
  field "scriptPubKey" (encode_utxoScriptPubKey (uo_ScriptPubKey v))).

(** [easyjson6601e8cdEncode...Utxo(out *jwriter.Writer, in utxo.Tx)] *)
Definition encode_utxoTx (v : utxoTx) : enc := object (
  first_field "txid" (WriteString (ut_TxID v)) ▷
  field "hash" (WriteString (ut_Hash v)) ▷
  field "version" (WriteInt (ut_Version v)) ▷
  field "size" (WriteInt (ut_Size v)) ▷
  field "vsize" (WriteInt (ut_VSize v)) ▷
  field "weight" (WriteInt (ut_Weight v)) ▷
  field "locktime" (WriteString (ut_Locktime v)) ▷
  field "vin" (slice_or_null encode_utxoVin (ut_Vins v)) ▷
  field "vout" (slice_or_null encode_utxoVout (ut_Vouts v)) ▷
  field "hex" (WriteString (ut_Hex v))).

(** [easyjson6601e8cdEncode...Insight2(out *jwriter.Writer, in insightUtxos)] *)
Definition encode_insightUtxos (v : insightUtxos) : enc := slice_or_null (fun p => nullable p encode_insightUtxo) v.

(** [easyjson6601e8cdEncode...Insight7(out *jwriter.Writer, in insightBlock)]; the fields of a
    nil [Block] cannot be read *)
Definition encode_insightBlock (v : insightBlock) : gores enc :=
  match ib_Block v with
  | None => Panic NilDereference
  | Some b =>
      let h := ub_BlockHeader b in
      Val (object (
        first_field "confirmations" (WriteInt (ib_Confirmations v)) ▷
        when (negb (is_empty (ub_Txs b))) (field "tx" (array encode_utxoTx (default [] (ub_Txs b)))) ▷
        field "hash" (WriteString (Hash h)) ▷
        field "height" (WriteInt (Height h)) ▷
        field "time" (WriteInt (Time h)) ▷
        field "mediantime" (WriteInt (MedianTime h)) ▷
        field "nonce" (WriteInt (Nonce h)) ▷
        field "previousblockhash" (WriteString (PrevHash h)) ▷
        field "nextblockhash" (WriteString (NextHash h)) ▷
        field "bits" (WriteString (Bits h)) ▷
        field "difficulty" (WriteString (Difficulty h)) ▷
        field "chainwork" (WriteString (Chainwork h)) ▷
        field "version" (WriteInt (Version h)) ▷
        field "versionHex" (WriteString (VersionHex h)) ▷
        field "merkleroot" (WriteString (MerkleRoot h)) ▷
        field "size" (WriteInt (Size h)) ▷
        field "strippedsize" (WriteInt (StrippedSize h)) ▷
        field "weight" (WriteInt (Weight h)) ▷
        field "nTx" (WriteInt (TxCount h)) ▷
        field "isOrphan" (WriteBool (IsOrphan h))))
  end.

End encode.

(** ** Decoders *)

Section decode.
Context {X : Jlexer}.

(** [out.F = ...] *)
Definition assign {A T} (f : A → T) `{!Setter f} (d : reader T) : reader A := into f (set_field f) d.

(** [easyjson6601e8cdDecode...Insight8(in *jlexer.Lexer, out *ScriptSig)] *)
Definition cases_ScriptSig (fuel : nat) : list (string * reader ScriptSig) := [
  ("asm", assign ss_Asm (pointer "" (scalar ReadString)));
  ("hex", assign ss_Hex (scalar ReadString))
].

Definition decode_ScriptSig (fuel : nat) : reader ScriptSig := read_object fuel (fun out => out) (cases_ScriptSig fuel).

(** [easyjson6601e8cdDecode...(in *jlexer.Lexer, out *struct of insightVout.ScriptPubKey)] *)
Definition cases_ScriptPubKey (fuel : nat) : list (string * reader ScriptPubKey) := [
  ("asm", assign sp_Asm (scalar ReadString));
  ("hex", assign sp_Hex (scalar ReadString));
  ("reqSigs", assign sp_ReqSigs (scalar ReadInt));
  ("addresses", assign sp_Addresses (read_slice fuel "" (scalar ReadString)));
  ("type", assign sp_Type (scalar ReadString))
].

Definition decode_ScriptPubKey (fuel : nat) : reader ScriptPubKey := read_object fuel (fun out => out) (cases_ScriptPubKey fuel).

(** [easyjson6601e8cdDecode...Insight(in *jlexer.Lexer, out *insightVout)] *)
Definition cases_insightVout (fuel : nat) : list (string * reader insightVout) := [
  ("value", assign io_Value (scalar ReadString));
  ("n", assign io_N (scalar ReadInt));
  ("scriptPubKey", assign io_ScriptPubKey (decode_ScriptPubKey fuel));
  ("spentTxId", assign io_SpentTxID (pointer "" (scalar ReadString)));
  ("spentIndex", assign io_SpentTxIndex (pointer 0 (scalar ReadInt)));
  ("spentHeight", assign io_SpentTxBlockHeight (pointer 0 (scalar ReadInt64)))
].

Definition decode_insightVout (fuel : nat) : reader insightVout := read_object fuel (fun out => out) (cases_insightVout fuel).

(** [easyjson6601e8cdDecode...Insight1(in *jlexer.Lexer, out *insightVin)] *)
Definition cases_insightVin (fuel : nat) : list (string * reader insightVin) := [
  ("txid", assign iv_TxID (scalar ReadString));
  ("vout", assign iv_Vout (pointer 0 (scalar ReadInt)));
  ("n", assign iv_N (scalar ReadInt));
  ("scriptSig", assign iv_ScriptSig (pointer zero_ScriptSig (decode_ScriptSig fuel)));
  ("txinwitness", assign iv_TxInWitness (read_slice fuel "" (scalar ReadString)));
  ("sequence", assign iv_Sequence (scalar ReadInt));
  ("coinbase", assign iv_Coinbase (scalar ReadString));
  ("addr", assign iv_Address (scalar ReadString));
  ("valueSat", assign iv_ValueSat (scalar ReadInt64));
  ("value", assign iv_Value (scalar ReadFloat64))
].

Definition decode_insightVin (fuel : nat) : reader insightVin := read_object fuel (fun out => out) (cases_insightVin fuel).

(** [easyjson6601e8cdDecode...Insight3(in *jlexer.Lexer, out *insightUtxo)] *)
Definition cases_insightUtxo (fuel : nat) : list (string * reader insightUtxo) := [
  ("address", assign iu_Address (scalar ReadString));
  ("txid", assign iu_TxID (scalar ReadString));
  ("vout", assign iu_Vout (scalar ReadInt));
  ("scriptPubKey", assign iu_ScriptPubKey (scalar ReadString));
  ("reqSigs", assign iu_ReqSigs (scalar ReadInt));
  ("type", assign iu_Type (scalar ReadString));
  ("amount", assign iu_Amount (scalar ReadFloat64));
  ("satoshis", assign iu_Satoshis (scalar ReadInt64));
  ("blockheight", assign iu_BlockHeight (scalar ReadInt64));
  ("confirmations", assign iu_Confirmations (scalar ReadInt));
  ("ts", assign iu_Timestamp (scalar ReadInt64))
].

Definition decode_insightUtxo (fuel : nat) : reader insightUtxo := read_object fuel (fun out => out) (cases_insightUtxo fuel).

(** [easyjson6601e8cdDecode...Insight6(in *jlexer.Lexer, out *insightTx)] *)
Definition cases_insightTx (fuel : nat) : list (string * reader insightTx) := [
  ("txid", assign it_TxID (scalar ReadString));
  ("hash", assign it_Hash (scalar ReadString));
  ("version", assign it_Version (scalar ReadInt));
  ("size", assign it_Size (scalar ReadInt));
  ("vsize", assign it_VSize (scalar ReadInt));
  ("weight", assign it_Weight (scalar ReadInt));
  ("locktime", assign it_Locktime (scalar ReadInt));
  ("vin", assign it_Vin (read_slice fuel None (pointer zero_insightVin (decode_insightVin fuel))));
  ("vout", assign it_Vout (read_slice fuel None (pointer zero_insightVout (decode_insightVout fuel))));
  ("blockhash", assign it_BlockHash (scalar ReadString));
  ("blockheight", assign it_BlockHeight (scalar ReadInt64));
  ("confirmations", assign it_Confirmations (scalar ReadInt));
  ("time", assign it_Time (scalar ReadInt64));
  ("blocktime", assign it_BlockTime (scalar ReadInt64));
  ("isCoinBase", assign it_IsCoinBase (scalar ReadBool));
  ("valueOut", assign it_ValueOut (scalar ReadFloat64));
  ("valueIn", assign it_ValueIn (scalar ReadFloat64));
  ("fees", assign it_Fees (pointer float_zero (scalar ReadFloat64)))
].

Definition decode_insightTx (fuel : nat) : reader insightTx := read_object fuel (fun out => out) (cases_insightTx fuel).

(** [easyjson6601e8cdDecode...Insight4(in *jlexer.Lexer, out *insightTxsByBlock)] *)
Definition cases_insightTxsByBlock (fuel : nat) : list (string * reader insightTxsByBlock) := [
  ("pagesTotal", assign ip_PagesTotal (scalar ReadInt));
  ("txs", assign ip_Txs (read_slice fuel None (pointer zero_insightTx (decode_insightTx fuel))))
].

Definition decode_insightTxsByBlock (fuel : nat) : reader insightTxsByBlock := read_object fuel (fun out => out) (cases_insightTxsByBlock fuel).

(** [easyjson6601e8cdDecode...Insight5(in *jlexer.Lexer, out *insightTxHistoryByAddrs)] *)
Definition cases_insightTxHistoryByAddrs (fuel : nat) : list (string * reader insightTxHistoryByAddrs) := [
  ("totalItems", assign ih_TotalItems (scalar ReadInt));
  ("from", assign ih_From (scalar ReadInt));
  ("to", assign ih_To (scalar ReadInt));
  ("items", assign ih_Txs (read_slice fuel None (pointer zero_insightTx (decode_insightTx fuel))))
].

Definition decode_insightTxHistoryByAddrs (fuel : nat) : reader insightTxHistoryByAddrs := read_object fuel (fun out => out) (cases_insightTxHistoryByAddrs fuel).

(** [easyjson6601e8cdDecode...2(in *jlexer.Lexer, out *struct)] *)
Definition cases_utxoScriptSig (fuel : nat) : list (string * reader utxoScriptSig) := [
  ("asm", assign us_Asm (scalar ReadString));
  ("hex", assign us_Hex (scalar ReadString))
].

Definition decode_utxoScriptSig (fuel : nat) : reader utxoScriptSig := read_object fuel (fun out => out) (cases_utxoScriptSig fuel).

(** [easyjson6601e8cdDecode...Utxo1(in *jlexer.Lexer, out *utxo.Vin)] *)
Definition cases_utxoVin (fuel : nat) : list (string * reader utxoVin) := [
  ("txid", assign uv_TxID (scalar ReadString));
  ("vout", assign uv_Vout (scalar ReadInt));
  ("scriptSig", assign uv_ScriptSig (decode_utxoScriptSig fuel));
  ("txinwitness", assign uv_TxInWitness (read_slice fuel "" (scalar ReadString)));
  ("sequence", assign uv_Sequence (scalar ReadInt));
  ("coinbase", assign uv_Coinbase (scalar ReadString))
].

Definition decode_utxoVin (fuel : nat) : reader utxoVin := read_object fuel (fun out => out) (cases_utxoVin fuel).

(** [easyjson6601e8cdDecode...1(in *jlexer.Lexer, out *struct)] *)
Definition cases_utxoScriptPubKey (fuel : nat) : list (string * reader utxoScriptPubKey) := [
  ("asm", assign up_Asm (scalar ReadString));
  ("hex", assign up_Hex (scalar ReadString));
  ("reqSigs", assign up_ReqSigs (scalar ReadInt));
  ("type", assign up_Type (scalar ReadString));
  ("addresses", assign up_Addresses (read_slice fuel "" (scalar ReadString)))
].

Definition decode_utxoScriptPubKey (fuel : nat) : reader utxoScriptPubKey := read_object fuel (fun out => out) (cases_utxoScriptPubKey fuel).

(** [easyjson6601e8cdDecode...Utxo2(in *jlexer.Lexer, out *utxo.Vout)] *)
Definition cases_utxoVout (fuel : nat) : list (string * reader utxoVout) := [
  ("value", assign uo_Value (scalar JsonNumber));
  ("n", assign uo_N (scalar ReadInt));
  ("scriptPubKey", assign uo_ScriptPubKey (decode_utxoScriptPubKey fuel))
].

Definition decode_utxoVout (fuel : nat) : reader utxoVout := read_object fuel (fun out => out) (cases_utxoVout fuel).

(** [easyjson6601e8cdDecode...Utxo(in *jlexer.Lexer, out *utxo.Tx)] *)
Definition cases_utxoTx (fuel : nat) : list (string * reader utxoTx) := [
  ("txid", assign ut_TxID (scalar ReadString));
  ("hash", assign ut_Hash (scalar ReadString));
  ("version", assign ut_Version (scalar ReadInt));
  ("size", assign ut_Size (scalar ReadInt));
  ("vsize", assign ut_VSize (scalar ReadInt));
  ("weight", assign ut_Weight (scalar ReadInt));
  ("locktime", assign ut_Locktime (scalar JsonNumber));
  ("vin", assign ut_Vins (read_slice fuel zero_utxoVin (decode_utxoVin fuel)));
  ("vout", assign ut_Vouts (read_slice fuel zero_utxoVout (decode_utxoVout fuel)));
  ("hex", assign ut_Hex (scalar ReadString))
].

Definition decode_utxoTx (fuel : nat) : reader utxoTx := read_object fuel (fun out => out) (cases_utxoTx fuel).

(** [easyjson6601e8cdDecode...Insight2(in *jlexer.Lexer, out *insightUtxos)] *)
Definition decode_insightUtxos (fuel : nat) : reader insightUtxos :=
  read_top_slice fuel None (pointer zero_insightUtxo (decode_insightUtxo fuel)).

(** A field of the embedded block *)
Definition in_block {T} (f : utxoBlock → T) `{!Setter f} (d : reader T) : reader insightBlock := fun out inp =>
  match ib_Block out with
  | None => None
  | Some b => '(b, inp) ← assign f d b inp; Some (set_field ib_Block (Some b) out, inp)
  end.

Definition in_header {T} (f : BlockHeader → T) `{!Setter f} (d : reader T) : reader insightBlock :=
  in_block ub_BlockHeader (assign f d).

(** [out.Block = new(utxo.Block)] *)
Definition new_block (out : insightBlock) : insightBlock := set_field ib_Block (Some zero_utxoBlock) out.

(** [easyjson6601e8cdDecode...Insight7(in *jlexer.Lexer, out *insightBlock)] *)
Definition cases_insightBlock (fuel : nat) : list (string * reader insightBlock) := [
  ("confirmations", assign ib_Confirmations (scalar ReadInt));
  ("tx", in_block ub_Txs (read_slice fuel zero_utxoTx (decode_utxoTx fuel)));
  ("hash", in_header Hash (scalar ReadString));
  ("height", in_header Height (scalar ReadInt));
  ("time", in_header Time (scalar ReadInt));
  ("mediantime", in_header MedianTime (scalar ReadInt));
  ("nonce", in_header Nonce (scalar ReadInt));
  ("previousblockhash", in_header PrevHash (scalar ReadString));
  ("nextblockhash", in_header NextHash (scalar ReadString));
  ("bits", in_header Bits (scalar ReadString));
  ("difficulty", in_header Difficulty (scalar JsonNumber));
  ("chainwork", in_header Chainwork (scalar ReadString));
  ("version", in_header Version (scalar ReadInt));
  ("versionHex", in_header VersionHex (scalar ReadString));
  ("merkleroot", in_header MerkleRoot (scalar ReadString));
  ("size", in_header Size (scalar ReadInt));
  ("strippedsize", in_header StrippedSize (scalar ReadInt));
  ("weight", in_header Weight (scalar ReadInt));
  ("nTx", in_header TxCount (scalar ReadInt));
  ("isOrphan", in_header IsOrphan (scalar ReadBool))
].

Definition decode_insightBlock (fuel : nat) : reader insightBlock := read_object fuel new_block (cases_insightBlock fuel).

End decode.

(** ** The methods of the nine types *)

Inductive easy := EScriptSig | EVin | EVout | ETx | EBlock | EUtxo | EUtxos | ETxsByBlock | ETxHistory.

Definition value (t : easy) : Type :=
  match t with
  | EScriptSig => ScriptSig
  | EVin => insightVin
  | EVout => insightVout
  | ETx => insightTx
  | EBlock => insightBlock
  | EUtxo => insightUtxo
  | EUtxos => insightUtxos
  | ETxsByBlock => insightTxsByBlock
  | ETxHistory => insightTxHistoryByAddrs
  end.

(** [func (v T) MarshalEasyJSON(w *jwriter.Writer)] *)
Definition MarshalEasyJSON `{!Jwriter} (t : easy) : value t → gores enc :=
  match t with
  | EScriptSig => fun v => Val (encode_ScriptSig v)
  | EVin => fun v => Val (encode_insightVin v)
  | EVout => fun v => Val (encode_insightVout v)
  | ETx => fun v => Val (encode_insightTx v)
  | EBlock => encode_insightBlock
  | EUtxo => fun v => Val (encode_insightUtxo v)
  | EUtxos => fun v => Val (encode_insightUtxos v)
  | ETxsByBlock => fun v => Val (encode_insightTxsByBlock v)
  | ETxHistory => fun v => Val (encode_insightTxHistoryByAddrs v)
  end.

(** [func (v T) MarshalJSON() ([]byte, error)] *)
Definition MarshalJSON `{!Jwriter} (t : easy) (v : value t) : gores (list Z * option gerror) :=
  e ← MarshalEasyJSON t v; Val (marshal e).

(** [func (v *T) UnmarshalEasyJSON(l *jlexer.Lexer)] *)
Definition UnmarshalEasyJSON `{!Jlexer} (t : easy) : nat → reader (value t) :=
  match t with
  | EScriptSig => decode_ScriptSig
  | EVin => decode_insightVin
  | EVout => decode_insightVout
  | ETx => decode_insightTx
  | EBlock => decode_insightBlock
  | EUtxo => decode_insightUtxo
  | EUtxos => decode_insightUtxos
  | ETxsByBlock => decode_insightTxsByBlock
  | ETxHistory => decode_insightTxHistoryByAddrs
  end.

(** [func (v *T) UnmarshalJSON(data []byte) error] *)
Definition UnmarshalJSON `{!Jlexer} (t : easy) (data : string) (v : value t) : option (value t * option gerror) :=
  unmarshal (UnmarshalEasyJSON t) data v.
