(* ===== verification/InsightSchema.v ===== *)
(** * InsightSchema: what the JSON of the insight API looks like

    The JSON value of every value of [InsightTypes] and its schema, from the
    tags of src/V2/pkg/api/insight/types.go and of the types of package utxo.  The
    encoders of [InsightJson] write texts of these values, and the decoders read
    them back. *)

From stdpp Require Import base list strings numbers.
From Stdlib Require Import ZArith Lia.
From S2P Require Import Prelude GoStrings Json JsonText Amounts Utxo InsightTypes EasyJson EasyJsonModel InsightJson.

Local Open Scope string_scope.
Local Open Scope Z_scope.
Local Open Scope list_scope.

(** ** JSON values *)

Section trees.
Context {F : FloatText}.

Definition tree_ScriptSig (v : ScriptSig) : json := JObject (
  [("asm", jopt JString (ss_Asm v))] ++
  [("hex", JString (ss_Hex v))]).

Definition tree_ScriptPubKey (v : ScriptPubKey) : json := JObject (
  [("asm", JString (sp_Asm v))] ++
  [("hex", JString (sp_Hex v))] ++
  jwhen (negb (sp_ReqSigs v =? 0)) ("reqSigs", jint (sp_ReqSigs v)) ++
  jwhen (negb (is_empty (sp_Addresses v))) ("addresses", jslice JString (sp_Addresses v)) ++
  jwhen (negb (String.eqb (sp_Type v) "")) ("type", JString (sp_Type v))).

Definition tree_insightVout (v : insightVout) : json := JObject (
  [("value", JString (io_Value v))] ++
  [("n", jint (io_N v))] ++
  [("scriptPubKey", tree_ScriptPubKey (io_ScriptPubKey v))] ++
  [("spentTxId", jopt JString (io_SpentTxID v))] ++
  [("spentIndex", jopt jint (io_SpentTxIndex v))] ++
  [("spentHeight", jopt jint (io_SpentTxBlockHeight v))]).

Definition tree_vin_tail (v : insightVin) : members :=
  [("scriptSig", jopt tree_ScriptSig (iv_ScriptSig v))] ++
  jwhen (negb (is_empty (iv_TxInWitness v))) ("txinwitness", jslice JString (iv_TxInWitness v)) ++
  [("sequence", jint (iv_Sequence v))] ++
  jwhen (negb (String.eqb (iv_Coinbase v) "")) ("coinbase", JString (iv_Coinbase v)) ++
  jwhen (negb (String.eqb (iv_Address v) "")) ("addr", JString (iv_Address v)) ++
  jwhen (negb (iv_ValueSat v =? 0)) ("valueSat", jint (iv_ValueSat v)) ++
  jwhen (negb (is_zero (iv_Value v))) ("value", jfloat (iv_Value v)).

Definition tree_insightVin (v : insightVin) : json := JObject (
  jwhen (negb (String.eqb (iv_TxID v) "")) ("txid", JString (iv_TxID v)) ++
  jsome "vout" jint (iv_Vout v) ++
  [("n", jint (iv_N v))] ++
  tree_vin_tail v).

Definition tree_insightUtxo (v : insightUtxo) : json := JObject (
  [("address", JString (iu_Address v))] ++
  [("txid", JString (iu_TxID v))] ++
  [("vout", jint (iu_Vout v))] ++
  [("scriptPubKey", JString (iu_ScriptPubKey v))] ++
  jwhen (negb (iu_ReqSigs v =? 0)) ("reqSigs", jint (iu_ReqSigs v)) ++
  jwhen (negb (String.eqb (iu_Type v) "")) ("type", JString (iu_Type v)) ++
  [("amount", jfloat (iu_Amount v))] ++
  [("satoshis", jint (iu_Satoshis v))] ++
  [("blockheight", jint (iu_BlockHeight v))] ++
  [("confirmations", jint (iu_Confirmations v))] ++
  [("ts", jint (iu_Timestamp v))]).

Definition tree_insightTx (v : insightTx) : json := JObject (
  [("txid", JString (it_TxID v))] ++
  [("hash", JString (it_Hash v))] ++
  [("version", jint (it_Version v))] ++
  [("size", jint (it_Size v))] ++
  [("vsize", jint (it_VSize v))] ++
  [("weight", jint (it_Weight v))] ++
  [("locktime", jint (it_Locktime v))] ++
  [("vin", jslice (jopt tree_insightVin) (it_Vin v))] ++
  [("vout", jslice (jopt tree_insightVout) (it_Vout v))] ++
  jwhen (negb (String.eqb (it_BlockHash v) "")) ("blockhash", JString (it_BlockHash v)) ++
  [("blockheight", jint (it_BlockHeight v))] ++
  [("confirmations", jint (it_Confirmations v))] ++
  [("time", jint (it_Time v))] ++
  jwhen (negb (it_BlockTime v =? 0)) ("blocktime", jint (it_BlockTime v)) ++
  jwhen (it_IsCoinBase v) ("isCoinBase", JBool (it_IsCoinBase v)) ++
  [("valueOut", jfloat (it_ValueOut v))] ++
  jwhen (negb (is_zero (it_ValueIn v))) ("valueIn", jfloat (it_ValueIn v)) ++
  jsome "fees" jfloat (it_Fees v)).

Definition tree_insightTxsByBlock (v : insightTxsByBlock) : json := JObject (
  [("pagesTotal", jint (ip_PagesTotal v))] ++
  [("txs", jslice (jopt tree_insightTx) (ip_Txs v))]).

Definition tree_insightTxHistoryByAddrs (v : insightTxHistoryByAddrs) : json := JObject (
  [("totalItems", jint (ih_TotalItems v))] ++
  [("from", jint (ih_From v))] ++
  [("to", jint (ih_To v))] ++
  [("items", jslice (jopt tree_insightTx) (ih_Txs v))]).

Definition tree_utxoScriptSig (v : utxoScriptSig) : json := JObject (
  [("asm", JString (us_Asm v))] ++
  [("hex", JString (us_Hex v))]).

Definition tree_utxoVin (v : utxoVin) : json := JObject (
  [("txid", JString (uv_TxID v))] ++
  [("vout", jint (uv_Vout v))] ++
  [("scriptSig", tree_utxoScriptSig (uv_ScriptSig v))] ++
  [("txinwitness", jslice JString (uv_TxInWitness v))] ++
  [("sequence", jint (uv_Sequence v))] ++
  [("coinbase", JString (uv_Coinbase v))]).

Definition tree_utxoScriptPubKey (v : utxoScriptPubKey) : json := JObject (
  [("asm", JString (up_Asm v))] ++
  [("hex", JString (up_Hex v))] ++
  [("reqSigs", jint (up_ReqSigs v))] ++
  [("type", JString (up_Type v))] ++
  [("addresses", jslice JString (up_Addresses v))]).

Definition tree_utxoVout (v : utxoVout) : json := JObject (
  [("value", JString (uo_Value v))] ++
  [("n", jint (uo_N v))] ++
  [("scriptPubKey", tree_utxoScriptPubKey (uo_ScriptPubKey v))]).

Definition tree_utxoTx (v : utxoTx) : json := JObject (
  [("txid", JString (ut_TxID v))] ++
  [("hash", JString (ut_Hash v))] ++
  [("version", jint (ut_Version v))] ++
  [("size", jint (ut_Size v))] ++
  [("vsize", jint (ut_VSize v))] ++
  [("weight", jint (ut_Weight v))] ++
  [("locktime", JString (ut_Locktime v))] ++
  [("vin", jslice tree_utxoVin (ut_Vins v))] ++
  [("vout", jslice tree_utxoVout (ut_Vouts v))] ++
  [("hex", JString (ut_Hex v))]).

Definition tree_insightUtxos (v : insightUtxos) : json := jslice (jopt tree_insightUtxo) v.

(** The members of a header *)
Definition tree_header (h : BlockHeader) : members :=
  [("hash", JString (Hash h))] ++
  [("height", jint (Height h))] ++
  [("time", jint (Time h))] ++
  [("mediantime", jint (MedianTime h))] ++
  [("nonce", jint (Nonce h))] ++
  [("previousblockhash", JString (PrevHash h))] ++
  [("nextblockhash", JString (NextHash h))] ++
  [("bits", JString (Bits h))] ++
  [("difficulty", JString (Difficulty h))] ++
  [("chainwork", JString (Chainwork h))] ++
  [("version", jint (Version h))] ++
  [("versionHex", JString (VersionHex h))] ++
  [("merkleroot", JString (MerkleRoot h))] ++
  [("size", jint (Size h))] ++
  [("strippedsize", jint (StrippedSize h))] ++
  [("weight", jint (Weight h))] ++
  [("nTx", jint (TxCount h))] ++
  [("isOrphan", JBool (IsOrphan h))].

(** The value of a block; a nil block has none *)
Definition tree_Block (confirmations : Z) (b : utxoBlock) : json :=
  JObject (
    [("confirmations", jint confirmations)] ++
    jwhen (negb (is_empty (ub_Txs b))) ("tx", jslice tree_utxoTx (ub_Txs b)) ++
    tree_header (ub_BlockHeader b)).

Definition tree_insightBlock (v : insightBlock) : json := jopt (tree_Block (ib_Confirmations v)) (ib_Block v).

End trees.

(** ** Schemas *)

Definition schema_ScriptSig : schema := SObject [
  ("asm", false, SNullable SString); ("hex", false, SString)
].

Definition schema_ScriptPubKey : schema := SObject [
  ("asm", false, SString); ("hex", false, SString); ("reqSigs", true, SInt);
  ("addresses", true, SArray SString); ("type", true, SString)
].

Definition schema_insightVout : schema := SObject [
  ("value", false, SString); ("n", false, SInt); ("scriptPubKey", false, schema_ScriptPubKey);
  ("spentTxId", false, SNullable SString); ("spentIndex", false, SNullable SInt);
  ("spentHeight", false, SNullable SInt)
].

Definition schema_insightVin : schema := SObject [
  ("txid", true, SString); ("vout", true, SInt); ("n", false, SInt);
  ("scriptSig", false, SNullable schema_ScriptSig); ("txinwitness", true, SArray SString);
  ("sequence", false, SInt); ("coinbase", true, SString); ("addr", true, SString); ("valueSat", true, SInt);
  ("value", true, SNumber)
].

Definition schema_insightUtxo : schema := SObject [
  ("address", false, SString); ("txid", false, SString); ("vout", false, SInt);
  ("scriptPubKey", false, SString); ("reqSigs", true, SInt); ("type", true, SString);
  ("amount", false, SNumber); ("satoshis", false, SInt); ("blockheight", false, SInt);
  ("confirmations", false, SInt); ("ts", false, SInt)
].

Definition schema_insightTx : schema := SObject [
  ("txid", false, SString); ("hash", false, SString); ("version", false, SInt); ("size", false, SInt);
  ("vsize", false, SInt); ("weight", false, SInt); ("locktime", false, SInt);
  ("vin", false, SNullable (SArray (SNullable schema_insightVin)));
  ("vout", false, SNullable (SArray (SNullable schema_insightVout))); ("blockhash", true, SString);
  ("blockheight", false, SInt); ("confirmations", false, SInt); ("time", false, SInt);
  ("blocktime", true, SInt); ("isCoinBase", true, SBool); ("valueOut", false, SNumber);
  ("valueIn", true, SNumber); ("fees", true, SNumber)
].

Definition schema_insightTxsByBlock : schema := SObject [
  ("pagesTotal", false, SInt); ("txs", false, SNullable (SArray (SNullable schema_insightTx)))
].

Definition schema_insightTxHistoryByAddrs : schema := SObject [
  ("totalItems", false, SInt); ("from", false, SInt); ("to", false, SInt);
  ("items", false, SNullable (SArray (SNullable schema_insightTx)))
].

Definition schema_utxoScriptSig : schema := SObject [
  ("asm", false, SString); ("hex", false, SString)
].

Definition schema_utxoVin : schema := SObject [
  ("txid", false, SString); ("vout", false, SInt); ("scriptSig", false, schema_utxoScriptSig);
  ("txinwitness", false, SNullable (SArray SString)); ("sequence", false, SInt); ("coinbase", false, SString)
].

Definition schema_utxoScriptPubKey : schema := SObject [
  ("asm", false, SString); ("hex", false, SString); ("reqSigs", false, SInt); ("type", false, SString);
  ("addresses", false, SNullable (SArray SString))
].

Definition schema_utxoVout : schema := SObject [
  ("value", false, SString); ("n", false, SInt); ("scriptPubKey", false, schema_utxoScriptPubKey)
].

Definition schema_utxoTx : schema := SObject [
  ("txid", false, SString); ("hash", false, SString); ("version", false, SInt); ("size", false, SInt);
  ("vsize", false, SInt); ("weight", false, SInt); ("locktime", false, SString);
  ("vin", false, SNullable (SArray schema_utxoVin)); ("vout", false, SNullable (SArray schema_utxoVout));
  ("hex", false, SString)
].

Definition schema_insightBlock : schema := SObject [
  ("confirmations", false, SInt); ("tx", true, SArray schema_utxoTx); ("hash", false, SString);
  ("height", false, SInt); ("time", false, SInt); ("mediantime", false, SInt); ("nonce", false, SInt);
  ("previousblockhash", false, SString); ("nextblockhash", false, SString); ("bits", false, SString);
  ("difficulty", false, SString); ("chainwork", false, SString); ("version", false, SInt);
  ("versionHex", false, SString); ("merkleroot", false, SString); ("size", false, SInt);
  ("strippedsize", false, SInt); ("weight", false, SInt); ("nTx", false, SInt); ("isOrphan", false, SBool)
].

(** ** Values of Go *)

(** Strings are UTF-8, integers fit in 64 bits, and floats are finite. *)

Definition ok_ScriptSig (v : ScriptSig) : Prop :=
  pointed text_ok (ss_Asm v) ∧ text_ok (ss_Hex v).

Definition ok_ScriptPubKey (v : ScriptPubKey) : Prop :=
  text_ok (sp_Asm v) ∧ text_ok (sp_Hex v) ∧ in_int64 (sp_ReqSigs v) ∧
  Forall text_ok (default [] (sp_Addresses v)) ∧ text_ok (sp_Type v).

Definition ok_insightVout (v : insightVout) : Prop :=
  text_ok (io_Value v) ∧ in_int64 (io_N v) ∧ ok_ScriptPubKey (io_ScriptPubKey v) ∧
  pointed text_ok (io_SpentTxID v) ∧ pointed in_int64 (io_SpentTxIndex v) ∧
  pointed in_int64 (io_SpentTxBlockHeight v).

Definition ok_insightVin (v : insightVin) : Prop :=
  text_ok (iv_TxID v) ∧ pointed in_int64 (iv_Vout v) ∧ in_int64 (iv_N v) ∧
  pointed ok_ScriptSig (iv_ScriptSig v) ∧ Forall text_ok (default [] (iv_TxInWitness v)) ∧
  in_int64 (iv_Sequence v) ∧ text_ok (iv_Coinbase v) ∧ text_ok (iv_Address v) ∧ in_int64 (iv_ValueSat v) ∧
  canonical (iv_Value v).

Definition ok_insightUtxo (v : insightUtxo) : Prop :=
  text_ok (iu_Address v) ∧ text_ok (iu_TxID v) ∧ in_int64 (iu_Vout v) ∧ text_ok (iu_ScriptPubKey v) ∧
  in_int64 (iu_ReqSigs v) ∧ text_ok (iu_Type v) ∧ canonical (iu_Amount v) ∧ in_int64 (iu_Satoshis v) ∧
  in_int64 (iu_BlockHeight v) ∧ in_int64 (iu_Confirmations v) ∧ in_int64 (iu_Timestamp v).

Definition ok_insightTx (v : insightTx) : Prop :=
  text_ok (it_TxID v) ∧ text_ok (it_Hash v) ∧ in_int64 (it_Version v) ∧ in_int64 (it_Size v) ∧
  in_int64 (it_VSize v) ∧ in_int64 (it_Weight v) ∧ in_int64 (it_Locktime v) ∧
  Forall (pointed ok_insightVin) (default [] (it_Vin v)) ∧
  Forall (pointed ok_insightVout) (default [] (it_Vout v)) ∧ text_ok (it_BlockHash v) ∧
  in_int64 (it_BlockHeight v) ∧ in_int64 (it_Confirmations v) ∧ in_int64 (it_Time v) ∧
  in_int64 (it_BlockTime v) ∧ canonical (it_ValueOut v) ∧ canonical (it_ValueIn v) ∧
  pointed canonical (it_Fees v).

Definition ok_insightTxsByBlock (v : insightTxsByBlock) : Prop :=
  in_int64 (ip_PagesTotal v) ∧ Forall (pointed ok_insightTx) (default [] (ip_Txs v)).

Definition ok_insightTxHistoryByAddrs (v : insightTxHistoryByAddrs) : Prop :=
  in_int64 (ih_TotalItems v) ∧ in_int64 (ih_From v) ∧ in_int64 (ih_To v) ∧
  Forall (pointed ok_insightTx) (default [] (ih_Txs v)).

Definition ok_utxoScriptSig (v : utxoScriptSig) : Prop :=
  text_ok (us_Asm v) ∧ text_ok (us_Hex v).

Definition ok_utxoVin (v : utxoVin) : Prop :=
  text_ok (uv_TxID v) ∧ in_int64 (uv_Vout v) ∧ ok_utxoScriptSig (uv_ScriptSig v) ∧
  Forall text_ok (default [] (uv_TxInWitness v)) ∧ in_int64 (uv_Sequence v) ∧ text_ok (uv_Coinbase v).

Definition ok_utxoScriptPubKey (v : utxoScriptPubKey) : Prop :=
  text_ok (up_Asm v) ∧ text_ok (up_Hex v) ∧ in_int64 (up_ReqSigs v) ∧ text_ok (up_Type v) ∧
  Forall text_ok (default [] (up_Addresses v)).

Definition ok_utxoVout (v : utxoVout) : Prop :=
  text_ok (uo_Value v) ∧ in_int64 (uo_N v) ∧ ok_utxoScriptPubKey (uo_ScriptPubKey v).

Definition ok_utxoTx (v : utxoTx) : Prop :=
  text_ok (ut_TxID v) ∧ text_ok (ut_Hash v) ∧ in_int64 (ut_Version v) ∧ in_int64 (ut_Size v) ∧
  in_int64 (ut_VSize v) ∧ in_int64 (ut_Weight v) ∧ text_ok (ut_Locktime v) ∧
  Forall ok_utxoVin (default [] (ut_Vins v)) ∧ Forall ok_utxoVout (default [] (ut_Vouts v)) ∧ text_ok (ut_Hex v).

Definition ok_BlockHeader (v : BlockHeader) : Prop :=
  text_ok (Hash v) ∧ in_int64 (Height v) ∧ in_int64 (Time v) ∧ in_int64 (MedianTime v) ∧ in_int64 (Nonce v) ∧
  text_ok (PrevHash v) ∧ text_ok (NextHash v) ∧ text_ok (Bits v) ∧ text_ok (Difficulty v) ∧
  text_ok (Chainwork v) ∧ in_int64 (Version v) ∧ text_ok (VersionHex v) ∧ text_ok (MerkleRoot v) ∧
  in_int64 (Size v) ∧ in_int64 (StrippedSize v) ∧ in_int64 (Weight v) ∧ in_int64 (TxCount v).

Definition ok_utxoBlock (v : utxoBlock) : Prop := ok_BlockHeader (ub_BlockHeader v) ∧ Forall ok_utxoTx (default [] (ub_Txs v)).

(** The block is there. *)
Definition ok_insightBlock (v : insightBlock) : Prop :=
  in_int64 (ib_Confirmations v) ∧ match ib_Block v with Some b => ok_utxoBlock b | None => False end.

(** *** What is lost on the way *)

(** An empty slice that is left out is read as nil. *)
Definition nil_if_empty {A} (s : slice A) : slice A := if is_empty s then None else s.

(** The elements of a slice, changed *)
Definition map_slice {A B} (f : A → B) (s : slice A) : slice B := match s with Some l => Some (map f l) | None => None end.

(** A negative zero that is left out is read as zero. *)
Definition plus_zero (f : float64) : float64 := if is_zero f then float_zero else f.

Definition norm_ScriptPubKey (v : ScriptPubKey) : ScriptPubKey :=
  {|
    sp_Asm := sp_Asm v; sp_Hex := sp_Hex v; sp_ReqSigs := sp_ReqSigs v;
    sp_Addresses := nil_if_empty (sp_Addresses v); sp_Type := sp_Type v
  |}.

Definition norm_insightVout (v : insightVout) : insightVout :=
  {|
    io_Value := io_Value v; io_N := io_N v; io_ScriptPubKey := norm_ScriptPubKey (io_ScriptPubKey v);
    io_SpentTxID := io_SpentTxID v; io_SpentTxIndex := io_SpentTxIndex v;
    io_SpentTxBlockHeight := io_SpentTxBlockHeight v
  |}.

Definition norm_insightVin (v : insightVin) : insightVin :=
  {|
    iv_TxID := iv_TxID v; iv_Vout := iv_Vout v; iv_N := iv_N v; iv_ScriptSig := iv_ScriptSig v;
    iv_TxInWitness := nil_if_empty (iv_TxInWitness v); iv_Sequence := iv_Sequence v;
    iv_Coinbase := iv_Coinbase v; iv_Address := iv_Address v; iv_ValueSat := iv_ValueSat v;
    iv_Value := plus_zero (iv_Value v)
  |}.

Definition norm_insightTx (v : insightTx) : insightTx :=
  {|
    it_TxID := it_TxID v; it_Hash := it_Hash v; it_Version := it_Version v; it_Size := it_Size v;
    it_VSize := it_VSize v; it_Weight := it_Weight v; it_Locktime := it_Locktime v;
    it_Vin := map_slice (fmap norm_insightVin) (it_Vin v);
    it_Vout := map_slice (fmap norm_insightVout) (it_Vout v); it_BlockHash := it_BlockHash v;
    it_BlockHeight := it_BlockHeight v; it_Confirmations := it_Confirmations v; it_Time := it_Time v;
    it_BlockTime := it_BlockTime v; it_IsCoinBase := it_IsCoinBase v; it_ValueOut := it_ValueOut v;
    it_ValueIn := plus_zero (it_ValueIn v); it_Fees := it_Fees v
  |}.

Definition norm_insightTxsByBlock (v : insightTxsByBlock) : insightTxsByBlock :=
  {|
    ip_PagesTotal := ip_PagesTotal v; ip_Txs := map_slice (fmap norm_insightTx) (ip_Txs v)
  |}.

Definition norm_insightTxHistoryByAddrs (v : insightTxHistoryByAddrs) : insightTxHistoryByAddrs :=
  {|
    ih_TotalItems := ih_TotalItems v; ih_From := ih_From v; ih_To := ih_To v;
    ih_Txs := map_slice (fmap norm_insightTx) (ih_Txs v)
  |}.

Definition norm_insightBlock (v : insightBlock) : insightBlock :=
  {| ib_Block := (fun b => {| ub_BlockHeader := ub_BlockHeader b; ub_Txs := nil_if_empty (ub_Txs b) |}) <$> ib_Block v;
     ib_Confirmations := ib_Confirmations v |}.

(** ** Lemmas *)

Lemma pointed_impl {A} (P Q : A → Prop) o : pointed P o → (∀ a, P a → Q a) → pointed Q o.
Proof. intros Hp H. destruct o; [by apply H|done]. Qed.

Lemma all_impl {A} (P Q : A → Prop) l : Forall P l → (∀ a, P a → Q a) → Forall Q l.
Proof. intros Hl H. eapply Forall_impl; [|exact Hl]. apply H. Qed.

(** *** Writing *)

Section writing.
Context {W : Jwriter} {F : FloatText} {L : JwriterLaws W F}.

Create HintDb encoders.

Ltac write_step :=
  first
    [ assumption
    | solve [eauto with encoders nocore]
    | apply writes_object
    | apply starts_seq
    | apply adds_seq
    | apply starts_first; [reflexivity|]
    | apply adds_field; [reflexivity|]
    | apply adds_when_field; [reflexivity|intros ?]
    | apply adds_some; [reflexivity|]
    | apply writes_string
    | apply writes_int
    | apply writes_int64
    | apply writes_bool
    | apply writes_float
    | apply writes_pointer
    | apply writes_jslice
    | apply writes_some_slice; [by destruct (_ : slice _)|]
    | eapply pointed_impl; [eassumption|intros ? ?]
    | eapply all_impl; [eassumption|intros ? ?] ].

Ltac write_all := repeat write_step.

Lemma writes_ScriptSig v : ok_ScriptSig v → writes (encode_ScriptSig v) (tree_ScriptSig v).
Proof. intros (? & ?). write_all. Qed.
Hint Resolve writes_ScriptSig : encoders.

Lemma writes_ScriptPubKey v : ok_ScriptPubKey v → writes (encode_ScriptPubKey v) (tree_ScriptPubKey v).
Proof. intros (? & ? & ? & ? & ?). write_all. Qed.
Hint Resolve writes_ScriptPubKey : encoders.

Lemma writes_insightVout v : ok_insightVout v → writes (encode_insightVout v) (tree_insightVout v).
Proof. intros (? & ? & ? & ? & ? & ?). write_all. Qed.
Hint Resolve writes_insightVout : encoders.

(** The first members of an input depend on which fields are set. *)
Lemma writes_insightVin v : ok_insightVin v → writes (encode_insightVin v) (tree_insightVin v).
Proof.
  intros (? & Hv & ? & ? & ? & ? & ? & ? & ? & ?). unfold encode_insightVin, tree_insightVin. apply writes_object.
  set (n := field "n" (WriteInt (iv_N v))). set (txid := first_field "txid" (WriteString (iv_TxID v))).
  destruct (negb (String.eqb (iv_TxID v) "")); destruct (iv_Vout v) as [vout|]; cbn [jwhen jsome app].
  - change (starts (txid ▷ field "vout" (WriteInt vout) ▷ n ▷ encode_vin_tail v)%enc ([("txid", JString (iv_TxID v))] ++
      [("vout", jint vout)] ++ [("n", jint (iv_N v))] ++ tree_vin_tail v)). write_all.
  - change (starts (txid ▷ n ▷ encode_vin_tail v)%enc ([("txid", JString (iv_TxID v))] ++ [("n", jint (iv_N v))] ++ tree_vin_tail v)).
    write_all.
  - change (starts (first_field "vout" (WriteInt vout) ▷ n ▷ encode_vin_tail v)%enc
      ([("vout", jint vout)] ++ [("n", jint (iv_N v))] ++ tree_vin_tail v)). write_all.
  - change (starts (first_field "n" (WriteInt (iv_N v)) ▷ encode_vin_tail v)%enc ([("n", jint (iv_N v))] ++ tree_vin_tail v)). write_all.
Qed.
Hint Resolve writes_insightVin : encoders.

Lemma writes_insightUtxo v : ok_insightUtxo v → writes (encode_insightUtxo v) (tree_insightUtxo v).
Proof. intros (? & ? & ? & ? & ? & ? & ? & ? & ? & ? & ?). write_all. Qed.
Hint Resolve writes_insightUtxo : encoders.

Lemma writes_insightTx v : ok_insightTx v → writes (encode_insightTx v) (tree_insightTx v).
Proof. intros (? & ? & ? & ? & ? & ? & ? & ? & ? & ? & ? & ? & ? & ? & ? & ? & ?). write_all. Qed.
Hint Resolve writes_insightTx : encoders.

Lemma writes_insightTxsByBlock v : ok_insightTxsByBlock v → writes (encode_insightTxsByBlock v) (tree_insightTxsByBlock v).
Proof. intros (? & ?). write_all. Qed.

Lemma writes_insightTxHistoryByAddrs v :
  ok_insightTxHistoryByAddrs v → writes (encode_insightTxHistoryByAddrs v) (tree_insightTxHistoryByAddrs v).
Proof. intros (? & ? & ? & ?). write_all. Qed.

Lemma writes_insightUtxos v : Forall (pointed ok_insightUtxo) (default [] v) → writes (encode_insightUtxos v) (tree_insightUtxos v).
Proof. intros ?. write_all. Qed.

Lemma writes_utxoScriptSig v : ok_utxoScriptSig v → writes (encode_utxoScriptSig v) (tree_utxoScriptSig v).
Proof. intros (? & ?). write_all. Qed.
Hint Resolve writes_utxoScriptSig : encoders.

Lemma writes_utxoVin v : ok_utxoVin v → writes (encode_utxoVin v) (tree_utxoVin v).
Proof. intros (? & ? & ? & ? & ? & ?). write_all. Qed.
Hint Resolve writes_utxoVin : encoders.

Lemma writes_utxoScriptPubKey v : ok_utxoScriptPubKey v → writes (encode_utxoScriptPubKey v) (tree_utxoScriptPubKey v).
Proof. intros (? & ? & ? & ? & ?). write_all. Qed.
Hint Resolve writes_utxoScriptPubKey : encoders.

Lemma writes_utxoVout v : ok_utxoVout v → writes (encode_utxoVout v) (tree_utxoVout v).
Proof. intros (? & ? & ?). write_all. Qed.
Hint Resolve writes_utxoVout : encoders.

Lemma writes_utxoTx v : ok_utxoTx v → writes (encode_utxoTx v) (tree_utxoTx v).
Proof. intros (? & ? & ? & ? & ? & ? & ? & ? & ? & ?). write_all. Qed.
Hint Resolve writes_utxoTx : encoders.

Lemma writes_insightBlock v :
  ok_insightBlock v → ∃ e, encode_insightBlock v = Val e ∧ writes e (tree_insightBlock v).
Proof.
  intros [? Hb]. unfold encode_insightBlock, tree_insightBlock. destruct (ib_Block v) as [b|]; [|done]. eexists. split; [done|].
  destruct Hb as [(? & ? & ? & ? & ? & ? & ? & ? & ? & ? & ? & ? & ? & ? & ? & ? & ?) ?]. cbn [jopt]. write_all.
Qed.

End writing.

(** *** Types *)

Section typing.
Context {F : FloatText}.

Create HintDb schemas.

Ltac type_step :=
  first
    [ assumption
    | solve [eauto with schemas nocore]
    | apply conforms_object
    | apply fields_nil
    | apply fields_app
    | apply fields_when; [intros ?|]
    | apply fields_some
    | apply fields_last
    | apply fields_when_last; intros ?
    | apply fields_some_last
    | apply conforms_string
    | apply conforms_int
    | apply conforms_bool
    | apply conforms_float
    | apply conforms_slice
    | apply conforms_opt
    | apply conforms_some_slice; [by destruct (_ : slice _)|]
    | eapply pointed_impl; [eassumption|intros ? ?]
    | eapply all_impl; [eassumption|intros ? ?] ].

Ltac type_all := repeat type_step.

Lemma typed_ScriptSig v : ok_ScriptSig v → conforms schema_ScriptSig (tree_ScriptSig v).
Proof. intros (? & ?). type_all. Qed.
Hint Resolve typed_ScriptSig : schemas.

Lemma typed_ScriptPubKey v : ok_ScriptPubKey v → conforms schema_ScriptPubKey (tree_ScriptPubKey v).
Proof. intros (? & ? & ? & ? & ?). type_all. Qed.
Hint Resolve typed_ScriptPubKey : schemas.

Lemma typed_insightVout v : ok_insightVout v → conforms schema_insightVout (tree_insightVout v).
Proof. intros (? & ? & ? & ? & ? & ?). type_all. Qed.
Hint Resolve typed_insightVout : schemas.

Lemma typed_insightVin v : ok_insightVin v → conforms schema_insightVin (tree_insightVin v).
Proof. intros (? & ? & ? & ? & ? & ? & ? & ? & ? & ?). type_all. Qed.
Hint Resolve typed_insightVin : schemas.

Lemma typed_insightUtxo v : ok_insightUtxo v → conforms schema_insightUtxo (tree_insightUtxo v).
Proof. intros (? & ? & ? & ? & ? & ? & ? & ? & ? & ? & ?). type_all. Qed.
Hint Resolve typed_insightUtxo : schemas.

Lemma typed_insightTx v : ok_insightTx v → conforms schema_insightTx (tree_insightTx v).
Proof. intros (? & ? & ? & ? & ? & ? & ? & ? & ? & ? & ? & ? & ? & ? & ? & ? & ?). type_all. Qed.
Hint Resolve typed_insightTx : schemas.

Lemma typed_insightTxsByBlock v : ok_insightTxsByBlock v → conforms schema_insightTxsByBlock (tree_insightTxsByBlock v).
Proof. intros (? & ?). type_all. Qed.

Lemma typed_insightTxHistoryByAddrs v : ok_insightTxHistoryByAddrs v → conforms schema_insightTxHistoryByAddrs (tree_insightTxHistoryByAddrs v).
Proof. intros (? & ? & ? & ?). type_all. Qed.

Lemma typed_utxoScriptSig v : ok_utxoScriptSig v → conforms schema_utxoScriptSig (tree_utxoScriptSig v).
Proof. intros (? & ?). type_all. Qed.
Hint Resolve typed_utxoScriptSig : schemas.

Lemma typed_utxoVin v : ok_utxoVin v → conforms schema_utxoVin (tree_utxoVin v).
Proof. intros (? & ? & ? & ? & ? & ?). type_all. Qed.
Hint Resolve typed_utxoVin : schemas.

Lemma typed_utxoScriptPubKey v : ok_utxoScriptPubKey v → conforms schema_utxoScriptPubKey (tree_utxoScriptPubKey v).
Proof. intros (? & ? & ? & ? & ?). type_all. Qed.
Hint Resolve typed_utxoScriptPubKey : schemas.

Lemma typed_utxoVout v : ok_utxoVout v → conforms schema_utxoVout (tree_utxoVout v).
Proof. intros (? & ? & ?). type_all. Qed.
Hint Resolve typed_utxoVout : schemas.

Lemma typed_utxoTx v : ok_utxoTx v → conforms schema_utxoTx (tree_utxoTx v).
Proof. intros (? & ? & ? & ? & ? & ? & ? & ? & ? & ?). type_all. Qed.
Hint Resolve typed_utxoTx : schemas.

Lemma typed_insightBlock v : ok_insightBlock v → conforms schema_insightBlock (tree_insightBlock v).
Proof.
  intros [? Hb]. unfold tree_insightBlock. destruct (ib_Block v) as [b|]; [|done]. cbn [jopt].
  destruct Hb as [(? & ? & ? & ? & ? & ? & ? & ? & ? & ? & ? & ? & ? & ? & ? & ? & ?) ?]. type_all.
Qed.

End typing.

(** *** Reading *)

Definition members_of (j : json) : members := match j with JObject kvs => kvs | _ => [] end.

Lemma omit_int z : (if negb (z =? 0) then z else 0) = z.
Proof. by destruct (Z.eqb_spec z 0). Qed.

Lemma omit_string s : (if negb (String.eqb s "") then s else "") = s.
Proof. by destruct (String.eqb_spec s ""). Qed.

Lemma omit_float f : (if negb (is_zero f) then f else float_zero) = plus_zero f.
Proof. unfold plus_zero. by destruct (is_zero f). Qed.

Lemma omit_bool (b : bool) : (if b then b else false) = b.
Proof. by destruct b. Qed.

Lemma omit_slice {A} (s : slice A) : (if negb (is_empty s) then (map (fun x => x) <$> s) else None) = nil_if_empty s.
Proof. unfold nil_if_empty. destruct (is_empty s); [done|]. destruct s as [l|]; [|done]. cbn. by rewrite map_id. Qed.

Lemma pointer_id {A} (o : option A) : (fun x => x) <$> o = o.
Proof. by destruct o. Qed.

Lemma slice_id {A} (s : slice A) : (map (fun x => x) <$> s) = s.
Proof. destruct s as [l|]; [|done]. cbn. by rewrite map_id. Qed.

Section reading.
Context {X : Jlexer} {F : FloatText} {L : JlexerLaws X F}.

Create HintDb decoders.

Ltac read_value :=
  first
    [ apply decodes_string
    | apply decodes_number
    | apply decodes_int; assumption
    | apply decodes_int64; assumption
    | apply decodes_bool
    | apply decodes_float; assumption
    | solve [typeclasses eauto with decoders nocore] ].

(** The variable after an assignment, with its fields written out *)
Ltac new_state := match goal with |- ?lhs = _ => let r := eval cbn in lhs in exact (eq_refl r) end.

Ltac pointed_value :=
  eapply pointed_impl; [eassumption|intros ? ?; split; [done|apply decodes_pointer_new; [done|read_value]]].

Ltac slice_values :=
  eapply all_impl; [eassumption|intros ? ?];
  first [read_value | apply decodes_opt; eapply pointed_impl; [eassumption|intros ? ?; split; [done|read_value]]].

Ltac read_step :=
  eapply assigns_eq;
  [ first
      [ eapply assigns_field; [intros ?; reflexivity|done|read_value]
      | eapply assigns_when; [intros ?; reflexivity|reflexivity|intros ?; split; [done|read_value]]
      | eapply assigns_when; [intros ?; reflexivity|reflexivity|intros ?; split; [by destruct (_ : slice _)|]];
        apply decodes_some_slice; [by destruct (_ : slice _)|slice_values]
      | eapply assigns_slice; [intros ?; reflexivity|reflexivity|reflexivity|slice_values]
      | eapply assigns_pointer; [intros ?; reflexivity|reflexivity|reflexivity|pointed_value]
      | eapply assigns_some; [intros ?; reflexivity|reflexivity|reflexivity|pointed_value] ]
  | new_state ].

Ltac read_all := eapply assigns_eq; [repeat (eapply assigns_app; [read_step|]); read_step|].

Lemma assigns_ScriptSig v : ok_ScriptSig v → assigns cases_ScriptSig (members_of (tree_ScriptSig v)) zero_ScriptSig v.
Proof.
  intros (? & ?). unfold zero_ScriptSig, tree_ScriptSig. cbn [members_of]. read_all. destruct v. cbn. by rewrite pointer_id.
Qed.

Lemma decodes_ScriptSig v : ok_ScriptSig v → decodes decode_ScriptSig (tree_ScriptSig v) zero_ScriptSig v.
Proof. intros Hv. exact (decodes_object _ _ _ _ _ (assigns_ScriptSig v Hv)). Qed.
Hint Resolve decodes_ScriptSig : decoders.

Lemma assigns_ScriptPubKey v : ok_ScriptPubKey v → assigns cases_ScriptPubKey (members_of (tree_ScriptPubKey v)) zero_ScriptPubKey (norm_ScriptPubKey v).
Proof.
  intros (? & ? & ? & ? & ?). unfold zero_ScriptPubKey, tree_ScriptPubKey. cbn [members_of]. read_all.
  unfold norm_ScriptPubKey. by rewrite omit_int, omit_string, omit_slice.
Qed.

Lemma decodes_ScriptPubKey v : ok_ScriptPubKey v → decodes decode_ScriptPubKey (tree_ScriptPubKey v) zero_ScriptPubKey (norm_ScriptPubKey v).
Proof. intros Hv. exact (decodes_object _ _ _ _ _ (assigns_ScriptPubKey v Hv)). Qed.
Hint Resolve decodes_ScriptPubKey : decoders.

Lemma assigns_insightVout v : ok_insightVout v → assigns cases_insightVout (members_of (tree_insightVout v)) zero_insightVout (norm_insightVout v).
Proof.
  intros (? & ? & ? & ? & ? & ?). unfold zero_insightVout, tree_insightVout. cbn [members_of]. read_all.
  unfold norm_insightVout. by rewrite !pointer_id.
Qed.

Lemma decodes_insightVout v : ok_insightVout v → decodes decode_insightVout (tree_insightVout v) zero_insightVout (norm_insightVout v).
Proof. intros Hv. exact (decodes_object _ _ _ _ _ (assigns_insightVout v Hv)). Qed.
Hint Resolve decodes_insightVout : decoders.

Lemma assigns_insightVin v : ok_insightVin v → assigns cases_insightVin (members_of (tree_insightVin v)) zero_insightVin (norm_insightVin v).
Proof.
  intros (? & ? & ? & ? & ? & ? & ? & ? & ? & ?). unfold zero_insightVin, tree_insightVin, tree_vin_tail. cbn [members_of]. read_all.
  unfold norm_insightVin. by rewrite !pointer_id, !omit_string, omit_int, omit_slice, omit_float.
Qed.

Lemma decodes_insightVin v : ok_insightVin v → decodes decode_insightVin (tree_insightVin v) zero_insightVin (norm_insightVin v).
Proof. intros Hv. exact (decodes_object _ _ _ _ _ (assigns_insightVin v Hv)). Qed.
Hint Resolve decodes_insightVin : decoders.

Lemma assigns_insightUtxo v : ok_insightUtxo v → assigns cases_insightUtxo (members_of (tree_insightUtxo v)) zero_insightUtxo v.
Proof.
  intros (? & ? & ? & ? & ? & ? & ? & ? & ? & ? & ?). unfold zero_insightUtxo, tree_insightUtxo. cbn [members_of]. read_all.
  destruct v. cbn. by rewrite omit_int, omit_string.
Qed.

Lemma decodes_insightUtxo v : ok_insightUtxo v → decodes decode_insightUtxo (tree_insightUtxo v) zero_insightUtxo v.
Proof. intros Hv. exact (decodes_object _ _ _ _ _ (assigns_insightUtxo v Hv)). Qed.
Hint Resolve decodes_insightUtxo : decoders.

Lemma assigns_insightTx v : ok_insightTx v → assigns cases_insightTx (members_of (tree_insightTx v)) zero_insightTx (norm_insightTx v).
Proof.
  intros (? & ? & ? & ? & ? & ? & ? & ? & ? & ? & ? & ? & ? & ? & ? & ? & ?). unfold zero_insightTx, tree_insightTx. cbn [members_of]. read_all.
  unfold norm_insightTx. by rewrite pointer_id, omit_string, omit_int, omit_bool, omit_float.
Qed.

Lemma decodes_insightTx v : ok_insightTx v → decodes decode_insightTx (tree_insightTx v) zero_insightTx (norm_insightTx v).
Proof. intros Hv. exact (decodes_object _ _ _ _ _ (assigns_insightTx v Hv)). Qed.
Hint Resolve decodes_insightTx : decoders.

Lemma assigns_utxoScriptSig v : ok_utxoScriptSig v → assigns cases_utxoScriptSig (members_of (tree_utxoScriptSig v)) zero_utxoScriptSig v.
Proof. intros (? & ?). unfold zero_utxoScriptSig, tree_utxoScriptSig. cbn [members_of]. read_all. by destruct v. Qed.

Lemma decodes_utxoScriptSig v : ok_utxoScriptSig v → decodes decode_utxoScriptSig (tree_utxoScriptSig v) zero_utxoScriptSig v.
Proof. intros Hv. exact (decodes_object _ _ _ _ _ (assigns_utxoScriptSig v Hv)). Qed.
Hint Resolve decodes_utxoScriptSig : decoders.

Lemma assigns_utxoVin v : ok_utxoVin v → assigns cases_utxoVin (members_of (tree_utxoVin v)) zero_utxoVin v.
Proof.
  intros (? & ? & ? & ? & ? & ?). unfold zero_utxoVin, tree_utxoVin. cbn [members_of]. read_all. rewrite slice_id. by destruct v.
Qed.

Lemma decodes_utxoVin v : ok_utxoVin v → decodes decode_utxoVin (tree_utxoVin v) zero_utxoVin v.
Proof. intros Hv. exact (decodes_object _ _ _ _ _ (assigns_utxoVin v Hv)). Qed.
Hint Resolve decodes_utxoVin : decoders.

Lemma assigns_utxoScriptPubKey v : ok_utxoScriptPubKey v → assigns cases_utxoScriptPubKey (members_of (tree_utxoScriptPubKey v)) zero_utxoScriptPubKey v.
Proof.
  intros (? & ? & ? & ? & ?). unfold zero_utxoScriptPubKey, tree_utxoScriptPubKey. cbn [members_of]. read_all. rewrite slice_id. by destruct v.
Qed.

Lemma decodes_utxoScriptPubKey v : ok_utxoScriptPubKey v → decodes decode_utxoScriptPubKey (tree_utxoScriptPubKey v) zero_utxoScriptPubKey v.
Proof. intros Hv. exact (decodes_object _ _ _ _ _ (assigns_utxoScriptPubKey v Hv)). Qed.
Hint Resolve decodes_utxoScriptPubKey : decoders.

Lemma assigns_utxoVout v : ok_utxoVout v → assigns cases_utxoVout (members_of (tree_utxoVout v)) zero_utxoVout v.
Proof. intros (? & ? & ?). unfold zero_utxoVout, tree_utxoVout. cbn [members_of]. read_all. by destruct v. Qed.

Lemma decodes_utxoVout v : ok_utxoVout v → decodes decode_utxoVout (tree_utxoVout v) zero_utxoVout v.
Proof. intros Hv. exact (decodes_object _ _ _ _ _ (assigns_utxoVout v Hv)). Qed.
Hint Resolve decodes_utxoVout : decoders.

Lemma assigns_utxoTx v : ok_utxoTx v → assigns cases_utxoTx (members_of (tree_utxoTx v)) zero_utxoTx v.
Proof.
  intros (? & ? & ? & ? & ? & ? & ? & ? & ? & ?). unfold zero_utxoTx, tree_utxoTx. cbn [members_of]. read_all. rewrite !slice_id. by destruct v.
Qed.

Lemma decodes_utxoTx v : ok_utxoTx v → decodes decode_utxoTx (tree_utxoTx v) zero_utxoTx v.
Proof. intros Hv. exact (decodes_object _ _ _ _ _ (assigns_utxoTx v Hv)). Qed.
Hint Resolve decodes_utxoTx : decoders.

(** The decoders as they are called on a whole text *)

Lemma assigns_insightTxsByBlock v :
  ok_insightTxsByBlock v → assigns cases_insightTxsByBlock (members_of (tree_insightTxsByBlock v)) zero_insightTxsByBlock (norm_insightTxsByBlock v).
Proof. intros (? & ?). unfold zero_insightTxsByBlock, tree_insightTxsByBlock. cbn [members_of]. by read_all. Qed.

Lemma assigns_insightTxHistoryByAddrs v :
  ok_insightTxHistoryByAddrs v → assigns cases_insightTxHistoryByAddrs (members_of (tree_insightTxHistoryByAddrs v)) zero_insightTxHistoryByAddrs (norm_insightTxHistoryByAddrs v).
Proof. intros (? & ? & ? & ?). unfold zero_insightTxHistoryByAddrs, tree_insightTxHistoryByAddrs. cbn [members_of]. by read_all. Qed.

(** *** Blocks *)

Lemma decodes_in_block {T} (f : utxoBlock → T) `{!Setter f} d j c b v :
  decodes d j (f b) v →
  decodes (fun n => in_block f (d n)) j {| ib_Block := Some b; ib_Confirmations := c |}
    {| ib_Block := Some (set_field f v b); ib_Confirmations := c |}.
Proof.
  intros Hd fuel inp toks Hf Hs. destruct (Hd fuel inp toks Hf Hs) as (inp' & Hr & Hs'). exists inp'.
  unfold in_block, assign, into. cbn [ib_Block]. by rewrite Hr.
Qed.

Lemma decodes_in_header {T} (f : BlockHeader → T) `{!Setter f} d j c h txs v :
  decodes d j (f h) v →
  decodes (fun n => in_header f (d n)) j {| ib_Block := Some {| ub_BlockHeader := h; ub_Txs := txs |}; ib_Confirmations := c |}
    {| ib_Block := Some {| ub_BlockHeader := set_field f v h; ub_Txs := txs |}; ib_Confirmations := c |}.
Proof.
  intros Hd. exact (decodes_in_block ub_BlockHeader (fun n => assign f (d n)) j c {| ub_BlockHeader := h; ub_Txs := txs |}
    (set_field f v h) (decodes_into f (set_field f) d j h v Hd)).
Qed.

Lemma assigns_step {A} (cases : nat → list (string * reader A)) k d j a a1 :
  (∀ n, switch (cases n) k = d n) → j ≠ JNull → decodes d j a a1 → assigns cases [(k, j)] a a1.
Proof.
  intros Hcase Hj Hd. eapply assigns_member; [done| |apply assigns_nil]. intros fuel inp toks Hf Hs. rewrite Hcase. by apply Hd.
Qed.

Ltac header_step :=
  eapply assigns_eq; [eapply assigns_step; [intros ?; reflexivity|done|apply decodes_in_header; read_value]|new_state].

(** The members of the header fill a block whose other fields are set. *)
Lemma assigns_header h c txs : ok_BlockHeader h →
  assigns cases_insightBlock (tree_header h)
    {| ib_Block := Some {| ub_BlockHeader := zero_BlockHeader; ub_Txs := txs |}; ib_Confirmations := c |}
    {| ib_Block := Some {| ub_BlockHeader := h; ub_Txs := txs |}; ib_Confirmations := c |}.
Proof.
  intros (? & ? & ? & ? & ? & ? & ? & ? & ? & ? & ? & ? & ? & ? & ? & ? & ?). unfold tree_header, zero_BlockHeader.
  eapply assigns_eq; [repeat (eapply assigns_app; [header_step|]); header_step|]. by destruct h.
Qed.

(** The transactions of a block, unless there are none *)
Lemma assigns_txs txs c : Forall ok_utxoTx (default [] txs) →
  assigns cases_insightBlock (jwhen (negb (is_empty txs)) ("tx", jslice tree_utxoTx txs))
    {| ib_Block := Some zero_utxoBlock; ib_Confirmations := c |}
    {| ib_Block := Some {| ub_BlockHeader := zero_BlockHeader; ub_Txs := nil_if_empty txs |}; ib_Confirmations := c |}.
Proof.
  intros Htxs. unfold nil_if_empty. destruct (is_empty txs) eqn:He; [apply assigns_nil|]. cbn [negb jwhen].
  eapply assigns_eq; [eapply assigns_step; [intros ?; reflexivity|by destruct txs|]|].
  - apply (decodes_in_block ub_Txs (fun n => read_slice n zero_utxoTx (decode_utxoTx n))).
    apply (decodes_some_slice zero_utxoTx decode_utxoTx tree_utxoTx (fun x => x)); [by destruct txs|]. slice_values.
  - cbn. by rewrite slice_id.
Qed.

Lemma assigns_insightBlock v : ok_insightBlock v → tree_insightBlock v = JObject (members_of (tree_insightBlock v)) ∧
  assigns cases_insightBlock (members_of (tree_insightBlock v)) (new_block zero_insightBlock) (norm_insightBlock v).
Proof.
  intros [? Hb]. unfold tree_insightBlock, norm_insightBlock. destruct (ib_Block v) as [b|]; [|done]. destruct Hb as [Hh Htxs].
  split; [done|]. cbn [jopt members_of tree_Block]. eapply assigns_app; [read_step|]. eapply assigns_app; [by apply assigns_txs|]. by apply assigns_header.
Qed.

End reading.

(** ** The types with methods *)

Section methods.
Context {W : Jwriter} {X : Jlexer} {F : FloatText} {LW : JwriterLaws W F} {LX : JlexerLaws X F}.

Definition zero (t : easy) : value t :=
  match t with
  | EScriptSig => zero_ScriptSig
  | EVin => zero_insightVin
  | EVout => zero_insightVout
  | ETx => zero_insightTx
  | EBlock => zero_insightBlock
  | EUtxo => zero_insightUtxo
  | EUtxos => None
  | ETxsByBlock => zero_insightTxsByBlock
  | ETxHistory => zero_insightTxHistoryByAddrs
  end.

Definition ok (t : easy) : value t → Prop :=
  match t with
  | EScriptSig => ok_ScriptSig
  | EVin => ok_insightVin
  | EVout => ok_insightVout
  | ETx => ok_insightTx
  | EBlock => ok_insightBlock
  | EUtxo => ok_insightUtxo
  | EUtxos => fun v => Forall (pointed ok_insightUtxo) (default [] v)
  | ETxsByBlock => ok_insightTxsByBlock
  | ETxHistory => ok_insightTxHistoryByAddrs
  end.

Definition norm (t : easy) : value t → value t :=
  match t with
  | EScriptSig => fun v => v
  | EVin => norm_insightVin
  | EVout => norm_insightVout
  | ETx => norm_insightTx
  | EBlock => norm_insightBlock
  | EUtxo => fun v => v
  | EUtxos => fun v => v
  | ETxsByBlock => norm_insightTxsByBlock
  | ETxHistory => norm_insightTxHistoryByAddrs
  end.

Definition tree (t : easy) : value t → json :=
  match t with
  | EScriptSig => tree_ScriptSig
  | EVin => tree_insightVin
  | EVout => tree_insightVout
  | ETx => tree_insightTx
  | EBlock => tree_insightBlock
  | EUtxo => tree_insightUtxo
  | EUtxos => tree_insightUtxos
  | ETxsByBlock => tree_insightTxsByBlock
  | ETxHistory => tree_insightTxHistoryByAddrs
  end.

Definition schema_of (t : easy) : schema :=
  match t with
  | EScriptSig => schema_ScriptSig
  | EVin => schema_insightVin
  | EVout => schema_insightVout
  | ETx => schema_insightTx
  | EBlock => schema_insightBlock
  | EUtxo => schema_insightUtxo
  | EUtxos => SNullable (SArray (SNullable schema_insightUtxo))
  | ETxsByBlock => schema_insightTxsByBlock
  | ETxHistory => schema_insightTxHistoryByAddrs
  end.

Lemma MarshalEasyJSON_writes t (v : value t) : ok t v → ∃ e, MarshalEasyJSON t v = Val e ∧ writes e (tree t v).
Proof.
  intros Hv. destruct t; cbn in *; try (eexists; split; [reflexivity|]).
  - by apply writes_ScriptSig.
  - by apply writes_insightVin.
  - by apply writes_insightVout.
  - by apply writes_insightTx.
  - by apply writes_insightBlock.
  - by apply writes_insightUtxo.
  - by apply writes_insightUtxos.
  - by apply writes_insightTxsByBlock.
  - by apply writes_insightTxHistoryByAddrs.
Qed.

Lemma MarshalJSON_text t (v : value t) : ok t v →
  ∃ text, MarshalJSON t v = Val (bytes text, None) ∧ utf8 text = true ∧ whole text = Some (tree t v).
Proof.
  intros Hv. destruct (MarshalEasyJSON_writes t v Hv) as (e & He & Hw). destruct (marshal_writes _ _ Hw) as (text & Hm & Hu & Hj).
  exists text. unfold MarshalJSON. rewrite He. cbn. by rewrite Hm.
Qed.

(** What is read from a text of the value *)
Lemma UnmarshalJSON_reads t (v : value t) text :
  ok t v → utf8 text = true → whole text = Some (tree t v) → UnmarshalJSON t text (zero t) = Some (norm t v, None).
Proof.
  intros Hv Hu Hw. destruct t; cbn [ok tree zero norm value] in *.
  - exact (unmarshal_object _ _ _ _ _ _ Hu Hw (assigns_ScriptSig v Hv)).
  - exact (unmarshal_object _ _ _ _ _ _ Hu Hw (assigns_insightVin v Hv)).
  - exact (unmarshal_object _ _ _ _ _ _ Hu Hw (assigns_insightVout v Hv)).
  - exact (unmarshal_object _ _ _ _ _ _ Hu Hw (assigns_insightTx v Hv)).
  - destruct (assigns_insightBlock v Hv) as [Ht Ha]. rewrite Ht in Hw. exact (unmarshal_object new_block _ _ _ _ _ Hu Hw Ha).
  - exact (unmarshal_object _ _ _ _ _ _ Hu Hw (assigns_insightUtxo v Hv)).
  - destruct v as [l|]; [|exact (unmarshal_slice_null None (fun n => pointer zero_insightUtxo (decode_insightUtxo n)) text None Hu Hw)].
    apply (unmarshal_slice None (fun n => pointer zero_insightUtxo (decode_insightUtxo n)) text _ l None Hu Hw).
    cbn in Hv. clear Hw. induction Hv as [|o l Ho _ IH]; [constructor|]. constructor; [|done]. rewrite <-(pointer_id o) at 2.
    apply (decodes_opt zero_insightUtxo decode_insightUtxo tree_insightUtxo (fun x => x)).
    eapply pointed_impl; [exact Ho|]. intros u Hok. split; [done|by apply decodes_insightUtxo].
  - exact (unmarshal_object _ _ _ _ _ _ Hu Hw (assigns_insightTxsByBlock v Hv)).
  - exact (unmarshal_object _ _ _ _ _ _ Hu Hw (assigns_insightTxHistoryByAddrs v Hv)).
Qed.

Lemma tree_typed t (v : value t) : ok t v → conforms (schema_of t) (tree t v).
Proof.
  intros Hv. destruct t; cbn in *.
  - by apply typed_ScriptSig.
  - by apply typed_insightVin.
  - by apply typed_insightVout.
  - by apply typed_insightTx.
  - by apply typed_insightBlock.
  - by apply typed_insightUtxo.
  - apply conforms_slice. eapply all_impl; [exact Hv|]. intros o Ho. apply conforms_opt.
    eapply pointed_impl; [exact Ho|]. apply typed_insightUtxo.
  - by apply typed_insightTxsByBlock.
  - by apply typed_insightTxHistoryByAddrs.
Qed.

End methods.

(** ** Properties *)

Section properties.
Context {W : Jwriter} {X : Jlexer} {F : FloatText} {LW : JwriterLaws W F} {LX : JlexerLaws X F}.


(** C25. What [MarshalJSON] writes, [UnmarshalJSON] reads back, for each of the
    nine types and with as many rounds of its loops as the text is long, up to what
    [omitempty] does not write: an empty slice comes back as nil, and a negative
    zero as zero. *)
Theorem UnmarshalJSON_MarshalJSON (t : easy) (v : value t) :
  ok t v →
  ∃ text, MarshalJSON t v = Val (bytes text, None) ∧ UnmarshalJSON t text (zero t) = Some (norm t v, None).
Proof.
  intros Hv. destruct (MarshalJSON_text t v Hv) as (text & Hm & Hu & Hj).
  exists text. split; [done|]. by apply UnmarshalJSON_reads.
Qed.

End properties.

(** ** A transaction *)

(** One input without a script text and one output that is not spent *)
Definition sample_tx : insightTx :=
  {|
    it_TxID := "a1"; it_Hash := "a1"; it_Version := 2; it_Size := 191; it_VSize := 110; it_Weight := 437; it_Locktime := 0;
    it_Vin := Some [Some
      {| iv_TxID := "b2"; iv_Vout := Some 1; iv_N := 0; iv_ScriptSig := Some {| ss_Asm := None; ss_Hex := "" |};
         iv_TxInWitness := Some []; iv_Sequence := 4294967295; iv_Coinbase := ""; iv_Address := "3P14159f73E4gFr7JterCCQh9QjiTjiZrG";
         iv_ValueSat := 150000000; iv_Value := ToBTC 150000000 |}];
    it_Vout := Some [Some
      {| io_Value := "1.49990000"; io_N := 0;
         io_ScriptPubKey := {| sp_Asm := "OP_DUP"; sp_Hex := "76"; sp_ReqSigs := 1; sp_Addresses := Some ["1Boat"]; sp_Type := "pubkeyhash" |};
         io_SpentTxID := None; io_SpentTxIndex := None; io_SpentTxBlockHeight := None |}; None];
    it_BlockHash := "00c3"; it_BlockHeight := 500000; it_Confirmations := 3; it_Time := 1513622125; it_BlockTime := 1513622125;
    it_IsCoinBase := false; it_ValueOut := ToBTC 149990000; it_ValueIn := ToBTC 150000000; it_Fees := Some (ToBTC 10000)
  |}.

Lemma sample_tx_ok : ok ETx sample_tx.
Proof.
  assert (Hf : ∀ z, (2 ^ 52 <=? f_mant (ToBTC z)) && (f_mant (ToBTC z) <? 2 ^ 53) && (-1074 <=? f_exp (ToBTC z)) &&
    (f_exp (ToBTC z) <=? 971) = true → canonical (ToBTC z)) by (intros z Hz; right; lia).
  cbn. repeat split; repeat constructor; try (by vm_compute); try (unfold in_int64, two63; cbn; lia); apply Hf; by vm_compute.
Qed.


Lemma UnmarshalJSON_MarshalJSON_witness :
  ∃ text, @MarshalJSON text_writer ETx sample_tx = Val (bytes text, None) ∧
    @UnmarshalJSON tokens_lexer ETx text (zero ETx) = Some (norm ETx sample_tx, None).
Proof.
  apply (@UnmarshalJSON_MarshalJSON text_writer tokens_lexer exact_floats text_writer_laws tokens_lexer_laws ETx sample_tx).
  apply sample_tx_ok.
Defined.

(** ** Consequences *)

(** A [json.Number] is written as a string: the difficulty of a block is no
    number in the response, as it is in what the node sends. *)
Lemma difficulty_is_string {F : FloatText} v b :
  ib_Block v = Some b → assoc "difficulty" (members_of (tree_insightBlock v)) = Some (JString (Difficulty (ub_BlockHeader b))).
Proof.
  intros Hb. unfold tree_insightBlock. rewrite Hb. cbn [jopt members_of tree_Block]. by destruct (is_empty (ub_Txs b)).
Qed.

Lemma conforms_member fs kvs k j : conforms_fields fs kvs → (k, j) ∈ kvs → ∃ o s, (k, o, s) ∈ fs ∧ conforms s j.
Proof.
  intros H. induction H as [|k' o s fs j' kvs Hj _ IH|k' s fs kvs _ IH]; [by intros ?%elem_of_nil|..].
  - intros [[= -> ->]|Hin]%elem_of_cons; [by exists o, s; split; [left|]|].
    destruct (IH Hin) as (o' & s' & ? & ?). exists o', s'. split; [by right|done].
  - intros Hin. destruct (IH Hin) as (o' & s' & ? & ?). exists o', s'. split; [by right|done].
Qed.

(** The block as docs/V2.md shows it, with a number for the difficulty *)
Definition documented_insightBlock : schema :=
  match schema_insightBlock with
  | SObject fields => SObject (map (fun '(k, o, s) => if String.eqb k "difficulty" then (k, o, SNumber) else (k, o, s)) fields)
  | s => s
  end.

Lemma block_not_as_documented {F : FloatText} v : ib_Block v ≠ None → ¬ conforms documented_insightBlock (tree_insightBlock v).
Proof.
  intros Hv. destruct (ib_Block v) as [b|] eqn:Hb; [|done]. unfold tree_insightBlock. rewrite Hb. intros H.
  inversion H as [| | | | | | |fs kvs Hf]; subst.
  destruct (conforms_member _ _ "difficulty" (JString (Difficulty (ub_BlockHeader b))) Hf) as (o & s & Hin & Hs).
  { right. apply elem_of_app. right. do 8 right. left. }
  assert (Hall : Forall (fun f => f.1.1 = "difficulty" → f.2 = SNumber)
    match documented_insightBlock with SObject fields => fields | _ => [] end) by (repeat (constructor; [done|]); constructor).
  rewrite list.Forall_forall in Hall. specialize (Hall _ Hin eq_refl). cbn in Hall. subst s. inversion Hs.
Qed.

(** A block that is nil is not null: encoding it panics. *)
Lemma encode_nil_block {W : Jwriter} c : MarshalJSON EBlock {| ib_Block := None; ib_Confirmations := c |} = Panic NilDereference.
Proof. reflexivity. Qed.
