(* ===== verification/Insight.v ===== *)
(** * Insight: transactions and unspent outputs as the API shows them

    src/V2/pkg/api/insight/helpers.go.  [getTxs]
    starts a goroutine per transaction, which starts one per input and output
    and collects their results in the order they arrive; that order is a
    parameter.  The store does not change during a call. *)

From stdpp Require Import base list strings gmap sorting numbers.
From Stdlib Require Import ZArith Lia Ascii.
From S2P Require Import Prelude GoStrings Convert Amounts Timestamps Cashaddr Utxo InsightTypes BlockTable Store Postgres Ledger Indexer.

Local Open Scope Z_scope.

(** ** Code outside the repository *)

(** [sort.Slice]: a sorted rearrangement; equal elements may change places. *)
Class SortAny := sort_any : ∀ A : Type, (A → A → bool) → list A → list A.
Arguments sort_any {_} {A} less l.

Class SortAnyLaws (S : SortAny) : Prop := {
  sort_any_perm : ∀ A (less : A → A → bool) l, sort_any less l ≡ₚ l;
  sort_any_sorted : ∀ A (less : A → A → bool) (key : A → Z),
    (∀ a b, less a b = (key a <? key b)) → ∀ l, StronglySorted (fun a b => key a ≤ key b) (sort_any less l);
}.

(** package btcutil, for the main network: [NewAddressPubKeyHash(hash).EncodeAddress()]
    and the hash in [DecodeAddress(addr)] *)
Class Btcutil := {
  pkh_address : list Z → gores string;
  script_hash : string → gores (list Z);
}.

Section insight.
Context {sorting : SortAny} {order : RowOrder} {btc : Btcutil}.
(** The zones of the database session and of the process, and the time of the call. *)
Context (db_zone local_zone now : Z).

(** The text of a time as the methods of [Database] return it *)
Definition time_text (t : timestamp) : string :=
  match t with MinedAt unix => Format unix db_zone | CallTime => Format now local_zone end.

(** [func normalizeAddrFormat(addr string) (string, error)] *)
Definition normalizeAddrFormat (addr : string) : gores string :=
  if HasPrefix addr "bitcoincash:" then
    '(bytes, _, _) ← wrap_err "failed to decode BCH cashaddr format from: %s" (CheckDecodeCashAddress addr);
    wrap_err "failed to create PKH address from bytes" (pkh_address bytes)
  else Val addr.

(** [func (i *InsightServer) processTxInput(vin *postgres.Input, inputsChan chan<- *insightVin, errChan chan<- error)]:
    what it sends to [inputsChan], or the error it sends to [errChan] instead *)
Definition processTxInput (vin : Input) (st : store) : gores insightVin :=
  output ← wrap_err "failed to process tx input: %v" (GetOutputsByTxID (in_SpentTx vin) (Some (in_SpentVout vin)) st);
  '(addr, sats, value) ←
    match output with
    | o :: _ =>
        addr ← wrap_err "failed to normalize address: %s" (normalizeAddrFormat (out_Address o));
        Val (addr, out_SatAmount o, ToBTC (out_SatAmount o))
    | [] => Val ("", 0, float_zero)
    end;
  Val {| iv_TxID := in_SpentTx vin;
         iv_Vout := if bool_decide (in_Coinbase vin = "") then Some (in_SpentVout vin) else None;
         iv_N := in_Vin vin;
         iv_ScriptSig := Some {| ss_Asm := if bool_decide (in_Asm vin = "") then None else Some (in_Asm vin);
                                 ss_Hex := in_Hex vin |};
         iv_TxInWitness := in_TxInWitness vin; iv_Sequence := in_Sequence vin;
         iv_Coinbase := in_Coinbase vin; iv_Address := addr; iv_ValueSat := sats; iv_Value := value |}.

(** [func (i *InsightServer) processTxOutput(txid string, vout *postgres.Output, ...)]: what it sends to
    [outputsChan], after the error it sends to [errChan] if there is one *)
Definition processTxOutput (txid : string) (vout : Output) (st : store) : gores (insightVout * option gerror) :=
  let details := GetSpentTxDetails txid (out_Vout vout) st in
  '(addrs, err) ←
    (if bool_decide (out_Address vout = "unsupported addr") then Val (None, None)
     else match normalizeAddrFormat (out_Address vout) with
          | Val addr => Val (Some [addr], None)
          | Err e => Val (Some [""], Some (EWrap "failed to normalize address: %s" e))
          | Panic p => Panic p
          | Exit e => Exit e
          end);
  Val ({| io_Value := format_f8 (ToBTC (out_SatAmount vout)); io_N := out_Vout vout;
          io_ScriptPubKey :=
            {| sp_Asm := out_Asm vout; sp_Hex := out_Hex vout; sp_ReqSigs := out_ReqSigs vout; sp_Addresses := addrs;
               sp_Type := if bool_decide (out_Type vout = "nulldata") then "" else out_Type vout |};
          io_SpentTxID := SpentTxID <$> details; io_SpentTxIndex := SpentIndex <$> details;
          io_SpentTxBlockHeight := SpentHeight <$> details |}, err).

(** What the goroutine of a transaction receives. *)
Inductive arrival := GotVin (v : insightVin) | GotVout (v : insightVout).

Record collected := { c_vins : list insightVin; c_vouts : list insightVout; c_valueIn : Z; c_valueOut : Z }.

(** The [select] loop.  When it returns early, the deferred calls close the
    channels, and a goroutine that still has a result to send panics. *)
Fixpoint collect (c : collected) (l : list arrival) : gores collected :=
  match l with
  | [] => Val c
  | GotVin v :: l =>
      collect {| c_vins := c_vins c ++ [v]; c_vouts := c_vouts c;
                 c_valueIn := int64 (c_valueIn c + iv_ValueSat v); c_valueOut := c_valueOut c |} l
  | GotVout v :: l =>
      match ToSatoshi (io_Value v) with
      | Val sats =>
          collect {| c_vins := c_vins c; c_vouts := c_vouts c ++ [v];
                     c_valueIn := c_valueIn c; c_valueOut := int64 (c_valueOut c + sats) |} l
      | Err e => match l with
                 | [] => Err (EWrap "failed to parse value in transaction: %s" e)
                 | _ => Panic SendOnClosed
                 end
      | Panic p => Panic p
      | Exit e => Exit e
      end
  end.

Definition nothing_collected : collected := {| c_vins := []; c_vouts := []; c_valueIn := 0; c_valueOut := 0 |}.

(** [lb.Height - int(height) + 1] where the block of a row is on the main chain *)
Definition confirmations (lb : option (string * Z)) (height : Z) : gores Z :=
  if height =? -1 then Val 0
  else match lb with Some (_, h) => Val (int64 (h - height + 1)) | None => Panic NilDereference end.

(** The rest of the goroutine: the transaction it stores in [txs] *)
Definition make_view (lb : option (string * Z)) (tx : DbTx) (c : collected) : gores insightTx :=
  let vins := sort_any (fun a b => iv_N a <? iv_N b) (c_vins c) in
  let vouts := sort_any (fun a b => io_N a <? io_N b) (c_vouts c) in
  ts ← wrap_err "failed to parse timestamp from transaction: %v" (ToUnixTimestamp (time_text (db_Time tx)));
  confirmations ← confirmations lb (db_BlockHeight tx);
  let coinbase := match vins with [v] => negb (bool_decide (iv_Coinbase v = "")) | _ => false end in
  Val {| it_TxID := db_TxID tx; it_Hash := db_Hash tx; it_Version := db_Version tx; it_Size := db_Size tx;
         it_VSize := db_VSize tx; it_Weight := db_Weight tx; it_Locktime := db_Locktime tx;
         it_Vin := Some (map Some vins); it_Vout := Some (map Some vouts); it_BlockHash := db_BlockHash tx; it_BlockHeight := db_BlockHeight tx;
         it_Confirmations := confirmations; it_Time := ts;
         it_BlockTime := match db_BlockTime tx with Some _ => ts | None => 0 end;
         it_IsCoinBase := coinbase; it_ValueOut := ToBTC (c_valueOut c);
         it_ValueIn := if coinbase then float_zero else ToBTC (c_valueIn c);
         it_Fees := if coinbase then None else Some (ToBTC (int64 (c_valueIn c - c_valueOut c))) |}.

(** The errors among results *)
Definition error_of {A} (r : gores A) : list gerror := match r with Err e => [e] | _ => [] end.
Definition value_of {A} (r : gores A) : list A := match r with Val a => [a] | _ => [] end.

(** The panics of goroutines end the process. *)
Definition no_panic {A} (l : list (gores A)) : gores unit :=
  fold_right (fun r acc => match r with Panic p => Panic p | Exit e => Exit e | _ => acc end) (Val tt) l.

(** The goroutine of a transaction with those it starts: the transaction it
    stores, unless it is still waiting for an input or has returned, and the errors
    sent to [errChan].  [arrive] is the order in which the results arrive. *)
Definition tx_goroutine (arrive : list arrival → list arrival) (lb : option (string * Z)) (txid : string)
    (st : store) : gores (option insightTx * list gerror) :=
  match GetTxByTxID txid st with
  | Val tx =>
      let ins := map (fun i => processTxInput i st) (db_Inputs tx) in
      let outs := map (fun o => processTxOutput (db_TxID tx) o st) (db_Outputs tx) in
      _ ← no_panic ins; _ ← no_panic outs;
      let outs := flat_map value_of outs in
      let errs := flat_map error_of ins ++ omap snd outs in
      if bool_decide (flat_map error_of ins = []) then
        match c ← collect nothing_collected (arrive (map GotVin (flat_map value_of ins) ++ map (fun o => GotVout o.1) outs));
              make_view lb tx c with
        | Val v => Val (Some v, errs)
        | Err e => Val (None, errs ++ [e])
        | Panic p => Panic p
        | Exit e => Exit e
        end
      else Val (None, errs)
  | Err e => Val (None, [EWrap "failed to get transactions from txids: %v" e])
  | Panic p => Panic p
  | Exit e => Exit e
  end.

(** [func (i *InsightServer) getTxs(txids []string) ([]*insightTx, error)]; [pick] is
    the error that is received first *)
Definition getTxs (arrive : nat → list arrival → list arrival) (pick : gerror → list gerror → gerror)
    (txids : list string) (st : store) : gores (list insightTx) :=
  lb ← wrap_err "failed to get transactions from txids: %s" (LastBlock st);
  runs ← mapM (fun '(k, txid) => tx_goroutine (arrive k) lb txid st) (imap pair txids);
  match flat_map snd runs with
  | e :: es => Err (pick e es)
  | [] => Val (sort_any (fun a b => it_BlockHeight a >? it_BlockHeight b) (omap fst runs))
  end.

(** An unspent output as [getUtxos] shows it *)
Definition utxo_view (lb : option (string * Z)) (out : DbUtxo) : gores insightUtxo :=
  ts ← wrap_err "failed to parse timestamp from output: %v" (ToUnixTimestamp (time_text (u_Timestamp out)));
  confirmations ← confirmations lb (u_BlockHeight out);
  addr ← wrap_err "failed to normalize address: %s" (normalizeAddrFormat (u_Address out));
  Val {| iu_Address := addr; iu_TxID := u_TxID out; iu_Vout := u_Vout out; iu_ScriptPubKey := u_Hex out;
         iu_ReqSigs := u_ReqSigs out; iu_Type := u_Type out; iu_Amount := ToBTC (u_SatAmount out);
         iu_Satoshis := u_SatAmount out; iu_BlockHeight := u_BlockHeight out;
         iu_Confirmations := confirmations; iu_Timestamp := ts |}.

(** [func (i *InsightServer) getUtxos(addrs []string) ([]*insightUtxo, error)] *)
Definition getUtxos (addrs : list string) (st : store) : gores (list insightUtxo) :=
  lb ← wrap_err "failed to get utxos for addresses: %s" (LastBlock st);
  outputs ← wrap_err "failed to get utxos for addresses: %s" (GetUtxosByAddrs addrs st);
  utxos ← mapM (utxo_view lb) outputs;
  Val (sort_any (fun a b => iu_BlockHeight a >? iu_BlockHeight b) utxos).

End insight.

(** ** Sorting by a key *)

Lemma sorted_keys_unique {A} (key : A → Z) (l k : list A) :
  StronglySorted (fun a b => key a ≤ key b) l → StronglySorted (fun a b => key a ≤ key b) k →
  l ≡ₚ k → NoDup (map key l) → l = k.
Proof.
  intros Hl. revert k. induction Hl as [|a l Hl IH Ha]; intros k Hk Hp Hnd; [by apply Permutation_nil_l in Hp|].
  destruct k as [|b k]; [by apply Permutation_nil_r in Hp|].
  assert (Hab : a = b).
  { apply (NoDup_map_inj key (a :: l)); [done|left|rewrite Hp; left|].
    apply StronglySorted_inv in Hk as [_ Hb].
    assert (Hin1 : a ∈ b :: k) by (rewrite <-Hp; left). assert (Hin2 : b ∈ a :: l) by (rewrite Hp; left).
    apply elem_of_cons in Hin1 as [->|Hin1]; [done|]. apply elem_of_cons in Hin2 as [->|Hin2]; [done|].
    rewrite list.Forall_forall in Ha, Hb. specialize (Ha b Hin2). specialize (Hb a Hin1). lia. }
  subst b. f_equal. apply IH.
  - by apply StronglySorted_inv in Hk as [Hk _].
  - by apply Permutation_cons_inv in Hp.
  - cbn in Hnd. by apply list.NoDup_cons in Hnd as [_ Hnd].
Qed.

Definition key_le {A} (key : A → Z) (a b : A) : Prop := key a ≤ key b.
#[global] Instance key_le_dec {A} (key : A → Z) : RelDecision (key_le key).
Proof. intros a b. unfold key_le. apply _. Defined.
#[global] Instance key_le_total {A} (key : A → Z) : Total (key_le key).
Proof. intros a b. unfold key_le. lia. Qed.
#[global] Instance key_le_trans {A} (key : A → Z) : Transitive (key_le key).
Proof. intros a b c. unfold key_le. lia. Qed.

(** The elements in ascending order of a key *)
Definition by_key {A} (key : A → Z) (l : list A) : list A := merge_sort (key_le key) l.

Lemma sort_any_by_key {S : SortAny} {L : SortAnyLaws S} {A} (key : A → Z) (l k : list A) :
  l ≡ₚ k → NoDup (map key k) → sort_any (fun a b => key a <? key b) l = by_key key k.
Proof.
  intros Hp Hnd. apply (sorted_keys_unique key).
  - by apply sort_any_sorted.
  - apply (StronglySorted_merge_sort (key_le key)).
  - rewrite sort_any_perm. unfold by_key. by rewrite merge_sort_Permutation.
  - rewrite sort_any_perm, Hp. done.
Qed.

Lemma sort_any_desc {S : SortAny} {L : SortAnyLaws S} {A} (key : A → Z) (l : list A) :
  StronglySorted (fun a b => key b ≤ key a) (sort_any (fun a b => key a >? key b) l).
Proof.
  eapply StronglySorted_weaken; [|apply (sort_any_sorted _ _ (fun a => - key a))].
  - intros a b. cbn. lia.
  - intros a b. rewrite Z.gtb_ltb. destruct (Z.ltb_spec (key b) (key a)), (Z.ltb_spec (- key a) (- key b)); lia.
Qed.

Definition zsum (l : list Z) : Z := fold_right Z.add 0 l.

Lemma zsum_perm l k : l ≡ₚ k → zsum l = zsum k.
Proof. unfold zsum. induction 1; cbn; lia. Qed.

Lemma zsum_app l k : zsum (l ++ k) = zsum l + zsum k.
Proof. unfold zsum. induction l; cbn; lia. Qed.

(** ** Collecting in any order *)

Definition vins_of (l : list arrival) : list insightVin := omap (fun a => match a with GotVin v => Some v | _ => None end) l.
Definition vouts_of (l : list arrival) : list insightVout := omap (fun a => match a with GotVout v => Some v | _ => None end) l.
Definition sats_of (v : insightVout) : Z := match ToSatoshi (io_Value v) with Val s => s | _ => 0 end.
Definition readable (v : insightVout) : Prop := ToSatoshi (io_Value v) = Val (sats_of v).

Lemma collect_all c l x y :
  Forall readable (vouts_of l) → c_valueIn c = int64 x → c_valueOut c = int64 y →
  collect c l = Val {| c_vins := c_vins c ++ vins_of l; c_vouts := c_vouts c ++ vouts_of l;
                       c_valueIn := int64 (x + zsum (map iv_ValueSat (vins_of l)));
                       c_valueOut := int64 (y + zsum (map sats_of (vouts_of l))) |}.
Proof.
  revert c x y. induction l as [|a l IH]; intros c x y Hr Hx Hy.
  - cbn. rewrite !app_nil_r, !Z.add_0_r, <-Hx, <-Hy. by destruct c.
  - destruct a as [v|v]; cbn [collect].
    + erewrite (IH _ (x + iv_ValueSat v) y); [|exact Hr|cbn; rewrite Hx; apply int64_add_l|exact Hy].
      cbn. rewrite <-app_assoc, Z.add_assoc. done.
    + cbn in Hr. pose proof (Forall_inv Hr) as Hv. apply Forall_inv_tail in Hr. rewrite Hv.
      erewrite (IH _ x (y + sats_of v)); [|exact Hr|exact Hx|cbn; rewrite Hy; apply int64_add_l].
      cbn. rewrite <-app_assoc, Z.add_assoc. done.
Qed.

Lemma vins_of_arrivals (vs : list insightVin) (os : list (insightVout * option gerror)) :
  vins_of (map GotVin vs ++ map (fun o => GotVout o.1) os) = vs.
Proof.
  unfold vins_of. induction vs as [|v vs IH]; [by induction os|]. cbn [map app omap list_omap]. by f_equal.
Qed.

Lemma vouts_of_arrivals (vs : list insightVin) (os : list (insightVout * option gerror)) :
  vouts_of (map GotVin vs ++ map (fun o => GotVout o.1) os) = map fst os.
Proof.
  unfold vouts_of. induction vs as [|v vs IH]; [|done]. cbn [map app].
  induction os as [|o os IH]; [done|]. cbn [map omap list_omap]. by f_equal.
Qed.

(** ** Results that are all values *)

Lemma map_Val {A B} (f : A → gores B) (P : A → B → Prop) l :
  (∀ x, x ∈ l → ∃ v, f x = Val v ∧ P x v) → ∃ vs, map f l = map Val vs ∧ Forall2 P l vs.
Proof.
  induction l as [|x l IH]; intros H; [by exists []|].
  destruct (H x ltac:(left)) as (v & Hv & HP). destruct IH as (vs & Hvs & HPs); [intros y Hy; apply H; by right|].
  exists (v :: vs). cbn. rewrite Hv, Hvs. by split; [|constructor].
Qed.

Lemma value_of_Val {A} (l : list A) : flat_map value_of (map Val l) = l.
Proof. induction l as [|x l IH]; [done|]. cbn. by rewrite IH. Qed.

Lemma error_of_Val {A} (l : list A) : flat_map error_of (map Val l) = [].
Proof. by induction l. Qed.

Lemma no_panic_Val {A} (l : list A) : no_panic (map Val l) = Val tt.
Proof. by induction l. Qed.

Lemma Forall2_map_eq {A B C} (f : A → C) (g : B → C) (l : list A) (k : list B) :
  Forall2 (fun a b => g b = f a) l k → map g k = map f l.
Proof. induction 1; cbn; [done|by f_equal]. Qed.

Lemma mapM_Val {A B C} (f : A → gores C) (g : B → C) (l : list A) (k : list B) :
  Forall2 (fun a b => f a = Val (g b)) l k → mapM f l = Val (map g k).
Proof. induction 1 as [|a b l k Hab _ IH]; [done|]. cbn. rewrite Hab. cbn. by rewrite IH. Qed.

Lemma Forall2_imap_pair {A B} (P : A → B → Prop) (l : list A) (k : list B) (g : nat → nat) :
  Forall2 P l k → Forall2 (fun p b => P p.2 b) (imap (fun i a => (g i, a)) l) k.
Proof.
  intros H. revert g. induction H as [|a b l k Hab _ IH]; intros g; [constructor|].
  rewrite imap_cons. constructor; [done|]. apply (IH (g ∘ S)).
Qed.

(** ** The reference: one transaction after the other *)

Section reference.
Context {sorting : SortAny} {laws : SortAnyLaws sorting} {order : RowOrder} {btc : Btcutil}.
Context (db_zone local_zone now : Z) (st : store).

Definition time_value (t : timestamp) : Z := match t with MinedAt unix => unix | CallTime => now end.

Definition depth (lb : option (string * Z)) (height : Z) : Z :=
  if height =? -1 then 0 else match lb with Some (_, h) => int64 (h - height + 1) | None => 0 end.

(** The transaction with its inputs and outputs in order, and its amounts
    added up from the rows of the store *)
Definition reference_view (lb : option (string * Z)) (tx : DbTx) : insightTx :=
  let vins := by_key iv_N (flat_map value_of (map (fun i => processTxInput i st) (db_Inputs tx))) in
  let vouts := by_key io_N (map fst (flat_map value_of (map (fun o => processTxOutput (db_TxID tx) o st) (db_Outputs tx)))) in
  let valueIn := zsum (map iv_ValueSat vins) in
  let valueOut := zsum (map out_SatAmount (db_Outputs tx)) in
  let coinbase := match vins with [v] => negb (bool_decide (iv_Coinbase v = "")) | _ => false end in
  {| it_TxID := db_TxID tx; it_Hash := db_Hash tx; it_Version := db_Version tx; it_Size := db_Size tx;
     it_VSize := db_VSize tx; it_Weight := db_Weight tx; it_Locktime := db_Locktime tx;
     it_Vin := Some (map Some vins); it_Vout := Some (map Some vouts); it_BlockHash := db_BlockHash tx; it_BlockHeight := db_BlockHeight tx;
     it_Confirmations := depth lb (db_BlockHeight tx); it_Time := time_value (db_Time tx);
     it_BlockTime := match db_BlockTime tx with Some _ => time_value (db_Time tx) | None => 0 end;
     it_IsCoinBase := coinbase; it_ValueOut := ToBTC (int64 valueOut);
     it_ValueIn := if coinbase then float_zero else ToBTC (int64 valueIn);
     it_Fees := if coinbase then None else Some (ToBTC (int64 (valueIn - valueOut))) |}.

Definition valid_zone (zone : Z) : Prop := Z.rem zone 60 = 0 ∧ Z.abs zone < 86400.

(** What the API can show: times of four-digit years, amounts [float64] can
    hold, and addresses that can be normalised. *)
Record showable : Prop := {
  sh_db_zone : valid_zone db_zone;
  sh_local_zone : valid_zone local_zone;
  sh_times : ∀ r, r ∈ rows (blocks st) → year0 ≤ Time (row r) + db_zone < year10000;
  sh_now : year0 ≤ now + local_zone < year10000;
  sh_amounts : ∀ o, o ∈ outputs st → Z.abs (o_amount o) < 2 ^ 26 * 10 ^ 8;
  sh_addresses : ∀ o, o ∈ outputs st → ∃ a, normalizeAddrFormat (o_address o) = Val a;
}.

Context (Hok : store_ok st) (Hsh : showable).

Lemma processTxInput_ok vin : ∃ v, processTxInput vin st = Val v ∧ iv_N v = in_Vin vin.
Proof.
  unfold processTxInput, GetOutputsByTxID. cbn [wrap_err mbind gores_bind].
  destruct (map output_of _) as [|o l] eqn:Hl; [by eexists|].
  assert (Ho : o ∈ o :: l) by left. rewrite <-Hl in Ho. apply list_elem_of_fmap in Ho as (r & -> & Hr).
  apply arrange_elem, list_elem_of_filter in Hr as [_ Hr]. destruct (sh_addresses Hsh r Hr) as (a & Ha).
  cbn. rewrite Ha. cbn. by eexists.
Qed.

Lemma processTxOutput_ok txid o :
  (∃ a, normalizeAddrFormat (out_Address o) = Val a) →
  ∃ v, processTxOutput txid o st = Val (v, None) ∧ io_N v = out_Vout o ∧ io_Value v = format_f8 (ToBTC (out_SatAmount o)).
Proof.
  intros (a & Ha). unfold processTxOutput. rewrite Ha.
  destruct (bool_decide (out_Address o = "unsupported addr")); cbn [mbind gores_bind];
    (eexists; split; [reflexivity|done]).
Qed.

Lemma time_text_ok t :
  (∀ u, t = MinedAt u → ∃ r, r ∈ rows (blocks st) ∧ u = Time (row r)) →
  ToUnixTimestamp (time_text db_zone local_zone now t) = Val (time_value t).
Proof.
  intros Ht. destruct (sh_db_zone Hsh), (sh_local_zone Hsh). destruct t as [u|]; cbn.
  - destruct (Ht u eq_refl) as (r & Hr & ->). by apply ToUnixTimestamp_Format; [..|apply (sh_times Hsh)].
  - by apply ToUnixTimestamp_Format; [..|apply (sh_now Hsh)].
Qed.

Lemma tx_block_row t b : tx_block st t = Some b → ∃ r, r ∈ rows (blocks st) ∧ row r = b ∧ IsOrphan b = false.
Proof.
  unfold tx_block. destruct (t_block_id t) as [id|]; [|done]. cbn.
  destruct (find _ (rows (blocks st))) as [r|] eqn:Hf; [|done]. intros [= <-].
  apply find_some in Hf as [Hin Hp]. exists r. split; [by apply list_elem_of_In|]. split; [done|].
  apply andb_true_iff in Hp as [_ Hp]. unfold on_chain in Hp. by destruct (IsOrphan (row r)).
Qed.

(** A block on the main chain makes [LastBlock] find one: no nil pointer. *)
Lemma confirmations_ok lb t :
  LastBlock st = Val lb →
  let height := match tx_block st t with Some b => Height b | None => -1 end in
  confirmations lb height = Val (depth lb height).
Proof.
  intros Hlb height. unfold confirmations, depth. destruct (Z.eqb_spec height (-1)) as [|Hne]; [done|].
  unfold height in Hne. destruct (tx_block st t) as [b|] eqn:Hb; [|done].
  destruct (tx_block_row t b Hb) as (r & Hr & Hrb & Ho).
  unfold LastBlock, highest in Hlb. injection Hlb as <-.
  pose proof (first_by_spec (fun r => - Height (row r)) (filter (fun r => IsOrphan (row r) = false) (rows (blocks st)))) as Hf.
  destruct (first_by _ _) as [top|]; [done|]. exfalso. apply (not_elem_of_nil r). rewrite <-Hf.
  apply list_elem_of_filter. by rewrite Hrb.
Qed.

Lemma NoDup_second {A} (f g : A → Z) (l : list A) c :
  NoDup (map (fun x => (f x, g x)) l) → (∀ x, x ∈ l → f x = c) → NoDup (map g l).
Proof.
  intros Hnd Hc. replace (map (fun x => (f x, g x)) l) with (map (pair c) (map g l)) in Hnd.
  - by apply (NoDup_fmap_1 (pair c)).
  - rewrite map_map. apply map_ext_in. intros x Hx%list_elem_of_In. by rewrite (Hc x Hx).
Qed.

(** Rows of one transaction have different positions. *)
Lemma rows_of_tx_NoDup {A} (tx pos : A → Z) (l : list A) txid :
  NoDup (map (fun r => (tx r, pos r)) l) →
  NoDup (map pos (filter (fun r => match tx_of st (tx r) with Some t => bool_decide (t_txid t = txid) | None => false end = true) l)).
Proof.
  intros Hnd.
  assert (Hid : ∀ r r' : A, match tx_of st (tx r) with Some t => bool_decide (t_txid t = txid) | None => false end = true →
    match tx_of st (tx r') with Some t => bool_decide (t_txid t = txid) | None => false end = true → tx r = tx r').
  { intros r r'. destruct (tx_of st (tx r)) as [t|] eqn:Ht; [|done]. destruct (tx_of st (tx r')) as [t'|] eqn:Ht'; [|done].
    intros H1%bool_decide_eq_true H2%bool_decide_eq_true.
    apply tx_of_Some in Ht as [Hin <-]. apply tx_of_Some in Ht' as [Hin' <-].
    rewrite (NoDup_map_inj t_txid (txs st) t t'); [done|apply Hok|done|done|congruence]. }
  set (P := fun r => _ = true) in *. change (∀ r r', P r → P r' → tx r = tx r') in Hid.
  destruct (filter P l) as [|r0 k] eqn:Hk; [constructor|]. rewrite <-Hk.
  assert (Hr0 : P r0) by (apply (list_elem_of_filter P l); rewrite Hk; left).
  apply (NoDup_second tx pos _ (tx r0)); [by apply NoDup_map_filter|].
  intros x [Hx _]%list_elem_of_filter. by apply Hid.
Qed.

(** What [GetTxByTxID] returns *)
Lemma GetTxByTxID_inv txid tx :
  GetTxByTxID txid st = Val tx →
  ∃ t, t ∈ txs st ∧ db_TxID tx = t_txid t ∧ t_txid t = txid ∧
    NoDup (map in_Vin (db_Inputs tx)) ∧ NoDup (map out_Vout (db_Outputs tx)) ∧
    (∀ o, o ∈ db_Outputs tx → ∃ r, r ∈ outputs st ∧ o = output_of r) ∧
    db_BlockHeight tx = match tx_block st t with Some b => Height b | None => -1 end ∧
    db_Time tx = match tx_block st t with Some b => MinedAt (Time b) | None => CallTime end.
Proof.
  unfold GetTxByTxID, scan_row. destruct (find _ (txs st)) as [t|] eqn:Hf; [|done]. cbn. intros [= <-].
  apply find_some in Hf as [Hin Ht]. apply bool_decide_eq_true in Ht. exists t. cbn.
  split; [by apply list_elem_of_In|]. split_and!; try done.
  - rewrite map_map, arrange_perm. apply (rows_of_tx_NoDup i_tx i_vin). apply Hok.
  - rewrite map_map, arrange_perm. erewrite (map_ext _ o_vout) by done.
    erewrite list_filter_iff; [apply (rows_of_tx_NoDup o_tx o_vout); apply Hok|].
    intros o. cbn. by rewrite andb_true_r.
  - intros o (r & -> & Hr)%list_elem_of_fmap. apply arrange_elem, list_elem_of_filter in Hr as [_ Hr]. by exists r.
Qed.

(** The goroutine of a transaction stores its reference view, in whatever order
    the results of its inputs and outputs arrive, and sends no error. *)
Lemma tx_goroutine_reference arrive lb txid tx :
  (∀ l, arrive l ≡ₚ l) → LastBlock st = Val lb → GetTxByTxID txid st = Val tx →
  tx_goroutine db_zone local_zone now arrive lb txid st = Val (Some (reference_view lb tx), []).
Proof.
  intros Harr Hlb Htx. destruct (GetTxByTxID_inv txid tx Htx) as (t & Hin & Hid & Htid & Hvin & Hvout & Houts & Hh & Htime).
  unfold tx_goroutine, reference_view. rewrite Htx.
  destruct (map_Val (fun i => processTxInput i st) (fun i v => iv_N v = in_Vin i) (db_Inputs tx)) as (vs & -> & Hvs).
  { intros i _. apply processTxInput_ok. }
  destruct (map_Val (fun o => processTxOutput (db_TxID tx) o st)
    (fun o v => v.2 = None ∧ io_N v.1 = out_Vout o ∧ sats_of v.1 = out_SatAmount o ∧ readable v.1) (db_Outputs tx)) as (os & -> & Hos).
  { intros o Ho. destruct (Houts o Ho) as (r & Hr & ->).
    destruct (processTxOutput_ok (db_TxID tx) (output_of r) (sh_addresses Hsh r Hr)) as (v & Hv & Hn & Hval).
    assert (Hs : ToSatoshi (io_Value v) = Val (o_amount r)).
    { rewrite Hval. apply ToSatoshi_format_ToBTC, (sh_amounts Hsh r Hr). }
    exists (v, None). split; [done|]. unfold readable, sats_of. cbn [fst snd]. by rewrite Hs. }
  rewrite !no_panic_Val, !value_of_Val, !error_of_Val. cbn [mbind gores_bind]. rewrite bool_decide_eq_true_2 by done. cbn [app].
  set (arrivals := arrive _).
  assert (Hp : arrivals ≡ₚ map GotVin vs ++ map (fun o => GotVout o.1) os) by apply Harr.
  assert (Hpv : vins_of arrivals ≡ₚ vs) by (unfold vins_of; rewrite Hp; apply reflexive_eq, vins_of_arrivals).
  assert (Hpo : vouts_of arrivals ≡ₚ map fst os) by (unfold vouts_of; rewrite Hp; apply reflexive_eq, vouts_of_arrivals).
  assert (Hsats : map sats_of (map fst os) = map out_SatAmount (db_Outputs tx)).
  { rewrite map_map. apply Forall2_map_eq. eapply Forall2_impl; [|exact Hos]. by intros o v (_ & _ & ? & _). }
  rewrite (collect_all nothing_collected arrivals 0 0); [|rewrite Hpo| done | done].
  2:{ apply Forall_map. clear -Hos. induction Hos as [|o v l k (_ & _ & _ & Hr)]; by constructor. }
  cbn [mbind gores_bind]. unfold make_view. cbn [c_vins c_vouts c_valueIn c_valueOut nothing_collected app].
  rewrite (sort_any_by_key iv_N _ vs Hpv), (sort_any_by_key io_N _ (map fst os) Hpo).
  2:{ rewrite map_map. erewrite (Forall2_map_eq out_Vout); [exact Hvout|]. eapply Forall2_impl; [|exact Hos]. by intros o v (_ & ? & _). }
  2:{ erewrite (Forall2_map_eq in_Vin); [exact Hvin|exact Hvs]. }
  rewrite time_text_ok.
  2:{ rewrite Htime. destruct (tx_block st t) as [b|] eqn:Hb; [|done]. intros u [= <-].
      destruct (tx_block_row t b Hb) as (r & Hr & <- & _). by exists r. }
  cbn [wrap_err mbind gores_bind]. rewrite Hh, (confirmations_ok lb t Hlb). cbn [mbind gores_bind].
  rewrite (zsum_perm _ _ (Permutation_map sats_of Hpo)), Hsats.
  rewrite (zsum_perm _ _ (Permutation_map iv_ValueSat Hpv)).
  assert (Hby : zsum (map iv_ValueSat (by_key iv_N vs)) = zsum (map iv_ValueSat vs)).
  { apply zsum_perm, Permutation_map. apply merge_sort_Permutation. }
  rewrite Hby, !Z.add_0_l, int64_sub.
  assert (omap snd os = []) as ->; [|done].
  clear -Hos. induction Hos as [|o v l k (Hn & _) _ IH]; [done|]. cbn [omap list_omap]. by rewrite Hn.
Qed.

Lemma getTxs_views (arrive : nat → list arrival → list arrival) pick txids txs lb :
  (∀ k l, arrive k l ≡ₚ l) → LastBlock st = Val lb → Forall2 (fun txid tx => GetTxByTxID txid st = Val tx) txids txs →
  ∃ views, getTxs db_zone local_zone now arrive pick txids st = Val views ∧
    views ≡ₚ map (reference_view lb) txs ∧ StronglySorted (fun a b => it_BlockHeight b ≤ it_BlockHeight a) views.
Proof.
  intros Harr Hlb Htxs. unfold getTxs. rewrite Hlb. cbn [wrap_err mbind gores_bind].
  rewrite (mapM_Val _ (fun tx => (Some (reference_view lb tx), [])) _ txs).
  2:{ eapply Forall2_impl; [|exact (Forall2_imap_pair _ _ _ id Htxs)]. intros [k txid] tx Htx.
      by apply tx_goroutine_reference. }
  cbn [mbind gores_bind].
  assert (flat_map snd (map (fun tx => (Some (reference_view lb tx), @nil gerror)) txs) = []) as -> by (clear; by induction txs).
  assert (omap fst (map (fun tx => (Some (reference_view lb tx), @nil gerror)) txs) = map (reference_view lb) txs) as ->.
  { clear. induction txs as [|tx txs IH]; [done|]. cbn [map omap list_omap fst]. by f_equal. }
  eexists. split; [done|]. split; [apply sort_any_perm|apply sort_any_desc].
Qed.

(** A transaction of the store is found. *)
Lemma GetTxByTxID_found txid : txid ∈ map t_txid (txs st) → ∃ tx, GetTxByTxID txid st = Val tx ∧ db_TxID tx = txid.
Proof.
  intros (t & -> & Hin)%list_elem_of_fmap. unfold GetTxByTxID, scan_row.
  destruct (find _ (txs st)) as [t'|] eqn:Hf.
  - eexists. split; [done|]. cbn. apply find_some in Hf as [_ Hf]. by apply bool_decide_eq_true in Hf.
  - exfalso. apply list_elem_of_In in Hin. apply (find_none _ _ Hf) in Hin. by apply bool_decide_eq_false in Hin.
Qed.

(** C23. Where every stored amount is below 2^26 coins, the addresses can be
    normalised and the times have four-digit years ([showable]), [getTxs] returns
    the reference view of each transaction asked for, by falling height with the
    mempool last: the concurrent goroutines, in whatever order their results and
    the rows of the database arrive, agree with the sequential computation from
    the rows, in which the amounts are added up as integers; the detour of the
    amounts through floating point and of the times through text changes
    nothing. *)
Theorem getTxs_reference (arrive : nat → list arrival → list arrival) pick txids lb :
  (∀ k l, arrive k l ≡ₚ l) → LastBlock st = Val lb → (∀ txid, txid ∈ txids → txid ∈ map t_txid (txs st)) →
  ∃ views txs, getTxs db_zone local_zone now arrive pick txids st = Val views ∧
    Forall2 (fun txid tx => GetTxByTxID txid st = Val tx) txids txs ∧ views ≡ₚ map (reference_view lb) txs ∧
    StronglySorted (fun a b => it_BlockHeight b ≤ it_BlockHeight a) views.
Proof.
  intros Harr Hlb Hin.
  destruct (map_Val (fun txid => GetTxByTxID txid st) (fun txid tx => GetTxByTxID txid st = Val tx) txids) as (txs & _ & Htxs).
  { intros txid Ht. destruct (GetTxByTxID_found txid (Hin txid Ht)) as (tx & Htx & _). by exists tx. }
  destruct (getTxs_views arrive pick txids txs lb Harr Hlb Htxs) as (views & ? & ? & ?). by exists views, txs.
Qed.

(** The unspent output with its amount and depth *)
Definition reference_utxo (lb : option (string * Z)) (u : DbUtxo) : insightUtxo :=
  {| iu_Address := match normalizeAddrFormat (u_Address u) with Val a => a | _ => "" end;
     iu_TxID := u_TxID u; iu_Vout := u_Vout u; iu_ScriptPubKey := u_Hex u; iu_ReqSigs := u_ReqSigs u;
     iu_Type := u_Type u; iu_Amount := ToBTC (u_SatAmount u); iu_Satoshis := u_SatAmount u;
     iu_BlockHeight := u_BlockHeight u; iu_Confirmations := depth lb (u_BlockHeight u);
     iu_Timestamp := time_value (u_Timestamp u) |}.

Lemma GetUtxosByAddrs_rows addrs u us :
  GetUtxosByAddrs addrs st = Val us → u ∈ us →
  ∃ o t, o ∈ outputs st ∧ o_address o ∈ addrs ∧ u = utxo_of st o t.
Proof.
  intros [= <-] (o & Ho & H)%arrange_elem%list_elem_of_omap. destruct (tx_of st (o_tx o)) as [t|]; [|done]. cbn in H.
  destruct (bool_decide _) eqn:Ha; cbn in H; [|done]. apply bool_decide_eq_true in Ha.
  destruct (is_spent _ _ _); [done|]. injection H as <-. by exists o, t.
Qed.

(** [getUtxos] shows the unspent outputs of the addresses, confirmed before
    unconfirmed and by falling height, with exact amounts, and never fails. *)
Lemma getUtxos_reference addrs us lb :
  LastBlock st = Val lb → GetUtxosByAddrs addrs st = Val us →
  ∃ utxos, getUtxos db_zone local_zone now addrs st = Val utxos ∧ utxos ≡ₚ map (reference_utxo lb) us ∧
    StronglySorted (fun a b => iu_BlockHeight b ≤ iu_BlockHeight a) utxos.
Proof.
  intros Hlb Hus. unfold getUtxos. rewrite Hlb, Hus. cbn [wrap_err mbind gores_bind].
  rewrite (mapM_Val _ (reference_utxo lb) _ us).
  - cbn [mbind gores_bind]. eexists. split; [done|]. split; [apply sort_any_perm|apply sort_any_desc].
  - apply Forall_Forall2_diag, list.Forall_forall. intros u Hu.
    destruct (GetUtxosByAddrs_rows addrs u us Hus Hu) as (o & t & Ho & _ & ->).
    unfold utxo_view, reference_utxo. cbn [u_Timestamp u_BlockHeight u_Address u_SatAmount utxo_of].
    rewrite time_text_ok, (confirmations_ok lb t Hlb).
    + cbn [wrap_err mbind gores_bind]. by destruct (sh_addresses Hsh o Ho) as (a & ->).
    + destruct (tx_block st t) as [b|] eqn:Hb; [|done]. intros u [= <-].
      destruct (tx_block_row t b Hb) as (r & Hr & <- & _). by exists r.
Qed.

End reference.

Lemma normalizeAddrFormat_other {btc : Btcutil} addr : HasPrefix addr "bitcoincash:" = false → normalizeAddrFormat addr = Val addr.
Proof. intros H. unfold normalizeAddrFormat. by rewrite H. Qed.

(** ** Concrete views *)

(** A sort and an address encoding that behave as documented. *)
Definition merge_any : SortAny := fun A less l => merge_sort (not_less less) l.

Lemma merge_any_laws : SortAnyLaws merge_any.
Proof.
  split.
  - intros A less l. apply merge_sort_Permutation.
  - intros A less key Hk l. set (R := not_less less).
    assert (HR : ∀ a b, R a b ↔ key a ≤ key b) by (intros a b; unfold R, not_less; rewrite Hk; lia).
    assert (Total R) by (intros a b; rewrite !HR; lia).
    assert (Transitive R) by (intros a b c; rewrite !HR; lia).
    eapply StronglySorted_weaken; [intros a b; apply HR|]. apply (StronglySorted_merge_sort R).
Qed.

Definition test_btcutil : Btcutil :=
  {| pkh_address := fun hash => if (length hash =? 20)%nat then Val (EncodeToString hash) else Err (ENew "pkHash must be 20 bytes");
     script_hash := fun addr => match DecodeString addr with Some l => Val l | None => Err (ENew "decoded address is of unknown format") end |}.

Lemma store2_ok : store_ok store2.
Proof. apply store_ok_history, store1_ok. Qed.

Lemma store2_showable : @showable test_btcutil 3600 (-18000) 1573776000 store2.
Proof.
  split.
  - done.
  - done.
  - apply list.Forall_forall. apply (bool_decide_unpack _). vm_compute. exact I.
  - done.
  - apply list.Forall_forall. apply (bool_decide_unpack _). vm_compute. exact I.
  - intros o Ho. exists (o_address o). apply normalizeAddrFormat_other. revert o Ho.
    apply list.Forall_forall. apply (bool_decide_unpack _). vm_compute. exact I.
Qed.

Lemma getTxs_reference_witness :
  ∃ views txs, @getTxs merge_any reverse_order test_btcutil 3600 (-18000) 1573776000 (fun _ => rev (A:=arrival)) (fun e _ => e) ["t2"; "t1"] store2 = Val views ∧
    Forall2 (fun txid tx => @GetTxByTxID reverse_order txid store2 = Val tx) ["t2"; "t1"] txs ∧
    views ≡ₚ map (@reference_view reverse_order test_btcutil 1573776000 store2 (Some ("a1", 1))) txs ∧
    StronglySorted (fun a b => it_BlockHeight b ≤ it_BlockHeight a) views.
Proof.
  apply (@getTxs_reference merge_any merge_any_laws reverse_order test_btcutil 3600 (-18000) 1573776000 store2 store2_ok store2_showable).
  - intros _ l. apply Permutation_sym, Permutation_rev.
  - by vm_compute.
  - apply list.Forall_forall, (bool_decide_unpack _). vm_compute. exact I.
Defined.

(** The pending transaction comes last. *)
Example getTxs_example :
  (fun l => map (fun v => (it_TxID v, it_Confirmations v)) l) <$>
    @getTxs merge_any reverse_order test_btcutil 3600 (-18000) 1573776000 (fun _ => rev (A:=arrival)) (fun e _ => e) ["t2"; "t1"] store2 =
  Val [("t1", 1); ("t2", 0)].
Proof. by vm_compute. Qed.
