(* ===== verification/InsightApi.v ===== *)
(** * InsightApi: the handlers of the insight API

    src/V2/pkg/api/insight/insight.go.  A handler takes the parameters of its
    request and returns the response it writes; the middlewares in front of it
    take the next handler.  The bodies are the values the encoders get. *)

From stdpp Require Import base list strings gmap sorting numbers.
From Stdlib Require Import ZArith Lia Ascii.
From S2P Require Import Prelude GoStrings Convert Amounts Timestamps Pagination Config Json JsonText Cashaddr Utxo BlockTable Store Postgres Ledger Indexer InsightTypes Insight.

Local Open Scope Z_scope.

Definition DEFAULT_TXS : Z := 10.
Definition MAX_TRANSACTIONS : Z := 50.
Definition MAX_ADDRESSES : Z := 50.
Definition BCH : string := "bch".

(** The bodies: an error, a text, and the structs of the handlers
    ([insightBlock], [insightTxHistoryByAddrs], [insightTxsByBlock], ...). *)
Inductive body :=
| ErrorBody (e : gerror)
| TextBody (s : string)
| StatusBody (lastBlockHash : string)
| BlockBody (b : BlockHeader) (confirmations : Z)
| TxBody (tx : insightTx)
| RawTxBody (rawtx : string)
| TxsByBlock (pagesTotal : Z) (txs : list insightTx)
| TxIDBody (txid : string)
| TxHistory (totalItems from to : Z) (items : list insightTx)
| Utxos (l : list insightUtxo).

Record response := { code : Z; content : body }.

(** [http.Error(w, fmt.Sprintf("%v\n", err), code)] *)
Definition http_error (c : Z) (e : gerror) : gores response := Val {| code := c; content := ErrorBody e |}.
Definition ok (b : body) : gores response := Val {| code := 200; content := b |}.

(** [if err != nil { ...; http.Error(w, ..., c); return }] *)
Definition or_error {A} (c : Z) (r : gores A) (k : A → gores response) : gores response :=
  match r with
  | Val a => k a
  | Err e => http_error c e
  | Panic p => Panic p
  | Exit e => Exit e
  end.

(** ** strings.TrimSpace *)

(** Removes elements of [sps] from the front; each is at least one byte long *)
Fixpoint trim (fuel : nat) (sps : list (list Z)) (l : list Z) : list Z :=
  match fuel with
  | O => l
  | S fuel =>
      match omap (fun sp => GoStrings.strip sp l) sps with
      | rest :: _ => trim fuel sps rest
      | [] => l
      end
  end.

Definition TrimSpace (s : string) : string :=
  let l := bytes s in
  let l := trim (length l) spaces l in
  of_bytes (rev (trim (length l) (map (rev (A:=Z)) spaces) (rev l))).

(** [func splitAndTrim(str string) []string] *)
Definition splitAndTrim (str : string) : list string := map TrimSpace (Split "," str).

(** ** Middlewares *)

(** What a handler is, once it has its request: a response, or a response that
    depends on and changes what is outside.  [replying r] answers with [r]. *)
Class Replies (R : Type) := replying : gores response → R.
#[export] Instance gores_replies : Replies (gores response) := fun r => r.
#[export] Instance act_replies {W} : Replies (act W response) := fun r w => (r, w).

(** [func (i *InsightServer) CoinCtx(next http.Handler) http.Handler] *)
Definition CoinCtx {R} `{!Replies R} (config : Config) (coin : string) (next : string → R) : R :=
  match GetCoin config coin with
  | Val _ => next coin
  | Err _ => replying (Val {| code := 400; content := TextBody ("invalid coin: [" ++ coin ++ "], must be one of the following: [" ++ Join (ListCoins config) " " ++ "]") |})
  | Panic p => replying (Panic p)
  | Exit e => replying (Exit e)
  end.

(** [func (i *InsightServer) AddressesCtx(next http.Handler) http.Handler] *)
Definition AddressesCtx {R} (addrs : string) (next : string → R) : R := next addrs.

Section api.
Context {sorting : SortAny} {order : RowOrder} {btc : Btcutil}.
Context (db_zone local_zone now : Z) (arrive : nat → list arrival → list arrival) (pick : gerror → list gerror → gerror).

(** The loop of [BCHInterceptor]; an address that does not decode is a nil
    interface, on which [ScriptAddress] is called *)
Definition cash_address (addr : string) : gores string :=
  match script_hash addr with
  | Val hash =>
      encoded ← CheckEncodeCashAddress hash "bitcoincash" P2PKH;
      Val ("bitcoincash:" ++ encoded)%string
  | Err _ => Panic NilDereference
  | Panic p => Panic p
  | Exit e => Exit e
  end.

(** [func (i *InsightServer) BCHInterceptor(next http.Handler) http.Handler];
    [param] is the parameter of the path, [addrs] the value in the context *)
Definition BCHInterceptor {R} `{!Replies R} (coin param addrs : string) (next : string → R) : R :=
  if bool_decide (coin = BCH) then
    match mapM cash_address (splitAndTrim param) with
    | Val cashAddrs => next (Join cashAddrs ",")
    | Err e => replying (Err e)
    | Panic p => replying (Panic p)
    | Exit e => replying (Exit e)
    end
  else next addrs.

(** ** Handlers *)

(** [func (i *InsightServer) Status(w http.ResponseWriter, r *http.Request)] *)
Definition Status (q : string) (st : store) : gores response :=
  if bool_decide (q = "getLastBlockHash") then
    or_error 500 (LastBlock st) (fun lb =>
      match lb with
      | Some (hash, _) => ok (StatusBody hash)
      | None => Panic NilDereference
      end)
  else ok (TextBody "unknown query parameter").

(** [func (i *InsightServer) BlockByBlockHash(w http.ResponseWriter, r *http.Request)] *)
Definition BlockByBlockHash (blockHash : string) (st : store) : gores response :=
  or_error 500 (LastBlock st) (fun lb =>
  or_error 500 (GetBlock (ByHash blockHash) st) (fun block =>
    match lb with
    | Some (_, height) =>
        ok (BlockBody block (if IsOrphan block then -1 else int64 (height - Height block + 1)))
    | None => Panic NilDereference
    end)).

(** [func (i *InsightServer) TxByTxID(w http.ResponseWriter, r *http.Request)] *)
Definition TxByTxID (txid : string) (st : store) : gores response :=
  or_error 500 (getTxs db_zone local_zone now arrive pick [txid] st) (fun txs =>
    match txs with tx :: _ => ok (TxBody tx) | [] => Panic IndexOutOfRange end).

(** [func (i *InsightServer) RawTxByTxID(w http.ResponseWriter, r *http.Request)] *)
Definition RawTxByTxID (txid : string) (st : store) : gores response :=
  or_error 500 (GetRawTxByTxID txid st) (fun rawTx => ok (RawTxBody rawTx)).

Definition pageSize : Z := 100.

(** [int(x)] of a [float64] *)
Definition float_trunc (x : float64) : Z :=
  let '(num, den) := scaled (f_mant x) 1 (- f_exp x) in
  if f_neg x then - (num / den) else num / den.

(** [int(math.Floor(float64(total+pageSize-1)) / float64(pageSize))]; the floor
    of a converted integer is that integer *)
Definition total_pages (total : Z) : Z :=
  float_trunc (div_by (of_int64 (int64 (int64 (total + pageSize) - 1))) pageSize).

(** [func (i *InsightServer) TxsByBlockHash(w http.ResponseWriter, r *http.Request)] *)
Definition TxsByBlockHash (block pageNum : string) (st : store) : gores response :=
  if bool_decide (block = "") then Val {| code := 400; content := TextBody "Block hash or address expected" |}
  else
    let limitClause := limit_clause pageSize in
    let offsetClause := offset_clause (int64 ((Atoi pageNum).1 * pageSize)) in
    or_error 500 (GetTxHashesByBlockHash block (limit_of limitClause) (offset_of offsetClause) st) (fun txIds =>
    or_error 500 (getTxs db_zone local_zone now arrive pick txIds st) (fun txs =>
      let total := match GetTotalTxsByBlockHash block st with Val n => n | _ => 0 end in
      ok (TxsByBlock (total_pages total) txs))).

(** [func decodeRequest(b interface{}, r *http.Request) error] for the struct of
    [SendRawTx]; [form] is what [ParseForm] and package schema make of the request *)
Definition decodeRequest (form : gores string) (contentType : string) (text : string) : gores string :=
  if bool_decide (contentType = "application/x-www-form-urlencoded") then form
  else
    match parse text with
    | Some j =>
        match dec_struct (fun old kvs => dec_field ["rawtx"] "rawtx" dec_string old kvs) "" j with
        | (rawTx, true) => Val rawTx
        | (_, false) => Err (EWrap "error decoding body from json" (ENew "json: cannot unmarshal"))
        end
    | None => Err (EWrap "error decoding body from json" (ENew "invalid JSON"))
    end.

(** [func (i *InsightServer) SendRawTx(w http.ResponseWriter, r *http.Request)]; [decoded] is
    what [decodeRequest] makes of the request, [send] is [bc.SendRawTransaction] *)
Definition SendRawTx {T} (decoded : gores string) (send : string → act T string) : act T response := fun t =>
  match decoded with
  | Val rawTx => let '(r, t) := send rawTx t in (or_error 500 r (fun txid => ok (TxIDBody txid)), t)
  | Err e => (http_error 400 (EWrap "error decoding request" e), t)
  | Panic p => (Panic p, t)
  | Exit e => (Exit e, t)
  end.

(** [func (i *InsightServer) TxHistoryByAddrs(w http.ResponseWriter, r *http.Request)] *)
Definition TxHistoryByAddrs (addrs from to : string) (st : store) : gores response :=
  or_error 422 (TraditionalPagintion from to DEFAULT_TXS MAX_TRANSACTIONS) (fun tp =>
    let splitAddrs := splitAndTrim addrs in
    or_error 500 (GetTxIDsByAddresses splitAddrs (limit_of (LimitClause tp)) (offset_of (OffsetClause tp)) st) (fun txids =>
    or_error 500 (getTxs db_zone local_zone now arrive pick txids st) (fun txs =>
      let len := Z.of_nat (length txs) in
      let to := if len <? int64 (ToPage tp - FromPage tp) then int64 (FromPage tp + len) else ToPage tp in
      or_error 500 (GetTotalTxsByAddresses splitAddrs st) (fun totalCount =>
        ok (TxHistory totalCount (FromPage tp) to txs))))).

(** [func (i *InsightServer) UtxosByAddrs(w http.ResponseWriter, r *http.Request)] *)
Definition UtxosByAddrs (addrs : string) (st : store) : gores response :=
  let splitAddrs := splitAndTrim addrs in
  if Z.of_nat (length splitAddrs) >? MAX_ADDRESSES then
    Val {| code := 422; content := TextBody ("You have requested " ++ Itoa (Z.of_nat (length splitAddrs))
             ++ " addresses. Max: " ++ Itoa MAX_ADDRESSES) |}
  else or_error 500 (getUtxos db_zone local_zone now splitAddrs st) (fun outputs => ok (Utxos outputs)).

(** The routes [/api/insight/{coin}/addrs/{addrs}/txs] and [.../utxo] of
    src/V2/cmd/api/main.go *)
Definition history_route (config : Config) (coin addrs from to : string) (st : store) : gores response :=
  CoinCtx config coin (fun coin => AddressesCtx addrs (fun ctx => BCHInterceptor coin addrs ctx (fun a =>
    TxHistoryByAddrs a from to st))).

Definition utxo_route (config : Config) (coin addrs : string) (st : store) : gores response :=
  CoinCtx config coin (fun coin => AddressesCtx addrs (fun ctx => BCHInterceptor coin addrs ctx (fun a =>
    UtxosByAddrs a st))).

End api.

(** ** Pages *)

(** The floating point computation of the number of pages rounds up. *)
Lemma total_pages_ceil total : 0 ≤ total < 2 ^ 31 → total_pages total = (total + 99) / 100.
Proof.
  intros Ht. unfold total_pages, pageSize.
  rewrite (int64_id (total + 100)), int64_id by (unfold in_int64, two63; lia).
  set (z := total + 100 - 1). assert (Hz : 0 < z < 2 ^ 32) by (unfold z; lia).
  assert (Z.log2 z < 32) by (apply Z.log2_lt_pow2; lia). replace (total + 99) with z by (unfold z; lia).
  destruct (div_by_near z 100) as (m & k & Hk & -> & Herr & _);
    [lia|lia|done|rewrite Z.abs_eq by lia; change (Z.log2 100) with 6; lia|].
  rewrite (Z.abs_eq z) in Hk, Herr by lia. change (Z.log2 100) with 6 in Hk.
  unfold float_trunc. cbn [f_neg f_mant f_exp]. unfold scaled. rewrite (proj2 (Z.ltb_ge z 0)) by lia.
  replace (Z.max 0 (- - k)) with k by lia. replace (Z.max 0 (- - - k)) with 0 by lia.
  rewrite Z.pow_0_r, Z.mul_1_r, Z.mul_1_l.
  assert (Hp : 2 ^ 26 ≤ 2 ^ k) by (apply Z.pow_le_mono_r; lia). change (2 ^ 26) with 67108864 in Hp.
  pose proof (Z.div_mod z 100 ltac:(lia)). pose proof (Z.mod_pos_bound z 100 ltac:(lia)).
  symmetry. apply (Z.div_unique_pos _ _ _ (m - 2 ^ k * (z / 100))); nia.
Qed.

Lemma concat_slices {A} (n : nat) (pages : nat) (l : list A) :
  (length l ≤ n * pages)%nat → concat (map (fun p => take n (drop (n * p) l)) (seq 0 pages)) = l.
Proof.
  revert l. induction pages as [|pages IH]; intros l Hl; [destruct l; [done|cbn in Hl; lia]|].
  transitivity (take n l ++ drop n l); [|apply take_drop].
  cbn [seq map concat]. rewrite Nat.mul_0_r, drop_0. f_equal.
  rewrite <-seq_shift, map_map. rewrite <-(IH (drop n l)) by (rewrite length_drop; lia).
  f_equal. apply map_ext. intros p. rewrite drop_drop. do 2 f_equal. lia.
Qed.

(** ** Lists of addresses *)

(** Visible characters other than the comma *)
Definition plain_addr (s : string) : Prop := Forall (fun c => 33 ≤ c ≤ 126 ∧ c ≠ 44) (bytes s).

Lemma trim_none fuel sps l :
  Forall (fun sp => match sp with a :: _ => negb ((33 <=? a) && (a <=? 126)) | [] => false end = true) sps →
  (∀ c, head l = Some c → 33 ≤ c ≤ 126) → trim fuel sps l = l.
Proof.
  intros Hs Hl. destruct fuel as [|fuel]; [done|]. cbn [trim].
  assert (omap (fun sp => GoStrings.strip sp l) sps = []) as ->; [|done].
  induction Hs as [|sp sps Hsp _ IH]; [done|]. cbn [omap list_omap].
  destruct sp as [|a sp]; [done|]. destruct l as [|b l]; cbn [GoStrings.strip]; [done|].
  specialize (Hl b eq_refl). destruct (Z.eqb_spec a b) as [->|]; [|done]. lia.
Qed.

Lemma TrimSpace_plain s : plain_addr s → TrimSpace s = s.
Proof.
  intros Hs. unfold TrimSpace, plain_addr in *.
  assert (Hhead : ∀ l : list Z, Forall (fun c => 33 ≤ c ≤ 126 ∧ c ≠ 44) l → ∀ c, head l = Some c → 33 ≤ c ≤ 126).
  { intros l Hl c Hc. destruct Hl as [|x l [Hx _] _]; [done|]. cbn in Hc. injection Hc as <-. done. }
  rewrite (trim_none _ spaces); [|by apply (bool_decide_unpack _); vm_compute|by apply Hhead].
  rewrite (trim_none _ (map _ spaces)); [|by apply (bool_decide_unpack _); vm_compute|by apply Hhead, Forall_rev].
  rewrite rev_involutive. apply of_bytes_bytes.
Qed.

Lemma splitAndTrim_Join l : l ≠ [] → Forall plain_addr l → splitAndTrim (Join l ",") = l.
Proof.
  intros Hne Hl. unfold splitAndTrim. rewrite (Split_Join "," l); [|done|].
  - rewrite <-(map_id l) at 2. apply map_ext_in. intros s Hs. apply TrimSpace_plain.
    rewrite List.Forall_forall in Hl. by apply Hl.
  - eapply Forall_impl; [|exact Hl]. intros s Hs Hin. unfold plain_addr in Hs. rewrite list.Forall_forall in Hs.
    by destruct (Hs _ Hin) as [_ []].
Qed.

Section handlers.
Context {sorting : SortAny} {laws : SortAnyLaws sorting} {order : RowOrder} {btc : Btcutil}.
Context (db_zone local_zone now : Z) (arrive : nat → list arrival → list arrival) (pick : gerror → list gerror → gerror).
Context (st : store) (Hok : store_ok st) (Hsh : showable db_zone local_zone now st) (Harr : ∀ k l, arrive k l ≡ₚ l).

Lemma block_txs_stored hash t : t ∈ block_txs hash st → t_txid t ∈ map t_txid (txs st).
Proof. intros [_ Hin]%list_elem_of_filter. by apply list_elem_of_fmap_2. Qed.

(** The views of transactions read from the store, by falling height *)
Definition shows (lb : option (string * Z)) (txids : list string) (views : list insightTx) : Prop :=
  ∃ txs, Forall2 (fun txid tx => GetTxByTxID txid st = Val tx) txids txs ∧
    views ≡ₚ map (reference_view now st lb) txs ∧ StronglySorted (fun a b => it_BlockHeight b ≤ it_BlockHeight a) views.

Lemma getTxs_shows txids :
  (∀ txid, txid ∈ txids → txid ∈ map t_txid (txs st)) →
  ∃ lb views, LastBlock st = Val lb ∧ getTxs db_zone local_zone now arrive pick txids st = Val views ∧ shows lb txids views.
Proof.
  intros Hin. eexists.
  destruct (map_Val (fun txid => GetTxByTxID txid st) (fun txid tx => GetTxByTxID txid st = Val tx) txids) as (txs & _ & Htxs).
  { intros txid Ht. destruct (GetTxByTxID_found st txid (Hin txid Ht)) as (tx & Htx & _). by exists tx. }
  destruct (getTxs_views db_zone local_zone now st Hok Hsh arrive pick txids txs _ Harr eq_refl Htxs) as (views & ? & ? & ?).
  exists views. split; [done|]. split; [done|]. by exists txs.
Qed.

Lemma shows_ids lb txids views :
  shows lb txids views → map it_TxID views ≡ₚ txids.
Proof.
  intros (txs & Htxs & Hp & _). rewrite Hp, map_map. apply reflexive_eq. cbn. rewrite <-(map_id txids).
  apply Forall2_map_eq. eapply Forall2_impl; [|exact Htxs]. intros txid tx Htx.
  by destruct (GetTxByTxID_inv st Hok txid tx Htx) as (t & _ & -> & -> & _).
Qed.

Lemma block_txs_NoDup hash : NoDup (map t_txid (block_txs hash st)).
Proof. apply NoDup_map_filter. apply Hok. Qed.

(** The transactions of a page: the database arranges them anew for each. *)
Definition page_ids (hash : string) (p : Z) : list string :=
  map t_txid (take 100 (drop (100 * Z.to_nat p) (arrange (TxHashesOf hash (Some 100) (Some (p * 100))) (block_txs hash st)))).

Lemma page_ids_NoDup hash p : NoDup (page_ids hash p).
Proof.
  unfold page_ids. eapply sublist_NoDup; [|apply fmap_sublist; etrans; [apply sublist_take|apply sublist_drop]].
  rewrite arrange_perm. apply block_txs_NoDup.
Qed.

Lemma page_ids_stored hash p txid : txid ∈ page_ids hash p → txid ∈ map t_txid (block_txs hash st).
Proof.
  intros (t & -> & Ht)%list_elem_of_fmap. apply (list_elem_of_fmap_2 t_txid).
  rewrite <-(arrange_elem (TxHashesOf hash (Some 100) (Some (p * 100)))).
  eapply elem_of_sublist; [exact Ht|]. etrans; [apply sublist_take|apply sublist_drop].
Qed.

Lemma page_ids_length hash p :
  0 ≤ p → Z.of_nat (length (page_ids hash p)) = Z.min 100 (Z.max 0 (Z.of_nat (length (block_txs hash st)) - 100 * p)).
Proof. intros Hp. unfold page_ids. rewrite length_map, length_take, length_drop, arrange_perm. lia. Qed.

Lemma TxsByBlockHash_page hash p :
  hash ≠ "" → 0 ≤ p < 2 ^ 24 → Z.of_nat (length (block_txs hash st)) < 2 ^ 31 →
  ∃ lb views, LastBlock st = Val lb ∧ TxsByBlockHash db_zone local_zone now arrive pick hash (Itoa p) st =
      ok (TxsByBlock ((Z.of_nat (length (block_txs hash st)) + 99) / 100) views) ∧
    shows lb (page_ids hash p) views.
Proof.
  intros Hh Hp Hlen. unfold TxsByBlockHash. rewrite bool_decide_eq_false_2 by done.
  rewrite Atoi_Itoa by (unfold in_int64, two63; lia). cbn [fst]. unfold pageSize.
  rewrite (int64_id (p * 100)), limit_of_clause, offset_of_clause by (unfold in_int64, two63; lia).
  unfold GetTxHashesByBlockHash, paginate. rewrite (proj2 (Z.ltb_ge (p * 100) 0)) by lia. cbn [Z.ltb Z.compare orb].
  cbn [wrap_err mbind gores_bind or_error].
  replace (Z.to_nat (p * 100)) with (100 * Z.to_nat p)%nat by lia. change (Z.to_nat 100) with 100%nat.
  fold (page_ids hash p).
  destruct (getTxs_shows (page_ids hash p)) as (lb & views & Hlb & -> & Hv).
  - by intros txid (t & -> & Ht)%page_ids_stored%list_elem_of_fmap; apply (block_txs_stored hash).
  - exists lb, views. cbn [or_error GetTotalTxsByBlockHash]. by rewrite total_pages_ceil by lia.
Qed.

(** C29. A page of a block is answered with the number of pages, which floating
    point computes as the number of hundreds rounded up, and with transactions of
    the block, none twice, shown as [getTxs] shows them: a hundred of them on
    each page but the last, which has the rest.  A block of up to a hundred
    transactions is shown whole.  Which transactions of a longer block come on
    which page is up to the database, since the query has no [ORDER BY].  What is
    stored can be shown ([showable]: amounts below 2^26 coins, addresses that can be
    normalised, years of four digits). *)
Theorem TxsByBlockHash_shows hash p :
  hash ≠ "" → Z.of_nat (length (block_txs hash st)) < 2 ^ 30 → 0 ≤ p < 2 ^ 24 →
  let n := Z.of_nat (length (block_txs hash st)) in
  ∃ lb ids views, LastBlock st = Val lb ∧
    TxsByBlockHash db_zone local_zone now arrive pick hash (Itoa p) st = ok (TxsByBlock ((n + 99) / 100) views) ∧
    shows lb ids views ∧ NoDup ids ∧ (∀ txid, txid ∈ ids → txid ∈ map t_txid (block_txs hash st)) ∧
    Z.of_nat (length ids) = (if p <? (n + 99) / 100 - 1 then 100 else if p =? (n + 99) / 100 - 1 then n - 100 * p else 0) ∧
    (n ≤ 100 → p = 0 → ids ≡ₚ map t_txid (block_txs hash st)).
Proof.
  intros Hh Hlen Hp n. destruct (TxsByBlockHash_page hash p) as (lb & views & Hlb & Hans & Hv); [done|lia|lia|].
  exists lb, (page_ids hash p), views. split_and!; [done|done|done|apply page_ids_NoDup|apply page_ids_stored| |].
  - rewrite page_ids_length by lia. fold n.
    destruct (Z.ltb_spec p ((n + 99) / 100 - 1)), (Z.eqb_spec p ((n + 99) / 100 - 1)); Z.to_euclidean_division_equations; lia.
  - intros Hn ->. unfold page_ids. rewrite Z.mul_0_l, Nat.mul_0_r, drop_0, take_ge, arrange_perm; [done|].
    rewrite arrange_perm. lia.
Qed.

(** Where the database keeps to one order, the pages of a block together show each
    of its transactions once. *)
Lemma TxsByBlockHash_pages hash l :
  (∀ p, 0 ≤ p → arrange (TxHashesOf hash (Some 100) (Some (p * 100))) (block_txs hash st) = l) →
  concat (map (fun p => page_ids hash (Z.of_nat p)) (seq 0 (Z.to_nat ((Z.of_nat (length (block_txs hash st)) + 99) / 100))))
  ≡ₚ map t_txid (block_txs hash st).
Proof.
  intros Hl. assert (El : l ≡ₚ block_txs hash st) by (rewrite <-(Hl 0) by done; apply arrange_perm).
  set (k := Z.to_nat _). rewrite (map_ext_in _ (fun p => take 100 (drop (100 * p) (map t_txid l)))).
  - rewrite concat_slices, El; [done|]. rewrite length_map, El. unfold k. Z.to_euclidean_division_equations. lia.
  - intros p _. unfold page_ids. rewrite Hl by lia. by rewrite Nat2Z.id, <-firstn_map, <-skipn_map.
Qed.

(** The page of a history that the clauses select *)
Lemma address_page addrs :
  ∃ rows, newest_first rows ∧ (∀ t, t ∈ rows ↔ t ∈ txs st ∧ touches addrs st t) ∧
    GetTotalTxsByAddresses addrs st = Val (Z.of_nat (length rows)) ∧
    ∀ limit offset, 
      if (limit <? 0) || (default 0 offset <? 0) then ∃ e, GetTxIDsByAddresses addrs (Some limit) offset st = Err e
      else GetTxIDsByAddresses addrs (Some limit) offset st
           = Val (take (Z.to_nat limit) (drop (Z.to_nat (default 0 offset)) (map t_txid rows))).
Proof.
  destruct (address_history addrs st Hok) as (rows & Hs & Hin & Hsort & Hlen). exists rows.
  split_and!; [done|done|by unfold GetTotalTxsByAddresses; rewrite Hlen|].
  intros limit offset. unfold GetTxIDsByAddresses, paginate. rewrite Hsort.
  replace (match offset with Some z => z <? 0 | None => false end) with (default 0 offset <? 0) by by destruct offset.
  destruct ((limit <? 0) || (default 0 offset <? 0)); cbn; [by eexists|].
  rewrite <-(firstn_map snd). replace (match offset with Some o => _ | None => _ end)
    with (drop (Z.to_nat (default 0 offset)) (map (fun t => (t_id t, t_txid t)) rows)) by by destruct offset.
  by rewrite <-(skipn_map snd), map_map.
Qed.

(** The answer for an accepted page *)
Lemma TxHistoryByAddrs_shown addrs from to p rows :
  TraditionalPagintion from to DEFAULT_TXS MAX_TRANSACTIONS = Val p → 0 ≤ FromPage p < ToPage p → ToPage p < 2 ^ 63 - 2 ^ 61 →
  (∀ t, t ∈ rows → t ∈ txs st) → GetTotalTxsByAddresses (splitAndTrim addrs) st = Val (Z.of_nat (length rows)) →
  (∀ limit offset, 0 ≤ limit → 0 ≤ default 0 offset →
     GetTxIDsByAddresses (splitAndTrim addrs) (Some limit) offset st
     = Val (take (Z.to_nat limit) (drop (Z.to_nat (default 0 offset)) (map t_txid rows)))) →
  ∃ lb items, LastBlock st = Val lb ∧
    TxHistoryByAddrs db_zone local_zone now arrive pick addrs from to st =
      ok (TxHistory (Z.of_nat (length rows)) (FromPage p) (FromPage p + Z.of_nat (length items)) items) ∧
    shows lb (take (Z.to_nat (ToPage p - FromPage p)) (drop (Z.to_nat (FromPage p)) (map t_txid rows))) items.
Proof.
  intros Hp Hft Hmax Hin Htot Hpage.
  destruct (TraditionalPagintion_page from to DEFAULT_TXS MAX_TRANSACTIONS p) as (Hl & Ho & _); [done|done|done|].
  unfold TxHistoryByAddrs. rewrite Hp. cbn [or_error]. rewrite Hl, int64_id by (unfold in_int64, two63; lia).
  rewrite Hpage, Ho by lia. cbn [or_error]. set (ids := take _ _).
  destruct (getTxs_shows ids) as (lb & items & Hlb & -> & Hitems).
  { intros txid Hx. assert (Hx' : txid ∈ map t_txid rows).
    { eapply elem_of_sublist; [exact Hx|]. etrans; [apply sublist_take|apply sublist_drop]. }
    apply list_elem_of_fmap in Hx' as (t & -> & Ht%Hin). by apply list_elem_of_fmap_2. }
  cbn [or_error]. rewrite Htot. cbn [or_error]. exists lb, items. split; [done|]. split; [|done]. unfold ok. do 4 f_equal.
  assert (Hle : Z.of_nat (length items) ≤ ToPage p - FromPage p).
  { pose proof (Permutation_length (shows_ids _ _ _ Hitems)) as E. rewrite length_map in E. rewrite E. unfold ids.
    rewrite length_take. lia. }
  destruct (Z.ltb_spec (Z.of_nat (length items)) (ToPage p - FromPage p)); [|lia].
  apply int64_id. unfold in_int64, two63. lia.
Qed.


(** [UtxosByAddrs] lists the unspent outputs of at most [MAX_ADDRESSES]
    addresses. *)
Lemma UtxosByAddrs_lists addrs lb us :
  LastBlock st = Val lb → GetUtxosByAddrs (splitAndTrim addrs) st = Val us →
  Z.of_nat (length (splitAndTrim addrs)) ≤ MAX_ADDRESSES →
  ∃ utxos, UtxosByAddrs db_zone local_zone now addrs st = ok (Utxos utxos) ∧ utxos ≡ₚ map (reference_utxo now lb) us ∧
    StronglySorted (fun a b => iu_BlockHeight b ≤ iu_BlockHeight a) utxos.
Proof.
  intros Hlb Hus Hlen. unfold UtxosByAddrs. destruct (Z.gtb_spec (Z.of_nat (length (splitAndTrim addrs))) MAX_ADDRESSES); [lia|].
  destruct (getUtxos_reference db_zone local_zone now st Hsh (splitAndTrim addrs) us lb Hlb Hus) as (utxos & -> & ? & ?).
  by exists utxos.
Qed.

(** ** Bitcoin cash addresses *)

(** What the interceptor makes of an address with a script hash of 20 bytes,
    whatever kind of address it is: the cash address of that public key hash *)
Lemma cash_address_key_hash a h :
  script_hash a = Val h → hash_ok h →
  ∃ c, cash_address a = Val c ∧ CheckDecodeCashAddress c = Val (h, "bitcoincash", P2PKH) ∧ HasPrefix c "bitcoincash:" = true ∧ plain_addr c.
Proof.
  intros Hs Hh. unfold cash_address. rewrite Hs.
  destruct (encodeCashAddress_ok "bitcoincash" P2PKH h) as (q & enc & Henc & H5 & Hc & He & _ & _);
    [by split|by left|done|].
  assert (Hce : CheckEncodeCashAddress h "bitcoincash" P2PKH = Val enc).
  { destruct Hh as [Hl _]. unfold encodeCashAddress in Henc. rewrite Hl in Henc.
    change (Z.to_nat ripemd160_Size) with 20%nat in Henc. rewrite take_ge in Henc by lia. exact Henc. }
  rewrite Hce. cbn [mbind gores_bind]. eexists. split; [done|]. split_and!; [|apply HasPrefix_app|].
  - change "bitcoincash:" with ("bitcoincash" ++ ":")%string. rewrite <-append_assoc.
    apply (CheckDecode_Encode "bitcoincash" P2PKH h q enc); [by split|by left|done..].
  - unfold plain_addr. rewrite bytes_app. apply Forall_app. split; [by apply (bool_decide_unpack _); vm_compute|].
    rewrite Encode_ok in He by done. injection He as <-. rewrite of_bytes_charset_bytes by by apply encoded_is5.
    pose proof (map_charset_alnum _ (encoded_is5 "bitcoincash" q H5)) as Hal. rewrite forallb_forall in Hal.
    apply List.Forall_forall. intros x Hx. apply Hal, lower_alnum_range in Hx. lia.
Qed.

(** The legacy address [a] of a 20-byte public key hash [h], as package btcutil
    reads and writes it *)
Definition key_hash_address (a : string) (h : list Z) : Prop := hash_ok h ∧ script_hash a = Val h ∧ pkh_address h = Val a.

Lemma cash_address_normalized a h :
  key_hash_address a h →
  ∃ c, cash_address a = Val c ∧ CheckDecodeCashAddress c = Val (h, "bitcoincash", P2PKH) ∧ normalizeAddrFormat c = Val a ∧ plain_addr c.
Proof.
  intros (Hh & Hs & Ha). destruct (cash_address_key_hash a h Hs Hh) as (c & Hc & Hd & Hp & Hpl).
  exists c. split_and!; [done|done| |done]. unfold normalizeAddrFormat. rewrite Hp, Hd. cbn [wrap_err mbind gores_bind]. by rewrite Ha.
Qed.

(** C27. A client that asks for the unspent outputs of bitcoin cash addresses,
    each the legacy address of a public key hash, gets the outputs stored under
    the cash addresses of the same public key hashes, and every output it gets
    carries one of the addresses it asked for, in the legacy format.  What is stored
    can be shown ([showable]). *)
Theorem utxo_route_bch config legacy hashes lb :
  BCH ∈ ListCoins config → LastBlock st = Val lb → legacy ≠ [] → Z.of_nat (length legacy) ≤ 50 →
  Forall plain_addr legacy → Forall2 key_hash_address legacy hashes →
  ∃ cash us utxos, Forall2 (fun h c => CheckDecodeCashAddress c = Val (h, "bitcoincash", P2PKH)) hashes cash ∧
    GetUtxosByAddrs cash st = Val us ∧
    utxo_route db_zone local_zone now config BCH (Join legacy ",") st = ok (Utxos utxos) ∧
    utxos ≡ₚ map (reference_utxo now lb) us ∧ Forall (fun u => iu_Address u ∈ legacy) utxos.
Proof.
  intros Hcoin Hlb Hne Hlen Hplain Hleg. unfold utxo_route, CoinCtx, AddressesCtx, BCHInterceptor.
  pose proof (GetCoin_listed config BCH) as Hget. destruct (GetCoin config BCH) as [cc|e|?|?]; [|done|done|done].
  rewrite bool_decide_eq_true_2, splitAndTrim_Join by done.
  assert (∃ cash, mapM cash_address legacy = Val cash ∧ Forall2 (fun a c => normalizeAddrFormat c = Val a ∧ plain_addr c) legacy cash ∧
    Forall2 (fun h c => CheckDecodeCashAddress c = Val (h, "bitcoincash", P2PKH)) hashes cash) as (cash & -> & Hc & Hd).
  { clear -Hleg. induction Hleg as [|a h legacy hashes Ha _ (cash & Hm & Hc & Hd)]; [by exists []|].
    destruct (cash_address_normalized a h Ha) as (c & Hca & Hcd & Hn & Hpl). exists (c :: cash).
    split; [|by split; constructor]. cbn [mapM]. by rewrite Hca, Hm. }
  exists cash. assert (Hne' : cash ≠ []) by (intros ->; by inversion Hc; subst).
  assert (Hsplit : splitAndTrim (Join cash ",") = cash).
  { apply splitAndTrim_Join; [done|]. clear -Hc. induction Hc as [|a c l k [_ ?]]; by constructor. }
  destruct (UtxosByAddrs_lists (Join cash ",") lb _ Hlb eq_refl) as (utxos & -> & Hp & _).
  { rewrite Hsplit. unfold MAX_ADDRESSES. by rewrite <-(Forall2_length Hc). }
  rewrite Hsplit in Hp. eexists _, utxos. split_and!; [done|done|done|exact Hp|].
  rewrite Hp. apply Forall_map, list.Forall_forall. intros u Hu.
  destruct (GetUtxosByAddrs_rows st cash u _ eq_refl Hu) as (o & t & _ & Ho & ->). cbn.
  apply list_elem_of_lookup in Ho as (i & Hi). destruct (Forall2_lookup_r _ _ _ _ _ Hc Hi) as (a & Ha & Hn & _).
  rewrite Hn. by eapply list_elem_of_lookup_2.
Qed.

End handlers.

(** ** Concrete requests *)

(** A public key hash in both address formats *)
Definition legacy1 : string := "1111111111111111111111111111111111111111".
Definition cash1 : string := match @cash_address test_btcutil legacy1 with Val c => c | _ => "" end.

Definition bch_store : store :=
  @history test_numbers
    [BlockInsert a0 false; BlockInsert a1 false;
     TransactionInsert 2 (def_of (test_tx "t3" [test_vin "" (-1)] [test_vout "1.5" 0 cash1])) "0200" 0] empty_store.

Lemma legacy1_address : @key_hash_address test_btcutil legacy1 (replicate 20 17).
Proof.
  split; [split; [done|]|by vm_compute]. apply Forall_replicate. unfold is_byte. lia.
Qed.

Lemma bch_store_showable : @showable test_btcutil 0 0 1573776000 bch_store.
Proof.
  split.
  - done.
  - done.
  - apply list.Forall_forall. apply (bool_decide_unpack _). vm_compute. exact I.
  - done.
  - apply list.Forall_forall. apply (bool_decide_unpack _). vm_compute. exact I.
  - intros o Ho. exists legacy1. revert o Ho.
    apply list.Forall_forall. apply (bool_decide_unpack _). vm_compute. exact I.
Qed.

Definition test_config : Config :=
  let none := {| Attempts := 0; Sleep := 0 |} in
  {| cfg_DB := {| MaxConns := 1; MaxConnLifetime := 0; db_Threads := 1; db_Retry := none; db_Timeout := 0 |};
     cfg_RPC := {| rpc_Threads := 1; rpc_Timeout := 0; rpc_Retry := none |};
     Coins := [{| coin_Name := "bch"; c_RPC := {| URL := ""; User := ""; Password := "" |};
                  c_ZMQ := {| zmq_Timeout := 0; SubURL := ""; Subscriptions := [] |}; c_DB := no_coin_db |}] |}.

Lemma utxo_route_bch_witness :
  ∃ cash us utxos, Forall2 (fun h c => CheckDecodeCashAddress c = Val (h, "bitcoincash", P2PKH)) [replicate 20 17] cash ∧
    @GetUtxosByAddrs reverse_order cash bch_store = Val us ∧
    @utxo_route merge_any reverse_order test_btcutil 0 0 1573776000 test_config BCH (Join [legacy1] ",") bch_store = ok (Utxos utxos) ∧
    utxos ≡ₚ map (@reference_utxo test_btcutil 1573776000 (Some ("a1", 1))) us ∧ Forall (fun u => iu_Address u ∈ [legacy1]) utxos.
Proof.
  apply (@utxo_route_bch merge_any merge_any_laws reverse_order test_btcutil 0 0 1573776000 bch_store bch_store_showable).
  - left.
  - by vm_compute.
  - done.
  - done.
  - constructor; [|constructor]. apply (bool_decide_unpack _). vm_compute. exact I.
  - constructor; [exact legacy1_address|constructor].
Defined.

Lemma rev_arrives : ∀ (k : nat) (l : list arrival), rev l ≡ₚ l.
Proof. intros _ l. apply Permutation_sym, Permutation_rev. Qed.

Lemma TxsByBlockHash_shows_witness :
  let n := Z.of_nat (length (block_txs "a1" store2)) in
  ∃ lb ids views, LastBlock store2 = Val lb ∧
    @TxsByBlockHash merge_any reverse_order test_btcutil 3600 (-18000) 1573776000 (fun _ => rev (A:=arrival)) (fun e _ => e) "a1"
      (Itoa 0) store2 = ok (TxsByBlock ((n + 99) / 100) views) ∧
    @shows reverse_order test_btcutil 1573776000 store2 lb ids views ∧ NoDup ids ∧
    (∀ txid, txid ∈ ids → txid ∈ map t_txid (block_txs "a1" store2)) ∧
    Z.of_nat (length ids) = (if 0 <? (n + 99) / 100 - 1 then 100 else if 0 =? (n + 99) / 100 - 1 then n - 100 * 0 else 0) ∧
    (n ≤ 100 → 0 = 0 → ids ≡ₚ map t_txid (block_txs "a1" store2)).
Proof.
  apply (@TxsByBlockHash_shows merge_any merge_any_laws reverse_order test_btcutil 3600 (-18000) 1573776000 _ _ store2 store2_ok
    store2_showable rev_arrives).
  - done.
  - by vm_compute.
  - lia.
Defined.


(** ** What the handlers do not handle *)

(** Without a stored block [Status] dereferences a nil pointer ... *)
Lemma Status_empty_panics : Status "getLastBlockHash" empty_store = Panic NilDereference.
Proof. by vm_compute. Qed.

(** ... and so does [BlockByBlockHash] when every stored block is an orphan, as
    after a first block whose successor's parent is unknown. *)
Lemma BlockByBlockHash_orphans_panics :
  BlockByBlockHash "b2" (@history test_numbers [BlockInsert (test_block "b0" 1 "") false; BlockInsert (test_block "b2" 2 "b1") false] empty_store)
  = Panic NilDereference.
Proof. by vm_compute. Qed.

(** An address that does not decode is logged and then used. *)
Lemma BCHInterceptor_bad_address_panics (next : string → gores response) :
  @BCHInterceptor test_btcutil _ _ BCH "no address" "no address" next = Panic NilDereference.
Proof. by vm_compute. Qed.

(** A script hash address is shown as the address of a public key hash. *)
Lemma script_hash_shown_as_key_hash :
  (c ← CheckEncodeCashAddress (replicate 20 17) "bitcoincash" P2SH; @normalizeAddrFormat test_btcutil ("bitcoincash:" ++ c)) = Val legacy1 ∧
  CheckEncodeCashAddress (replicate 20 17) "bitcoincash" P2SH ≠ CheckEncodeCashAddress (replicate 20 17) "bitcoincash" P2PKH.
Proof. split; by vm_compute. Qed.

(** No kind of address is looked up under the cash address of a script hash. *)
Lemma cash_address_never_script_hash {btc : Btcutil} a c h h' :
  script_hash a = Val h → hash_ok h → cash_address a = Val c → CheckDecodeCashAddress c ≠ Val (h', "bitcoincash", P2SH).
Proof. intros Hs Hh Hc. destruct (cash_address_key_hash a h Hs Hh) as (c' & Hc' & Hd & _).
  rewrite Hc' in Hc. injection Hc as <-. by rewrite Hd. Qed.

(** Listings of more than fifty addresses are refused for unspent outputs only. *)
Lemma history_addresses_unlimited :
  let addrs := Join (replicate 51 "alice") "," in
  code <$> @UtxosByAddrs merge_any insertion_order test_btcutil 3600 (-18000) 1573776000 addrs store2 = Val 422 ∧
  code <$> @TxHistoryByAddrs merge_any insertion_order test_btcutil 3600 (-18000) 1573776000 (fun _ => rev (A:=arrival)) (fun e _ => e)
    addrs "" "" store2 = Val 200.
Proof. split; by vm_compute. Qed.

(** A database that changes the order of the rows between two pages *)
Definition swapping_order : RowOrder :=
  {| arrange A q l := match q with TxHashesOf _ _ (Some 100) => rev l | _ => l end;
     arrange_perm A q l := match q with TxHashesOf _ _ (Some 100) => Permutation_sym (Permutation_rev l) | _ => Permutation_refl l end |}.

(** With it the two pages of a block of up to two hundred transactions leave out
    its last transaction. *)
Lemma pages_may_miss st hash t rest :
  store_ok st → block_txs hash st = rest ++ [t] → (100 ≤ length rest < 200)%nat →
  t_txid t ∉ @page_ids swapping_order st hash 0 ++ @page_ids swapping_order st hash 1.
Proof.
  intros Hok Ht Hn. pose proof (block_txs_NoDup st Hok hash) as Hnd. rewrite Ht, map_app in Hnd.
  apply list.NoDup_app in Hnd as (_ & Hnot & _).
  assert (Hin : ∀ l, l ⊆ rest → t_txid t ∉ map t_txid l).
  { intros l Hl (t' & Et & Hx)%list_elem_of_fmap. apply (Hnot (t_txid t)); [rewrite Et; by apply list_elem_of_fmap_2, Hl|by left]. }
  unfold page_ids. cbn [arrange swapping_order]. rewrite Ht, elem_of_app. intros [H|H]; eapply Hin; try exact H.
  - change (0 * 100) with 0. cbv beta iota. rewrite drop_0, take_app_le by lia. apply subseteq_take.
  - change (1 * 100) with 100. cbv beta iota. rewrite rev_app_distr. cbn [rev app]. change (100 * Z.to_nat 1)%nat with (S 99).
    rewrite skipn_cons. intros x Hx. rewrite (Permutation_rev rest).
    eapply elem_of_sublist; [exact Hx|]. etrans; [apply sublist_take|apply sublist_drop].
Qed.
