(* ===== verification/Pipeline.v ===== *)
(** * Pipeline: the goroutines of the initial synchronisation

    [initialSync] of src/V2/cmd/indexer/main.go as a step relation.  Its
    goroutines hand values over unbuffered channels: [processBlockHeights] to
    [rpcThreads] workers of [getBlocks], these to [orderBlock], which hands
    single blocks to [writeBlock], which hands transactions to [dbThreads] workers
    of [writeTx].  A step is a hand-over or a call of the node or the database;
    any goroutine that can move may move next.  A call that fails ends the
    process ([log.Fatal]), so it is not a step. *)

From stdpp Require Import base list strings relations sorting numbers.
From Stdlib Require Import ZArith Lia Permutation Wellfounded Relation_Operators.
From S2P Require Import Prelude Utxo Indexer.

Local Open Scope Z_scope.

(** [type Database interface] of the indexer, with the state it acts on *)
Class Database (D : Type) := {
  db_InsertBlock : Block → bool → D → gores Z * D;
  db_InsertTx : Tx → Z → Z → D → gores unit * D;
}.

(** [type txResult struct] *)
Record txResult := { r_tx : Tx; r_index : Z; r_blockId : Z }.

(** The loop of [writeBlock] over the transactions of a block *)
Definition block_results (b : Block) (blockId : Z) : list txResult :=
  imap (fun i tx => {| r_tx := tx; r_index := Z.of_nat i; r_blockId := blockId |}) (Txs b).

(** The assignment [tx.tx.Hash = tx.tx.TxID] of [writeTx] *)
Definition fill_hash (tx : Tx) : Tx :=
  if bool_decide (tx_Hash tx = "") then
    {| TxID := TxID tx; tx_Hash := TxID tx; tx_Version := tx_Version tx; tx_Size := tx_Size tx; VSize := VSize tx;
       tx_Weight := tx_Weight tx; Locktime := Locktime tx; Vins := Vins tx; Vouts := Vouts tx; Hex := Hex tx |}
  else tx.

(** The calls of the database that succeeded, oldest first. *)
Inductive event :=
| BlockWritten (b : Block) (blockId : Z)
| TxWritten (r : txResult).

Section pipeline.
Context {D : Type} {database : Database D} {S : SortSlice Block}.
Context (rpcThreads dbThreads : nat) (recover : bool).
(** What the node answers to [GetBlocks]; it may change its mind. *)
Context (serves : list Z → list Block → Prop).

(** The goroutines. *)
Record pipe := {
  batches : list (list Z);      (** [processBlockHeights]: still to be sent *)
  fetching : list (list Z);     (** [getBlocks] workers calling the node *)
  fetched : list (list Block);  (** [getBlocks] workers with an answer to send *)
  order : Z * list Block;       (** [orderBlock]: [nextBlock] and [blockStore] *)
  sending : list Block;         (** [orderBlock]: the blocks of this round still to be sent *)
  writing : option Block;       (** [writeBlock]: the block to be inserted *)
  results : list txResult;      (** [writeBlock]: transactions of the current block still to be sent *)
  held : list txResult;         (** [writeTx] workers with a transaction to write *)
  db : D;
  log : list event;
}.

Inductive step : pipe → pipe → Prop :=
| take_batch hs bs fetching fetched order sending writing results held db log :
    (length fetching + length fetched < rpcThreads)%nat →
    step {| batches := hs :: bs; fetching := fetching; fetched := fetched; order := order; sending := sending;
            writing := writing; results := results; held := held; db := db; log := log |}
         {| batches := bs; fetching := fetching ++ [hs]; fetched := fetched; order := order; sending := sending;
            writing := writing; results := results; held := held; db := db; log := log |}
| get_blocks hs blks l1 l2 batches fetched order sending writing results held db log :
    serves hs blks →
    step {| batches := batches; fetching := l1 ++ hs :: l2; fetched := fetched; order := order; sending := sending;
            writing := writing; results := results; held := held; db := db; log := log |}
         {| batches := batches; fetching := l1 ++ l2; fetched := fetched ++ [blks]; order := order; sending := sending;
            writing := writing; results := results; held := held; db := db; log := log |}
| receive_blocks blks l1 l2 batches fetching order sent order' writing results held db log :
    order_round order blks = (sent, order') →
    step {| batches := batches; fetching := fetching; fetched := l1 ++ blks :: l2; order := order; sending := [];
            writing := writing; results := results; held := held; db := db; log := log |}
         {| batches := batches; fetching := fetching; fetched := l1 ++ l2; order := order'; sending := sent;
            writing := writing; results := results; held := held; db := db; log := log |}
| hand_block b rest batches fetching fetched order held db log :
    step {| batches := batches; fetching := fetching; fetched := fetched; order := order; sending := b :: rest;
            writing := None; results := []; held := held; db := db; log := log |}
         {| batches := batches; fetching := fetching; fetched := fetched; order := order; sending := rest;
            writing := Some b; results := []; held := held; db := db; log := log |}
| write_block b blockId batches fetching fetched order sending held db db' log :
    db_InsertBlock b recover db = (Val blockId, db') →
    step {| batches := batches; fetching := fetching; fetched := fetched; order := order; sending := sending;
            writing := Some b; results := []; held := held; db := db; log := log |}
         {| batches := batches; fetching := fetching; fetched := fetched; order := order; sending := sending;
            writing := None; results := block_results b blockId; held := held; db := db';
            log := log ++ [BlockWritten b blockId] |}
| hand_tx r rest batches fetching fetched order sending writing held db log :
    (length held < dbThreads)%nat →
    step {| batches := batches; fetching := fetching; fetched := fetched; order := order; sending := sending;
            writing := writing; results := r :: rest; held := held; db := db; log := log |}
         {| batches := batches; fetching := fetching; fetched := fetched; order := order; sending := sending;
            writing := writing; results := rest; held := held ++ [r]; db := db; log := log |}
| write_tx r l1 l2 batches fetching fetched order sending writing results db db' log :
    db_InsertTx (fill_hash (r_tx r)) (r_index r) (r_blockId r) db = (Val tt, db') →
    step {| batches := batches; fetching := fetching; fetched := fetched; order := order; sending := sending;
            writing := writing; results := results; held := l1 ++ r :: l2; db := db; log := log |}
         {| batches := batches; fetching := fetching; fetched := fetched; order := order; sending := sending;
            writing := writing; results := results; held := l1 ++ l2; db := db'; log := log ++ [TxWritten r] |}.

(** The pipeline as [initialSync] starts it, and at rest: all channels closed
    and every goroutine returned. *)
Definition start_pipe (startBlock : Z) (bs : list (list Z)) (d : D) : pipe :=
  {| batches := bs; fetching := []; fetched := []; order := (startBlock, []); sending := [];
     writing := None; results := []; held := []; db := d; log := [] |}.

Definition at_rest (p : pipe) : Prop :=
  batches p = [] ∧ fetching p = [] ∧ fetched p = [] ∧ sending p = [] ∧ writing p = None ∧ results p = [] ∧ held p = [].

(** ** The log *)

Definition blocks_written (l : list event) : list (Block * Z) :=
  omap (fun e => match e with BlockWritten b id => Some (b, id) | TxWritten _ => None end) l.

Definition txs_written (l : list event) : list txResult :=
  omap (fun e => match e with TxWritten r => Some r | BlockWritten _ _ => None end) l.

Definition results_of (l : list (Block * Z)) : list txResult := concat (map (fun '(b, id) => block_results b id) l).

(** The database after the calls of a log. *)
Inductive replays : D → list event → D → Prop :=
| replays_nil d : replays d [] d
| replays_block d l d1 d2 b id :
    replays d l d1 → db_InsertBlock b recover d1 = (Val id, d2) → replays d (l ++ [BlockWritten b id]) d2
| replays_tx d l d1 d2 r :
    replays d l d1 → db_InsertTx (fill_hash (r_tx r)) (r_index r) (r_blockId r) d1 = (Val tt, d2) →
    replays d (l ++ [TxWritten r]) d2.

(** Every transaction comes after its block. *)
Definition after_block (l : list event) : Prop :=
  ∀ l1 r l2, l = l1 ++ TxWritten r :: l2 → r ∈ results_of (blocks_written l1).

(** ** The invariant *)

(** [good] holds of every block the node may answer with. *)
Record pipe_ok (good : Block → Prop) (startBlock : Z) (bs : list (list Z)) (d : D) (p : pipe) : Prop := {
  (** what has arrived and what is on the way are the heights sent *)
  p_heights : ∃ arrived,
    ordered startBlock arrived
      (map fst (blocks_written (log p)) ++ option_list (writing p) ++ sending p) (order p).1 (order p).2 ∧
    map block_height arrived ++ map block_height (concat (fetched p)) ++ concat (fetching p) ++ concat (batches p)
      ≡ₚ concat bs ∧
    Forall good (arrived ++ concat (fetched p));
  p_txs : txs_written (log p) ++ held p ++ results p ≡ₚ results_of (blocks_written (log p));
  p_one : is_Some (writing p) → results p = [];
  p_after : after_block (log p);
  p_db : replays d (log p) (db p);
}.

Lemma omap_snoc {A B} (f : A → option B) l x : omap f (l ++ [x]) = omap f l ++ option_list (f x).
Proof. induction l as [|y l IH]; cbn; [by destruct (f x)|]. destruct (f y); cbn; by rewrite IH. Qed.

Lemma results_of_snoc l b id : results_of (l ++ [(b, id)]) = results_of l ++ block_results b id.
Proof. unfold results_of. by rewrite map_app, concat_app; cbn; rewrite app_nil_r. Qed.

Lemma after_block_snoc l e :
  after_block l → (∀ r, e = TxWritten r → r ∈ results_of (blocks_written l)) → after_block (l ++ [e]).
Proof.
  intros Hl He l1 r l2 Heq. destruct l2 as [|x l2 _] using rev_ind.
  - apply app_inj_tail in Heq as [-> ->]. by apply He.
  - rewrite app_comm_cons, app_assoc in Heq. apply app_inj_tail in Heq as [-> _]. by eapply Hl.
Qed.

Ltac pipe_cbn := cbn [batches fetching fetched order sending writing results held db log] in *.

Section runs.
Context {laws : SortSliceLaws S less_height}.
Context (good : Block → Prop) (startBlock : Z) (bs : list (list Z)) (d : D).
Context (Hserves : ∀ hs blks, serves hs blks → map block_height blks ≡ₚ hs).
Context (Hgood : ∀ hs blks, serves hs blks → Forall good blks).
Context (Hstart : in_int64 startBlock) (Htop : Forall (fun h => h < two63 - 1) (concat bs)).

Lemma pipe_ok_start : pipe_ok good startBlock bs d (start_pipe startBlock bs d).
Proof.
  split; cbn; try done.
  - exists []. split; [|by split]. split; try done; [cbn; lia|constructor].
  - by intros [|? ?] ? ?.
  - constructor.
Qed.

Lemma arrived_below arrived (blks : list Block) rest :
  map block_height arrived ++ map block_height blks ++ rest ≡ₚ concat bs →
  ∀ b, b ∈ arrived ++ blks → block_height b < two63 - 1.
Proof.
  intros Hp b Hb. rewrite list.Forall_forall in Htop. apply Htop. rewrite <-Hp, app_assoc, <-map_app.
  apply elem_of_app. left. by apply (list_elem_of_fmap_2 block_height).
Qed.

Lemma pipe_ok_step p p' : pipe_ok good startBlock bs d p → step p p' → pipe_ok good startBlock bs d p'.
Proof.
  intros [(arrived & Hord & Hh & Hg) Htx Hone Haf Hdb] Hstep. destruct Hstep; split; pipe_cbn; try done.
  - exists arrived. split_and!; [done| |done]. rewrite concat_app. cbn. cbn in Hh. by rewrite app_nil_r, <-app_assoc.
  - exists arrived. split_and!; [done| |].
    2:{ rewrite concat_app, app_assoc. apply Forall_app. split; [done|]. cbn. rewrite app_nil_r. by eapply Hgood. }
    cbn. rewrite concat_app in Hh |- *. cbn in Hh |- *. rewrite concat_app, map_app. cbn. rewrite app_nil_r, <-Hh, (Hserves _ _ H). apply Permutation_app_head.
    rewrite <-!app_assoc. apply Permutation_app_head. rewrite !app_assoc. do 2 apply Permutation_app_tail.
    apply Permutation_app_comm.
  - destruct order0 as [next store]. destruct order' as [next' store'].
    exists (arrived ++ blks). cbn. rewrite concat_app in Hh |- *. cbn in Hh. rewrite !map_app in Hh |- *.
    assert (Hh' : map block_height arrived ++ map block_height blks ++
      (map block_height (concat l1) ++ map block_height (concat l2)) ++ concat fetching0 ++ concat batches0 ≡ₚ concat bs).
    { rewrite <-Hh. apply Permutation_app_head. rewrite !app_assoc. do 3 apply Permutation_app_tail.
      apply Permutation_app_comm. }
    split_and!; [|by rewrite <-app_assoc|].
    2:{ rewrite concat_app in Hg. cbn in Hg. rewrite !Forall_app in Hg |- *. tauto. }
    rewrite app_nil_r in Hord. apply (order_round_ordered startBlock arrived) with (sent := map fst (blocks_written log0) ++ option_list writing0) in H; [by rewrite <-app_assoc in H| |done].
    by eapply arrived_below.
  - by exists arrived.
  - exists arrived. split_and!; [|done|done]. unfold blocks_written. rewrite omap_snoc, map_app. cbn.
    by rewrite <-app_assoc.
  - unfold blocks_written, txs_written in *. rewrite !omap_snoc. cbn. rewrite app_nil_r, results_of_snoc, <-Htx.
    by rewrite app_nil_r, app_assoc.
  - by apply after_block_snoc.
  - by econstructor.
  - by exists arrived.
  - rewrite <-Htx. by rewrite <-app_assoc.
  - intros Hw. specialize (Hone Hw). done.
  - exists arrived. split_and!; [|done|done]. unfold blocks_written. rewrite omap_snoc. cbn. by rewrite app_nil_r.
  - unfold blocks_written, txs_written in *. rewrite !omap_snoc. cbn. rewrite app_nil_r, <-Htx, <-!app_assoc.
    apply Permutation_app_head. cbn. by rewrite (Permutation_middle l1 (l2 ++ results0) r).
  - apply after_block_snoc; [done|]. intros r' [= <-]. rewrite <-Htx, !elem_of_app. right. left. right. left.
  - by econstructor.
Qed.

Lemma pipe_ok_reachable p : rtc step (start_pipe startBlock bs d) p → pipe_ok good startBlock bs d p.
Proof.
  intros H. assert (Hgen : ∀ p, pipe_ok good startBlock bs d p → ∀ q, rtc step p q → pipe_ok good startBlock bs d q).
  { intros p1 H1 q Hq. induction Hq as [|x y z Hxy Hyz IH]; [done|]. apply IH. by eapply pipe_ok_step. }
  by apply (Hgen _ pipe_ok_start).
Qed.

End runs.

(** ** Progress and termination *)

(** Something can move unless everything has been written. *)
Lemma pipe_progress p :
  (1 ≤ rpcThreads)%nat → (1 ≤ dbThreads)%nat → (∀ hs, ∃ blks, serves hs blks) →
  (∀ b d, ∃ id d', db_InsertBlock b recover d = (Val id, d')) →
  (∀ tx index id d, ∃ d', db_InsertTx tx index id d = (Val tt, d')) →
  (is_Some (writing p) → results p = []) →
  at_rest p ∨ ∃ p', step p p'.
Proof.
  intros Hrpc Hdb Hserve Hblock Htx Hone. destruct p as [bs fg fd ord snd wr res hd dd lg]. pipe_cbn.
  destruct hd as [|r hd].
  2:{ right. destruct (Htx (fill_hash (r_tx r)) (r_index r) (r_blockId r) dd) as [d' Hd'].
      eexists. by apply (write_tx r [] hd). }
  destruct res as [|r res]; [|right; eexists; apply hand_tx; cbn; lia].
  destruct wr as [b|].
  { right. destruct (Hblock b dd) as (id & d' & Hd'). eexists. by eapply write_block. }
  destruct snd as [|b snd]; [|right; eexists; apply hand_block].
  destruct fd as [|blks fd].
  2:{ right. destruct (order_round ord blks) as [sent ord'] eqn:Ho. eexists. by apply (receive_blocks blks [] fd). }
  destruct fg as [|hs fg].
  2:{ right. destruct (Hserve hs) as [blks Hb]. eexists. by apply (get_blocks hs blks [] fg). }
  destruct bs as [|hs bs]; [by left|]. right. eexists. apply take_batch. cbn. lia.
Qed.

(** The work left, the slowest part first. *)
Definition work (p : pipe) : nat * (nat * (nat * (nat * (nat * nat)))) :=
  ((2 * length (batches p) + length (fetching p))%nat, (length (fetched p), (length (sending p),
   (length (option_list (writing p)), (length (results p), length (held p)))))).

Definition less_work : relation (nat * (nat * (nat * (nat * (nat * nat))))) :=
  slexprod _ _ lt (slexprod _ _ lt (slexprod _ _ lt (slexprod _ _ lt (slexprod _ _ lt lt)))).

Lemma less_work_wf : well_founded less_work.
Proof. repeat apply wf_slexprod; apply lt_wf. Qed.

Lemma step_less_work p p' : step p p' → less_work (work p') (work p).
Proof.
  unfold less_work, work. intros H. destruct H; pipe_cbn; rewrite ?length_app; cbn [length].
  - apply left_slex. lia.
  - apply left_slex. lia.
  - apply right_slex, left_slex. lia.
  - do 2 apply right_slex. apply left_slex. lia.
  - do 3 apply right_slex. apply left_slex. cbn. lia.
  - do 4 apply right_slex. apply left_slex. lia.
  - do 5 apply right_slex. lia.
Qed.

(** No run is infinite. *)
Lemma pipe_terminates : well_founded (flip step).
Proof.
  eapply wf_incl; [|apply (wf_inverse_image _ _ _ work less_work_wf)].
  intros p' p H. by apply step_less_work.
Qed.

(** At rest everything that was sent has been written. *)
Lemma pipe_at_rest (good : Block → Prop) (startBlock n : Z) (bs : list (list Z)) (d : D) p :
  concat bs = seqZ startBlock n → 0 ≤ n → pipe_ok good startBlock bs d p → at_rest p →
  (order p).2 = [] ∧
  map (fun '(b, _) => block_height b) (blocks_written (log p)) = seqZ startBlock n ∧
  txs_written (log p) ≡ₚ results_of (blocks_written (log p)) ∧
  Forall good (map fst (blocks_written (log p))).
Proof.
  intros Hbs Hn0 [(arrived & Hord & Hh & Hg) Htx _ _ _] (E1 & E2 & E3 & E4 & E5 & E6 & E7).
  rewrite E1, E2, E3 in Hh. rewrite E3, app_nil_r in Hg. rewrite E4, E5 in Hord. rewrite E6, E7 in Htx. cbn in Hh, Hord. rewrite !app_nil_r in Hh, Hord, Htx.
  rewrite Hbs in Hh.
  destruct (ordered_gap _ _ _ _ _ Hord) as [Hgap Habove].
  { rewrite Hh. apply NoDup_seqZ. }
  { intros b Hb. apply (list_elem_of_fmap_2 block_height) in Hb. change (block_height <$> ?l) with (map block_height l) in Hb.
    rewrite Hh, elem_of_seqZ in Hb. lia. }
  destruct Hord as [Hrunh Hnext _ Hperm _ _].
  assert (Hstore : (order p).2 = []).
  { destruct (order p).2 as [|b l] eqn:Hst; [done|exfalso]. specialize (Habove b ltac:(left)).
    assert (Hb : b ∈ arrived) by (rewrite <-Hperm; apply elem_of_app; right; left).
    apply (list_elem_of_fmap_2 block_height) in Hb. change (block_height <$> ?l) with (map block_height l) in Hb.
    rewrite Hh, elem_of_seqZ in Hb. apply Hgap. rewrite Hh, elem_of_seqZ. lia. }
  rewrite Hstore, app_nil_r in Hperm. rewrite <-Hperm in Hg. split_and!; try done. apply Permutation_length in Hh, Hperm.
  rewrite length_map, length_seqZ in Hh.
  transitivity (map block_height (map fst (blocks_written (log p)))).
  - rewrite map_map. apply map_ext. by intros [].
  - rewrite Hrunh. f_equal. lia.
Qed.

End pipeline.

(** ** Properties *)

(** C8. At every moment of the initial synchronisation, whatever the goroutines
    do: the blocks written so far have consecutive heights from [startBlock],
    every transaction was written after its block and with its index there
    and the id the block got, none twice, none invented; what is written
    and what is under way make up exactly the blocks written; and the database
    is the result of these calls. *)
Theorem initialSync_safe {D} {database : Database D} {S : SortSlice Block} {laws : SortSliceLaws S less_height}
    (rpcThreads dbThreads : nat) (recover : bool) (serves : list Z → list Block → Prop)
    (startBlock n : Z) (bs : list (list Z)) (d : D) p :
  (∀ hs blks, serves hs blks → map block_height blks ≡ₚ hs) →
  in_int64 startBlock → concat bs = seqZ startBlock n → startBlock + n < two63 →
  rtc (step rpcThreads dbThreads recover serves) (start_pipe startBlock bs d) p →
  (∃ k, map (fun '(b, _) => block_height b) (blocks_written (log p)) = seqZ startBlock k ∧ k ≤ Z.max 0 n) ∧
  txs_written (log p) ++ held p ++ results p ≡ₚ results_of (blocks_written (log p)) ∧
  after_block (log p) ∧ replays recover d (log p) (db p).
Proof.
  intros Hserves Hs Hbs Hn Hrun.
  assert (Htop : Forall (fun h => h < two63 - 1) (concat bs)).
  { rewrite Hbs. apply list.Forall_forall. intros h. rewrite elem_of_seqZ. lia. }
  apply (pipe_ok_reachable _ _ _ _ (fun _ => True) startBlock bs d Hserves ltac:(by intros; apply Forall_true) Hs Htop)
    in Hrun as [(arrived & Hord & Hh & _) Htx _ Haf Hdb].
  split_and!; try done.
  destruct Hord as [Hrunh _ _ Hperm _ _].
  set (W := map fst (blocks_written (log p))) in *. set (R := option_list (writing p) ++ sending p) in *.
  exists (Z.of_nat (length W)).
  assert (HW : map (fun '(b, _) => block_height b) (blocks_written (log p)) = map block_height W).
  { unfold W. rewrite map_map. apply map_ext. by intros []. }
  rewrite map_app, length_app, Nat2Z.inj_add, seqZ_app in Hrunh by lia.
  assert (Hlen : length (map block_height W) = length (seqZ startBlock (Z.of_nat (length W))))
    by (rewrite length_map, length_seqZ; lia).
  split; [rewrite HW; by apply app_inj_1 in Hrunh as [? _]|].
  apply Permutation_length in Hh, Hperm. rewrite !length_app in Hh, Hperm. rewrite length_map, Hbs, length_seqZ in Hh. lia.
Qed.

(** C6. The initial synchronisation completes: when the node and the database
    answer, no goroutine waits for ever (no run is infinite, and a run that
    cannot continue is at rest), and at rest all blocks of the heights sent
    are written, by ascending height and nothing else, and all their
    transactions exactly once. *)
Theorem initialSync_completes {D} {database : Database D} {S : SortSlice Block} {laws : SortSliceLaws S less_height}
    (rpcThreads dbThreads : nat) (recover : bool) (serves : list Z → list Block → Prop)
    (startBlock n : Z) (bs : list (list Z)) (d : D) :
  (1 ≤ rpcThreads)%nat → (1 ≤ dbThreads)%nat →
  (∀ hs, ∃ blks, serves hs blks) → (∀ hs blks, serves hs blks → map block_height blks ≡ₚ hs) →
  (∀ b d, ∃ id d', db_InsertBlock b recover d = (Val id, d')) →
  (∀ tx index id d, ∃ d', db_InsertTx tx index id d = (Val tt, d')) →
  in_int64 startBlock → concat bs = seqZ startBlock n → 0 ≤ n → startBlock + n < two63 →
  well_founded (flip (step rpcThreads dbThreads recover serves)) ∧
  ∀ p, rtc (step rpcThreads dbThreads recover serves) (start_pipe startBlock bs d) p →
    (∀ p', ¬ step rpcThreads dbThreads recover serves p p') →
    at_rest p ∧ (order p).2 = [] ∧
    map (fun '(b, _) => block_height b) (blocks_written (log p)) = seqZ startBlock n ∧
    txs_written (log p) ≡ₚ results_of (blocks_written (log p)).
Proof.
  intros Hrpc Hdbt Hserve Hserves Hblock Htxs Hs Hbs Hn0 Hn. split; [apply pipe_terminates|].
  intros p Hrun Hstuck.
  assert (Htop : Forall (fun h => h < two63 - 1) (concat bs)).
  { rewrite Hbs. apply list.Forall_forall. intros h. rewrite elem_of_seqZ. lia. }
  apply (pipe_ok_reachable _ _ _ _ (fun _ => True) startBlock bs d Hserves ltac:(by intros; apply Forall_true) Hs Htop)
    in Hrun.
  destruct (pipe_progress rpcThreads dbThreads recover serves p) as [Hrest|[p' Hp']]; [done..|apply Hrun| |by destruct (Hstuck p')].
  destruct (pipe_at_rest recover (fun _ => True) startBlock n bs d p) as (? & ? & ? & _); [done..|]. by split_and!.
Qed.

(** ** A concrete run *)

(** A database that counts its calls. *)
#[local] Instance counting : Database Z := {|
  db_InsertBlock _ _ d := (Val (d + 1), d + 1);
  db_InsertTx _ _ _ d := (Val tt, d + 1);
|}.

Definition coinbase (h : Z) : Tx :=
  {| TxID := "coinbase"; tx_Hash := ""; tx_Version := h; tx_Size := 0; VSize := 0; tx_Weight := 0; Locktime := "0";
     Vins := []; Vouts := []; Hex := "" |}.

Definition node_block (h : Z) : Block := {| header := header (block_at h); Txs := [coinbase h] |}.

Definition node_serves (hs : list Z) (blks : list Block) : Prop := blks = map node_block hs.

Lemma node_serves_heights hs blks : node_serves hs blks → map block_height blks ≡ₚ hs.
Proof. intros ->. rewrite map_map. by rewrite map_id. Qed.

Definition coinbase_result (h id : Z) : txResult := {| r_tx := coinbase h; r_index := 0; r_blockId := id |}.

(** Two batches, the second one answered first; block 5 and its transaction are
    written, block 6 is written and its transaction is not. *)
Definition run_end : pipe := {|
  batches := []; fetching := []; fetched := []; order := (7, []); sending := []; writing := None; results := [];
  held := [coinbase_result 6 3]; db := 3;
  log := [BlockWritten (node_block 5) 1; TxWritten (coinbase_result 5 1); BlockWritten (node_block 6) 3];
|}.

Lemma run_reaches :
  rtc (@step Z counting merge_sort_slice 2 1 false node_serves) (start_pipe 5 [[5]; [6]] 0) run_end.
Proof.
  eapply rtc_l; [apply take_batch; cbn; lia|]. eapply rtc_l; [apply take_batch; cbn; lia|].
  eapply rtc_l; [eapply (get_blocks _ _ _ _ [6] _ [[5]] []); reflexivity|].
  eapply rtc_l; [eapply (get_blocks _ _ _ _ [5] _ [] []); reflexivity|].
  eapply rtc_l; [eapply (receive_blocks _ _ _ _ _ [] [map node_block [5]]); vm_compute; reflexivity|].
  eapply rtc_l; [eapply (receive_blocks _ _ _ _ _ [] []); vm_compute; reflexivity|].
  eapply rtc_l; [apply hand_block|]. eapply rtc_l; [eapply write_block; reflexivity|].
  eapply rtc_l; [apply hand_tx; cbn; lia|].
  eapply rtc_l; [eapply (write_tx _ _ _ _ _ [] []); reflexivity|].
  eapply rtc_l; [apply hand_block|]. eapply rtc_l; [eapply write_block; reflexivity|].
  eapply rtc_l; [apply hand_tx; cbn; lia|]. apply rtc_refl.
Qed.

Lemma initialSync_safe_witness :
  (∃ k, map (fun '(b, _) => block_height b) (blocks_written (log run_end)) = seqZ 5 k ∧ k ≤ Z.max 0 2) ∧
  txs_written (log run_end) ++ held run_end ++ results run_end ≡ₚ results_of (blocks_written (log run_end)) ∧
  after_block (log run_end) ∧ replays false 0 (log run_end) (db run_end).
Proof.
  apply (@initialSync_safe Z counting merge_sort_slice merge_sort_laws 2 1 false node_serves 5 2 [[5]; [6]] 0 run_end).
  - apply node_serves_heights.
  - unfold in_int64, two63. lia.
  - reflexivity.
  - unfold two63. lia.
  - apply run_reaches.
Defined.

Lemma initialSync_completes_witness :
  well_founded (flip (@step Z counting merge_sort_slice 2 1 false node_serves)) ∧
  ∀ p, rtc (@step Z counting merge_sort_slice 2 1 false node_serves) (start_pipe 5 [[5]; [6]] 0) p →
    (∀ p', ¬ @step Z counting merge_sort_slice 2 1 false node_serves p p') →
    at_rest p ∧ (order p).2 = [] ∧
    map (fun '(b, _) => block_height b) (blocks_written (log p)) = seqZ 5 2 ∧
    txs_written (log p) ≡ₚ results_of (blocks_written (log p)).
Proof.
  apply (@initialSync_completes Z counting merge_sort_slice merge_sort_laws 2 1 false node_serves 5 2 [[5]; [6]] 0).
  - lia.
  - lia.
  - intros hs. by exists (map node_block hs).
  - apply node_serves_heights.
  - intros b d. by eexists _, _.
  - intros tx index id d. by eexists.
  - unfold in_int64, two63. lia.
  - reflexivity.
  - lia.
  - unfold two63. lia.
Defined.
