(* ===== verification/Sync.v ===== *)
(** * Sync: the initial synchronisation with the database

    [Pipeline] run against the client of [Postgres]: when the goroutines of
    [initialSync] come to rest after synchronising an empty schema with a node,
    the store holds the node's chain. *)

From stdpp Require Import base list strings gmap relations sorting numbers.
From Stdlib Require Import ZArith Lia Permutation.
From S2P Require Import Prelude GoStrings Convert Retry Utxo BlockTable Store Postgres Ledger Indexer Pipeline.

Local Open Scope Z_scope.

(** The client as the indexer's [Database]. *)
#[global] Instance postgres_database {numbers : JsonNumbers} (attempts : Z) : Database conn := {|
  db_InsertBlock b recover c := InsertBlock attempts (header b) recover c;
  db_InsertTx tx index id c := InsertTx attempts tx index id c;
|}.

(** ** One transaction *)

Lemma transaction_insert_stores {numbers : JsonNumbers} b d raw i st st' :
  store_ok st → transaction_insert b d raw i st = Val st' → b ≠ -1 → i ≠ -1 →
  blocks st' = blocks st ∧
  (∃ t, t ∈ txs st' ∧ t_txid t = d_txid d ∧ t_block_id t = Some b ∧ t_index t = Some i) ∧
  ∀ t, t ∈ txs st → t_txid t ≠ d_txid d → t ∈ txs st'.
Proof.
  intros Hok H Hb Hi. unfold transaction_insert in H. destruct (negb (fits_int32 i)); [done|].
  assert (null_if_minus_one b = Some b) as Eb by (unfold null_if_minus_one; by rewrite (proj2 (Z.eqb_neq _ _) Hb)).
  assert (null_if_minus_one i = Some i) as Ei by (unfold null_if_minus_one; by rewrite (proj2 (Z.eqb_neq _ _) Hi)).
  rewrite Eb, Ei in H. destruct (find _ (txs st)) as [f|] eqn:Hf.
  - destruct (negb _); [done|]. injection H as <-. apply find_some in Hf as [Hf%list_elem_of_In Htx%bool_decide_eq_true].
    cbn [set_tables txs blocks]. split_and!; [done| |].
    + exists (set_block f (Some b) (Some i)). split_and!; try done. apply list_elem_of_fmap. exists f.
      by rewrite Z.eqb_refl.
    + intros t Ht Hne. apply list_elem_of_fmap. exists t. split; [|done].
      destruct (Z.eqb_spec (t_id t) (t_id f)) as [E|]; [|done].
      destruct Hne. by rewrite (NoDup_map_inj t_id (txs st) t f (ok_tx_ids _ Hok) Ht Hf E).
  - apply insert_new_inv in H as (lt & ins & inext & outs & onext & _ & _ & _ & _ & _ & ->).
    cbn [set_tables txs blocks]. split_and!; [done| |].
    + eexists. split; [apply elem_of_app; right; by apply list_elem_of_singleton|done].
    + intros t Ht _. apply elem_of_app. by left.
Qed.

Lemma transaction_insert_pending {numbers : JsonNumbers} d raw st st' :
  transaction_insert (-1) d raw (-1) st = Val st' → blocks st' = blocks st ∧ ∀ t, t ∈ txs st → t ∈ txs st'.
Proof.
  unfold transaction_insert. cbn [null_if_minus_one Z.eqb]. case_match; [done|].
  destruct (find _ (txs st)) as [f|]; [by intros [= <-]|].
  intros (lt & ins & inext & outs & onext & _ & _ & _ & _ & _ & ->)%insert_new_inv.
  cbn [set_tables txs blocks]. split; [done|]. intros t Ht. apply elem_of_app. by left.
Qed.

(** The transaction is there, and no insertion removes one. *)
Lemma transaction_insert_txids {numbers : JsonNumbers} b d raw i st st' :
  transaction_insert b d raw i st = Val st' →
  d_txid d ∈ map t_txid (txs st') ∧ ∀ x, x ∈ map t_txid (txs st) → x ∈ map t_txid (txs st').
Proof.
  unfold transaction_insert. destruct (negb _); [done|]. destruct (find _ (txs st)) as [f|] eqn:Hf.
  - intros H. assert (E : map t_txid (txs st') = map t_txid (txs st)).
    { repeat case_match; simplify_eq; [|done]. cbn [set_tables txs]. by rewrite (map_set_block t_txid). }
    rewrite E. split; [|done]. apply find_some in Hf as [Hf%list_elem_of_In <-%bool_decide_eq_true].
    by apply (list_elem_of_fmap_2 t_txid).
  - intros (lt & ins & inext & outs & onext & _ & _ & _ & _ & _ & ->)%insert_new_inv.
    cbn [set_tables txs]. rewrite map_app. split; [|intros x Hx]; apply elem_of_app; [right|by left].
    by apply list_elem_of_singleton.
Qed.

Lemma make_tx_txid {numbers : JsonNumbers} tx d : make_tx tx = Val d → d_txid d = TxID tx.
Proof.
  unfold make_tx. intros (outs & _ & H)%bind_Val. destruct (number_text _); [|done]. by injection H as <-.
Qed.

Lemma fill_hash_txid tx : TxID (fill_hash tx) = TxID tx.
Proof. unfold fill_hash. by destruct (bool_decide _). Qed.

Lemma sent_header_node {numbers : JsonNumbers} b h : sent_header b = Val h → node_of h = node_of b ∧ Hash h = Hash b ∧ Height h = Height b.
Proof. unfold sent_header. destruct (number_text _); [|done]. by intros [= <-]. Qed.

(** A block that cannot be sent is not stored. *)
Lemma InsertBlock_sent {numbers : JsonNumbers} attempts b recover c id c' :
  InsertBlock attempts b recover c = (Val id, c') → ∃ h, sent_header b = Val h.
Proof.
  unfold InsertBlock. destruct (Simple _ _ _ _) as [[r [c1 id1]] sl] eqn:H. intros Hr.
  apply (Simple_invariant (insert_block_once b recover) (fun _ => True)
    (fun r _ => match r with Val _ => ∃ h, sent_header b = Val h | _ => True end)) in H; [|clear H|done].
  - destruct r; [done|by injection Hr..].
  - intros [c0 id0] _. unfold insert_block_once. destruct (sent_header b) as [h|e|p|e]; [|done..].
    destruct (exec _ _ c0) as [[]]; by eauto.
Qed.

(** ** A node's chain *)

(** The blocks of heights [0] to [n - 1] of a node, and their transactions. *)
Record node_chain (chain : Z → Block) (n : Z) : Prop := {
  nc_height : ∀ h, 0 ≤ h < n → block_height (chain h) = h;
  nc_hash : ∀ h k, 0 ≤ h < n → 0 ≤ k < n → Hash (header (chain h)) = Hash (header (chain k)) → h = k;
  nc_link : ∀ h, 0 < h < n → PrevHash (header (chain h)) = Hash (header (chain (h - 1)));
  nc_first : ∀ h, 0 ≤ h < n → Hash (header (chain h)) ≠ PrevHash (header (chain 0));
  nc_txs : NoDup (concat (map (fun h => map TxID (Txs (chain h))) (seqZ 0 n)));
}.

(** What is stored after the blocks [W] and the transactions [T] were written. *)
Record stored (W : list (Block * Z)) (T : list txResult) (st : store) : Prop := {
  st_ok : store_ok st;
  st_nodes : nodes (rows (blocks st)) = map (fun '(b, _) => node_of (header b)) W;
  st_ids : map row_id (rows (blocks st)) = map snd W;
  st_main : ∀ n, n ∈ nodes (rows (blocks st)) → canon (rows (blocks st)) n;
  st_txs : ∀ r, r ∈ T → ∃ t, t ∈ txs st ∧ t_txid t = TxID (r_tx r) ∧
    t_block_id t = Some (r_blockId r) ∧ t_index t = Some (r_index r);
}.

Lemma stored_empty : stored [] [] empty_store.
Proof.
  split; [apply store_ok_empty|done|done|by intros n ?%elem_of_nil|by intros r ?%elem_of_nil].
Qed.

(** Every stored block is on the main chain and found under its id. *)
Lemma stored_row W T st i b id :
  stored W T st → W !! i = Some (b, id) →
  ∃ r, r ∈ rows (blocks st) ∧ row_id r = id ∧ node_of (row r) = node_of (header b) ∧ IsOrphan (row r) = false ∧
    find (fun r => (row_id r =? id) && on_chain (row r)) (rows (blocks st)) = Some r.
Proof.
  intros [Hok Hn Hi Hm _] HW.
  destruct (rows (blocks st) !! i) as [r|] eqn:Hr.
  2:{ apply lookup_ge_None in Hr. apply lookup_lt_Some in HW. apply (f_equal length) in Hi. rewrite !length_map in Hi. lia. }
  pose proof (list_elem_of_lookup_2 _ _ _ Hr) as Hin.
  assert (Hnode : node_of (row r) = node_of (header b)).
  { apply (f_equal (lookup i)) in Hn. unfold nodes in Hn. change (map ?f ?l) with (f <$> l) in Hn.
    rewrite !list_lookup_fmap, Hr, HW in Hn. by apply (inj Some) in Hn. }
  assert (Hid : row_id r = id).
  { apply (f_equal (lookup i)) in Hi. change (map ?f ?l) with (f <$> l) in Hi.
    rewrite !list_lookup_fmap, Hr, HW in Hi. by apply (inj Some) in Hi. }
  assert (Ho : IsOrphan (row r) = false).
  { destruct (Hm (node_of (row r))) as (s & Hs & Hsn & Hso);
      [by apply (list_elem_of_fmap_2 (fun r => node_of (row r)))|].
    by rewrite (row_determines (rows (blocks st)) r s (ok_keys _ (ok_blocks _ Hok)) Hin Hs (eq_sym Hsn)). }
  exists r. split_and!; try done. destruct (find _ (rows (blocks st))) as [s|] eqn:Hf.
  - apply find_some in Hf as [Hs%list_elem_of_In [E%Z.eqb_eq _]%andb_true_iff].
    f_equal. apply (NoDup_map_inj row_id (rows (blocks st))); [apply Hok|done|done|congruence].
  - pose proof (find_none _ _ Hf r (proj1 (list_elem_of_In _ _) Hin)) as Hno. cbn in Hno.
    unfold on_chain in Hno. by rewrite Hid, Z.eqb_refl, Ho in Hno.
Qed.

(** The blocks written are the first of the chain. *)
Definition prefix_of (chain : Z → Block) (W : list (Block * Z)) : Prop := map fst W = map chain (seqZ 0 (Z.of_nat (length W))).

Lemma node_chain_le chain n m : node_chain chain n → m ≤ n → node_chain chain m.
Proof.
  intros [H1 H2 H3 H4 H5] Hm. split.
  - intros h Hh. apply H1. lia.
  - intros h k Hh Hk. apply H2; lia.
  - intros h Hh. apply H3. lia.
  - intros h Hh. apply H4. lia.
  - destruct (Z_le_gt_dec m 0); [rewrite seqZ_nil by lia; constructor|].
    replace n with (m + (n - m)) in H5 by lia. rewrite seqZ_app, map_app, concat_app in H5 by lia.
    by apply list.NoDup_app in H5 as [? _].
Qed.

Section chain.
Context {numbers : JsonNumbers} (attempts : Z) (chain : Z → Block) (n : Z) (Hchain : node_chain chain n).

Lemma prefix_nodes W : prefix_of chain W →
  map (fun '(b, _) => node_of (header b)) W = map (fun h => node_of (header (chain h))) (seqZ 0 (Z.of_nat (length W))).
Proof.
  intros H. transitivity (map (fun b => node_of (header b)) (map fst W)).
  - rewrite map_map. apply map_ext. by intros [].
  - by rewrite H, map_map.
Qed.

Lemma prefix_of_snoc W b id :
  prefix_of chain (W ++ [(b, id)]) → prefix_of chain W ∧ b = chain (Z.of_nat (length W)).
Proof.
  unfold prefix_of. rewrite map_app, length_app, Nat2Z.inj_add, seqZ_app, map_app by lia. cbn [length].
  change (seqZ (0 + Z.of_nat (length W)) (Z.of_nat 1)) with [0 + Z.of_nat (length W)]. cbn [map fst].
  intros [H1 [= H2]]%app_inj_tail. done.
Qed.

Lemma prefix_of_snoc' W id : prefix_of chain W → prefix_of chain (W ++ [(chain (Z.of_nat (length W)), id)]).
Proof.
  unfold prefix_of. intros H. rewrite map_app, length_app, Nat2Z.inj_add, seqZ_app, map_app, H by lia. done.
Qed.

(** What is stored are nodes of the chain. *)
Lemma stored_nodes W T st m :
  prefix_of chain W → stored W T st → m ∈ nodes (rows (blocks st)) →
  ∃ j, 0 ≤ j < Z.of_nat (length W) ∧ m = node_of (header (chain j)).
Proof.
  intros HW [_ Hn _ _ _]. rewrite Hn, (prefix_nodes W HW).
  intros (j & -> & Hj%elem_of_seqZ)%list_elem_of_fmap. exists j. split; [lia|done].
Qed.

Lemma chain_node j : 0 ≤ j < n → nheight (node_of (header (chain j))) = j.
Proof. apply (nc_height _ _ Hchain). Qed.

Lemma chain_consistent k (N : list node) :
  k ≤ n → (∀ m, m ∈ N → ∃ j, 0 ≤ j < k ∧ m = node_of (header (chain j))) → consistent N.
Proof.
  intros Hk HN. split.
  - intros a b (i & Hi & ->)%HN (j & Hj & ->)%HN Heq. cbn in Heq.
    apply (nc_hash _ _ Hchain) in Heq as ->; [done|lia|lia].
  - intros a b (i & Hi & ->)%HN (j & Hj & ->)%HN Heq. rewrite !chain_node by lia. cbn in Heq.
    destruct (decide (i = 0)) as [->|Hi0].
    { exfalso. apply (nc_first _ _ Hchain j); [lia|done]. }
    rewrite (nc_link _ _ Hchain) in Heq by lia. apply (nc_hash _ _ Hchain) in Heq; lia.
Qed.

(** A block of the chain that is the last stored one or the next attaches. *)
Lemma chain_attaches W T st h j :
  prefix_of chain W → stored W T st → Z.of_nat (length W) ≤ j + 1 → 0 ≤ j ≤ Z.of_nat (length W) → j < n →
  node_of h = node_of (header (chain j)) → attachable h (rows (blocks st)).
Proof.
  intros HW Hst Hlo Hhi Hjn Hh. pose proof (stored_nodes W T st) as Hin.
  assert (Hz : Height h = j).
  { rewrite <-(chain_node j) by lia. by rewrite <-Hh. }
  split.
  - apply (chain_consistent (j + 1)); [lia|]. intros m [->|Hm]%elem_of_cons; [exists j; split; [lia|done]|].
    destruct (Hin m HW Hst Hm) as (i & Hi & ->). exists i. split; [lia|done].
  - intros m Hc%canon_nodes. destruct (Hin m HW Hst Hc) as (i & Hi & ->). rewrite Hz, chain_node; lia.
  - rewrite Hh, (st_nodes _ _ _ Hst), (prefix_nodes W HW). destruct (decide (Z.of_nat (length W) = j + 1)) as [E|].
    { right. right. apply list_elem_of_fmap. exists j. split; [done|]. apply elem_of_seqZ. lia. }
    destruct (decide (j = 0)) as [->|Hj0]; [left|right; left].
    + pose proof (st_nodes _ _ _ Hst) as Hn. rewrite (prefix_nodes W HW) in Hn.
      replace (Z.of_nat (length W)) with 0 in Hn by lia. by apply map_eq_nil in Hn.
    + exists (node_of (header (chain (j - 1)))). rewrite Hz, chain_node by lia. split_and!; [|by injection Hh as _ _ ->; rewrite (nc_link _ _ Hchain) by lia|done].
      apply (st_main _ _ _ Hst). rewrite (st_nodes _ _ _ Hst), (prefix_nodes W HW).
      apply list_elem_of_fmap. exists (j - 1). split; [done|]. apply elem_of_seqZ. lia.
Qed.

(** The next block of the chain is new. *)
Lemma next_new W T st h :
  prefix_of chain W → stored W T st → Z.of_nat (length W) < n →
  node_of h = node_of (header (chain (Z.of_nat (length W)))) →
  ∀ m, m ∈ nodes (rows (blocks st)) → nkey m ≠ (Hash h, Height h).
Proof.
  intros HW Hst Hlt Hh m Hm. destruct (stored_nodes _ _ _ _ HW Hst Hm) as (j & Hj & ->). intros [= Heq _].
  injection Hh as Hh _ _. rewrite Hh in Heq. apply (nc_hash _ _ Hchain) in Heq; lia.
Qed.

Lemma stored_block W T st b id fs st' fs' :
  prefix_of chain W → stored W T st → Z.of_nat (length W) < n → b = chain (Z.of_nat (length W)) →
  InsertBlock attempts (header b) false (st, fs) = (Val id, (st', fs')) →
  stored (W ++ [(b, id)]) T st' ∧ txs st' = txs st.
Proof.
  intros HW Hst Hlt -> Hins. destruct (InsertBlock_sent _ _ _ _ _ _ Hins) as [h Hh].
  destruct (sent_header_node _ _ Hh) as (Hnode & _).
  pose proof (chain_attaches W T st h (Z.of_nat (length W)) HW Hst ltac:(lia) ltac:(lia) Hlt Hnode) as Hatt.
  pose proof (next_new W T st h HW Hst Hlt Hnode) as Hnew.
  destruct (InsertBlock_outcome attempts _ h st st' fs fs' (Val id) (st_ok _ _ _ Hst) Hh Hatt Hins) as (t & Ht & ->).
  destruct (block_insert_attached h (blocks st) id t (ok_blocks _ (st_ok _ _ _ Hst)) Hatt Hnew Ht) as (Hid & Hnext & Hrows).
  destruct Hst as [Hok Hn Hi Hm Htx].
  destruct (seated_shape h (rows (blocks st))) as [Hsn Hsi].
  destruct (seated_snoc h (rows (blocks st)) id) as (_ & _ & Hc); [apply Hok|apply Hok|done|].
  split; [|done]. split; cbn [blocks set_blocks txs]; try done.
  - by eapply store_ok_block.
  - by rewrite Hrows, nodes_snoc, Hsn, Hn, map_app, Hnode.
  - by rewrite Hrows, !map_app, Hsi, Hi.
  - intros m. rewrite Hrows, nodes_snoc, Hsn, elem_of_app, list_elem_of_singleton, Hc. intros [Hin| ->]; [left|by right].
    split; [by apply Hm|]. pose proof (att_tip _ _ Hatt m (Hm m Hin)) as Hle.
    assert (Hk := Hnew m Hin). intros E. rewrite Hn, (prefix_nodes W HW) in Hin.
    apply list_elem_of_fmap in Hin as (j & -> & Hj%elem_of_seqZ). cbn in E.
    injection Hnode as E1 E2 E3. rewrite E2 in E.
    pose proof (nc_height _ _ Hchain j) as H1. pose proof (nc_height _ _ Hchain (Z.of_nat (length W))) as H2.
    unfold block_height in H1, H2. rewrite H1, H2 in E by lia. lia.
Qed.

(** The last stored block may be sent again. *)
Lemma stored_block_again W T st b id id' fs st' fs' :
  prefix_of chain (W ++ [(b, id)]) → stored (W ++ [(b, id)]) T st → Z.of_nat (length W) < n →
  InsertBlock attempts (header b) false (st, fs) = (Val id', (st', fs')) →
  id' = id ∧ stored (W ++ [(b, id)]) T st' ∧ txs st' = txs st.
Proof.
  intros HW Hst Hlt Hins. destruct (InsertBlock_sent _ _ _ _ _ _ Hins) as [h Hh].
  destruct (sent_header_node _ _ Hh) as (Hnode & _). pose proof (prefix_of_snoc _ _ _ HW) as [_ Hb].
  assert (Hlen : Z.of_nat (length (W ++ [(b, id)])) = Z.of_nat (length W) + 1) by (rewrite length_app; cbn; lia).
  pose proof (chain_attaches _ T st h (Z.of_nat (length W)) HW Hst ltac:(lia) ltac:(lia) Hlt) as Hatt.
  rewrite <-Hb in Hatt. specialize (Hatt Hnode).
  destruct (InsertBlock_outcome attempts _ h st st' fs fs' (Val id') (st_ok _ _ _ Hst) Hh Hatt Hins) as (t & Ht & ->).
  pose proof (store_ok_block _ _ _ _ _ (st_ok _ _ _ Hst) Ht) as Hok'.
  assert (HWk : (W ++ [(b, id)]) !! length W = Some (b, id)) by by apply list_lookup_middle.
  destruct (stored_row _ _ _ _ _ _ Hst HWk) as (r & Hr & <- & Hrn & Hro & _).
  assert (Hall : ∀ m, m ∈ nodes (rows (blocks st)) → nheight m = Height h → m = node_of h).
  { intros m Hm. destruct (stored_nodes _ _ _ _ HW Hst Hm) as (j & Hj & ->). rewrite chain_node by lia.
    rewrite Hnode, Hb. change (Height h) with (nheight (node_of h)). rewrite Hnode, Hb, chain_node by lia. by intros ->. }
  destruct (block_insert_stored h (blocks st) r id' t) as (-> & [Hsn Hsi] & Hc);
    [apply Hst|done|by rewrite Hnode|exists r; by rewrite Hnode|done|done|].
  destruct Hst as [Hok Hn Hi Hm Htx]. split_and!; [done| |done]. split; cbn [blocks set_blocks txs]; try done.
  - by rewrite Hsn.
  - by rewrite Hsi.
  - intros m. rewrite Hsn, Hc. apply Hm.
Qed.

(** A block below the last stored one is refused. *)
Lemma stored_block_below W T st j id fs c' :
  prefix_of chain W → stored W T st → 0 ≤ j → j + 1 < Z.of_nat (length W) ≤ n →
  InsertBlock attempts (header (chain j)) false (st, fs) ≠ (Val id, c').
Proof.
  intros HW Hst Hj Hlen Hins. destruct (InsertBlock_sent _ _ _ _ _ _ Hins) as [h Hh].
  destruct (sent_header_node _ _ Hh) as (Hnode & _). destruct c' as [st' fs'].
  assert (Hno : ∀ x, block_insert h false (blocks st) ≠ Val x).
  { intros [i t] (_ & Hlast & _)%block_insert_inv.
    assert (Hc : canon (rows (blocks st)) (node_of (header (chain (Z.of_nat (length W) - 1))))).
    { apply (st_main _ _ _ Hst). rewrite (st_nodes _ _ _ Hst), (prefix_nodes W HW). apply list_elem_of_fmap.
      eexists. split; [done|]. apply elem_of_seqZ. lia. }
    pose proof (last_block_height_spec (rows (blocks st))) as Hspec.
    destruct (last_block_height _) as [l|]; [|by apply Hspec in Hc]. apply Hspec in Hc.
    specialize (Hlast l eq_refl eq_refl). rewrite chain_node in Hc by lia.
    change (Height h) with (nheight (node_of h)) in Hlast. rewrite Hnode, chain_node in Hlast by lia. lia. }
  destruct (InsertBlock_repeated attempts _ h st st' fs fs' (Val id) Hh) with (2 := Hins) as (t & Ht & _);
    [|by apply Hno in Ht].
  by intros a x ([i t] & Ht%Hno & _)%bind_Val.
Qed.

Lemma results_of_inv W r :
  r ∈ results_of W → ∃ b i, (b, r_blockId r) ∈ W ∧ r_index r = Z.of_nat i ∧ Txs b !! i = Some (r_tx r).
Proof.
  unfold results_of. intros Hr. apply list_elem_of_In, in_concat in Hr as (l & Hl & Hr).
  apply list_elem_of_In, list_elem_of_fmap in Hl as ([b id] & -> & Hb).
  apply list_elem_of_In in Hr. unfold block_results in Hr. apply elem_of_lookup_imap in Hr as (i & tx & -> & Hi).
  by exists b, i.
Qed.

Lemma stored_tx W T st r fs st' fs' :
  stored W T st → r ∈ results_of W → (∀ r', r' ∈ T → TxID (r_tx r') = TxID (r_tx r) → r' = r) →
  InsertTx attempts (fill_hash (r_tx r)) (r_index r) (r_blockId r) (st, fs) = (Val tt, (st', fs')) →
  stored W (T ++ [r]) st'.
Proof.
  intros [Hok Hn Hi Hm Htx] Hr Hnew Hins.
  assert (Hnum : 1 ≤ r_blockId r ∧ 0 ≤ r_index r).
  { apply results_of_inv in Hr as (b & i & Hb & -> & _). set (id := r_blockId r) in *.
    split; [|lia]. pose proof (ok_next _ (ok_blocks _ Hok)) as Hp. rewrite list.Forall_forall in Hp.
    assert (Hin : id ∈ map row_id (rows (blocks st))) by (rewrite Hi; by apply (list_elem_of_fmap_2 snd W (b, id))).
    apply list_elem_of_fmap in Hin as (x & -> & Hx). specialize (Hp x Hx). lia. }
  destruct (InsertTx_outcome attempts _ _ _ st st' fs fs' (Val tt) Hok Hins) as (d & Hd & Htxi).
  pose proof (make_tx_txid _ _ Hd) as Htxid. rewrite fill_hash_txid in Htxid.
  pose proof (store_ok_transaction_insert _ _ _ _ _ _ Hok Htxi) as Hok'.
  destruct (transaction_insert_stores _ _ _ _ _ _ Hok Htxi) as (Hb & (t & Ht & E1 & E2 & E3) & Hkeep); [lia..|].
  split; rewrite ?Hb; try done.
  intros r' [Hr'|Hr']%elem_of_app.
  - destruct (decide (TxID (r_tx r') = TxID (r_tx r))) as [E|E].
    { rewrite (Hnew r' Hr' E). exists t. by rewrite E1, Htxid. }
    destruct (Htx r' Hr') as (t' & Ht' & F1 & F2). exists t'. split; [|done]. apply Hkeep; [done|].
    by rewrite F1, Htxid.
  - apply list_elem_of_singleton in Hr'. subst r'. exists t. by rewrite E1, Htxid.
Qed.

(** A transaction of the mempool is stored unless it is there already. *)
Lemma stored_pending W T st tx fs st' fs' :
  stored W T st → InsertTx attempts (fill_hash tx) (-1) (-1) (st, fs) = (Val tt, (st', fs')) →
  stored W T st'.
Proof.
  intros [Hok Hn Hi Hm Htx] Hins.
  destruct (InsertTx_outcome attempts _ _ _ st st' fs fs' (Val tt) Hok Hins) as (d & Hd & H).
  pose proof (store_ok_transaction_insert _ _ _ _ _ _ Hok H) as Hok'.
  apply transaction_insert_pending in H as (Hb & Hkeep). split; rewrite ?Hb; try done. intros r Hr. destruct (Htx r Hr) as (t & Ht & Hrest). exists t. auto.
Qed.

(** Whatever is written, the transactions are there. *)
Lemma InsertTx_txids tx i b st fs st' fs' :
  store_ok st → InsertTx attempts (fill_hash tx) i b (st, fs) = (Val tt, (st', fs')) →
  TxID tx ∈ map t_txid (txs st') ∧ ∀ x, x ∈ map t_txid (txs st) → x ∈ map t_txid (txs st').
Proof.
  intros Hok Hins. destruct (InsertTx_outcome attempts _ _ _ st st' fs fs' (Val tt) Hok Hins) as (d & Hd & H).
  pose proof (make_tx_txid _ _ Hd) as Htxid. rewrite fill_hash_txid in Htxid. rewrite <-Htxid.
  by eapply transaction_insert_txids.
Qed.

Lemma after_block_prefix l k : after_block (l ++ k) → after_block l.
Proof. intros H l1 r l2 ->. apply (H l1 r (l2 ++ k)). by rewrite <-app_assoc. Qed.

Lemma blocks_written_snoc l e :
  blocks_written (l ++ [e]) = blocks_written l ++ match e with BlockWritten b id => [(b, id)] | TxWritten _ => [] end.
Proof. unfold blocks_written. rewrite omap_snoc. by destruct e. Qed.

Lemma txs_written_snoc l e :
  txs_written (l ++ [e]) = txs_written l ++ match e with TxWritten r => [r] | BlockWritten _ _ => [] end.
Proof. unfold txs_written. rewrite omap_snoc. by destruct e. Qed.

Lemma replays_stored c l c' :
  @replays conn (postgres_database attempts) false c l c' → c.1 = empty_store → after_block l →
  prefix_of chain (blocks_written l) → Z.of_nat (length (blocks_written l)) ≤ n →
  NoDup (map (fun r => TxID (r_tx r)) (txs_written l)) →
  stored (blocks_written l) (txs_written l) c'.1.
Proof.
  intros H Hempty. induction H as [c|c l c1 c2 b id H IH Hins|c l c1 c2 r H IH Hins]; intros Haf HW Hlen Hnd.
  - rewrite Hempty. apply stored_empty.
  - rewrite blocks_written_snoc, txs_written_snoc, app_nil_r in *. apply prefix_of_snoc in HW as [HW Hb].
    rewrite length_app in Hlen. cbn in Hlen. destruct c1 as [st fs], c2 as [st' fs'].
    eapply proj1, stored_block; [done| |lia|done|exact Hins]. apply IH; [done|by eapply after_block_prefix|done|lia|done].
  - rewrite blocks_written_snoc, txs_written_snoc, app_nil_r in *. destruct c1 as [st fs], c2 as [st' fs'].
    rewrite map_app in Hnd. apply list.NoDup_app in Hnd as (Hnd & Hdis & _).
    eapply stored_tx; [|by apply (Haf l r [])| |exact Hins].
    + apply IH; [done|by eapply after_block_prefix|done|done|done].
    + intros r' Hr' E. destruct (Hdis (TxID (r_tx r'))); [by apply (list_elem_of_fmap_2 (fun r => TxID (r_tx r)))|].
      by apply list_elem_of_singleton.
Qed.

End chain.

(** ** Properties *)

(** The node answers with the blocks of its chain. *)
Definition serves_chain (chain : Z → Block) (n : Z) (hs : list Z) (blks : list Block) : Prop :=
  blks ≡ₚ map chain hs ∧ Forall (fun h => 0 ≤ h < n) hs.

Lemma serves_chain_heights chain n hs blks :
  node_chain chain n → serves_chain chain n hs blks → map block_height blks ≡ₚ hs.
Proof.
  intros Hc [-> Hr]. rewrite map_map. induction Hr as [|h hs Hh _ IH]; [done|]. cbn.
  rewrite (nc_height _ _ Hc) by done. by apply Permutation_skip.
Qed.

(** The blocks of ascending heights are the chain. *)
Lemma heights_chain chain n (L : list Block) :
  node_chain chain n → 0 ≤ n → Forall (fun b => ∃ h, 0 ≤ h < n ∧ b = chain h) L →
  map block_height L = seqZ 0 n → L = map chain (seqZ 0 n).
Proof.
  intros Hc Hn Hg Hh. rewrite <-Hh, map_map. rewrite <-(map_id L) at 1. apply map_ext_in.
  intros b Hb%list_elem_of_In. rewrite list.Forall_forall in Hg. destruct (Hg b Hb) as (h & Hr & ->).
  by rewrite (nc_height _ _ Hc).
Qed.

Lemma results_of_txids W :
  map (fun r => TxID (r_tx r)) (results_of W) = concat (map (fun '(b, _) => map TxID (Txs b)) W).
Proof.
  unfold results_of. rewrite concat_map, map_map. f_equal. apply map_ext. intros [b id].
  unfold block_results. change (map ?f ?l) with (f <$> l). rewrite fmap_imap, <-(imap_const TxID). by apply imap_ext.
Qed.

(** What is stored is read back as transactions of their blocks. *)
Lemma stored_tx_read {order : RowOrder} W T st i b id r :
  stored W T st → W !! i = Some (b, id) → r ∈ T → r_blockId r = id →
  ∃ t, GetTxByTxID (TxID (r_tx r)) st = Val t ∧ db_BlockHeight t = block_height b ∧
    db_BlockHash t = Hash (header b) ∧ db_Mempool t = false.
Proof.
  intros Hst HW Hr Hid. destruct (stored_row _ _ _ _ _ _ Hst HW) as (s & _ & _ & Hnode & _ & Hfind).
  destruct (st_txs _ _ _ Hst r Hr) as (t & Ht & E1 & E2 & _).
  assert (Hft : find (fun t => bool_decide (t_txid t = TxID (r_tx r))) (txs st) = Some t).
  { destruct (find _ (txs st)) as [t'|] eqn:Hf.
    - apply find_some in Hf as [Hin%list_elem_of_In E%bool_decide_eq_true]. f_equal.
      apply (NoDup_map_inj t_txid (txs st)); [apply Hst|done|done|congruence].
    - pose proof (find_none _ _ Hf t (proj1 (list_elem_of_In _ _) Ht)) as Hno. cbn in Hno.
      by apply bool_decide_eq_false in Hno. }
  assert (Hblk : tx_block st t = Some (row s)).
  { unfold tx_block. rewrite E2. cbn. by rewrite Hid, Hfind. }
  eexists. split; [unfold GetTxByTxID; rewrite Hft; cbn [scan_row mbind gores_bind wrap_err]; reflexivity|].
  cbn [db_BlockHeight db_BlockHash db_Mempool]. rewrite Hblk. injection Hnode as -> -> _. done.
Qed.

Lemma stored_block_read W T st i b id :
  stored W T st → W !! i = Some (b, id) →
  ∃ x, GetBlock (ByHeight (block_height b)) st = Val x ∧ node_of x = node_of (header b) ∧ IsOrphan x = false.
Proof.
  intros Hst HW. destruct (stored_row _ _ _ _ _ _ Hst HW) as (r & Hr & _ & Hnode & Ho & _).
  apply (GetBlock_canon (node_of (header b))); [apply Hst|by exists r].
Qed.

Lemma stored_last W T st i b id :
  stored W T st → W !! i = Some (b, id) → (∀ c k, (c, k) ∈ W → block_height c ≤ block_height b) →
  LastBlock st = Val (Some (Hash (header b), block_height b)).
Proof.
  intros Hst HW Hmax. destruct (stored_row _ _ _ _ _ _ Hst HW) as (r & Hr & _ & Hnode & Ho & _).
  apply (LastBlock_canon (node_of (header b))); [apply Hst|by exists r|].
  intros x Hx%canon_nodes. rewrite (st_nodes _ _ _ Hst) in Hx. apply list_elem_of_fmap in Hx as ([c k] & -> & Hin).
  by apply (Hmax c k).
Qed.

(** The blocks of heights [0] to [n - 1] are read back on the main chain, the
    last is [LastBlock], and their transactions are found under them. *)
Definition holds_chain {order : RowOrder} (chain : Z → Block) (n : Z) (st : store) : Prop :=
  (∀ h, 0 ≤ h < n → ∃ b, GetBlock (ByHeight h) st = Val b ∧ Hash b = Hash (header (chain h)) ∧
     PrevHash b = PrevHash (header (chain h)) ∧ IsOrphan b = false) ∧
  LastBlock st = Val (Some (Hash (header (chain (n - 1))), n - 1)) ∧
  ∀ h i tx, 0 ≤ h < n → Txs (chain h) !! i = Some tx →
    ∃ t, GetTxByTxID (TxID tx) st = Val t ∧ db_BlockHeight t = h ∧
      db_BlockHash t = Hash (header (chain h)) ∧ db_Mempool t = false.

Lemma prefix_of_lookup chain W h :
  prefix_of chain W → 0 ≤ h < Z.of_nat (length W) → ∃ id, W !! Z.to_nat h = Some (chain h, id).
Proof.
  intros HW Hr. apply (f_equal (lookup (Z.to_nat h))) in HW. change (map ?f ?l) with (f <$> l) in HW.
  rewrite !list_lookup_fmap, lookup_seqZ_lt in HW by lia. destruct (W !! Z.to_nat h) as [[b id]|]; [|done].
  cbn in HW. injection HW as ->. exists id. repeat f_equal. lia.
Qed.

Lemma elem_of_results_of W h b id i tx :
  W !! h = Some (b, id) → Txs b !! i = Some tx →
  {| r_tx := tx; r_index := Z.of_nat i; r_blockId := id |} ∈ results_of W.
Proof.
  intros HW Hi. unfold results_of. apply list_elem_of_In, in_concat. exists (block_results b id).
  split; [apply list_elem_of_In, (list_elem_of_fmap_2 (fun '(b, id) => block_results b id) W (b, id)); by eapply list_elem_of_lookup_2|].
  apply list_elem_of_In, elem_of_lookup_imap. by exists i, tx.
Qed.

Lemma stored_last_block chain n W T st :
  node_chain chain n → prefix_of chain W → stored W T st → 1 ≤ Z.of_nat (length W) ≤ n →
  LastBlock st = Val (Some (Hash (header (chain (Z.of_nat (length W) - 1))), Z.of_nat (length W) - 1)).
Proof.
  intros Hchain HW Hst Hlen. destruct (prefix_of_lookup chain W (Z.of_nat (length W) - 1)) as [id Hid]; [done|lia|].
  rewrite (stored_last _ _ _ _ _ _ Hst Hid); rewrite (nc_height _ _ Hchain) by lia; [done|].
  intros c k Hc. assert (Hch : c ∈ map fst W) by by apply (list_elem_of_fmap_2 fst W (c, k)).
  rewrite HW in Hch. apply list_elem_of_fmap in Hch as (h & -> & Hh%elem_of_seqZ). rewrite (nc_height _ _ Hchain); lia.
Qed.

Lemma stored_holds_chain {order : RowOrder} chain n W T st :
  node_chain chain n → prefix_of chain W → stored W T st → 1 ≤ Z.of_nat (length W) ≤ n →
  (∀ r, r ∈ results_of W → r ∈ T) → holds_chain chain (Z.of_nat (length W)) st.
Proof.
  intros Hchain HW Hst Hlen HT. split_and!; [| by eapply stored_last_block|].
  - intros h Hr. destruct (prefix_of_lookup chain W h HW Hr) as [id Hid].
    destruct (stored_block_read _ _ _ _ _ _ Hst Hid) as (x & Hx & Hnx & Hox).
    rewrite (nc_height _ _ Hchain) in Hx by lia. exists x. injection Hnx as E1 _ E3. done.
  - intros h i tx Hr Hi. destruct (prefix_of_lookup chain W h HW Hr) as [id Hid].
    destruct (stored_tx_read _ _ _ _ _ _ {| r_tx := tx; r_index := Z.of_nat i; r_blockId := id |} Hst Hid) as (t & E1 & E2 & E3 & E4);
      [apply HT; by eapply elem_of_results_of|done|exists t; by rewrite (nc_height _ _ Hchain) in E2 by lia].
Qed.

(** The transactions of the blocks of a chain are different. *)
Lemma prefix_txids chain n W :
  node_chain chain n → prefix_of chain W → Z.of_nat (length W) ≤ n → NoDup (map (fun r => TxID (r_tx r)) (results_of W)).
Proof.
  intros Hchain HW Hlen. rewrite results_of_txids.
  replace (map (fun '(b, _) => map TxID (Txs b)) W) with (map (fun b => map TxID (Txs b)) (map fst W))
    by (rewrite map_map; apply map_ext; by intros []).
  rewrite HW, map_map. pose proof (nc_txs _ _ Hchain) as Hnd.
  replace n with (Z.of_nat (length W) + (n - Z.of_nat (length W))) in Hnd by lia.
  rewrite seqZ_app, map_app, concat_app in Hnd by lia. by apply list.NoDup_app in Hnd as [? _].
Qed.

(** What the initial synchronisation stores. *)
Lemma initialSync_stored {numbers : JsonNumbers} {S : SortSlice Block} {laws : SortSliceLaws S less_height}
    (rpcThreads dbThreads : nat) (attempts : Z) (chain : Z → Block) (n : Z) (bs : list (list Z))
    (fs : list fault) (p : @pipe conn) :
  node_chain chain n → 1 ≤ n → n < two63 → concat bs = seqZ 0 n →
  rtc (@step conn (postgres_database attempts) S rpcThreads dbThreads false (serves_chain chain n))
    (start_pipe 0 bs (empty_store, fs)) p →
  at_rest p →
  ∃ W T, n = Z.of_nat (length W) ∧ prefix_of chain W ∧ stored W T (db p).1 ∧ T ≡ₚ results_of W ∧
    T = txs_written (log p) ∧ @replays conn (postgres_database attempts) false (empty_store, fs) (log p) (db p).
Proof.
  intros Hchain Hn1 Hn63 Hbs Hrun Hrest.
  assert (Htop : Forall (fun h => h < two63 - 1) (concat bs)).
  { rewrite Hbs. apply list.Forall_forall. intros h. rewrite elem_of_seqZ. lia. }
  apply (pipe_ok_reachable _ _ _ _ (fun b => ∃ h, 0 ≤ h < n ∧ b = chain h) 0 bs (empty_store, fs)) in Hrun; [| | |done|done].
  2:{ intros hs blks. by apply serves_chain_heights. }
  2:{ intros hs blks [Hp Hr]. rewrite list.Forall_forall in Hr. apply list.Forall_forall. intros b. rewrite Hp.
      intros (h & -> & Hh)%list_elem_of_fmap. exists h. auto. }
  destruct (pipe_at_rest false _ 0 n bs _ p Hbs ltac:(lia) Hrun Hrest) as (_ & Hh & Htx & Hg).
  destruct Hrun as [_ _ _ Haf Hdb].
  set (W := blocks_written (log p)) in *. set (T := txs_written (log p)) in *.
  assert (HW : map fst W = map chain (seqZ 0 n)).
  { apply (heights_chain _ n); [done|lia|done|]. rewrite <-Hh, map_map. apply map_ext. by intros []. }
  assert (Hlen : n = Z.of_nat (length W)).
  { apply (f_equal length) in HW. rewrite !length_map, length_seqZ in HW. lia. }
  assert (HW' : prefix_of chain W) by (unfold prefix_of; by rewrite <-Hlen).
  exists W, T. split_and!; [done|done| |done|done|done].
  eapply (replays_stored attempts chain n Hchain); [exact Hdb|done|done|done|fold W; lia|].
  fold T. rewrite (Permutation_map _ Htx). apply (prefix_txids chain n); [done|done|lia].
Qed.

(** C1. Synchronising an empty schema with a node stores the node's chain:
    when the goroutines come to rest, in whatever order they ran and whatever
    attempts of the database failed, [GetBlock] finds each block of the chain at
    its height on the main chain, [LastBlock] is its last block, and every
    transaction of every block is found under its block. *)
Theorem initialSync_stores_chain {numbers : JsonNumbers} {order : RowOrder} {S : SortSlice Block} {laws : SortSliceLaws S less_height}
    (rpcThreads dbThreads : nat) (attempts : Z) (chain : Z → Block) (n : Z) (bs : list (list Z))
    (fs : list fault) (p : @pipe conn) :
  node_chain chain n → 1 ≤ n → n < two63 → concat bs = seqZ 0 n →
  rtc (@step conn (postgres_database attempts) S rpcThreads dbThreads false (serves_chain chain n))
    (start_pipe 0 bs (empty_store, fs)) p →
  at_rest p → holds_chain chain n (db p).1.
Proof.
  intros Hchain Hn1 Hn63 Hbs Hrun Hrest.
  destruct (initialSync_stored _ _ _ _ _ _ _ _ Hchain Hn1 Hn63 Hbs Hrun Hrest) as (W & T & -> & HW & Hst & Htx & _).
  apply (stored_holds_chain _ _ _ T _ Hchain); [done|done|lia|intros r; by rewrite Htx].
Qed.

(** ** A concrete synchronisation *)

(** The transaction of block 2 spends that of block 0. *)
Definition sync_vins (h : Z) : list Vin := if h =? 2 then [test_vin "tx0" 0] else [].

Definition sync_chain (h : Z) : Block := {|
  header := header (block_at h);
  Txs := [test_tx ("tx" ++ Itoa h) (sync_vins h) [test_vout "12.5" 0 "miner"]];
|}.

Lemma below_four h : 0 ≤ h < 4 → h = 0 ∨ h = 1 ∨ h = 2 ∨ h = 3.
Proof. lia. Qed.

Lemma sync_chain_ok : node_chain sync_chain 4.
Proof.
  split.
  - done.
  - intros h k [->|[->|[->| ->]]]%below_four [->|[->|[->| ->]]]%below_four; vm_compute; done.
  - intros h Hh. destruct (below_four h) as [->|[->|[->| ->]]]; [lia|lia|reflexivity..].
  - intros h [->|[->|[->| ->]]]%below_four; vm_compute; done.
  - apply (bool_decide_unpack _). vm_compute. exact I.
Qed.

#[local] Instance sync_database : Database conn := @postgres_database test_numbers 5.

Definition sync_result (h : Z) : txResult :=
  {| r_tx := test_tx ("tx" ++ Itoa h) (sync_vins h) [test_vout "12.5" 0 "miner"]; r_index := 0; r_blockId := h + 1 |}.

Definition written_block (h : Z) (c : conn) : conn := (db_InsertBlock (sync_chain h) false c).2.
Definition written_tx (h : Z) (c : conn) : conn := (db_InsertTx (fill_hash (r_tx (sync_result h))) 0 (h + 1) c).2.

Definition sync_faults : list fault := [LostReply; NoFault; LostRequest].

Definition sync_end : @pipe conn := {|
  batches := []; fetching := []; fetched := []; order := (2, []); sending := []; writing := None; results := [];
  held := [];
  db := written_tx 0 (written_tx 1 (written_block 1 (written_block 0 (empty_store, sync_faults))));
  log := [BlockWritten (sync_chain 0) 1; BlockWritten (sync_chain 1) 2; TxWritten (sync_result 1); TxWritten (sync_result 0)];
|}.

Lemma sync_serves h : 0 ≤ h < 2 → serves_chain sync_chain 2 [h] [sync_chain h].
Proof. intros Hh. split; [done|]. by apply list.Forall_singleton. Qed.

(** The two batches are answered in reverse order and the transactions are
    written in reverse order. *)
Lemma sync_reaches :
  rtc (@step conn sync_database merge_sort_slice 2 2 false (serves_chain sync_chain 2))
    (start_pipe 0 [[0]; [1]] (empty_store, sync_faults)) sync_end.
Proof.
  eapply rtc_l; [apply take_batch; cbn; lia|]. eapply rtc_l; [apply take_batch; cbn; lia|].
  eapply rtc_l; [eapply (get_blocks _ _ _ _ [1] _ [[0]] []); apply sync_serves; lia|].
  eapply rtc_l; [eapply (get_blocks _ _ _ _ [0] _ [] []); apply sync_serves; lia|].
  eapply rtc_l; [eapply (receive_blocks _ _ _ _ _ [] [[sync_chain 0]]); vm_compute; reflexivity|].
  eapply rtc_l; [eapply (receive_blocks _ _ _ _ _ [] []); vm_compute; reflexivity|].
  eapply rtc_l; [apply hand_block|].
  eapply rtc_l; [apply (write_block _ _ _ _ (sync_chain 0) 1) with (db' := written_block 0 (empty_store, sync_faults)); vm_compute; reflexivity|].
  eapply rtc_l; [apply hand_tx; cbn; lia|].
  eapply rtc_l; [apply hand_block|].
  eapply rtc_l; [apply (write_block _ _ _ _ (sync_chain 1) 2) with (db' := written_block 1 (written_block 0 (empty_store, sync_faults))); vm_compute; reflexivity|].
  eapply rtc_l; [apply hand_tx; cbn; lia|].
  eapply rtc_l; [apply (write_tx _ _ _ _ (sync_result 1) [sync_result 0] []) with (db' := written_tx 1 (written_block 1 (written_block 0 (empty_store, sync_faults)))); vm_compute; reflexivity|].
  eapply rtc_l; [apply (write_tx _ _ _ _ (sync_result 0) [] []) with (db' := db sync_end); vm_compute; reflexivity|].
  apply rtc_refl.
Qed.

Lemma initialSync_stores_chain_witness :
  @holds_chain reverse_order sync_chain 2 (db sync_end).1 ∧
  (db_BlockHeight <$> @GetTxByTxID reverse_order "tx1" (db sync_end).1) = Val 1.
Proof.
  split; [|vm_compute; reflexivity].
  apply (@initialSync_stores_chain test_numbers reverse_order merge_sort_slice merge_sort_laws 2 2 5 sync_chain 2 [[0]; [1]] sync_faults sync_end).
  - by apply (node_chain_le _ 4), Z.leb_le; [apply sync_chain_ok|].
  - lia.
  - unfold two63. lia.
  - reflexivity.
  - apply sync_reaches.
  - by vm_compute.
Defined.
