(* ===== verification/Node.v ===== *)
(** * Node: the client of a UTXO node

    src/V2/pkg/blockchain/utxo/utxo.go over the JSON-RPC client of [Rpc].  A
    node that holds a chain and answers batches in order, behind a network that
    loses fewer requests in a row than the client retries, gives [GetBlocks] the
    blocks of the asked heights, which is what the indexer relies on
    ([serves_chain] of [Sync]). *)

From stdpp Require Import base list strings numbers.
From Stdlib Require Import ZArith Lia String.
From S2P Require Import Prelude GoStrings Config Retry Json JsonText Rpc Utxo NodeJson Indexer Sync.

Local Open Scope string_scope.
Local Open Scope Z_scope.
Local Open Scope list_scope.

(** [type Blockchain struct] *)
Record Blockchain := { client : Client; coin : string }.

(** [func New(r *config.RPC, c string) *Blockchain] *)
Definition New (parse : string → option string) (r : RPC) (c : string) : Blockchain :=
  {| client := NewClient parse r; coin := c |}.

(** The dynamic type of [val] in [GetBlocks] *)
Inductive BlocksVal :=
| Ints (heights : list Z)
| Strings (hashes : list string)
| Other.

Section node.
Context {T : Type} (Do : http_request → T → gores http_response * T) (draws : T → nat → Z)
  (request_url : string → string → string → gores string) (b : Blockchain).

(** [func (b *Blockchain) GetBlockchainInfo() ( *BlockchainInfo, error)] *)
Definition GetBlockchainInfo : T → gores BlockchainInfo * T :=
  single Do draws request_url (client b) chain_info_fmt "error calling GetBlockchainInfo" (NewRPCRequest "getblockchaininfo" []).

(** [func (b *Blockchain) GetNetworkInfo() ( *NetworkInfo, error)] *)
Definition GetNetworkInfo : T → gores NetworkInfo * T :=
  single Do draws request_url (client b) network_info_fmt "error calling GetNetworkInfo" (NewRPCRequest "getnetworkinfo" []).

(** The [ChainInfo] of both answers *)
Definition make_chain_info (bi : BlockchainInfo) (ni : NetworkInfo) : ChainInfo :=
  let warnings := if (slen (bi_Warnings bi) >? 0) then (bi_Warnings bi ++ " ")%string else "" in
  {| ci_Chain := bi_Chain bi; ci_Blocks := bi_Blocks bi; ci_Headers := bi_Headers bi;
     ci_BestBlockHash := bi_BestBlockHash bi; ci_Difficulty := bi_Difficulty bi; ci_SizeOnDisk := bi_SizeOnDisk bi;
     ci_Version := ni_Version ni; ci_Subversion := ni_Subversion ni; ci_ProtocolVersion := ni_ProtocolVersion ni;
     ci_Timeoffset := ni_Timeoffset ni;
     ci_Warnings := if negb (String.eqb (bi_Warnings bi) (ni_Warnings ni)) then (warnings ++ ni_Warnings ni)%string
       else warnings |}.

(** [func (b *Blockchain) GetChainInfo() ( *ChainInfo, error)] *)
Definition GetChainInfo (t : T) : gores ChainInfo * T :=
  andThen (GetBlockchainInfo t) "failed to get chain info" (fun bi t =>
  andThen (GetNetworkInfo t) "failed to get chain info" (fun ni t =>
  (Val (make_chain_info bi ni), t))).

(** [func (b *Blockchain) GetChainTips() ([]*ChainTip, error)] *)
Definition GetChainTips : T → gores (list (option ChainTip)) * T :=
  single Do draws request_url (client b) (list_fmt (ptr_fmt tip_fmt)) "error calling GetChainTips" (NewRPCRequest "getchaintips" []).

(** [func (b *Blockchain) GetMempool() ([]string, error)] *)
Definition GetMempool : T → gores (list string) * T :=
  single Do draws request_url (client b) (list_fmt string_fmt) "error calling GetMempool" (NewRPCRequest "getrawmempool" []).

(** [func (b *Blockchain) GetBlockHashes(heights []int) ([]string, error)] *)
Definition GetBlockHashes (heights : list Z) : T → gores (list string) * T :=
  batch Do draws request_url (client b) string_fmt "error calling GetBlockHashes(%v)"
    (Some (map (fun h => NewRPCRequest "getblockhash" [JNumber (Itoa h)]) heights)).

(** [func (b *Blockchain) GetBlocksNormal(hashes []string) ([]*BlockNormal, error)] *)
Definition GetBlocksNormal (hashes : list string) : T → gores (list (option BlockNormal)) * T :=
  let verbosity := if String.eqb (coin b) "doge" then JBool true else JNumber "1" in
  batch Do draws request_url (client b) (ptr_fmt normal_fmt) "error calling GetBlocksNormal(%v)"
    (Some (map (fun h => NewRPCRequest "getblock" [JString h; verbosity]) hashes)).

(** [func (b *Blockchain) GetRawTransactions(hashes []string) ([]*Tx, error)]; no
    hashes leave the slice of requests nil *)
Definition GetRawTransactions (hashes : list string) : T → gores (list (option Tx)) * T :=
  batch Do draws request_url (client b) (ptr_fmt tx_fmt) "error calling GetRawTransactions(%v)"
    (match hashes with
     | [] => None
     | _ => Some (map (fun hash => NewRPCRequest "getrawtransaction" [JString hash; JBool true]) hashes)
     end).

(** The dereferences [*tx] *)
Fixpoint deref_all {A} (l : list (option A)) : gores (list A) :=
  match l with
  | [] => Val []
  | None :: _ => Panic NilDereference
  | Some a :: l => rest ← deref_all l; Val (a :: rest)
  end.

(** The loop over the blocks in [GetBlocksVerboseDoge] *)
Fixpoint doge_loop (blks : list (option BlockNormal)) (results : list (option Block)) (t : T) :
    gores (list (option Block)) * T :=
  match blks with
  | [] => (Val results, t)
  | None :: _ => (Panic NilDereference, t)
  | Some blk :: blks =>
      if Height (normal_header blk) =? 0 then
        doge_loop blks (results ++ [Some {| header := normal_header blk; Txs := [] |}]) t
      else
        andThen (GetRawTransactions (normal_Txs blk) t) "error calling GetBlocksVerbose(%v)" (fun txsP t =>
        andThen (deref_all txsP, t) "" (fun txs t =>
        doge_loop blks (results ++ [Some {| header := normal_header blk; Txs := txs |}]) t))
  end.

(** [func (b *Blockchain) GetBlocksVerboseDoge(hashes []string) ([]*Block, error)] *)
Definition GetBlocksVerboseDoge (hashes : list string) (t : T) : gores (list (option Block)) * T :=
  andThen (GetBlocksNormal hashes t) "error calling GetBlocksVerbose(%v)" (fun blks t => doge_loop blks [] t).

(** [func (b *Blockchain) GetBlocksVerbose(hashes []string) ([]*Block, error)] *)
Definition GetBlocksVerbose (hashes : list string) : T → gores (list (option Block)) * T :=
  if String.eqb (coin b) "doge" then GetBlocksVerboseDoge hashes
  else
    batch Do draws request_url (client b) (ptr_fmt block_fmt) "error calling GetBlocksVerbose(%v)"
      (Some (map (fun h => NewRPCRequest "getblock" [JString h; JNumber "2"]) hashes)).

(** [func (b *Blockchain) GetBlocks(val interface{}) ([]*Block, error)] *)
Definition GetBlocks (val : BlocksVal) (t : T) : gores (list (option Block)) * T :=
  let '(hashes, t) :=
    match val with
    | Ints heights => andThen (GetBlockHashes heights t) "failed to get block hashes" (fun hashes t => (Val hashes, t))
    | Strings hashes => (Val hashes, t)
    | Other => (Err (ENew "Blocks val must be of type []int or []string, instead of %T"), t)
    end in
  match hashes with
  | Val hashes => andThen (GetBlocksVerbose hashes t) "failed to get verbose blocks" (fun r t => (Val r, t))
  | Err e => (Err e, t)
  | Panic p => (Panic p, t)
  | Exit e => (Exit e, t)
  end.

(** [func (b *Blockchain) SendRawTransaction(rawtx string) (string, error)] *)
Definition SendRawTransaction (rawtx : string) : T → gores string * T :=
  single Do draws request_url (client b) string_fmt "error sending raw tx" (NewRPCRequest "sendrawtransaction" [JString rawtx]).

End node.

(** ** A node with a chain *)

Section chain.
Context (chain : Z → Block) (n : Z).

(** [getblock] with the ids of the transactions only *)
Definition normal_of (x : Block) : BlockNormal :=
  {| normal_header := header x; normal_Txs := map TxID (Txs x) |}.

(** The requests the node can answer *)
Inductive known : string → list json → Prop :=
| known_hash h : 0 ≤ h < n → known "getblockhash" [JNumber (Itoa h)]
| known_block h v :
    0 ≤ h < n → v = JNumber "1" ∨ v = JNumber "2" ∨ v = JBool true → known "getblock" [JString (Hash (header (chain h))); v]
| known_tx h tx : 0 < h < n → tx ∈ Txs (chain h) → known "getrawtransaction" [JString (TxID tx); JBool true].

(** Requests of the client the node can answer *)
Definition asks (r : RPCRequest) : Prop := rq_Version r = "2.0" ∧ known (Method r) (Params r).

(** Its results: the documented JSON of what is asked for *)
Inductive node_result : string → list json → json → Prop :=
| result_hash h : 0 ≤ h < n → node_result "getblockhash" [JNumber (Itoa h)] (JString (Hash (header (chain h))))
| result_block h j :
    0 ≤ h < n → rep block_fmt j (chain h) → j ≠ JNull →
    node_result "getblock" [JString (Hash (header (chain h))); JNumber "2"] j
| result_normal h v j :
    0 ≤ h < n → v = JNumber "1" ∨ v = JBool true → rep normal_fmt j (normal_of (chain h)) → j ≠ JNull →
    node_result "getblock" [JString (Hash (header (chain h))); v] j
| result_tx h tx j :
    0 < h < n → tx ∈ Txs (chain h) → rep tx_fmt j tx → j ≠ JNull →
    node_result "getrawtransaction" [JString (TxID tx); JBool true] j.

(** A response to a batch has the results in the order of the requests. *)
Definition good_batch (reqs : list RPCRequest) (httpRes : http_response) : Prop :=
  ∃ js results, Body httpRes = Some (JArray js) ∧ Forall2 replies results js ∧
    Forall2 (fun req res => node_result (Method req) (Params req) res) reqs results.

Context {T : Type} (Do : http_request → T → gores http_response * T) (draws : T → nat → Z)
  (request_url : string → string → string → gores string) (b : Blockchain).

(** From every state, a batch the node can answer is answered before the
    retries are used up. *)
Definition reliable : Prop :=
  ∀ reqs t req, reqs ≠ [] → Forall asks reqs →
    makeRequest request_url (client b) "POST" "" (Some (enc_batch (Some reqs))) = Val req →
    ∃ k t', (k < max_attempts (Attempts (cl_Retry (client b))))%nat ∧
      delivers Do refuses_batch (good_batch reqs) req k t t'.

(** The client has a URL and sane retries. *)
Record configured : Prop := {
  cf_request : ∀ body, encodable body = true → ∃ req, makeRequest request_url (client b) "POST" "" (Some body) = Val req;
  cf_retry : retry_ok (client b);
}.

Context (Hchain : node_chain chain n) (Hn : n ≤ two63) (Hcf : configured) (Hrel : reliable).

(** The requests have parameters that can be encoded. *)
Lemma known_encodable reqs :
  Forall asks reqs → encodable (enc_batch (Some reqs)) = true.
Proof.
  intros Hk. cbn [enc_batch encodable]. induction Hk as [|r reqs [_ Hr] _ IH]; [done|]. cbn [map forallb]. rewrite IH, andb_true_r.
  unfold enc_request. cbn [encodable forallb fst snd]. rewrite valid_number_Itoa, orb_true_r. cbn [andb]. rewrite andb_true_r.
  destruct Hr as [h Hh|h v Hh [->|[->| ->]]|h tx Hh Hin]; try done. cbn [encodable forallb]. by rewrite valid_number_Itoa, orb_true_r.
Qed.

(** A batch returns the values its results stand for. *)
Lemma batch_served {A} (f : format A) `{!FormatLaws f} msg reqs l t :
  reqs ≠ [] →
  Forall2 (fun req a => asks req ∧
    ∀ res, node_result (Method req) (Params req) res → rep f res a) reqs l →
  ∃ t', batch Do draws request_url (client b) f msg (Some reqs) t = (Val l, t').
Proof.
  intros Hne Hl. assert (Hknown : Forall asks reqs)
    by (clear -Hl; induction Hl as [|req a reqs l [Hr _]]; by constructor).
  destruct (cf_request Hcf (enc_batch (Some reqs)) (known_encodable _ Hknown)) as [req Hreq].
  destruct (Hrel reqs t req) as (k & t' & Hk & Hd); [done..|].
  exists t'. unfold batch, CallRPCBatch.
  erewrite retried_delivers; [done|done| | |apply (cf_retry Hcf)|done|exact Hd].
  - intros httpRes Hr. by apply batch_react_refuses, Is_true_true.
  - intros httpRes (js & results & Hb & Hjs & Hres). apply (batch_react_replies f _ js results); [done..|].
    clear -Hl Hres. revert l Hl. induction Hres as [|r res reqs results Hr _ IH]; intros l Hl;
      inversion Hl as [|? ? ? ? [_ Ha]]; subst; constructor; auto.
Qed.

(** The same, with a request and a value for each of a list *)
Lemma batch_map {A X} (f : format A) `{!FormatLaws f} msg (req : X → RPCRequest) (val : X → A) xs t :
  xs ≠ [] →
  (∀ x, x ∈ xs → asks (req x) ∧
    ∀ res, node_result (Method (req x)) (Params (req x)) res → rep f res (val x)) →
  ∃ t', batch Do draws request_url (client b) f msg (Some (map req xs)) t = (Val (map val xs), t').
Proof.
  intros Hne Hx. apply batch_served; [exact _|by destruct xs|]. clear Hne.
  induction xs as [|x xs IH]; cbn; constructor; [apply Hx; by left|]. apply IH. intros y Hy. apply Hx. by right.
Qed.

Lemma known_height h h' : 0 ≤ h < n → 0 ≤ h' < n → Itoa h = Itoa h' → h = h'.
Proof.
  intros Hh Hh' Heq. pose proof (Atoi_Itoa h) as H1. rewrite Heq, (Atoi_Itoa h') in H1 by (unfold in_int64, two63 in *; lia).
  symmetry. injection H1; [done|]. unfold in_int64, two63 in *. lia.
Qed.

(** A transaction id names one transaction of the chain. *)
Lemma same_tx h h' tx tx' :
  0 ≤ h < n → 0 ≤ h' < n → tx ∈ Txs (chain h) → tx' ∈ Txs (chain h') → TxID tx = TxID tx' → tx = tx'.
Proof.
  intros Hh Hh' Hin Hin' Heq. pose proof (nc_txs _ _ Hchain) as Hd.
  rewrite <-(map_map (fun h => Txs (chain h)) (map TxID)), <-concat_map in Hd.
  assert (Hall : ∀ k x, 0 ≤ k < n → x ∈ Txs (chain k) → x ∈ List.concat (map (fun h => Txs (chain h)) (seqZ 0 n))).
  { intros k x Hk Hx. apply list_elem_of_In, in_concat. exists (Txs (chain k)).
    split; apply list_elem_of_In; [|done]. apply list_elem_of_fmap. exists k. split; [done|]. apply elem_of_seqZ. lia. }
  exact (NoDup_map_inj TxID _ _ _ Hd (Hall h tx Hh Hin) (Hall h' tx' Hh' Hin') Heq).
Qed.

Section heights.
Context (hs : list Z) (Hhs : Forall (fun h => 0 ≤ h < n) hs) (Hne : hs ≠ []).

Lemma GetBlockHashes_served t :
  ∃ t', GetBlockHashes Do draws request_url b hs t = (Val (map (fun h => Hash (header (chain h))) hs), t').
Proof.
  apply batch_map; [exact _|done|]. intros h Hh%(proj1 (list.Forall_forall _ _) Hhs).
  split; [split; [done|by constructor]|]. cbn. intros res Hres. inversion Hres. subst.
  match goal with H : Itoa _ = Itoa _ |- _ => apply known_height in H as ->; [by left|done|done] end.
Qed.

Lemma GetBlocksVerbose_served t :
  coin b ≠ "doge" →
  ∃ t', GetBlocksVerbose Do draws request_url b (map (fun h => Hash (header (chain h))) hs) t
    = (Val (map (fun h => Some (chain h)) hs), t').
Proof.
  intros Hcoin. unfold GetBlocksVerbose. rewrite (proj2 (String.eqb_neq _ _) Hcoin).
  rewrite map_map. apply batch_map; [exact _|done|]. intros h Hh%(proj1 (list.Forall_forall _ _) Hhs).
  split; [split; [done|]; constructor; [done|tauto]|]. cbn. intros res Hres.
  inversion Hres; subst; [|match goal with H : JNumber _ = _ ∨ _ |- _ => by destruct H end].
  match goal with H : Hash _ = Hash _ |- _ => apply (nc_hash _ _ Hchain) in H as ->; [|done..] end. left. eauto.
Qed.

Lemma GetBlocksNormal_served t :
  ∃ t', GetBlocksNormal Do draws request_url b (map (fun h => Hash (header (chain h))) hs) t
    = (Val (map (fun h => Some (normal_of (chain h))) hs), t').
Proof.
  unfold GetBlocksNormal. rewrite map_map. apply batch_map; [exact _|done|].
  intros h Hh%(proj1 (list.Forall_forall _ _) Hhs).
  split; [split; [done|]; constructor; [done|destruct (String.eqb _ _); tauto]|]. cbn. intros res Hres.
  inversion Hres; [by destruct (String.eqb _ _)|]; subst.
  match goal with H : Hash _ = Hash _ |- _ => apply (nc_hash _ _ Hchain) in H as ->; [|done..] end. left. eauto.
Qed.

End heights.

Lemma GetRawTransactions_served h t :
  0 < h < n → Txs (chain h) ≠ [] →
  ∃ t', GetRawTransactions Do draws request_url b (map TxID (Txs (chain h))) t = (Val (map Some (Txs (chain h))), t').
Proof.
  intros Hh Htx. unfold GetRawTransactions.
  destruct (map TxID (Txs (chain h))) eqn:Hids; [by destruct (Txs (chain h))|]. rewrite <-Hids, map_map.
  apply batch_map; [exact _|done|]. intros tx Hin. split; [split; [done|by econstructor]|]. cbn.
  intros res Hres. inversion Hres as [| | |h' tx' ? Hh' Hin' Hj Hnn]; subst.
  assert (tx' = tx) as -> by (apply (same_tx h' h); [lia|lia|done..]). left. eauto.
Qed.

(** The block a client gets: for doge the first one comes without its
    transactions. *)
Definition served (h : Z) : Block :=
  if (String.eqb (coin b) "doge" && (h =? 0))%bool then {| header := header (chain h); Txs := [] |} else chain h.

Lemma deref_all_Some {A} (l : list A) : deref_all (map Some l) = Val l.
Proof. induction l as [|a l IH]; [done|]. cbn. by rewrite IH. Qed.

Lemma doge_loop_served hs results t :
  coin b = "doge" → (∀ h, 0 < h < n → Txs (chain h) ≠ []) → Forall (fun h => 0 ≤ h < n) hs →
  ∃ t', doge_loop Do draws request_url b (map (fun h => Some (normal_of (chain h))) hs) results t
    = (Val (results ++ map (fun h => Some (served h)) hs), t').
Proof.
  intros Hcoin Htx Hhs. revert results t. induction Hhs as [|h hs Hh _ IH]; intros results t; cbn.
  { exists t. by rewrite app_nil_r. }
  change (Height (header (chain h))) with (block_height (chain h)). rewrite (nc_height _ _ Hchain) by done.
  assert (Hs : served h = if h =? 0 then {| header := header (chain h); Txs := [] |} else chain h)
    by (unfold served; by rewrite Hcoin).
  rewrite Hs. destruct (Z.eqb_spec h 0).
  - destruct (IH (results ++ [Some {| header := header (chain h); Txs := [] |}]) t) as [t' ->]. exists t'.
    by rewrite <-app_assoc.
  - destruct (GetRawTransactions_served h t ltac:(lia) (Htx h ltac:(lia))) as [t1 ->]. cbn.
    rewrite deref_all_Some. cbn. destruct (IH (results ++ [Some (chain h)]) t1) as [t' Ht']. exists t'.
    rewrite <-app_assoc in Ht'. replace {| header := header (chain h); Txs := Txs (chain h) |} with (chain h) by by destruct (chain h).
    exact Ht'.
Qed.

(** The blocks of the asked heights, in their order *)
Lemma GetBlocks_served hs t :
  (coin b = "doge" → ∀ h, 0 < h < n → Txs (chain h) ≠ []) → Forall (fun h => 0 ≤ h < n) hs → hs ≠ [] →
  ∃ t', GetBlocks Do draws request_url b (Ints hs) t = (Val (map Some (map served hs)), t').
Proof.
  intros Htx Hhs Hne. unfold GetBlocks. destruct (GetBlockHashes_served hs Hhs Hne t) as [t1 ->]. cbn.
  rewrite map_map. destruct (String.eqb_spec (coin b) "doge") as [Hd|Hd].
  - unfold GetBlocksVerbose. rewrite Hd. cbn. unfold GetBlocksVerboseDoge.
    destruct (GetBlocksNormal_served hs Hhs Hne t1) as [t2 ->]. cbn.
    destruct (doge_loop_served hs [] t2 Hd (Htx Hd) Hhs) as [t3 ->]. by exists t3.
  - destruct (GetBlocksVerbose_served hs Hhs Hne t1 Hd) as [t2 ->]. exists t2. cbn. do 2 f_equal.
    apply map_ext. intros h. unfold served. by rewrite (proj2 (String.eqb_neq _ _) Hd).
Qed.

(** What the client gets is again a chain. *)
Lemma served_node_chain : node_chain served n.
Proof.
  assert (Hh : ∀ h, header (served h) = header (chain h)) by (intros h; unfold served; by destruct (_ && _)%bool).
  destruct Hchain as [H1 H2 H3 H4 H5]. split.
  - intros h. unfold block_height. rewrite Hh. apply H1.
  - intros h k. rewrite !Hh. apply H2.
  - intros h. rewrite !Hh. apply H3.
  - intros h. rewrite !Hh. apply H4.
  - eapply sublist_NoDup; [exact H5|]. clear. induction (seqZ 0 n) as [|h hs IH]; [done|]. cbn.
    apply sublist_app; [|done]. unfold served. destruct (_ && _)%bool; [apply sublist_nil_l|done].
Qed.

End chain.

(** ** Properties *)


(** ** A concrete node *)

Section concrete.
Context (chain : Z → Block) (n : Z).

(** The height of a block hash *)
Definition height_of (hash : string) : option Z := find (fun h => String.eqb (Hash (header (chain h))) hash) (seqZ 0 n).

(** The results of the node for the requests of the client *)
Definition node_answer (method : string) (params : list json) : json :=
  match params with
  | [JNumber s] =>
      match find (fun h => String.eqb (Itoa h) s) (seqZ 0 n) with
      | Some h => JString (Hash (header (chain h)))
      | None => JNull
      end
  | [JString s; v] =>
      if String.eqb method "getblock" then
        match height_of s with
        | Some h =>
            match v with
            | JNumber "2" => JObject (enc_block (chain h))
            | _ => JObject (enc_normal (normal_of (chain h)))
            end
        | None => JNull
        end
      else
        match find (fun tx => String.eqb (TxID tx) s) (List.concat (map (fun h => Txs (chain h)) (seqZ 1 (n - 1)))) with
        | Some tx => JObject (enc_tx tx)
        | None => JNull
        end
  | _ => JNull
  end.

Definition node_reply (req : json) : json :=
  match req with
  | JObject kvs =>
      match assoc "method" kvs, assoc "params" kvs with
      | Some (JString method), Some (JArray params) =>
          JObject [("result", node_answer method params); ("error", JNull); ("id", JNumber "0")]
      | _, _ => JNull
      end
  | _ => JNull
  end.

(** The response to a batch, with its replies in the order [order] makes *)
Definition node_response (order : list json → list json) (req : http_request) : http_response :=
  {| StatusCode := 200;
     Text := match rq_Body req ≫= parse with
             | Some (JArray reqs) => json_Marshal (JArray (order (map node_reply reqs)))
             | _ => Some ""
             end |}.

(** Every second request is lost. *)
Definition flaky (req : http_request) (t : nat) : gores http_response * nat :=
  (if Nat.even t then Err (ENew "timeout") else Val (node_response (fun l => l) req), S t).

Lemma find_key {A} (key : A → string) (l : list A) a :
  a ∈ l → ∃ x, find (fun x => String.eqb (key x) (key a)) l = Some x ∧ x ∈ l ∧ key x = key a.
Proof.
  intros Ha. destruct (find _ l) as [x|] eqn:Hf.
  - apply find_some in Hf as [Hin Heq%String.eqb_eq]. exists x. by rewrite list_elem_of_In.
  - apply list_elem_of_In in Ha. eapply find_none in Hf; [|exact Ha]. by rewrite String.eqb_refl in Hf.
Qed.

Context (Hints : ∀ h, 0 ≤ h < n → header_ints (header (chain h)) ∧ Forall tx_ints (Txs (chain h))).

(** The strings of the chain are UTF-8 and its numbers numbers. *)
Definition block_prints (x : Block) : bool :=
  utf8 (Hash (header x)) && printable (JObject (enc_block x)) && printable (JObject (enc_normal (normal_of x))) &&
  forallb (fun tx => utf8 (TxID tx) && printable (JObject (enc_tx tx))) (Txs x).
Context (Hprints : ∀ h, 0 ≤ h < n → block_prints (chain h) = true).

Lemma chain_prints h : 0 ≤ h < n →
  utf8 (Hash (header (chain h))) = true ∧ printable (JObject (enc_block (chain h))) = true ∧
  printable (JObject (enc_normal (normal_of (chain h)))) = true ∧
  ∀ tx, tx ∈ Txs (chain h) → utf8 (TxID tx) = true ∧ printable (JObject (enc_tx tx)) = true.
Proof.
  intros Hh. pose proof (Hprints h Hh) as H. unfold block_prints in H. rewrite !andb_true_iff in H.
  destruct H as [[[H1 H2] H3] H4]. split_and!; [done..|]. intros tx Hin%list_elem_of_In.
  rewrite forallb_forall in H4. by apply andb_true_iff, H4.
Qed.

(** A request that is read by the node is the one the client made. *)
Lemma request_prints r : asks chain n r → printable (enc_request r) = true.
Proof.
  intros [Hv Hr]. unfold enc_request. cbn [printable forallb fst snd]. rewrite Hv, valid_number_Itoa.
  destruct Hr as [h Hh|h v Hh Hv'|h tx Hh Hin].
  - cbn [printable forallb]. by rewrite valid_number_Itoa.
  - cbn [printable forallb]. rewrite (proj1 (chain_prints h Hh)). by destruct Hv' as [->|[->| ->]].
  - cbn [printable forallb]. by rewrite (proj1 (proj2 (proj2 (proj2 (chain_prints h ltac:(lia)))) tx Hin)).
Qed.

Lemma answer_prints method params :
  known chain n method params → printable (node_answer method params) = true.
Proof.
  intros [h Hh|h v Hh Hv|h tx Hh Hin]; unfold node_answer.
  - destruct (find _ (seqZ 0 n)) as [h'|] eqn:Hf; [|done]. apply find_some in Hf as [Hin%list_elem_of_In%elem_of_seqZ _].
    apply (chain_prints h' ltac:(lia)).
  - cbn. unfold height_of. destruct (find _ (seqZ 0 n)) as [h'|] eqn:Hf; [|done].
    apply find_some in Hf as [Hin%list_elem_of_In%elem_of_seqZ _].
    destruct (chain_prints h' ltac:(lia)) as (_ & H1 & H2 & _). by destruct Hv as [->|[->| ->]].
  - cbn. destruct (find _ (List.concat _)) as [tx'|] eqn:Hf; [|done]. apply find_some in Hf as [Hin' _].
    apply in_concat in Hin' as (l & Hl & Hl'). apply list_elem_of_In, list_elem_of_fmap in Hl as (h' & -> & Hh'%elem_of_seqZ).
    apply list_elem_of_In in Hl'. by apply (proj2 (proj2 (proj2 (chain_prints h' ltac:(lia)))) tx' Hl').
Qed.

Lemma node_answer_ok method params :
  known chain n method params → node_result chain n method params (node_answer method params).
Proof.
  intros [h Hh|h v Hh Hv|h tx Hh Hin].
  - destruct (find_key Itoa (seqZ 0 n) h) as (h' & Hf & Hin & Heq); [apply elem_of_seqZ; lia|].
    cbn. rewrite Hf, <-Heq. constructor. apply elem_of_seqZ in Hin. lia.
  - destruct (find_key (fun h => Hash (header (chain h))) (seqZ 0 n) h) as (h' & Hf & Hin & Heq); [apply elem_of_seqZ; lia|].
    apply elem_of_seqZ in Hin. assert (Hh' : 0 ≤ h' < n) by lia. destruct (Hints h' Hh') as [Hb Ht].
    unfold node_answer, height_of. rewrite Hf, <-Heq. cbn. destruct Hv as [->|[->| ->]].
    + apply result_normal; [done|by left|exact (enc_normal_rep (normal_of (chain h')) Hb)|done].
    + apply result_block; [done|exact (enc_block_rep (chain h') Hb Ht)|done].
    + apply result_normal; [done|by right|exact (enc_normal_rep (normal_of (chain h')) Hb)|done].
  - assert (Hc : tx ∈ List.concat (map (fun h => Txs (chain h)) (seqZ 1 (n - 1)))).
    { apply list_elem_of_In, in_concat. exists (Txs (chain h)). split; apply list_elem_of_In; [|done].
      apply list_elem_of_fmap. exists h. split; [done|]. apply elem_of_seqZ. lia. }
    destruct (find_key TxID _ tx Hc) as (tx' & Hf & Hin' & Heq). unfold node_answer. cbn. rewrite Hf, <-Heq.
    apply list_elem_of_In, in_concat in Hin' as (l & Hl & Hl').
    apply list_elem_of_In, list_elem_of_fmap in Hl as (h' & -> & Hh'%elem_of_seqZ). apply list_elem_of_In in Hl'.
    apply (result_tx _ _ h'); [lia|done| |done]. apply enc_tx_rep.
    destruct (Hints h' ltac:(lia)) as [_ Ht]. by eapply list.Forall_forall in Ht.
Qed.

Lemma node_reply_request r : asks chain n r →
  node_reply (enc_request r) = JObject [("result", node_answer (Method r) (Params r)); ("error", JNull); ("id", JNumber "0")].
Proof.
  intros [_ Hk]. assert (Hps : Params r ≠ []) by by destruct Hk. unfold enc_request, node_reply. cbn [assoc fmap].
  by destruct (Params r).
Qed.

Lemma node_reply_ok r : asks chain n r → replies (node_answer (Method r) (Params r)) (node_reply (enc_request r)).
Proof.
  intros Hk. rewrite node_reply_request by done. eexists. split; [reflexivity|].
  split; [apply plain_names; vm_compute; exact I|].
  split; [|by split; [|right]]. exists 0. eapply member_some; [reflexivity|]. by left.
Qed.

Lemma batch_prints reqs : Forall (asks chain n) reqs → printable (enc_batch (Some reqs)) = true.
Proof.
  intros Hk. cbn [enc_batch printable]. induction Hk as [|r reqs Hr _ IH]; [done|]. cbn [map forallb].
  by rewrite request_prints, IH.
Qed.

Lemma replies_print reqs : Forall (asks chain n) reqs → printable (JArray (map node_reply (map enc_request reqs))) = true.
Proof.
  intros Hk. cbn [printable]. induction Hk as [|r reqs Hr _ IH]; [done|]. cbn [map forallb].
  rewrite IH, node_reply_request by done. destruct Hr as [_ Hr]. cbn [printable forallb fst snd].
  by rewrite answer_prints.
Qed.

(** The response of the node, read by the client *)
Lemma node_response_good reqs r :
  Forall (asks chain n) reqs → rq_Body r ≫= parse = Some (enc_batch (Some reqs)) →
  good_batch chain n reqs (node_response (fun l => l) r).
Proof.
  intros Hk Hr. unfold good_batch, Body, node_response. cbn [Text]. rewrite Hr. cbn [enc_batch].
  pose proof (replies_print reqs Hk) as Hp.
  destruct (json_Marshal (JArray (map node_reply (map enc_request reqs)))) as [text|] eqn:Hm.
  2: { unfold json_Marshal in Hm. by rewrite printable_encodable in Hm. }
  exists (map node_reply (map enc_request reqs)), (map (fun r => node_answer (Method r) (Params r)) reqs).
  split; [by apply (parse_json_Marshal _ text)|]. clear -Hk Hints. split; induction Hk as [|r reqs Hr _ IH]; cbn; constructor; try done.
  - by apply node_reply_ok.
  - destruct Hr. by apply node_answer_ok.
Qed.

(** The flaky node is reliable for a client that tries twice. *)
Lemma flaky_reliable request_url b :
  (2 ≤ max_attempts (Attempts (cl_Retry (client b))))%nat → reliable chain n flaky request_url b.
Proof.
  intros Hat reqs t req Hne Hk Hreq.
  destruct (reencoded _ (batch_prints reqs Hk)) as (text & Henc & Hread).
  unfold makeRequest in Hreq. rewrite Henc in Hreq. destruct (BaseURL (client b)) as [base|]; [|done].
  destruct (request_url base "" (ApiKey (client b))); try done. cbn in Hreq. injection Hreq as <-.
  assert (Hgood : ∀ t r, Nat.even t = false → rq_Body r = Some text →
    delivers flaky refuses_batch (good_batch chain n reqs) r 0 t (S t)).
  { intros t' r Hodd Hr. eapply delivers_now; [unfold flaky; rewrite Hodd; reflexivity|].
    apply node_response_good; [done|]. by rewrite Hr. }
  destruct (Nat.even t) eqn:Hev.
  - exists 1%nat, (S (S t)). split; [lia|]. eapply delivers_lost; [unfold flaky; by rewrite Hev|].
    apply Hgood; [|done]. by rewrite Nat.even_succ, <-Nat.negb_even, Hev.
  - exists 0%nat, (S t). split; [lia|]. by apply Hgood.
Qed.

End concrete.

Definition doge_node : Blockchain := {|
  client := {| BaseURL := Some "http://node"; cl_User := "user"; cl_Password := "password";
               cl_Retry := {| Attempts := 5; Sleep := 1 |}; ApiKey := "" |};
  coin := "doge";
|}.

Definition plain_url (base path key : string) : gores string := Val base.

Lemma doge_node_configured : configured plain_url doge_node.
Proof.
  split; [|unfold retry_ok, in_int64; by vm_compute]. intros body Hb. unfold makeRequest, json_Encode. cbn. rewrite Hb. by eexists.
Qed.

Lemma sync_chain_ints h : 0 ≤ h < 2 → header_ints (header (sync_chain h)) ∧ Forall tx_ints (Txs (sync_chain h)).
Proof.
  intros Hh. assert (h = 0 ∨ h = 1) as [-> | ->] by lia; split; try (repeat constructor; by vm_compute).
Qed.

Lemma sync_chain_prints h : 0 ≤ h < 2 → block_prints (sync_chain h) = true.
Proof. intros Hh. assert (h = 0 ∨ h = 1) as [-> | ->] by lia; by vm_compute. Qed.


(** ** Consequences *)

(** A node that answers the requests of a batch in another order, as JSON-RPC
    allows *)
Definition reversing (req : http_request) (t : nat) : gores http_response * nat :=
  (Val (node_response sync_chain 2 (@rev json) req), t).

(** Its hashes are taken for those of other heights. *)
Lemma GetBlockHashes_by_position :
  GetBlockHashes reversing (fun _ _ => 0) plain_url doge_node [0; 1] 0%nat
    = (Val [Hash (header (sync_chain 1)); Hash (header (sync_chain 0))], 0%nat).
Proof. vm_compute. reflexivity. Qed.

(** A null result is no error: the caller gets a nil block. *)
Lemma GetBlocksNormal_null :
  GetBlocksNormal (flaky sync_chain 2) (fun _ _ => 0) plain_url doge_node ["unknown"] 1%nat = (Val [None], 2%nat) ∧
  GetBlocksVerbose (flaky sync_chain 2) (fun _ _ => 0) plain_url doge_node ["unknown"] 1%nat
    = (Panic NilDereference, 2%nat).
Proof. vm_compute. done. Qed.
