(* ===== verification/TxValidator.v ===== *)
(** * TxValidator: removal of transactions that left the mempool

    src/V2/cmd/txvalidator/main.go: pending transactions that no node of the
    cluster has in its mempool are deleted by [dbThreads] workers. *)

From stdpp Require Import base list strings gmap sorting numbers.
From Stdlib Require Import ZArith Lia Permutation.
From S2P Require Import Prelude GoStrings Retry Utxo BlockTable Store Postgres.

Local Open Scope Z_scope.

Definition deleteSize : Z := 1.
Definition mempoolReqs : nat := 15.

(** [func (v *txValidator) buildMempool(mempool []string)] *)
Definition buildMempool (mempool : list string) (v : gset string) : gset string :=
  foldl (fun m tx => {[ tx ]} ∪ m) v mempool.

(** The goroutines that fetch the mempool: the first failure ends the process. *)
Fixpoint fetch_mempools (answers : list (gores (list string))) (v : gset string) : gores (gset string) :=
  match answers with
  | [] => Val v
  | a :: answers => mempool ← fatal_err a; fetch_mempools answers (buildMempool mempool v)
  end.

(** The loop that collects [invalidIDs] *)
Definition invalid_ids (mempool : gset string) (l : list PendingTx) : list Z :=
  map p_ID (filter (fun t => p_TxID t ∉ mempool) l).

(** The loop that queues [invalidIDs] in batches: the slices sent.  [i] grows
    by [deleteSize], so as many rounds as there are ids are enough. *)
Fixpoint queue_loop (fuel : nat) (i : Z) (ids : list Z) : list (list Z) :=
  match fuel with
  | O => []
  | S fuel =>
      if i <? Z.of_nat (length ids) then
        let high := if i + deleteSize >? Z.of_nat (length ids) then Z.of_nat (length ids) else i + deleteSize in
        take (Z.to_nat (high - i)) (drop (Z.to_nat i) ids) :: queue_loop fuel (i + deleteSize) ids
      else []
  end.

Definition queue (ids : list Z) : list (list Z) := queue_loop (length ids) 0 ids.

Section validator.
Context {numbers : JsonNumbers}.

(** The workers: the batches in the order they are executed; a batch that fails
    is reported and skipped. *)
Fixpoint delete_batches (attempts : Z) (l : list (list Z)) (c : conn) : list (gores unit) * conn :=
  match l with
  | [] => ([], c)
  | ids :: l =>
      let '(r, c) := DeleteInvalidTxs_ attempts ids c in
      let '(rs, c) := delete_batches attempts l c in
      (r :: rs, c)
  end.

(** The position the last run has left in the metadata. *)
Definition start_id (st : store) : gores Z :=
  let value := match Get "validatedTransaction" st with Val v => v | _ => "0" end in
  match Atoi value with
  | (id, None) => Val id
  | (_, Some _) => Exit (ENew "failed to convert id")
  end.

(** [func main()]: [mempools] are the answers to [GetMempool], [schedule] the
    order in which the workers execute the batches, [date] the time [numDays]
    ago. *)
Definition main (attempts : Z) (mempools : list (gores (list string))) (schedule : list (list Z) → list (list Z))
    (date : Z) (c : conn) : gores (list (gores unit)) * conn :=
  match fetch_mempools mempools ∅ with
  | Val mempool =>
      match start_id c.1 with
      | Val id =>
          let pending := match GetPendingTxs (Some id) c.1 with Val l => l | _ => [] end in
          let '(rs, c) := delete_batches attempts (schedule (queue (invalid_ids mempool pending))) c in
          match GetTxAtBlockTime date c.1 with
          | Val id => (Val rs, (Set_ "validatedTransaction" (Itoa id) c).2)
          | _ => (Val rs, c)
          end
      | Err e => (Err e, c)
      | Panic p => (Panic p, c)
      | Exit e => (Exit e, c)
      end
  | Err e => (Err e, c)
  | Panic p => (Panic p, c)
  | Exit e => (Exit e, c)
  end.

End validator.

(** ** The parts *)

Lemma elem_of_buildMempool mempool v x : x ∈ buildMempool mempool v ↔ x ∈ mempool ∨ x ∈ v.
Proof.
  unfold buildMempool. revert v. induction mempool as [|y l IH]; intros v; cbn [foldl].
  - rewrite elem_of_nil. tauto.
  - rewrite IH, elem_of_union, elem_of_singleton, elem_of_cons. tauto.
Qed.

(** The mempool is the union of the answers. *)
Lemma fetch_mempools_spec answers v m x :
  fetch_mempools answers v = Val m → x ∈ m ↔ x ∈ v ∨ ∃ l, Val l ∈ answers ∧ x ∈ l.
Proof.
  revert v. induction answers as [|a answers IH]; intros v; cbn.
  - intros [= <-]. split; [by left|]. intros [|(l & ?%elem_of_nil & _)]; done.
  - intros (l & Ha & H)%bind_Val. assert (a = Val l) as -> by by destruct a.
    rewrite (IH _ H), elem_of_buildMempool. split.
    + intros [[Hx|Hx]|(k & Hk & Hx)]; [right; exists l; split; [left|done]|by left|right; exists k; split; [by right|done]].
    + intros [Hx|(k & [[= ->]|Hk]%elem_of_cons & Hx)]; [by left; right|by left; left|right; by exists k].
Qed.

Lemma queue_loop_concat fuel i ids :
  0 ≤ i → (length ids - Z.to_nat i ≤ fuel)%nat → concat (queue_loop fuel i ids) = drop (Z.to_nat i) ids.
Proof.
  revert i. induction fuel as [|fuel IH]; intros i Hi Hf; cbn [queue_loop].
  - by rewrite drop_ge by lia.
  - destruct (Z.ltb_spec i (Z.of_nat (length ids))) as [Hlt|]; [|by rewrite drop_ge by lia].
    unfold deleteSize. rewrite Z.gtb_ltb, (proj2 (Z.ltb_ge (Z.of_nat (length ids)) (i + 1))) by lia.
    cbn [concat]. rewrite IH by lia. replace (i + 1 - i) with 1 by lia.
    replace (Z.to_nat (i + 1)) with (Z.to_nat i + 1)%nat by lia. rewrite <-drop_drop. apply take_drop.
Qed.

(** Every id is queued once. *)
Lemma queue_concat ids : concat (queue ids) = ids.
Proof. unfold queue. rewrite queue_loop_concat by lia. done. Qed.

(** ** Deleting *)

Definition doomed (ids : list Z) (t : tx_row) : Prop := t_id t ∈ ids ∧ pending t = true.

Lemma elem_of_delete_invalid ids st t :
  t ∈ txs (delete_invalid_txs ids st) ↔ t ∈ txs st ∧ ¬ doomed ids t.
Proof.
  unfold delete_invalid_txs, delete_txs, doomed. cbn [set_tables txs].
  rewrite list_elem_of_filter, andb_false_iff, existsb_false. split.
  - intros [[H|H] Ht]; (split; [done|]); intros [Hin Hp]; [|congruence].
    specialize (H _ Hin). by rewrite Z.eqb_refl in H.
  - intros [Ht H]. split; [|done]. destruct (pending t); [left|by right].
    intros x Hx. apply Z.eqb_neq. intros <-. by apply H.
Qed.

Lemma filter_keep {A} (P : A → Prop) `{!∀ x, Decision (P x)} (l : list A) : (∀ x, x ∈ l → P x) → filter P l = l.
Proof.
  induction l as [|x l IH]; [done|]. intros Hl. rewrite filter_cons_True by (apply Hl; left).
  f_equal. apply IH. intros y Hy. apply Hl. by right.
Qed.

Lemma delete_txs_none dead st : (∀ t, t ∈ txs st → dead t = false) → delete_txs dead st = st.
Proof.
  intros H. unfold delete_txs.
  assert (Hgone : ∀ id, existsb (fun r => dead r && (t_id r =? id)) (txs st) = false).
  { intros id. apply existsb_false. intros t Ht. by rewrite (H t Ht). }
  rewrite !filter_keep; [by destruct st|..]; intros x Hx; [apply Hgone|apply Hgone|by apply H].
Qed.

Lemma delete_invalid_again ids st :
  delete_invalid_txs ids (delete_invalid_txs ids st) = delete_invalid_txs ids st.
Proof.
  apply delete_txs_none. intros t [_ Ht]%elem_of_delete_invalid. apply andb_false_iff.
  destruct (pending t) eqn:Hp; [left|by right]. apply existsb_false. intros x Hx. apply Z.eqb_neq. intros <-. by apply Ht.
Qed.

Section deletes.
Context {numbers : JsonNumbers} (attempts : Z).

Lemma DeleteInvalidTxs_outcome ids st fs r st' fs' :
  DeleteInvalidTxs_ attempts ids (st, fs) = (r, (st', fs')) →
  match r with
  | Val _ => st' = delete_invalid_txs ids st
  | _ => st' = st ∨ st' = delete_invalid_txs ids st
  end.
Proof.
  unfold DeleteInvalidTxs_.
  match goal with |- (Simple ?f ?a ?s ?c).1 = _ → _ => destruct (Simple f a s c) as [[r' c'] sl] eqn:H end.
  cbn [fst]. intros [= -> ->]. apply Simple_exec_outcome in H.
  - unfold outcome, at_most_once in H. cbn in H. destruct r as [u|e|p|e]; [by injection H| |by left|by left].
    destruct H as [->|[a [= _ <-]]]; [by left|by right].
  - intros a x. cbn. intros [= <- <-]. by rewrite delete_invalid_again.
Qed.

(** What the workers delete, whatever fails: nothing that was not queued, and
    everything that was if they report success. *)
Lemma delete_batches_spec l st fs rs st' fs' :
  delete_batches attempts l (st, fs) = (rs, (st', fs')) →
  blocks st' = blocks st ∧ metadata st' = metadata st ∧
  (∀ t, t ∈ txs st' → t ∈ txs st) ∧
  (∀ t, t ∈ txs st → ¬ doomed (concat l) t → t ∈ txs st') ∧
  (Forall (fun r => ∃ u, r = Val u) rs → ∀ t, t ∈ txs st' → ¬ doomed (concat l) t).
Proof.
  revert st fs rs. induction l as [|ids l IH]; intros st fs rs; cbn [delete_batches concat].
  - intros [= <- <- <-]. split_and!; try done. intros _ t _ [?%elem_of_nil _]. done.
  - destruct (DeleteInvalidTxs_ attempts ids (st, fs)) as [r [st1 fs1]] eqn:H1.
    destruct (delete_batches attempts l (st1, fs1)) as [rs1 [st2 fs2]] eqn:H2. intros [= <- <- <-].
    apply DeleteInvalidTxs_outcome in H1. destruct (IH _ _ _ H2) as (E1 & E2 & Hsub & Hkeep & Hall).
    assert (Hst1 : st1 = st ∨ st1 = delete_invalid_txs ids st) by (destruct r; auto).
    split_and!.
    + rewrite E1. by destruct Hst1 as [-> | ->].
    + rewrite E2. by destruct Hst1 as [-> | ->].
    + intros t Ht%Hsub. destruct Hst1 as [-> | ->]; [done|]. by apply elem_of_delete_invalid in Ht as [? _].
    + intros t Ht Hd. apply Hkeep.
      * destruct Hst1 as [-> | ->]; [done|]. apply elem_of_delete_invalid. split; [done|].
        intros [Hi Hp]. apply Hd. split; [|done]. apply elem_of_app. by left.
      * intros [Hi Hp]. apply Hd. split; [|done]. apply elem_of_app. by right.
    + intros [[u ->] Hrs]%list.Forall_cons t Ht [[Hi|Hi]%elem_of_app Hp].
      * apply Hsub in Ht. rewrite H1 in Ht. apply elem_of_delete_invalid in Ht as [_ Ht]. by apply Ht.
      * by apply (Hall Hrs t Ht).
Qed.

End deletes.

(** ** The whole run *)

(** Pending, at or above the bound, and in no mempool. *)
Definition stale (mempools : list (gores (list string))) (id : Z) (t : tx_row) : Prop :=
  pending t = true ∧ id ≤ t_id t ∧ ∀ l, Val l ∈ mempools → t_txid t ∉ l.

Lemma elem_of_pending id st t :
  t ∈ filter (fun r => pending r && admits (Some id) (t_id r) = true) (txs st) ↔
  t ∈ txs st ∧ pending t = true ∧ id ≤ t_id t.
Proof. rewrite list_elem_of_filter, andb_true_iff. cbn. rewrite Z.leb_le. tauto. Qed.

(** The ids queued are those of the stale transactions. *)
Lemma doomed_stale mempools m id st t schedule :
  store_ok st → fetch_mempools mempools ∅ = Val m → (∀ l : list (list Z), schedule l ≡ₚ l) → t ∈ txs st →
  doomed (concat (schedule (queue (invalid_ids m
    (match GetPendingTxs (Some id) st with Val l => l | _ => [] end))))) t ↔ stale mempools id t.
Proof.
  intros Hok Hm Hs Ht.
  assert (Hmem : ∀ x, x ∈ m ↔ ∃ l, Val l ∈ mempools ∧ x ∈ l).
  { intros x. rewrite (fetch_mempools_spec _ _ _ x Hm). split; [|by right]. intros [?%elem_of_empty|]; done. }
  unfold doomed. rewrite (Hs (queue _)), queue_concat. unfold invalid_ids, GetPendingTxs. split.
  - intros [(p & Hid & [Hp Hin]%list_elem_of_filter)%list_elem_of_fmap Hpend].
    apply list_elem_of_fmap in Hin as (r & -> & Hr). rewrite merge_sort_Permutation, elem_of_pending in Hr.
    destruct Hr as (Hr & _ & Hle). cbn in Hid, Hp.
    assert (t = r) as -> by by apply (NoDup_map_inj t_id (txs st)); [apply Hok|..].
    split_and!; [done|done|]. intros l Hl Hin. apply Hp, Hmem. by exists l.
  - intros (Hpend & Hle & Hno). split; [|done]. apply list_elem_of_fmap.
    exists {| p_ID := t_id t; p_TxID := t_txid t |}. split; [done|]. apply list_elem_of_filter. split.
    + cbn. rewrite Hmem. intros (l & Hl & Hin). by apply (Hno l).
    + apply list_elem_of_fmap. exists t. split; [done|]. rewrite merge_sort_Permutation, elem_of_pending. done.
Qed.

Lemma Set_txs {numbers : JsonNumbers} key value c : txs (Set_ key value c).2.1 = txs c.1.
Proof.
  unfold Set_, exec, next_fault. destruct c as [st [|f fs]]; cbn; [done|]. by destruct f.
Qed.

Lemma main_inv {numbers : JsonNumbers} attempts mempools schedule date id st st' fs fs' rs :
  start_id st = Val id → main attempts mempools schedule date (st, fs) = (Val rs, (st', fs')) →
  ∃ m st1 fs1, fetch_mempools mempools ∅ = Val m ∧ txs st' = txs st1 ∧
    delete_batches attempts (schedule (queue (invalid_ids m
      (match GetPendingTxs (Some id) st with Val l => l | _ => [] end)))) (st, fs) = (rs, (st1, fs1)).
Proof.
  intros Hid. unfold main. cbn [fst]. rewrite Hid. destruct (fetch_mempools mempools ∅) as [m|e|p|e]; [|done..].
  destruct (delete_batches _ _ _) as [rs1 [st1 fs1]] eqn:Hd. cbn [fst].
  destruct (GetTxAtBlockTime date st1) as [i| | |]; [|intros [= <- <- <-]; by exists m, st1, fs1..].
  pose proof (Set_txs "validatedTransaction" (Itoa i) (st1, fs1)) as Hset.
  destruct (Set_ _ _ _) as [u [st2 fs2]]. intros [= <- <- <-]. by exists m, st1, fs1.
Qed.

(** C20. The validator deletes exactly the stale transactions: for any answers
    of the cluster, any order of the workers and any failing attempts, it never
    deletes a transaction that is mined, below the bound, or in one of the
    mempools it was given, and if no batch was reported as failed all
    stale ones are gone. *)
Theorem main_removes_stale {numbers : JsonNumbers} (attempts : Z) (mempools : list (gores (list string)))
    (schedule : list (list Z) → list (list Z)) (date id : Z) (st st' : store) (fs fs' : list fault) rs :
  store_ok st → (∀ l, schedule l ≡ₚ l) → start_id st = Val id →
  main attempts mempools schedule date (st, fs) = (Val rs, (st', fs')) →
  (∀ t, t ∈ txs st' → t ∈ txs st) ∧
  (∀ t, t ∈ txs st → ¬ stale mempools id t → t ∈ txs st') ∧
  (Forall (fun r => ∃ u, r = Val u) rs → ∀ t, t ∈ txs st' → ¬ stale mempools id t).
Proof.
  intros Hok Hs Hid H. destruct (main_inv _ _ _ _ _ _ _ _ _ _ Hid H) as (m & st1 & fs1 & Hm & -> & Hd).
  apply delete_batches_spec in Hd as (_ & _ & Hsub & Hkeep & Hall). split_and!; [done| |].
  - intros t Ht Hns. apply Hkeep; [done|]. by rewrite (doomed_stale mempools).
  - intros Hr t Ht Hst. apply (Hall Hr t Ht). rewrite (doomed_stale mempools); auto.
Qed.

Definition test_mempools : list (gores (list string)) := [Val ["t9"]; Val []].

(** [tx2] is pending and in no mempool: it is deleted although a reply is lost;
    the mined [tx1] stays. *)
Lemma main_removes_stale_witness :
  let run := @main test_numbers 5 test_mempools (@rev _) 0 (store2, [LostReply]) in
  run.1 = Val [Val tt] ∧ map t_txid (txs run.2.1) = ["t1"] ∧
  (∀ t, t ∈ txs run.2.1 → t ∈ txs store2) ∧
  (∀ t, t ∈ txs store2 → ¬ stale test_mempools 0 t → t ∈ txs run.2.1) ∧
  (Forall (fun r => ∃ u : unit, r = Val u) [Val tt] → ∀ t, t ∈ txs run.2.1 → ¬ stale test_mempools 0 t).
Proof.
  split; [vm_compute; reflexivity|]. split; [vm_compute; reflexivity|].
  eapply (@main_removes_stale test_numbers 5 test_mempools (@rev _) 0 0 store2 _ [LostReply]).
  - apply store_ok_history, store1_ok.
  - intros l. symmetry. apply Permutation_rev.
  - vm_compute. reflexivity.
  - vm_compute. reflexivity.
Defined.

(** A transaction that was pending when the bound passed it is never looked at
    again, also when every node has dropped it. *)
Lemma below_bound_stays {numbers : JsonNumbers} attempts mempools schedule date id st st' fs fs' rs t :
  store_ok st → (∀ l, schedule l ≡ₚ l) → start_id st = Val id → t ∈ txs st → t_id t < id →
  main attempts mempools schedule date (st, fs) = (Val rs, (st', fs')) → t ∈ txs st'.
Proof.
  intros Hok Hs Hid Ht Hlt H. destruct (main_inv _ _ _ _ _ _ _ _ _ _ Hid H) as (m & st1 & fs1 & Hm & -> & Hd).
  apply delete_batches_spec in Hd as (_ & _ & _ & Hkeep & _). apply Hkeep; [done|].
  rewrite (doomed_stale mempools) by done. intros (_ & Hle & _). lia.
Qed.
