(* ===== verification/Follow.v ===== *)
(** * Follow: staying synchronised

    The goroutines of [staySynced] in src/V2/cmd/indexer/main.go: [syncToTip]
    fetches the blocks from the last stored one to the tip whenever a block is
    announced, [processMempool] and [getMempoolTxs] fetch the transactions of the
    mempool, putting a transaction back in line when the node does not have it. *)

From stdpp Require Import base list strings relations numbers.
From Stdlib Require Import ZArith Lia Permutation.
From S2P Require Import Prelude GoStrings Utxo Indexer Pipeline.

Local Open Scope Z_scope.

(** ** Blocks *)

(** The loop over the heights: what is sent on [blockChan], and how it ends.
    [get i] is the answer to [GetBlocks] for the height [i]. *)
Fixpoint fetch_heights (get : Z → gores (list Block)) (hs : list Z) : list Block * gores unit :=
  match hs with
  | [] => ([], Val tt)
  | i :: hs =>
      match fatal_err (get i) with
      | Val (b :: _) => let '(sent, r) := fetch_heights get hs in (b :: sent, r)
      | Val [] => ([], Panic IndexOutOfRange)
      | Err e => ([], Err e)
      | Panic p => ([], Panic p)
      | Exit e => ([], Exit e)
      end
  end.

(** The heights of a round: [info] and [last] are what [GetChainInfo] and
    [LastBlock] return *)
Definition tip_heights (info : gores ChainInfo) (last : gores (option (string * Z))) : gores (list Z) :=
  info ← fatal_err info;
  last ← fatal_err last;
  match last with
  | None => Panic NilDereference
  | Some (_, height) => Val (seqZ height (ci_Blocks info + 1 - height))
  end.

(** [func (idxr *Indexer) syncToTip(blockChan chan<- *utxo.Block, blockHashChan <-chan interface{})]:
    one announcement *)
Definition syncToTip (info : gores ChainInfo) (last : gores (option (string * Z))) (get : Z → gores (list Block)) :
    list Block * gores unit :=
  match tip_heights info last with
  | Val hs => fetch_heights get hs
  | Err e => ([], Err e)
  | Panic p => ([], Panic p)
  | Exit e => ([], Exit e)
  end.

Lemma fetch_heights_sent get hs :
  let '(sent, r) := fetch_heights get hs in
  ∃ done rest, hs = done ++ rest ∧ Forall2 (fun h b => ∃ l, get h = Val (b :: l)) done sent ∧
    (r = Val tt ↔ rest = []) .
Proof.
  induction hs as [|h hs IH]; cbn [fetch_heights].
  - exists [], []. by split_and!; [|constructor|].
  - assert (Hstop : ∀ r : gores unit, r ≠ Val tt → ∃ done rest, h :: hs = done ++ rest ∧
      Forall2 (fun h b => ∃ l, get h = Val (b :: l)) done ([] : list Block) ∧ (r = Val tt ↔ rest = [])).
    { intros r Hr. exists [], (h :: hs). by split_and!; [|constructor|]. }
    destruct (get h) as [[|b l]|e|p|e] eqn:Hg; cbn [fatal_err]; try by apply Hstop.
    destruct (fetch_heights get hs) as [sent r]. destruct IH as (done & rest & -> & H2 & Hr).
    exists (h :: done), rest. split_and!; [done|constructor; eauto|done].
Qed.

(** An announcement makes [syncToTip] send the blocks the node has at
    the heights from the last stored block to the tip, in ascending order
    and each once; it stops early only by ending the process. *)
Lemma syncToTip_sends (info : ChainInfo) (hash : string) (height : Z) (get : Z → gores (list Block)) :
  let '(sent, r) := syncToTip (Val info) (Val (Some (hash, height))) get in
  ∃ n, n ≤ Z.max 0 (ci_Blocks info + 1 - height) ∧
    Forall2 (fun h b => ∃ l, get h = Val (b :: l)) (seqZ height n) sent ∧
    (r = Val tt ↔ n = Z.max 0 (ci_Blocks info + 1 - height)).
Proof.
  unfold syncToTip. cbn [tip_heights mbind gores_bind fatal_err]. set (m := ci_Blocks info + 1 - height).
  pose proof (fetch_heights_sent get (seqZ height m)) as H.
  destruct (fetch_heights get (seqZ height m)) as [sent r]. destruct H as (done & rest & Heq & H2 & Hr).
  exists (Z.of_nat (length done)).
  assert (Hlen : (length done + length rest = Z.to_nat m)%nat) by (rewrite <-length_app, <-Heq; apply length_seqZ).
  assert (Hdone : done = seqZ height (Z.of_nat (length done))).
  { destruct (Z_le_gt_dec m 0).
    - assert (length done = 0%nat) as Hd by lia. apply nil_length_inv in Hd. by subst.
    - replace m with (Z.of_nat (length done) + Z.of_nat (length rest)) in Heq by lia.
      rewrite seqZ_app in Heq by lia. symmetry in Heq. apply app_inj_1 in Heq as [<- _]; [done|].
      rewrite length_seqZ. lia. }
  split_and!; [lia|by rewrite <-Hdone|]. rewrite Hr. split.
  - intros ->. cbn in Hlen. lia.
  - intros Hm. apply nil_length_inv. lia.
Qed.

(** Before the first block is stored an announcement ends in a panic. *)
Lemma syncToTip_empty_panics info get : syncToTip (Val info) (Val None) get = ([], Panic NilDereference).
Proof. done. Qed.

(** ** The mempool *)

(** [func (idxr *Indexer) processMempool(mempoolTxChan chan<- *utxo.MempoolTx, signalMempoolChan <-chan struct{})]:
    what a signal makes it send; an error goes to [errChan] and ends the process *)
Definition processMempool (txids : gores (list string)) : gores (list MempoolTx) :=
  l ← fatal_err txids;
  Val (map (fun id => {| mtx_Hash := id; Fails := 0 |}) l).

(** What [getMempoolTxs] does with an answer to [GetRawTransactions]. *)
Inductive mempool_action :=
| SendTxs (l : list txResult)
| Requeue (m : MempoolTx)
| GiveUp (e : gerror).

(** [func (idxr *Indexer) getMempoolTxs(txResultChan chan<- *txResult, mempoolTxChan chan *utxo.MempoolTx)]:
    one received transaction *)
Definition getMempoolTxs (mTx : MempoolTx) (txs : gores (list Tx)) : mempool_action :=
  match txs with
  | Val txs => SendTxs (map (fun tx => {| r_tx := tx; r_index := -1; r_blockId := -1 |}) txs)
  | Err err =>
      if Fails mTx <? 10 then Requeue {| mtx_Hash := mtx_Hash mTx; Fails := Fails mTx + 1 |} else GiveUp err
  | Panic _ | Exit _ => GiveUp (ENew "process ended")
  end.

Definition is_err (a : gores (list Tx)) : Prop := ∃ e, a = Err e.

Definition is_val (a : gores (list Tx)) : Prop := ∃ txs, a = Val txs.

(** The transactions in [mempoolTxChan] or waiting to enter it again, which any
    worker may take next; what was sent on, and, to speak of the past, the calls
    made with their answers. *)
Record mempool := {
  waiting : list MempoolTx;
  sent_on : list txResult;
  calls_made : list (string * gores (list Tx));
}.

Definition mempool_start (hashes : list string) : mempool :=
  {| waiting := map (fun id => {| mtx_Hash := id; Fails := 0 |}) hashes; sent_on := []; calls_made := [] |}.

Section mempool_runs.
(** The answers the node may give for a hash. *)
Context (answers : string → gores (list Tx) → Prop).

(** A worker takes a transaction, calls the node and acts on the answer; a
    transaction to try again goes to the end of the line. *)
Inductive mempool_step : mempool → mempool → Prop :=
| mp_call l1 m l2 a sent calls :
    answers (mtx_Hash m) a → is_val a ∨ is_err a →
    mempool_step {| waiting := l1 ++ m :: l2; sent_on := sent; calls_made := calls |}
      (let calls := calls ++ [(mtx_Hash m, a)] in
       match getMempoolTxs m a with
       | SendTxs txs => {| waiting := l1 ++ l2; sent_on := sent ++ txs; calls_made := calls |}
       | Requeue m' => {| waiting := l1 ++ l2 ++ [m']; sent_on := sent; calls_made := calls |}
       | GiveUp _ => {| waiting := l1 ++ l2; sent_on := sent; calls_made := calls |}
       end).

(** What an answer puts on [txResultChan] *)
Definition pending_results (call : string * gores (list Tx)) : list txResult :=
  match call.2 with Val txs => map (fun tx => {| r_tx := tx; r_index := -1; r_blockId := -1 |}) txs | _ => [] end.

(** The answers to the calls for one transaction that is done with: at most ten
    errors and then its data, or eleven errors *)
Definition settled (l : list (gores (list Tx))) : Prop :=
  (∃ errs a, l = errs ++ [a] ∧ Forall is_err errs ∧ is_val a ∧ (length errs ≤ 10)%nat) ∨ (Forall is_err l ∧ length l = 11%nat).

Definition calls_of (life : string * list (gores (list Tx))) : list (string * gores (list Tx)) := map (pair life.1) life.2.

(** The errors met by a transaction in line *)
Definition open_life (m : MempoolTx) (errs : list (gores (list Tx))) : Prop :=
  Forall is_err errs ∧ Z.of_nat (length errs) = Fails m ∧ Fails m ≤ 10.

(** [ms] are the calls for the transactions in line, [lives] those for the
    transactions done with. *)
Record mempool_ok (hashes : list string) (s : mempool) (ms lives : list (string * list (gores (list Tx)))) : Prop := {
  mp_open : Forall2 (fun m life => life.1 = mtx_Hash m ∧ open_life m life.2) (waiting s) ms;
  mp_settled : Forall (fun life => settled life.2) lives;
  mp_hashes : map fst (ms ++ lives) ≡ₚ hashes;
  mp_asked : calls_made s ≡ₚ concat (map calls_of (ms ++ lives));
  mp_answers : Forall (fun call => answers call.1 call.2) (calls_made s);
  mp_sent : sent_on s = concat (map pending_results (calls_made s));
}.

Lemma mempool_ok_start hashes : mempool_ok hashes (mempool_start hashes) (map (fun h => (h, [])) hashes) [].
Proof.
  split; cbn; [|constructor|by rewrite app_nil_r, map_map, map_id| |constructor|done].
  - induction hashes as [|h l IH]; cbn; [constructor|]. constructor; [|done]. split; [done|]. split_and!; [constructor|done|cbn; lia].
  - rewrite app_nil_r. apply reflexive_eq. by induction hashes.
Qed.

Lemma getMempoolTxs_inv m a errs :
  open_life m errs → is_val a ∨ is_err a →
  match getMempoolTxs m a with
  | SendTxs txs => txs = pending_results (mtx_Hash m, a) ∧ settled (errs ++ [a])
  | Requeue m' => mtx_Hash m' = mtx_Hash m ∧ open_life m' (errs ++ [a]) ∧ pending_results (mtx_Hash m, a) = []
  | GiveUp _ => pending_results (mtx_Hash m, a) = [] ∧ settled (errs ++ [a])
  end.
Proof.
  intros (He & Hl & Hf) [[l ->]|[e ->]]; cbn [getMempoolTxs].
  - split; [done|]. left. exists errs, (Val l). split_and!; [done|done|by exists l|lia].
  - assert (Forall is_err (errs ++ [Err e])) by (apply Forall_app; split; [done|]; apply list.Forall_singleton; by exists e).
    destruct (Z.ltb_spec (Fails m) 10).
    + split_and!; try done. unfold open_life. cbn [Fails]. rewrite length_app. cbn. split_and!; [done|lia|lia].
    + split; [done|]. right. split; [done|]. rewrite length_app. cbn. lia.
Qed.

Lemma getMempoolTxs_pending m a l : getMempoolTxs m a = SendTxs l → Forall (fun r => r_index r = -1 ∧ r_blockId r = -1) l.
Proof.
  destruct a as [txs|e|p|e]; cbn [getMempoolTxs]; [|by case_match|done..].
  intros [= <-]. apply list.Forall_forall. by intros r (tx & -> & _)%list_elem_of_fmap.
Qed.

(** The calls of the lives when the life [(h, errs)] among them goes on with [a] *)
Lemma calls_extend h errs a (l1 l2 : list (string * list (gores (list Tx)))) calls :
  calls ≡ₚ concat (map calls_of (l1 ++ (h, errs) :: l2)) →
  calls ++ [(h, a)] ≡ₚ concat (map calls_of (l1 ++ (h, errs ++ [a]) :: l2)).
Proof.
  intros ->. rewrite !map_app, !concat_app. cbn [map concat]. unfold calls_of at 2 5. cbn [fst snd]. rewrite map_app. cbn [map].
  rewrite <-!app_assoc. do 2 apply Permutation_app_head. apply Permutation_app_comm.
Qed.

Lemma mempool_ok_step hashes s s' ms lives :
  mempool_ok hashes s ms lives → mempool_step s s' → ∃ ms' lives', mempool_ok hashes s' ms' lives'.
Proof.
  intros [Ho Hs Hh Ha Hans Hsent] Hstep. destruct Hstep as [l1 m l2 a sent calls Hm Hr]. cbn [waiting sent_on calls_made] in *.
  apply Forall2_app_inv_l in Ho as (k1 & kr & Ho1 & Hor & ->). apply Forall2_cons_inv_l in Hor as ((h & errs) & k2 & [Eh Hop] & Ho2 & ->).
  cbn in Eh, Hop. subst h. rewrite <-app_assoc in Ha, Hh. cbn [app] in Ha, Hh. pose proof (calls_extend _ _ a _ _ _ Ha) as Ha'.
  rewrite map_app in Hh. cbn [map fst] in Hh.
  assert (Hans' : Forall (fun call => answers call.1 call.2) (calls ++ [(mtx_Hash m, a)]))
    by (apply Forall_app; split; [done|by apply list.Forall_singleton]).
  assert (Hsent' : sent ++ pending_results (mtx_Hash m, a) = concat (map pending_results (calls ++ [(mtx_Hash m, a)])))
    by (rewrite map_app, concat_app, Hsent; cbn; by rewrite app_nil_r).
  pose proof (getMempoolTxs_inv m a errs Hop Hr) as Hinv. destruct (getMempoolTxs m a) as [txs|m'|e].
  2: { destruct Hinv as (Em & Hop' & E). rewrite E, app_nil_r in Hsent'.
    exists (k1 ++ k2 ++ [(mtx_Hash m, errs ++ [a])]), lives. split; cbn [waiting sent_on calls_made]; try done.
    - apply Forall2_app; [done|]. apply Forall2_app; [done|]. constructor; [|constructor]. by rewrite Em.
    - rewrite <-Hh, <-!app_assoc. rewrite map_app. apply Permutation_app_head. cbn [app]. by rewrite <-Permutation_middle.
    - rewrite Ha', <-!app_assoc. cbn [app]. by rewrite (Permutation_middle k2 lives). }
  all: destruct Hinv as [E1 E2]; exists (k1 ++ k2), ((mtx_Hash m, errs ++ [a]) :: lives); split; cbn [waiting sent_on calls_made];
    [by apply Forall2_app|by constructor| | |done|].
  all: try (rewrite <-Hh, map_app, map_app; cbn [map fst]; rewrite <-app_assoc; apply Permutation_app_head; by rewrite map_app, <-Permutation_middle).
  all: try (rewrite Ha', <-!app_assoc; by rewrite (Permutation_middle k2 lives)).
  - by rewrite E1.
  - by rewrite <-Hsent', E1, app_nil_r.
Qed.

Lemma mempool_ok_steps hashes n s s' ms lives :
  mempool_ok hashes s ms lives → nsteps mempool_step n s s' →
  length (calls_made s') = (length (calls_made s) + n)%nat ∧ ∃ ms' lives', mempool_ok hashes s' ms' lives'.
Proof.
  intros Hok H. revert ms lives Hok. induction H as [s|n x y z Hxy _ IH]; intros ms lives Hok; [split; [lia|by exists ms, lives]|].
  destruct (mempool_ok_step _ _ _ _ _ Hok Hxy) as (ms' & lives' & Hy). destruct (IH _ _ Hy) as [Hn Hz]. split; [|done].
  rewrite Hn. destruct Hxy as [? m ? a ? ?]. destruct (getMempoolTxs m a); cbn [calls_made]; rewrite length_app; cbn; lia.
Qed.

(** No transaction is calls_made for more than eleven times. *)
Lemma settled_length l : settled l → (length l ≤ 11)%nat.
Proof. intros [(errs & a & -> & _ & _ & H)|[_ ->]]; [rewrite length_app; cbn; lia|lia]. Qed.

Lemma asked_length hashes s ms lives : mempool_ok hashes s ms lives → (length (calls_made s) ≤ 11 * length hashes)%nat.
Proof.
  intros [Ho Hs Hh Ha _ _]. rewrite Ha, <-Hh, length_map.
  assert (Hall : Forall (fun life => (length life.2 ≤ 11)%nat) (ms ++ lives)).
  { apply Forall_app. split; [|eapply Forall_impl; [|exact Hs]; intros life; apply settled_length].
    clear -Ho. induction Ho as [|m life ? ? (_ & _ & Hl & Hf)]; constructor; [lia|done]. }
  clear -Hall. induction Hall as [|life l Hl _ IH]; [done|]. cbn [map concat length]. rewrite length_app. unfold calls_of at 1.
  rewrite length_map. lia.
Qed.

End mempool_runs.


(** One transaction fails once and is then fetched, the other is gone. *)
Definition test_answers (h : string) (a : gores (list Tx)) : Prop :=
  if bool_decide (h = "gone") then a = Err (ENew "no such transaction")
  else a = Err (ENew "busy") ∨ a = Val [coinbase 7].

Lemma give_up_run k sent calls :
  (k ≤ 10)%nat →
  nsteps (mempool_step test_answers) (S k)
    {| waiting := [{| mtx_Hash := "gone"; Fails := 10 - Z.of_nat k |}]; sent_on := sent; calls_made := calls |}
    {| waiting := []; sent_on := sent; calls_made := calls ++ replicate (S k) ("gone", Err (ENew "no such transaction")) |}.
Proof.
  revert calls. induction k as [|k IH]; intros calls Hk.
  - eapply nsteps_l; [|constructor].
    apply (mp_call test_answers [] {| mtx_Hash := "gone"; Fails := 10 |} [] (Err (ENew "no such transaction"))); [done|right; by eexists].
  - eapply nsteps_l; [apply (mp_call test_answers [] _ [] (Err (ENew "no such transaction"))); [done|right; by eexists]|].
    cbn [getMempoolTxs Fails mtx_Hash]. rewrite (proj2 (Z.ltb_lt _ _)) by lia. cbn [app].
    replace (10 - Z.of_nat (S k) + 1) with (10 - Z.of_nat k) by lia.
    change (replicate (S (S k)) ?x) with ([x] ++ replicate (S k) x). rewrite app_assoc. apply IH. lia.
Qed.

