(* ===== verification/Tracking.v ===== *)
(** * Tracking: the indexer follows the tip

    [staySynced] of src/V2/cmd/indexer/main.go as a step relation over the
    client of [Postgres]: blocks are announced while the goroutines work,
    [syncToTip] hands the blocks to [writeBlock], which hands their
    transactions to the workers of [writeTx], to which the workers of
    [getMempoolTxs] hand the transactions of the mempool.  A call that fails
    ends the process, so it is not a step.  The node's chain only grows. *)

From stdpp Require Import base list strings gmap relations sorting numbers.
From Stdlib Require Import ZArith Lia Permutation.
From S2P Require Import Prelude GoStrings Convert Retry Utxo BlockTable Store Postgres Ledger Indexer Pipeline Sync Follow.

Local Open Scope Z_scope.

(** [writeBlock]: waiting for a block, inserting it, or handing its
    transactions on *)
Inductive writer :=
| Idle
| Inserting (b : Block)
| Handing (b : Block) (rest : list txResult).

(** The node, the channels and the goroutines. *)
Record tracking := {
  tip : Z;                         (** the node: the height of its last block *)
  announced : nat;                 (** [blockHashChan]: hashes not yet received *)
  info : option ChainInfo;         (** [syncToTip]: the answer of [GetChainInfo] *)
  heights : list Z;                (** [syncToTip]: the heights of the round still to fetch *)
  fetched : option Block;          (** [syncToTip]: the block to be sent *)
  writing : writer;
  offers : list (list txResult);   (** [getMempoolTxs] workers with transactions to send *)
  held : list txResult;            (** [writeTx] workers with a transaction to write *)
  db : conn;
  callouts : list Block;           (** the blocks [writeBlock] started a call of the monitor for *)
  mempool_seen : list txResult;    (** all that [getMempoolTxs] had to send *)
}.

#[global] Instance tracking_settable : Settable tracking := fun s =>
  {| tip := tip s; announced := announced s; info := info s; heights := heights s; fetched := fetched s;
     writing := writing s; offers := offers s; held := held s; db := db s; callouts := callouts s;
     mempool_seen := mempool_seen s |}.

(** [staySynced] starts after the initial synchronisation, with [a]
    announcements on their way. *)
Definition start_tracking (t : Z) (a : nat) (c : conn) : tracking :=
  {| tip := t; announced := a; info := None; heights := []; fetched := None; writing := Idle; offers := [];
     held := []; db := c; callouts := []; mempool_seen := [] |}.

Definition tracking_rests (s : tracking) : Prop :=
  announced s = O ∧ info s = None ∧ heights s = [] ∧ fetched s = None ∧ writing s = Idle ∧ offers s = [] ∧ held s = [].

Section tracking.
Context {numbers : JsonNumbers} (rpcThreads dbThreads : nat) (attempts : Z) (chain : Z → Block) (n : Z).

Inductive track (s : tracking) : tracking → Prop :=
| mine :
    tip s + 1 < n →
    track s (set_field tip (tip s + 1) (set_field announced (S (announced s)) s))
| get_chain_info a i :
    announced s = S a → info s = None → heights s = [] → fetched s = None → ci_Blocks i = tip s →
    track s (set_field announced a (set_field info (Some i) s))
| last_block i hs :
    info s = Some i → tip_heights (Val i) (LastBlock (db s).1) = Val hs →
    track s (set_field info None (set_field heights hs s))
| get_block h hs :
    heights s = h :: hs → fetched s = None →
    track s (set_field heights hs (set_field fetched (Some (chain h)) s))
| hand_block b :
    fetched s = Some b → writing s = Idle →
    track s (set_field fetched None (set_field writing (Inserting b) s))
| write_block b id c :
    writing s = Inserting b → InsertBlock attempts (header b) false (db s) = (Val id, c) →
    track s (set_field writing (Handing b (block_results b id)) (set_field db c s))
| hand_tx b r rest :
    writing s = Handing b (r :: rest) → (length (held s) < dbThreads)%nat →
    track s (set_field writing (Handing b rest) (set_field held (held s ++ [r]) s))
| notify b :
    writing s = Handing b [] →
    track s (set_field writing Idle (set_field callouts (callouts s ++ [b]) s))
| get_mempool_txs m a l :
    (length (offers s) < rpcThreads)%nat → getMempoolTxs m a = SendTxs l →
    track s (set_field offers (offers s ++ [l]) (set_field mempool_seen (mempool_seen s ++ l) s))
| hand_pending l1 r rest l2 :
    offers s = l1 ++ (r :: rest) :: l2 → (length (held s) < dbThreads)%nat →
    track s (set_field offers (l1 ++ rest :: l2) (set_field held (held s ++ [r]) s))
| offered l1 l2 :
    offers s = l1 ++ [] :: l2 → track s (set_field offers (l1 ++ l2) s)
| write_tx l1 r l2 c :
    held s = l1 ++ r :: l2 →
    InsertTx attempts (fill_hash (r_tx r)) (r_index r) (r_blockId r) (db s) = (Val tt, c) →
    track s (set_field held (l1 ++ l2) (set_field db c s)).

(** ** Heights on their way *)

(** With [k] blocks stored, writing blocks of these heights leaves no gap. *)
Fixpoint continues (k : Z) (l : list Z) : Prop :=
  match l with
  | [] => True
  | h :: l => 0 ≤ h ≤ k ∧ continues (Z.max k (h + 1)) l
  end.

(** The number of blocks stored in the end. *)
Fixpoint reach (k : Z) (l : list Z) : Z :=
  match l with
  | [] => k
  | h :: l => reach (Z.max k (h + 1)) l
  end.

Lemma continues_app k l l' : continues k (l ++ l') ↔ continues k l ∧ continues (reach k l) l'.
Proof. revert k. induction l as [|h l IH]; intros k; cbn; [tauto|]. rewrite IH. tauto. Qed.

Lemma reach_app k l l' : reach k (l ++ l') = reach (reach k l) l'.
Proof. revert k. induction l as [|h l IH]; intros k; cbn; [done|]. apply IH. Qed.

Lemma reach_ge k l : k ≤ reach k l.
Proof. revert k. induction l as [|h l IH]; intros k; cbn; [lia|]. specialize (IH (Z.max k (h + 1))). lia. Qed.

Lemma continues_seqZ k a m :
  0 ≤ a ≤ k → continues k (seqZ a m) ∧ reach k (seqZ a m) = if decide (0 < m) then Z.max k (a + m) else k.
Proof.
  intros Ha. destruct (decide (0 < m)) as [Hm|Hm]; [|by rewrite seqZ_nil by lia].
  destruct (Z_of_nat_complete m) as [j Hj]; [lia|]. revert k a m Ha Hm Hj. induction j as [|j IH]; intros k a m Ha Hm Hj; [lia|].
  rewrite seqZ_cons by lia. cbn [continues reach]. destruct (decide (0 < Z.pred m)) as [Hp|Hp].
  - destruct (IH (Z.max k (a + 1)) (Z.succ a) (Z.pred m)) as [H1 H2]; [lia|lia|lia|]. rewrite H2. split; [done|lia].
  - rewrite seqZ_nil by lia. cbn. split; [done|lia].
Qed.

Definition inserting (w : writer) : list Block := match w with Inserting b => [b] | _ => [] end.
Definition handing (w : writer) : list txResult := match w with Handing _ rs => rs | _ => [] end.

(** The blocks sent or about to be sent to [writeBlock], and then the heights. *)
Definition under_way (s : tracking) : list Block := inserting (writing s) ++ option_list (fetched s).
Definition path (s : tracking) : list Z := map block_height (under_way s) ++ heights s.

(** ** The invariant *)

Definition is_pending (r : txResult) : Prop := r_index r = -1 ∧ r_blockId r = -1.

Record track_ok (n0 : Z) (W : list (Block * Z)) (T : list txResult) (s : tracking) : Prop := {
  k_stored : stored W T (db s).1;
  k_prefix : prefix_of chain W;
  k_length : n0 ≤ Z.of_nat (length W);
  k_tip : Z.of_nat (length W) ≤ tip s + 1 ≤ n;
  k_written : ∀ r, r ∈ T → r ∈ results_of W;
  k_results : ∀ r, r ∈ results_of W → r ∈ T ∨ r ∈ held s ∨ r ∈ handing (writing s);
  k_handing : ∀ r, r ∈ handing (writing s) → r ∈ results_of W;
  k_held : ∀ r, r ∈ held s → (is_pending r ∧ r ∈ mempool_seen s) ∨ r ∈ results_of W;
  k_offers : ∀ r, r ∈ concat (offers s) → is_pending r ∧ r ∈ mempool_seen s;
  k_chain : ∀ b, b ∈ under_way s → b = chain (block_height b);
  k_path : continues (Z.of_nat (length W)) (path s) ∧ reach (Z.of_nat (length W)) (path s) ≤ tip s + 1;
  k_info : ∀ i, info s = Some i → heights s = [] ∧ fetched s = None ∧ ci_Blocks i ≤ tip s;
  k_catch_up : (0 < announced s)%nat ∨ (∃ i, info s = Some i ∧ ci_Blocks i = tip s) ∨
    (info s = None ∧ reach (Z.of_nat (length W)) (path s) = tip s + 1);
  k_callouts : ∀ h, n0 ≤ h < Z.of_nat (length W) → chain h ∈ callouts s ∨ ∃ rs, writing s = Handing (chain h) rs;
  k_seen : ∀ r, r ∈ mempool_seen s →
    r ∈ concat (offers s) ∨ r ∈ held s ∨ TxID (r_tx r) ∈ map t_txid (txs (db s).1);
}.

(** ** Preservation *)

Context (Hchain : node_chain chain n).

Lemma elem_of_results_snoc W b id r : r ∈ results_of (W ++ [(b, id)]) ↔ r ∈ results_of W ∨ r ∈ block_results b id.
Proof. by rewrite results_of_snoc, elem_of_app. Qed.

(** A block that [writeBlock] inserts is the next one or the last stored. *)
Lemma stored_write W T st j id fs st' fs' :
  prefix_of chain W → stored W T st → 0 ≤ j ≤ Z.of_nat (length W) → Z.of_nat (length W) ≤ n → j < n →
  InsertBlock attempts (header (chain j)) false (st, fs) = (Val id, (st', fs')) →
  ∃ W', prefix_of chain W' ∧ stored W' T st' ∧ txs st' = txs st ∧ Z.of_nat (length W') = Z.max (Z.of_nat (length W)) (j + 1) ∧
    ∀ r, r ∈ results_of W' ↔ r ∈ results_of W ∨ r ∈ block_results (chain j) id.
Proof.
  intros HW Hst Hj Hlen Hjn Hins. destruct (decide (j = Z.of_nat (length W))) as [->|Hne].
  - destruct (stored_block attempts chain n Hchain _ _ _ _ _ _ _ _ HW Hst Hjn eq_refl Hins) as [Hst' Htx].
    exists (W ++ [(chain (Z.of_nat (length W)), id)]). split_and!; [|done|done|rewrite length_app; cbn; lia|].
    + by apply prefix_of_snoc'.
    + intros r. apply elem_of_results_snoc.
  - destruct (decide (j + 1 = Z.of_nat (length W))) as [E|].
    2:{ exfalso. apply (stored_block_below attempts chain n Hchain W T st j id fs (st', fs')); [done|done|lia|lia|done]. }
    destruct W as [|[b i] W _] using rev_ind; [cbn in E; lia|]. rewrite length_app in *. cbn in *.
    pose proof (prefix_of_snoc _ _ _ _ HW) as [_ Hb]. replace (Z.of_nat (length W)) with j in Hb by lia. subst b.
    destruct (stored_block_again attempts chain n Hchain _ _ _ _ _ _ _ _ _ HW Hst ltac:(lia) Hins) as (-> & Hst' & Htx).
    exists (W ++ [(chain j, i)]). rewrite length_app. split_and!; [done|done|done|cbn; lia|].
    intros r. rewrite elem_of_results_snoc. tauto.
Qed.

(** A round starts at the last block stored. *)
Lemma track_ok_last_block n0 W T s i hs :
  1 ≤ n0 → track_ok n0 W T s → info s = Some i → tip_heights (Val i) (LastBlock (db s).1) = Val hs →
  track_ok n0 W T (set_field info None (set_field heights hs s)).
Proof.
  intros Hn0 [Hst HW Hlen Htip Hwr Hres Hhand Hheld Hoff Hch [Hpath Hreach] Hinfo Hcatch Hnot Hseen] Hi.
  destruct (Hinfo i Hi) as (Hh & Hf & Hle).
  rewrite (stored_last_block chain n W T _ Hchain HW Hst) by lia. cbn. intros [= <-].
  unfold path, under_way in *. rewrite Hf, Hh in *. cbn [option_list] in *. rewrite !app_nil_r in *.
  set (k := Z.of_nat (length W)) in *.
  destruct (continues_seqZ (reach k (map block_height (inserting (writing s)))) (k - 1) (ci_Blocks i + 1 - (k - 1))) as [H1 H2].
  { pose proof (reach_ge k (map block_height (inserting (writing s)))). lia. }
  split; unfold path, under_way; cbn; rewrite ?Hf, ?app_nil_r; cbn [option_list]; rewrite ?app_nil_r; try done; fold k.
  - rewrite continues_app, reach_app, H2. split_and!; [done|done|]. case_decide; lia.
  - destruct Hcatch as [Ha|[(i' & Hi' & E)|[Hn _]]]; [by left|right; right|congruence].
    rewrite Hi in Hi'. injection Hi' as <-. split; [done|]. rewrite reach_app, H2. case_decide; lia.
Qed.

Lemma track_ok_write_block n0 W T s b id c :
  track_ok n0 W T s → writing s = Inserting b → InsertBlock attempts (header b) false (db s) = (Val id, c) →
  ∃ W', track_ok n0 W' T (set_field writing (Handing b (block_results b id)) (set_field db c s)).
Proof.
  intros [Hst HW Hlen Htip Hwr Hres Hhand Hheld Hoff Hch [Hpath Hreach] Hinfo Hcatch Hnot Hseen] Hw Hins.
  unfold path, under_way in *. rewrite Hw in *. cbn [inserting handing app map] in *.
  set (j := block_height b) in *. assert (Hb : b = chain j) by (apply Hch; left). clearbody j. subst b.
  cbn [continues reach] in Hpath, Hreach, Hcatch. destruct Hpath as [Hj Hpath].
  assert (Hjn : j < n).
  { pose proof (reach_ge (Z.max (Z.of_nat (length W)) (j + 1)) (map block_height (option_list (fetched s)) ++ heights s)). lia. }
  destruct (db s) as [st fs], c as [st' fs'].
  destruct (stored_write W T st j id fs st' fs' HW Hst Hj ltac:(lia) Hjn Hins) as (W' & HW' & Hst' & Htxs & Hlen' & Hin).
  exists W'. split; unfold path, under_way; cbn -[Z.max]; rewrite ?Hlen', ?Htxs; try done.
  - lia.
  - pose proof (reach_ge (Z.max (Z.of_nat (length W)) (j + 1)) (map block_height (option_list (fetched s)) ++ heights s)). lia.
  - intros r Hr. rewrite Hin. left. by apply Hwr.
  - by intros r [[Hr|[Hr|Hr%elem_of_nil]]%Hres|Hr]%Hin; auto.
  - intros r Hr. rewrite Hin. by right.
  - intros r [Hr|Hr]%Hheld; [by left|right]. rewrite Hin. by left.
  - intros b Hb. apply Hch. by right.
  - intros h Hh. destruct (decide (h = j)) as [->|Hne]; [right; eauto|left].
    destruct (Hnot h) as [?|[? ?]]; [lia|done|done].
Qed.

(** A transaction of a block is written once or again, one of the mempool is
    not written over it. *)
Lemma stored_result W T st r fs st' fs' :
  prefix_of chain W → Z.of_nat (length W) ≤ n → stored W T st → (∀ x, x ∈ T → x ∈ results_of W) →
  is_pending r ∨ r ∈ results_of W →
  InsertTx attempts (fill_hash (r_tx r)) (r_index r) (r_blockId r) (st, fs) = (Val tt, (st', fs')) →
  ∃ T', stored W T' st' ∧ (∀ x, x ∈ T' → x ∈ results_of W) ∧ (∀ x, x ∈ T → x ∈ T') ∧ (r ∈ results_of W → r ∈ T').
Proof.
  intros HW Hlen Hst Hwr Hr Hins. pose proof (prefix_txids chain n W Hchain HW Hlen) as Hnd.
  destruct (decide (is_pending r)) as [[Ei Eb]|Hp].
  - rewrite Ei, Eb in Hins. exists T. split_and!; [by eapply stored_pending|done|done|].
    intros (b & i & _ & E & _)%results_of_inv. lia.
  - destruct Hr as [?|Hr]; [done|]. exists (T ++ [r]). split_and!.
    + eapply stored_tx; [done|done| |exact Hins]. intros x Hx E.
      by apply (NoDup_map_inj (fun r => TxID (r_tx r)) (results_of W)); [|apply Hwr|..].
    + intros x [Hx|Hx%list_elem_of_singleton]%elem_of_app; [by apply Hwr|by subst].
    + intros x Hx. apply elem_of_app. by left.
    + intros _. apply elem_of_app. right. by apply list_elem_of_singleton.
Qed.

Lemma track_ok_write_tx n0 W T s l1 r l2 c :
  track_ok n0 W T s → held s = l1 ++ r :: l2 →
  InsertTx attempts (fill_hash (r_tx r)) (r_index r) (r_blockId r) (db s) = (Val tt, c) →
  ∃ T', track_ok n0 W T' (set_field held (l1 ++ l2) (set_field db c s)).
Proof.
  intros [Hst HW Hlen Htip Hwr Hres Hhand Hheld Hoff Hch Hpath Hinfo Hcatch Hnot Hseen] Hh Hins.
  rewrite Hh in *. destruct (db s) as [st fs], c as [st' fs'].
  assert (Hsub : ∀ x, x ∈ l1 ++ l2 → x ∈ l1 ++ r :: l2) by (intros x; rewrite !elem_of_app, elem_of_cons; tauto).
  assert (Hcase : ∀ x, x ∈ l1 ++ r :: l2 → x = r ∨ x ∈ l1 ++ l2) by (intros x; rewrite !elem_of_app, elem_of_cons; tauto).
  destruct (InsertTx_txids _ _ _ _ _ _ _ _ (st_ok _ _ _ Hst) Hins) as [Hin Hkeep].
  destruct (stored_result W T st r fs st' fs') as (T' & Hst' & Hwr' & HT & Hr');
    [done|lia|done|done| |done|].
  { destruct (Hheld r) as [[? _]|?]; [apply elem_of_app; right; left|by left|by right]. }
  exists T'. split; cbn; try done.
  - intros x Hx. destruct (Hres x Hx) as [?|[[->|?]%Hcase|?]]; auto.
  - auto.
  - intros x Hx. destruct (Hseen x Hx) as [?|[[->|?]%Hcase|?]]; auto.
Qed.

Lemma track_ok_get_block n0 W T s h hs :
  track_ok n0 W T s → heights s = h :: hs → fetched s = None →
  track_ok n0 W T (set_field heights hs (set_field fetched (Some (chain h)) s)).
Proof.
  intros [Hst HW Hlen Htip Hwr Hres Hhand Hheld Hoff Hch Hpath Hinfo Hcatch Hnot Hseen] Hh Hf.
  unfold path, under_way in *. rewrite Hh, Hf in *. cbn [option_list] in *. rewrite !app_nil_r in *.
  assert (Eh : block_height (chain h) = h).
  { apply (nc_height _ _ Hchain). destruct Hpath as [Hc Hr]. rewrite continues_app, reach_app in *. cbn [continues reach] in *.
    pose proof (reach_ge (reach (Z.of_nat (length W)) (map block_height (inserting (writing s))) `max` (h + 1)) hs). lia. }
  assert (Epath : map block_height (inserting (writing s) ++ [chain h]) ++ hs = map block_height (inserting (writing s)) ++ h :: hs).
  { rewrite map_app, <-app_assoc. cbn. by rewrite Eh. }
  split; unfold path, under_way; cbn; rewrite ?Epath; try done.
  - intros b [Hb|Hb%list_elem_of_singleton]%elem_of_app; [by apply Hch|]. by subst b; rewrite Eh.
  - intros i Hi. by destruct (Hinfo i Hi).
Qed.

(** Every other step moves what is under way. *)
Lemma track_ok_step n0 W T s s' :
  1 ≤ n0 → track_ok n0 W T s → track s s' → ∃ W' T', track_ok n0 W' T' s'.
Proof.
  intros Hn0 Hok Hstep. destruct Hstep as
    [Ht|a i Ha Hi Hh Hf Ec|i hs Hi Htip|h hs Hh Hf|b Hf Hw|b id c Hw Hins|b r rest Hw Hl|b Hw|m a l Hl Hm|l1 r rest l2 Ho Hl|l1 l2 Ho|l1 r l2 c Hh Hins].
  3:{ exists W, T. by eapply track_ok_last_block. }
  3:{ exists W, T. by apply track_ok_get_block. }
  4:{ destruct (track_ok_write_block _ _ _ _ _ _ _ Hok Hw Hins) as [W' HW']. by exists W', T. }
  9:{ destruct (track_ok_write_tx _ _ _ _ _ _ _ _ Hok Hh Hins) as [T' HT']. by exists W, T'. }
  all: exists W, T; destruct Hok as [Hst HW Hlen Htip Hwr Hres Hhand Hheld Hoff Hch Hpath Hinfo Hcatch Hnot Hseen].
  all: unfold path, under_way in *; try rewrite Hw in *; try rewrite Ho, ?concat_app in *; cbn [concat] in *.
  all: split; unfold path, under_way; cbn; rewrite ?Hw, ?concat_app; cbn [concat inserting handing] in *; try done.
  all: lazymatch goal with
       | |- ∀ _ : txResult, _ =>
           intros x; specialize (Hres x); specialize (Hhand x); specialize (Hheld x); specialize (Hoff x); specialize (Hseen x);
           repeat first [rewrite elem_of_app in * | rewrite elem_of_cons in * | rewrite elem_of_nil in *]; try tauto
       | _ => idtac
       end.
  - lia.
  - split; [apply Hpath|lia].
  - intros i Hi. destruct (Hinfo i Hi) as (? & ? & ?). split_and!; [done|done|lia].
  - left. lia.
  - intros i' [= <-]. by rewrite Ec.
  - right. left. by exists i.
  - rewrite Hf in Hch. done.
  - rewrite Hf in Hpath. done.
  - intros i Hi. destruct (Hinfo i Hi) as (? & ? & ?). done.
  - rewrite Hf in Hcatch. done.
  - intros h Hh. destruct (Hnot h Hh) as [?|[? ?]]; [by left|done].
  - intros h Hh. destruct (Hnot h Hh) as [?|[rs [= -> _]]]; [by left|right; by eexists].
  - intros h Hh. left. destruct (Hnot h Hh) as [?|[rs [= -> _]]]; apply elem_of_app; [by left|right; by apply list_elem_of_singleton].
  - apply getMempoolTxs_pending in Hm. rewrite list.Forall_forall in Hm. intros [Hx|[Hx|[]]]; [tauto|].
    split; [by apply Hm|by right].
Qed.

Lemma track_ok_steps n0 W T s s' :
  1 ≤ n0 → track_ok n0 W T s → rtc track s s' → ∃ W' T', track_ok n0 W' T' s'.
Proof.
  intros Hn0 Hok H. revert W T Hok. induction H as [|x y z Hxy _ IH]; intros W T Hok; [by exists W, T|].
  destruct (track_ok_step _ _ _ _ _ Hn0 Hok Hxy) as (W' & T' & Hok'). by eapply IH.
Qed.

Lemma track_ok_start t a c W T :
  prefix_of chain W → stored W T c.1 → T ≡ₚ results_of W → Z.of_nat (length W) ≤ t + 1 ≤ n →
  (0 < a)%nat ∨ t + 1 = Z.of_nat (length W) → track_ok (Z.of_nat (length W)) W T (start_tracking t a c).
Proof.
  intros HW Hst HT Ht Ha. split; cbn; try done; try (by intros x ?%elem_of_nil); try lia.
  - intros r. by rewrite HT.
  - intros r. rewrite HT. auto.
  - destruct Ha as [Ha|Ha]; [by left|right; right]. by rewrite <-Ha.
Qed.

(** When nothing is under way the chain is stored up to the tip. *)
Lemma track_ok_rests {order : RowOrder} n0 W T s :
  1 ≤ n0 → track_ok n0 W T s → tracking_rests s →
  holds_chain chain (tip s + 1) (db s).1 ∧
  (∀ h, n0 ≤ h ≤ tip s → chain h ∈ callouts s) ∧
  ∀ r, r ∈ mempool_seen s → ∃ t, GetTxByTxID (TxID (r_tx r)) (db s).1 = Val t.
Proof.
  intros Hn0 [Hst HW Hlen Htip Hwr Hres Hhand Hheld Hoff Hch Hpath Hinfo Hcatch Hnot Hseen] (Ea & Ei & Eh & Ef & Ew & Eo & Ed).
  unfold path, under_way in *. rewrite Ea, Ei, Eh, Ef, Ew, Eo, Ed in *. cbn in *.
  assert (E : Z.of_nat (length W) = tip s + 1).
  { destruct Hcatch as [?|[(i & ? & _)|[_ E]]]; [lia|done|done]. }
  split_and!.
  - rewrite <-E. apply (stored_holds_chain _ n W T); [done|done|done|lia|].
    by intros r [?|[?%elem_of_nil|?%elem_of_nil]]%Hres.
  - intros h Hh. destruct (Hnot h) as [?|[? ?]]; [lia|done|done].
  - intros r [?%elem_of_nil|[?%elem_of_nil|Hr]]%Hseen; [done|done|].
    unfold GetTxByTxID. destruct (find _ (txs (db s).1)) as [t|] eqn:Hf; [by eexists|]. exfalso.
    apply list_elem_of_fmap in Hr as (t & Et & Hin). pose proof (find_none _ _ Hf t (proj1 (list_elem_of_In _ _) Hin)) as Hno.
    by apply bool_decide_eq_false in Hno.
Qed.

End tracking.

(** ** Properties *)

(** C2. The indexer follows the node: from an empty schema through the initial
    synchronisation and [staySynced], while blocks are mined and announced and
    transactions of the mempool arrive in any interleaving with the goroutines
    and with failing attempts of the database, whenever nothing is under way
    any more the store holds the node's chain up to its tip with every
    transaction under its block, also one that was pending before; [writeBlock]
    started the goroutine that calls the monitor for every block after the
    initial ones (what becomes of the call is [Services.notification_lost]); and
    every transaction fetched from the mempool is found. *)
Theorem indexer_follows_tip {numbers : JsonNumbers} {order : RowOrder} {S : SortSlice Block} {laws : SortSliceLaws S less_height}
    (rpcThreads dbThreads : nat) (attempts : Z) (chain : Z → Block) (n n0 : Z) (bs : list (list Z)) (fs : list fault)
    (p : @pipe conn) (t : Z) (a : nat) (s : tracking) :
  node_chain chain n → 1 ≤ n0 < two63 → n0 ≤ t + 1 ≤ n → concat bs = seqZ 0 n0 →
  rtc (@step conn (postgres_database attempts) S rpcThreads dbThreads false (serves_chain chain n0))
    (start_pipe 0 bs (empty_store, fs)) p →
  at_rest p →
  (0 < a)%nat ∨ t + 1 = n0 →
  rtc (track rpcThreads dbThreads attempts chain n) (start_tracking t a (Pipeline.db p)) s →
  tracking_rests s →
  holds_chain chain (tip s + 1) (db s).1 ∧
  (∀ h, n0 ≤ h ≤ tip s → chain h ∈ callouts s) ∧
  ∀ r, r ∈ mempool_seen s → ∃ t, GetTxByTxID (TxID (r_tx r)) (db s).1 = Val t.
Proof.
  intros Hchain Hn0 Ht Hbs Hsync Hdone Ha Hrun Hrest.
  destruct (initialSync_stored rpcThreads dbThreads attempts chain n0 bs fs p) as (W & T & -> & HW & Hst & HT & _);
    [by apply (node_chain_le _ n); [|lia]|lia|lia|done|done|done|].
  eapply (track_ok_steps rpcThreads dbThreads attempts chain n Hchain) in Hrun as (W' & T' & Hok);
    [|exact (proj1 Hn0)|by apply (track_ok_start chain n t a _ W T)].
  eapply (track_ok_rests chain n Hchain); [exact (proj1 Hn0)|done|done].
Qed.

(** ** Concrete runs *)

Ltac track_by tac :=
  eapply rtc_l; [tac|];
  cbn [tip announced info heights fetched writing offers held db callouts mempool_seen set_field app].

Definition info_at (h : Z) : ChainInfo := {|
  ci_Chain := "main"; ci_Blocks := h; ci_Headers := h; ci_BestBlockHash := ""; ci_Difficulty := "1"; ci_SizeOnDisk := 0;
  ci_Version := ""; ci_Subversion := ""; ci_ProtocolVersion := ""; ci_Timeoffset := 0; ci_Warnings := "" |}.

Definition sync_tx (h : Z) : Tx := r_tx (sync_result h).

(** The transaction of block 2 is first met in the mempool. *)
Definition pending_tx : txResult := {| r_tx := sync_tx 2; r_index := -1; r_blockId := -1 |}.
Definition pending_conn : conn := (@InsertTx test_numbers 5 (fill_hash (sync_tx 2)) (-1) (-1) (Pipeline.db sync_end)).2.

Definition tracked_conn : conn := written_tx 2 (written_tx 1 (written_block 2 (written_block 1 pending_conn))).

Definition tracked : tracking := {|
  tip := 2; announced := 0; info := None; heights := []; fetched := None; writing := Idle; offers := []; held := [];
  db := tracked_conn; callouts := [sync_chain 1; sync_chain 2]; mempool_seen := [pending_tx];
|}.

Lemma tracked_reached :
  rtc (@track test_numbers 2 2 5 sync_chain 4) (start_tracking 1 0 (Pipeline.db sync_end)) tracked.
Proof.
  track_by ltac:(apply (get_mempool_txs _ _ _ _ _ _ {| mtx_Hash := "tx2"; Fails := 0 |} (Val [sync_tx 2]) [pending_tx]); [cbn; lia|reflexivity]).
  track_by ltac:(apply (hand_pending _ _ _ _ _ _ [] pending_tx [] []); [reflexivity|cbn; lia]).
  track_by ltac:(apply (offered _ _ _ _ _ _ [] []); reflexivity).
  track_by ltac:(apply (write_tx _ _ _ _ _ _ [] pending_tx [] pending_conn); [reflexivity|vm_compute; reflexivity]).
  track_by ltac:(apply mine; cbn; lia).
  track_by ltac:(apply (get_chain_info _ _ _ _ _ _ 0 (info_at 2)); reflexivity).
  track_by ltac:(apply (last_block _ _ _ _ _ _ (info_at 2) [1; 2]); [reflexivity|vm_compute; reflexivity]).
  track_by ltac:(eapply get_block; reflexivity).
  track_by ltac:(eapply hand_block; reflexivity).
  track_by ltac:(apply (write_block _ _ _ _ _ _ (sync_chain 1) 2 (written_block 1 pending_conn)); [reflexivity|vm_compute; reflexivity]).
  track_by ltac:(apply (hand_tx _ _ _ _ _ _ (sync_chain 1) (sync_result 1) []); [reflexivity|cbn; lia]).
  track_by ltac:(eapply notify; reflexivity).
  track_by ltac:(eapply get_block; reflexivity).
  track_by ltac:(eapply hand_block; reflexivity).
  track_by ltac:(apply (write_block _ _ _ _ _ _ (sync_chain 2) 3 (written_block 2 (written_block 1 pending_conn))); [reflexivity|vm_compute; reflexivity]).
  track_by ltac:(apply (hand_tx _ _ _ _ _ _ (sync_chain 2) (sync_result 2) []); [reflexivity|cbn; lia]).
  track_by ltac:(eapply notify; reflexivity).
  track_by ltac:(apply (write_tx _ _ _ _ _ _ [] (sync_result 1) [sync_result 2] (written_tx 1 (written_block 2 (written_block 1 pending_conn)))); [reflexivity|vm_compute; reflexivity]).
  track_by ltac:(apply (write_tx _ _ _ _ _ _ [] (sync_result 2) [] tracked_conn); [reflexivity|vm_compute; reflexivity]).
  apply rtc_refl.
Qed.

Lemma indexer_follows_tip_witness :
  (@holds_chain reverse_order sync_chain 3 (db tracked).1 ∧
   (∀ h, 2 ≤ h ≤ 2 → sync_chain h ∈ callouts tracked) ∧
   ∀ r, r ∈ mempool_seen tracked → ∃ t, @GetTxByTxID reverse_order (TxID (r_tx r)) (db tracked).1 = Val t) ∧
  (db_Mempool <$> @GetTxByTxID reverse_order "tx2" pending_conn.1) = Val true ∧
  (db_BlockHeight <$> @GetTxByTxID reverse_order "tx2" (db tracked).1) = Val 2.
Proof.
  split; [|split; vm_compute; reflexivity].
  apply (@indexer_follows_tip test_numbers reverse_order merge_sort_slice merge_sort_laws 2 2 5 sync_chain 4 2 [[0]; [1]] sync_faults sync_end 1 0 tracked).
  - apply sync_chain_ok.
  - unfold two63. lia.
  - lia.
  - reflexivity.
  - apply sync_reaches.
  - by vm_compute.
  - right. lia.
  - apply tracked_reached.
  - by vm_compute.
Defined.

(** [syncToTip] reads [LastBlock] while [writeBlock] may still be inserting the
    last block it was handed.  When a block is announced just then, the round
    starts one block too low, and the insertion of a block below the new tip is
    refused: the process ends. *)
Lemma announcement_during_insert :
  ∃ s, rtc (@track test_numbers 2 2 5 sync_chain 4) (start_tracking 1 0 (Pipeline.db sync_end)) s ∧
    writing s = Inserting (sync_chain 1) ∧ LastBlock (db s).1 = Val (Some (Hash (header (sync_chain 2)), 2)) ∧
    ∃ e, (@InsertBlock test_numbers 5 (header (sync_chain 1)) false (db s)).1 = Err e.
Proof.
  set (c0 := Pipeline.db sync_end). set (c1 := written_block 1 c0). set (c2 := written_tx 1 c1).
  eexists. split.
  - track_by ltac:(apply mine; cbn; lia).
    track_by ltac:(apply (get_chain_info _ _ _ _ _ _ 0 (info_at 2)); reflexivity).
    track_by ltac:(apply (last_block _ _ _ _ _ _ (info_at 2) [1; 2]); [reflexivity|vm_compute; reflexivity]).
    track_by ltac:(eapply get_block; reflexivity).
    track_by ltac:(eapply hand_block; reflexivity).
    track_by ltac:(apply (write_block _ _ _ _ _ _ (sync_chain 1) 2 c1); [reflexivity|vm_compute; reflexivity]).
    track_by ltac:(apply (hand_tx _ _ _ _ _ _ (sync_chain 1) (sync_result 1) []); [reflexivity|cbn; lia]).
    track_by ltac:(eapply notify; reflexivity).
    track_by ltac:(apply (write_tx _ _ _ _ _ _ [] (sync_result 1) [] c2); [reflexivity|vm_compute; reflexivity]).
    track_by ltac:(eapply get_block; reflexivity).
    track_by ltac:(eapply hand_block; reflexivity).
    track_by ltac:(apply mine; cbn; lia).
    track_by ltac:(apply (get_chain_info _ _ _ _ _ _ 0 (info_at 3)); reflexivity).
    track_by ltac:(apply (last_block _ _ _ _ _ _ (info_at 3) [1; 2; 3]); [reflexivity|vm_compute; reflexivity]).
    track_by ltac:(apply (write_block _ _ _ _ _ _ (sync_chain 2) 3 (written_block 2 c2)); [reflexivity|vm_compute; reflexivity]).
    track_by ltac:(apply (hand_tx _ _ _ _ _ _ (sync_chain 2) (sync_result 2) []); [reflexivity|cbn; lia]).
    track_by ltac:(eapply notify; reflexivity).
    track_by ltac:(eapply get_block; reflexivity).
    track_by ltac:(eapply hand_block; reflexivity).
    apply rtc_refl.
  - cbn [writing db]. split_and!; [reflexivity|vm_compute; reflexivity|eexists; vm_compute; reflexivity].
Qed.
