(* ===== verification/Unspent.v ===== *)
(** * Unspent: what the addresses own after synchronising

    The unspent outputs [GetUtxosByAddrs] reports, composed with the indexer: the
    reference is computed from the transactions of the node's chain and of the
    mempool alone, and the store agrees with it whatever the order in which the
    goroutines wrote. *)

From stdpp Require Import base list strings gmap relations sorting numbers.
From Stdlib Require Import ZArith Lia Permutation.
From S2P Require Import Prelude GoStrings Convert Retry Utxo BlockTable Store Postgres Ledger Indexer Pipeline Sync Follow Tracking.

Local Open Scope Z_scope.

(** ** The reference *)

(** Transaction, index, address and amount. *)
Definition outpoint : Type := string * Z * string * Z.

Definition utxo_key (u : DbUtxo) : outpoint := (u_TxID u, u_Vout u, u_Address u, u_SatAmount u).

Definition spent_in (l : list tx_def) (txid : string) (vout : Z) : bool :=
  existsb (fun d => spent_by (d_inputs d) txid vout) l.

(** The outputs of [d] to the addresses that no transaction of [l] spends. *)
Definition unspent_of (l : list tx_def) (addrs : list string) (d : tx_def) : list outpoint :=
  omap (fun o =>
    if bool_decide (out_Address o ∈ addrs) && negb (spent_in l (d_txid d) (out_Vout o))
    then Some (d_txid d, out_Vout o, out_Address o, out_SatAmount o) else None) (d_outputs d).

Definition unspent (l : list tx_def) (addrs : list string) : list outpoint := concat (map (unspent_of l addrs) l).

Lemma spent_in_app l k txid vout : spent_in (l ++ k) txid vout = spent_in l txid vout || spent_in k txid vout.
Proof. apply existsb_app. Qed.

Lemma spent_in_perm l k txid vout : l ≡ₚ k → spent_in l txid vout = spent_in k txid vout.
Proof.
  intros H. apply eq_true_iff_eq. unfold spent_in. rewrite !existsb_exists.
  split; intros (d & Hd & E); exists d; (split; [|done]); [by rewrite <-H|by rewrite H].
Qed.

Lemma unspent_perm l k addrs : l ≡ₚ k → unspent l addrs ≡ₚ unspent k addrs.
Proof.
  intros H. unfold unspent. replace (map (unspent_of l addrs) l) with (map (unspent_of k addrs) l); [by rewrite H|].
  apply map_ext. intros d. unfold unspent_of. apply omap_ext_in. intros o _. by rewrite (spent_in_perm l k).
Qed.

Lemma unspent_of_snoc l d addrs e :
  unspent_of (l ++ [d]) addrs e =
  filter (fun '(txid, vout, _, _) => negb (spent_by (d_inputs d) txid vout) = true) (unspent_of l addrs e).
Proof.
  unfold unspent_of. induction (d_outputs e) as [|o os IH]; [done|]. cbn [omap list_omap]. rewrite spent_in_app. cbn [spent_in existsb].
  rewrite orb_false_r. destruct (bool_decide _), (spent_in l _ _); cbn [andb negb orb]; try done.
  destruct (spent_by (d_inputs d) _ _) eqn:E; cbn [negb].
  - rewrite filter_cons_False; [done|]. by rewrite E.
  - rewrite filter_cons_True; [by f_equal|]. by rewrite E.
Qed.

Lemma unspent_snoc l d addrs :
  unspent (l ++ [d]) addrs =
  filter (fun '(txid, vout, _, _) => negb (spent_by (d_inputs d) txid vout) = true) (unspent l addrs)
  ++ unspent_of (l ++ [d]) addrs d.
Proof.
  unfold unspent. rewrite map_app, concat_app. cbn. rewrite app_nil_r. f_equal.
  generalize l at 2 4. intros k. induction k as [|e k IH]; [done|]. cbn. by rewrite list.filter_app, IH, unspent_of_snoc.
Qed.

(** ** The store *)

(** The transactions [l] were stored, oldest first. *)
Record ledger (l : list tx_def) (st : store) : Prop := {
  lg_txids : map t_txid (txs st) = map d_txid l;
  lg_spent : ∀ txid vout, is_spent st txid vout = spent_in l txid vout;
  lg_unspent : ∀ addrs, map utxo_key (utxo_rows addrs st) = unspent l addrs;
}.

Lemma ledger_empty : ledger [] empty_store.
Proof. by split. Qed.

(** Blocks, and the blocks of transactions, do not matter to the ledger. *)
Lemma ledger_same l st st' :
  map t_txid (txs st') = map t_txid (txs st) → map t_id (txs st') = map t_id (txs st) →
  inputs st' = inputs st → outputs st' = outputs st → ledger l st → ledger l st'.
Proof.
  intros Htx Hid Hin Hout [H1 H2 H3].
  assert (Hof : ∀ id, t_txid <$> tx_of st' id = t_txid <$> tx_of st id).
  { intros id. unfold tx_of. revert Htx Hid. generalize (txs st). induction (txs st') as [|t k IH]; intros [|t' k']; try done.
    cbn. intros [= E1 E2] [= E3 E4]. rewrite E3. destruct (t_id t' =? id); [cbn; by rewrite E1|by apply IH]. }
  assert (Hsp : ∀ txid vout, is_spent st' txid vout = is_spent st txid vout).
  { intros txid vout. unfold is_spent. by rewrite Hin. }
  split; [congruence|intros; by rewrite Hsp|].
  intros addrs. rewrite <-H3. unfold utxo_rows. rewrite Hout. clear H3 Hout. induction (outputs st) as [|o os IH]; [done|]. cbn [omap list_omap].
  specialize (Hof (o_tx o)). destruct (tx_of st' (o_tx o)) as [t|], (tx_of st (o_tx o)) as [t'|]; try done.
  cbn in Hof |- *. injection Hof as Hof. rewrite Hsp, Hof. destruct (_ && _); cbn [map omap list_omap]; [|exact IH].
  f_equal; [|exact IH]. unfold utxo_key, utxo_of. cbn. by rewrite Hof.
Qed.

(** A new transaction joins the ledger. *)
Lemma ledger_new {numbers : JsonNumbers} l d block_id raw index st st' r :
  store_ok st → inserted block_id d raw index st st' r → ledger l st → ledger (l ++ [d]) st'.
Proof.
  intros Hok Hins [H1 H2 H3].
  assert (Htxid : t_txid r = d_txid d) by apply Hins.
  split.
  - by rewrite (ins_txs _ _ _ _ _ _ _ Hins), !map_app, H1; cbn; rewrite Htxid.
  - intros txid vout. rewrite (is_spent_insert _ _ _ _ _ _ _ Hins), H2, spent_in_app. cbn. by rewrite orb_false_r.
  - intros addrs. rewrite (utxo_rows_insert _ _ _ _ _ _ _ Hok Hins), map_app, unspent_snoc, <-H3. f_equal.
    + clear. induction (utxo_rows addrs st) as [|u us IH]; [done|]. cbn [map]. rewrite !filter_cons. unfold utxo_key at 2.
      repeat case_decide; cbn [map]; by rewrite ?IH.
    + unfold unspent_of. induction (d_outputs d) as [|o os IH]; [done|]. cbn [omap list_omap]. unfold new_utxo at 1.
      rewrite spent_in_app, H2. cbn [spent_in existsb]. rewrite orb_false_r.
      destruct (bool_decide _), (spent_in l _ _), (spent_by _ _ _); cbn [andb orb negb map]; try exact IH.
      f_equal; [|exact IH]. unfold utxo_key, utxo_of. cbn. by rewrite Htxid.
Qed.

(** A transaction as the indexer stores it. *)
Definition made {numbers : JsonNumbers} (tx : Tx) (d : tx_def) : Prop := make_tx (fill_hash tx) = Val d.

Lemma made_txid {numbers : JsonNumbers} tx d : made tx d → d_txid d = TxID tx.
Proof. intros H%make_tx_txid. by rewrite H, fill_hash_txid. Qed.

Lemma fill_hash_vouts tx : Vouts (fill_hash tx) = Vouts tx.
Proof. unfold fill_hash. by destruct (bool_decide _). Qed.

Lemma make_tx_distinct {numbers : JsonNumbers} tx d :
  make_tx tx = Val d → NoDup (map vout_N (Vouts tx)) → NoDup (map in_Vin (d_inputs d)) ∧ NoDup (map out_Vout (d_outputs d)).
Proof.
  unfold make_tx. intros (outs & Houts & H)%bind_Val Hnd. destruct (number_text _); [|done]. injection H as <-. cbn.
  split; [apply make_inputs_NoDup|by rewrite (make_outputs_vouts _ _ Houts)].
Qed.

(** The store accounts for transactions of [P] only, each of them once. *)
Record accounted {numbers : JsonNumbers} (P : Tx → Prop) (st : store) : Prop := {
  acc_ok : store_ok st;
  acc_ledger : ∃ l, ledger l st ∧ ∀ d, d ∈ l → ∃ tx, P tx ∧ made tx d;
}.

Section writes.
Context {numbers : JsonNumbers} (attempts : Z) (P : Tx → Prop).
Context (Hdistinct : ∀ tx, P tx → NoDup (map vout_N (Vouts tx))).

Lemma accounted_empty : accounted P empty_store.
Proof. split; [apply store_ok_empty|]. exists []. split; [apply ledger_empty|by intros d ?%elem_of_nil]. Qed.

(** A transaction that is stored already only gets its block. *)
Lemma transaction_insert_known b d raw i st st' :
  d_txid d ∈ map t_txid (txs st) → transaction_insert b d raw i st = Val st' →
  map t_txid (txs st') = map t_txid (txs st) ∧ map t_id (txs st') = map t_id (txs st) ∧
  inputs st' = inputs st ∧ outputs st' = outputs st.
Proof.
  intros Hin H. unfold transaction_insert in H. destruct (negb _); [done|].
  destruct (find _ (txs st)) as [f|] eqn:Hf; [|by apply find_txid_None in Hf].
  destruct (null_if_minus_one b); [|by injection H as <-]. destruct (negb _); [done|]. injection H as <-.
  cbn [set_tables txs inputs outputs]. rewrite !map_set_block by done. done.
Qed.

(** Writing a transaction adds it to the ledger or leaves the ledger as it is. *)
Lemma accounted_InsertTx tx index id c c' :
  accounted P c.1 → P tx → InsertTx attempts (fill_hash tx) index id c = (Val tt, c') → accounted P c'.1.
Proof.
  destruct c as [st fs], c' as [st' fs']. cbn. intros [Hok (l & Hl & Hmade)] HP Hins.
  destruct (InsertTx_outcome attempts _ _ _ st st' fs fs' (Val tt) Hok Hins) as (d & Hd & H).
  split; [by eapply store_ok_transaction_insert|].
  destruct (make_tx_distinct _ _ Hd) as [Hi Ho]; [rewrite fill_hash_vouts; by apply Hdistinct|].
  destruct (decide (d_txid d ∈ map t_txid (txs st))) as [Hin|Hin].
  - exists l. split; [|done]. destruct (transaction_insert_known _ _ _ _ _ _ Hin H) as (? & ? & ? & ?). by apply (ledger_same l st).
  - destruct (transaction_insert_inserted _ _ _ _ _ _ Hok Hin Hi Ho H) as [r Hr].
    exists (l ++ [d]). split; [by eapply ledger_new|].
    intros e [He|E%list_elem_of_singleton]%elem_of_app; [by apply Hmade|subst e; by exists tx].
Qed.

Lemma accounted_set_blocks h recover st id t :
  accounted P st → block_insert h recover (blocks st) = Val (id, t) → accounted P (set_blocks st t).
Proof.
  intros [Hok (l & Hl & Hmade)] H. split; [by eapply store_ok_block|]. exists l. split; [|done].
  by apply (ledger_same l st).
Qed.

(** Whatever attempts fail, a block leaves the ledger as it is. *)
Lemma accounted_InsertBlock b recover c r c' :
  accounted P c.1 → InsertBlock attempts b recover c = (r, c') → accounted P c'.1.
Proof.
  intros Hacc. unfold InsertBlock. destruct (Simple _ _ _ _) as [[r1 [c1 id1]] sl] eqn:H. intros Hr.
  apply (Simple_invariant (insert_block_once b recover) (fun x => accounted P x.1.1) (fun _ x => accounted P x.1.1)) in H; [|clear H|done].
  - by destruct r1; injection Hr as _ <-.
  - intros [c0 id0] H0. cbn in H0. unfold insert_block_once. destruct (sent_header b) as [h|e|q|e]; [|by split..].
    unfold exec. destruct c0 as [st fs0]. cbn in H0. unfold next_fault.
    destruct fs0 as [|[| |] fs0]; cbn; destruct (block_insert h recover (blocks st)) as [[id t]|e|q|e] eqn:Hb; cbn;
      split; intros; try done; by eapply accounted_set_blocks.
Qed.

Lemma accounted_replays c l c' :
  @replays conn (postgres_database attempts) false c l c' → accounted P c.1 →
  (∀ r, r ∈ txs_written l → P (r_tx r)) → accounted P c'.1.
Proof.
  intros H Hacc. induction H as [c|c l c1 c2 b id H IH Hins|c l c1 c2 r H IH Hins]; intros HP; [done|..];
    rewrite txs_written_snoc in HP.
  - eapply accounted_InsertBlock; [|exact Hins]. apply IH; [done|]. intros r Hr. apply HP. apply elem_of_app. by left.
  - eapply accounted_InsertTx; [|apply HP, elem_of_app; right; by left|exact Hins].
    apply IH; [done|]. intros x Hx. apply HP. apply elem_of_app. by left.
Qed.

End writes.

(** ** The transactions the node told of *)

(** Those of the blocks up to the tip, and those fetched from the mempool. *)
Definition known (chain : Z → Block) (s : tracking) (tx : Tx) : Prop :=
  (∃ h, 0 ≤ h ≤ tip s ∧ tx ∈ Txs (chain h)) ∨ ∃ r, r ∈ mempool_seen s ∧ tx = r_tx r.

Section track.
Context {numbers : JsonNumbers} (rpcThreads dbThreads : nat) (attempts : Z) (chain : Z → Block) (n : Z).
Context (Hchain : node_chain chain n).

Lemma known_steps s s' tx :
  rtc (track rpcThreads dbThreads attempts chain n) s s' → known chain s tx → known chain s' tx.
Proof.
  intros H. induction H as [|x y z Hxy _ IH]; [done|]. intros Hk. apply IH. clear IH.
  destruct Hk as [(h & Hh & Hin)|(r & Hr & E)].
  - left. exists h. split; [|done]. destruct Hxy; cbn; lia.
  - right. exists r. split; [|done]. destruct Hxy; cbn; try done. apply elem_of_app. by left.
Qed.

Lemma known_result n0 W T s r :
  track_ok chain n n0 W T s → r ∈ results_of W → known chain s (r_tx r).
Proof.
  intros Hok (b & i & Hb & _ & Hr)%results_of_inv. left. apply list_elem_of_lookup in Hb as [j Hj].
  pose proof (lookup_lt_Some _ _ _ Hj) as Hlt. pose proof (k_tip _ _ _ _ _ _ Hok) as Ht.
  destruct (prefix_of_lookup chain W (Z.of_nat j) (k_prefix _ _ _ _ _ _ Hok)) as [id Hid]; [lia|].
  rewrite Nat2Z.id, Hj in Hid. injection Hid as -> _. exists (Z.of_nat j). split; [lia|]. by eapply list_elem_of_lookup_2.
Qed.

(** Every step writes transactions the node told of. *)
Lemma accounted_track n0 W T s s' P :
  1 ≤ n0 → (∀ tx, P tx → NoDup (map vout_N (Vouts tx))) → track_ok chain n n0 W T s → (∀ tx, known chain s tx → P tx) →
  accounted P (db s).1 → track rpcThreads dbThreads attempts chain n s s' → accounted P (db s').1.
Proof.
  intros Hn0 Hd Hok HP Hacc Hstep. destruct Hstep; try done.
  - cbn. by eapply accounted_InsertBlock.
  - cbn. eapply accounted_InsertTx; [done|done| |done]. apply HP.
    destruct (k_held _ _ _ _ _ _ Hok r) as [[_ Hr]|Hr]; [|by right; exists r|by eapply known_result].
    rewrite H. apply elem_of_app. right. by left.
Qed.

Lemma accounted_tracking n0 W T s s' :
  1 ≤ n0 → (∀ tx, known chain s' tx → NoDup (map vout_N (Vouts tx))) → track_ok chain n n0 W T s →
  accounted (known chain s') (db s).1 → rtc (track rpcThreads dbThreads attempts chain n) s s' →
  accounted (known chain s') (db s').1.
Proof.
  intros Hn0 Hd Hok Hacc H. revert W T Hok Hacc. induction H as [|x y z Hxy H IH]; intros W T Hok Hacc; [done|].
  destruct (track_ok_step rpcThreads dbThreads attempts chain n Hchain _ _ _ _ _ Hn0 Hok Hxy) as (W' & T' & Hok').
  apply (IH Hd W' T' Hok'). apply (accounted_track n0 W T x); try done.
  intros tx Hk. apply (known_steps x); [|done]. by eapply rtc_l.
Qed.

End track.

(** The ledger of a store that accounts for exactly the transactions [ts]. *)
Lemma accounted_all {numbers : JsonNumbers} {order : RowOrder} P st ts :
  accounted P st → NoDup (map TxID ts) → (∀ tx, P tx → tx ∈ ts) → (∀ tx, tx ∈ ts → TxID tx ∈ map t_txid (txs st)) →
  ∃ ds, Forall2 made ts ds ∧ ∀ addrs, ∃ us, GetUtxosByAddrs addrs st = Val us ∧ map utxo_key us ≡ₚ unspent ds addrs.
Proof.
  intros [Hok (l & Hl & Hmade)] Hnd HP Hst.
  assert (Hget : ∀ tx, tx ∈ ts → ∃ d, d ∈ l ∧ made tx d).
  { intros tx Hin. pose proof (Hst tx Hin) as Hd. rewrite (lg_txids _ _ Hl) in Hd.
    apply list_elem_of_fmap in Hd as (d & E & Hd). exists d. split; [done|]. destruct (Hmade d Hd) as (tx' & Hp & Hm).
    rewrite (made_txid _ _ Hm) in E. by rewrite (NoDup_map_inj TxID ts tx tx' Hnd Hin (HP _ Hp) E). }
  assert (Hds : ∃ ds, Forall2 made ts ds ∧ ∀ d, d ∈ ds → d ∈ l).
  { clear -Hget. induction ts as [|tx ts IH]; [exists []; split; [done|by intros d ?%elem_of_nil]|].
    destruct IH as (ds & H1 & H2); [intros tx' H; apply Hget; by right|].
    destruct (Hget tx) as (d & Hd & Hm); [by left|]. exists (d :: ds). split; [by constructor|].
    intros e [->|He]%elem_of_cons; auto. }
  destruct Hds as (ds & Hf & Hsub). exists ds. split; [done|].
  assert (Hids : map d_txid ds = map TxID ts).
  { clear -Hf. induction Hf as [|tx d ts ds Hm _ IH]; [done|]. cbn. by rewrite IH, (made_txid _ _ Hm). }
  assert (Hperm : l ≡ₚ ds).
  { apply list.NoDup_Permutation.
    - apply (NoDup_fmap_1 d_txid). change (d_txid <$> l) with (map d_txid l). rewrite <-(lg_txids _ _ Hl). apply Hok.
    - apply (NoDup_fmap_1 d_txid). change (d_txid <$> ds) with (map d_txid ds). by rewrite Hids.
    - intros d. split; [|apply Hsub]. intros Hd. destruct (Hmade d Hd) as (tx & Hp & Hm).
      apply HP in Hp. apply list_elem_of_lookup in Hp as [i Hi]. destruct (Forall2_lookup_l _ _ _ _ _ Hf Hi) as (e & He & Hm').
      unfold made in *. rewrite Hm in Hm'. injection Hm' as <-. by eapply list_elem_of_lookup_2. }
  intros addrs. eexists. split; [done|]. rewrite arrange_perm, (lg_unspent _ _ Hl addrs). by apply unspent_perm.
Qed.

(** An unspent output carries the height of the block of its transaction. *)
Lemma utxo_height {order : RowOrder} addrs st us u t :
  store_ok st → GetUtxosByAddrs addrs st = Val us → u ∈ us → GetTxByTxID (u_TxID u) st = Val t →
  u_BlockHeight u = db_BlockHeight t.
Proof.
  intros Hok [= <-] Hu Ht. apply arrange_elem, list_elem_of_omap in Hu as (o & Ho & Hu).
  destruct (tx_of st (o_tx o)) as [r|] eqn:Hr; [|done]. cbn in Hu. destruct (_ && _); [|done]. injection Hu as <-. cbn in *.
  unfold tx_of in Hr. apply find_some in Hr as [Hr%list_elem_of_In _].
  unfold GetTxByTxID in Ht. destruct (find (fun x => bool_decide (t_txid x = t_txid r)) (txs st)) as [r'|] eqn:Hf; [|done].
  apply find_some in Hf as [Hr'%list_elem_of_In E%bool_decide_eq_true].
  assert (r' = r) as -> by (apply (NoDup_map_inj t_txid (txs st)); [apply Hok|done|done|done]).
  cbn in Ht. by injection Ht as <-.
Qed.

Lemma GetTxByTxID_in {order : RowOrder} txid st t : GetTxByTxID txid st = Val t → txid ∈ map t_txid (txs st).
Proof.
  unfold GetTxByTxID. destruct (find _ (txs st)) as [r|] eqn:Hf; [|done]. intros _.
  apply find_some in Hf as [Hr%list_elem_of_In <-%bool_decide_eq_true]. by apply (list_elem_of_fmap_2 t_txid).
Qed.

(** ** Properties *)

(** C3. The unspent outputs follow the node: after the initial synchronisation
    and [staySynced], in any interleaving and with failing attempts of the
    database, whenever nothing is under way any more [GetUtxosByAddrs] answers
    with exactly the outputs to the addresses that no transaction of the chain
    up to the tip or of the mempool spends, each once, as computed from these
    transactions alone; and those of the chain carry the height of their block. *)
Theorem unspent_outputs_follow {numbers : JsonNumbers} {order : RowOrder} {S : SortSlice Block} {laws : SortSliceLaws S less_height}
    (rpcThreads dbThreads : nat) (attempts : Z) (chain : Z → Block) (n n0 : Z) (bs : list (list Z)) (fs : list fault)
    (p : @pipe conn) (t : Z) (a : nat) (s : tracking) (ts : list Tx) :
  node_chain chain n → 1 ≤ n0 < two63 → n0 ≤ t + 1 ≤ n → concat bs = seqZ 0 n0 →
  rtc (@step conn (postgres_database attempts) S rpcThreads dbThreads false (serves_chain chain n0))
    (start_pipe 0 bs (empty_store, fs)) p →
  at_rest p →
  (0 < a)%nat ∨ t + 1 = n0 →
  rtc (track rpcThreads dbThreads attempts chain n) (start_tracking t a (Pipeline.db p)) s →
  tracking_rests s →
  NoDup (map TxID ts) → (∀ tx, tx ∈ ts ↔ known chain s tx) → Forall (fun tx => NoDup (map vout_N (Vouts tx))) ts →
  ∃ ds, Forall2 made ts ds ∧
    ∀ addrs, ∃ us, GetUtxosByAddrs addrs (db s).1 = Val us ∧ map utxo_key us ≡ₚ unspent ds addrs ∧
      ∀ u h tx, u ∈ us → 0 ≤ h ≤ tip s → tx ∈ Txs (chain h) → u_TxID u = TxID tx → u_BlockHeight u = h.
Proof.
  intros Hchain Hn0 Ht Hbs Hsync Hdone Ha Hrun Hrest Hnd Hts Hd. rewrite list.Forall_forall in Hd.
  destruct (initialSync_stored rpcThreads dbThreads attempts chain n0 bs fs p) as (W & T & -> & HW & Hst & HT & ET & Hlog);
    [by apply (node_chain_le _ n); [|lia]|lia|lia|done|done|done|].
  pose proof (track_ok_start chain n t a (Pipeline.db p) W T HW Hst HT ltac:(lia) Ha) as Hok.
  assert (Hdk : ∀ tx, known chain s tx → NoDup (map vout_N (Vouts tx))) by (intros tx Hk; by apply Hd, Hts).
  assert (Hacc : accounted (known chain s) (db s).1).
  { eapply (accounted_tracking rpcThreads dbThreads attempts chain n Hchain); [exact (proj1 Hn0)|done|exact Hok| |exact Hrun].
    cbn. eapply (accounted_replays attempts); [done|exact Hlog|apply accounted_empty|]. intros r Hr.
    eapply known_steps; [exact Hrun|]. eapply known_result; [exact Hok|]. by rewrite <-HT, ET. }
  destruct (track_ok_steps rpcThreads dbThreads attempts chain n Hchain _ _ _ _ _ (proj1 Hn0) Hok Hrun) as (W' & T' & Hok').
  destruct (track_ok_rests chain n Hchain _ _ _ _ (proj1 Hn0) Hok' Hrest) as ((_ & _ & Hhold) & _ & Hseen).
  destruct (accounted_all _ _ ts Hacc Hnd) as (ds & Hf & Hus).
  - intros tx Hk. by apply Hts.
  - intros tx Hin. apply Hts in Hin as [(h & Hh & Hin)|(r & Hr & ->)].
    + apply list_elem_of_lookup in Hin as [i Hi]. destruct (Hhold h i tx ltac:(lia) Hi) as (x & Hx & _). by eapply GetTxByTxID_in.
    + destruct (Hseen r Hr) as [x Hx]. by eapply GetTxByTxID_in.
  - exists ds. split; [done|]. intros addrs. destruct (Hus addrs) as (us & Hu & E). exists us. split_and!; [done|done|].
    intros u h tx Hin Hh Htx Eu. apply list_elem_of_lookup in Htx as [i Hi].
    destruct (Hhold h i tx ltac:(lia) Hi) as (x & Hx & Ex & _). rewrite <-Eu in Hx.
    by rewrite (utxo_height addrs (db s).1 us u x (acc_ok _ _ Hacc) Hu Hin Hx).
Qed.

(** The transactions of the run of [Tracking], as the indexer stores them. *)
Definition tracked_txs : list Tx := [sync_tx 0; sync_tx 1; sync_tx 2].

Lemma tracked_known tx : tx ∈ tracked_txs ↔ known sync_chain tracked tx.
Proof.
  unfold tracked_txs, known. rewrite !elem_of_cons, elem_of_nil. split.
  - intros [->|[->|[->|[]]]]; left; [exists 0|exists 1|exists 2]; split; try (cbn; lia); by left.
  - intros [(h & Hh & Hin)|(r & Hr & ->)].
    + assert (h = 0 ∨ h = 1 ∨ h = 2) as [->|[->| ->]] by (cbn in Hh; lia);
        apply list_elem_of_singleton in Hin; subst tx; auto.
    + apply list_elem_of_singleton in Hr. subst r. auto.
Qed.

Lemma unspent_outputs_follow_witness :
  (∃ ds, Forall2 (@made test_numbers) tracked_txs ds ∧
    ∀ addrs, ∃ us, @GetUtxosByAddrs reverse_order addrs (db tracked).1 = Val us ∧ map utxo_key us ≡ₚ unspent ds addrs ∧
      ∀ u h tx, u ∈ us → 0 ≤ h ≤ 2 → tx ∈ Txs (sync_chain h) → u_TxID u = TxID tx → u_BlockHeight u = h) ∧
  (map utxo_key <$> @GetUtxosByAddrs reverse_order ["miner"] (db tracked).1) =
    Val [("tx2", 0, "miner", 1250000000); ("tx1", 0, "miner", 1250000000)]%string.
Proof.
  split; [|vm_compute; reflexivity].
  apply (@unspent_outputs_follow test_numbers reverse_order merge_sort_slice merge_sort_laws 2 2 5 sync_chain 4 2 [[0]; [1]] sync_faults sync_end 1 0 tracked tracked_txs).
  - apply sync_chain_ok.
  - unfold two63. lia.
  - lia.
  - reflexivity.
  - apply sync_reaches.
  - by vm_compute.
  - right. lia.
  - apply tracked_reached.
  - by vm_compute.
  - apply (bool_decide_unpack _). vm_compute. exact I.
  - apply tracked_known.
  - apply (bool_decide_unpack _). vm_compute. exact I.
Defined.
