(* ===== verification/Reorg.v ===== *)
(** * Reorg: recovery from a reorganisation

    [syncToTip] of src/V2/cmd/indexer/main.go is said to handle reorganisations:
    a round starts at the last block that is no orphan.  Here the node changes
    to another branch between two announcements: which reorganisations the rounds
    recover from, and which they do not. *)

From stdpp Require Import base list strings gmap numbers.
From Stdlib Require Import ZArith Lia Sorted.
From S2P Require Import Prelude GoStrings Utxo BlockTable Store Postgres Ledger Indexer Follow.

Local Open Scope Z_scope.

(** ** A round *)

(** The blocks [writeBlock] inserts one after the other; no attempt fails. *)
Fixpoint insert_blocks (l : list BlockHeader) (t : block_table) : gores block_table :=
  match l with
  | [] => Val t
  | b :: l => '(_, t) ← block_insert b false t; insert_blocks l t
  end.

(** An announcement: [syncToTip] sends the blocks of the branch [B] from the last
    stored height to the tip. *)
Definition announce (B : Z → BlockHeader) (info : ChainInfo) (st : store) : gores store :=
  hs ← tip_heights (Val info) (LastBlock st);
  t ← insert_blocks (map B hs) (blocks st);
  Val (set_blocks st t).

(** Announcements, each handled before the next. *)
Fixpoint announces (B : Z → BlockHeader) (infos : list ChainInfo) (st : store) : gores store :=
  match infos with
  | [] => Val st
  | i :: infos => st ← announce B i st; announces B infos st
  end.

(** ** One block *)

(** A new block whose ancestors lead to a missing one is stored off the main
    chain, and the main chain is cut below the missing block. *)
Lemma block_insert_dangling b t c lo :
  table_ok t → linked (canon (rows t)) → columns_fit b = true → consistent (node_of b :: nodes (rows t)) →
  (∀ n, canon (rows t) n → nheight n ≤ Height b) →
  (∀ n, n ∈ nodes (rows t) → ¬ canon (rows t) n → only_child (node_of b :: nodes (rows t)) (nhash n)) →
  (∀ n, n ∈ nodes (rows t) → nkey n ≠ (Hash b, Height b)) → canon (rows t) c →
  dangling (nodes (rows t)) (canon (rows t)) (PrevHash b) (Height b - 1) lo →
  ∃ id t', block_insert b false t = Val (id, t') ∧ table_ok t' ∧
    (∀ n, n ∈ nodes (rows t') ↔ n ∈ nodes (rows t) ∨ n = node_of b) ∧
    ∀ n, canon (rows t') n ↔ canon (rows t) n ∧ nheight n < lo.
Proof.
  intros Hok HL Hfit Hcon Htip Honly Hnew Hc Hdan.
  destruct (block_insert_returns b t Hok Hcon Hfit Htip) as (id & t' & Hins). exists id, t'.
  pose proof (table_ok_insert _ _ _ _ _ Hok Hins) as Hok'. pose proof Hins as Hinv.
  apply block_insert_inv in Hinv as (_ & _ & [(r & Hr & Hk & _)|(_ & _ & _ & H)]).
  { exfalso. apply link_previous_row in Hr as (s & Hs & _ & Hn). apply (Hnew (node_of (row s))); [|by rewrite Hn].
    by apply (list_elem_of_fmap_2 (fun r => node_of (row r))). }
  pose proof (last_block_height_spec (rows t)) as Hspec.
  destruct (last_block_height (rows t)) as [l|]; [|by apply Hspec in Hc]. split_and!; [done|done|..].
  - apply validate_ancestors_shape in H as [[Hn _] _]; [|by apply seated_snoc; [apply Hok|apply Hok|]]. intros n.
    rewrite Hn, nodes_snoc, (proj1 (seated_shape b (rows t))), elem_of_app, list_elem_of_singleton. done.
  - destruct (validate_ancestors_linked b (rows t) id (rows t') (ok_keys _ Hok) (ok_heights _ Hok) HL Hcon Hnew Htip Honly H)
      as [_ HD]. by apply HD.
Qed.

(** A stored block, or one with its parent on the main chain, becomes the tip. *)
Lemma block_insert_on_top b t :
  table_ok t → columns_fit b = true → consistent (node_of b :: nodes (rows t)) →
  (∀ n, canon (rows t) n → nheight n ≤ Height b) →
  node_of b ∈ nodes (rows t) ∨ parent_on_chain b (rows t) →
  ∃ id t', block_insert b false t = Val (id, t') ∧ table_ok t' ∧
    (∀ n, n ∈ nodes (rows t') ↔ n ∈ nodes (rows t) ∨ n = node_of b) ∧
    ∀ n, canon (rows t') n ↔ (canon (rows t) n ∧ nheight n ≠ Height b) ∨ n = node_of b.
Proof.
  intros Hok Hfit Hcon Htip Hpar.
  destruct (block_insert_returns b t Hok Hcon Hfit Htip) as (id & t' & Hins). exists id, t'.
  pose proof (table_ok_insert _ _ _ _ _ Hok Hins) as Hok'. split; [done|]. split; [done|].
  pose proof Hins as Hins'. apply block_insert_inv in Hins as (_ & _ & [(r & Hr & Hk & -> & ->)|(Hnew & _)]).
  - apply link_previous_row in Hr as (s & Hs & _ & Hn). rewrite <-Hn in Hk.
    assert (Hin : node_of (row s) ∈ nodes (rows t)) by by apply (list_elem_of_fmap_2 (fun r => node_of (row r))).
    assert (Es : node_of (row s) = node_of b) by (apply (hash_unique _ Hcon); [by right|by left|by injection Hk]).
    rewrite Es in Hin. cbn [rows]. rewrite (proj1 (seated_shape b (rows t))). split.
    + intros n. split; [by left|intros [?| ->]; done].
    + intros n. rewrite seated_canon. unfold seat. split; [intros [?|[Hn' Hk']]; [by left|right]|].
      * apply (hash_unique _ Hcon); [by right|by left|]. destruct n as [[? ?] ?]. by injection Hk'.
      * intros [?| ->]; [by left|right; done].
  - assert (Hatt : attachable b (rows t)).
    { split; [done|done|]. destruct Hpar as [Hin|Hp]; [|by right; left]. by apply Hnew in Hin. }
    destruct (block_insert_attached b t id t' Hok Hatt Hnew Hins') as (_ & _ & ->).
    destruct (seated_snoc b (rows t) id (ok_keys _ Hok) (ok_heights _ Hok) Hnew) as (_ & _ & Hc). split; [|done].
    intros n. rewrite nodes_snoc, (proj1 (seated_shape b (rows t))), elem_of_app, list_elem_of_singleton. done.
Qed.

(** ** Two branches *)

(** The parent of [n] is a block of [A] of height [f] or less. *)
Definition on_fork (A : Z → BlockHeader) (f : Z) (n : node) : Prop := ∃ h, 0 ≤ h ≤ f ∧ nprev n = Hash (A h).

(** The blocks [A] of heights below [k] were stored; the node has the blocks [B]
    up to height [m].  They agree up to height [f].  [side] are the blocks stored off
    the main chain in earlier reorganisations: none of them is on either branch,
    and they fork from the branches and from each other at blocks of height [f]
    or less only. *)
Record branches (A B : Z → BlockHeader) (side : list node) (k f m : Z) : Prop := {
  br_range : 0 ≤ f ∧ f + 1 < k ∧ k ≤ m + 1;
  br_height_a : ∀ h, 0 ≤ h < k → Height (A h) = h;
  br_height_b : ∀ h, 0 ≤ h ≤ m → Height (B h) = h;
  br_link_a : ∀ h, 0 < h < k → PrevHash (A h) = Hash (A (h - 1));
  br_link_b : ∀ h, 0 < h ≤ m → PrevHash (B h) = Hash (B (h - 1));
  br_same : ∀ h, 0 ≤ h ≤ f → node_of (A h) = node_of (B h);
  br_split : Hash (A (f + 1)) ≠ Hash (B (f + 1));
  br_consistent : consistent (map (fun h => node_of (A h)) (seqZ 0 k) ++ map (fun h => node_of (B h)) (seqZ 0 (m + 1)) ++ side);
  br_side : ∀ n, n ∈ side → (n ∉ map (fun h => node_of (A h)) (seqZ 0 k)) ∧ (n ∉ map (fun h => node_of (B h)) (seqZ 0 (m + 1)));
  br_forks : ∀ n x, n ∈ side →
    x ∈ (map (fun h => node_of (A h)) (seqZ 0 k) ++ map (fun h => node_of (B h)) (seqZ 0 (m + 1)) ++ side) →
    nprev x = nprev n → x = n ∨ on_fork A f n;
  br_fit : ∀ h, 0 ≤ h ≤ m → columns_fit (B h) = true;
}.

Section branches.
Context (A B : Z → BlockHeader) (side : list node) (k f m : Z) (Hbr : branches A B side k f m).

Abbreviation a h := (node_of (A h)).
Abbreviation b h := (node_of (B h)).

Definition on_a (c : Z) (n : node) : Prop := ∃ h, 0 ≤ h < c ∧ n = a h.
Definition on_b (i j : Z) (n : node) : Prop := ∃ h, i ≤ h < j ∧ n = b h.

Lemma range : 0 ≤ f ∧ f + 1 < k ∧ k ≤ m + 1.
Proof. apply Hbr. Qed.

Lemma height_a h : 0 ≤ h < k → nheight (a h) = h.
Proof. apply Hbr. Qed.

Lemma height_b h : 0 ≤ h ≤ m → nheight (b h) = h.
Proof. apply Hbr. Qed.

(** All blocks there are. *)
Definition every (n : node) : Prop := on_a k n ∨ on_b 0 (m + 1) n ∨ n ∈ side.

Lemma every_in n :
  every n → n ∈ map (fun h => a h) (seqZ 0 k) ++ map (fun h => b h) (seqZ 0 (m + 1)) ++ side.
Proof.
  rewrite !elem_of_app. intros [(h & Hh & ->)|[(h & Hh & ->)|Hn]]; [left|right; left|by right; right]; apply list_elem_of_fmap;
    exists h; (split; [done|]); apply elem_of_seqZ; lia.
Qed.

Lemma every_consistent N : (∀ n, n ∈ N → every n) → consistent N.
Proof. intros H. eapply consistent_sub; [|exact (br_consistent _ _ _ _ _ _ Hbr)]. intros n Hn. by apply every_in, H. Qed.

Lemma side_not_b n h : n ∈ side → 0 ≤ h ≤ m → n ≠ b h.
Proof.
  intros Hn Hh ->. apply (proj2 (br_side _ _ _ _ _ _ Hbr _ Hn)), list_elem_of_fmap. exists h. split; [done|]. apply elem_of_seqZ. lia.
Qed.

Lemma every_hash n n' : every n → every n' → nhash n = nhash n' → n = n'.
Proof.
  intros Hn Hn'. apply (hash_unique _ (every_consistent [n; n'] ltac:(by intros x [->|[->|[]%elem_of_nil]%elem_of_cons]%elem_of_cons)));
    [left|right; left].
Qed.

Lemma every_child n n' : every n → every n' → nprev n = nhash n' → nheight n = nheight n' + 1.
Proof.
  intros Hn Hn'. apply (child_height _ (every_consistent [n; n'] ltac:(by intros x [->|[->|[]%elem_of_nil]%elem_of_cons]%elem_of_cons)));
    [left|right; left].
Qed.

Lemma every_a h : 0 ≤ h < k → every (a h).
Proof. intros Hh. left. by exists h. Qed.

Lemma every_b h : 0 ≤ h ≤ m → every (b h).
Proof. intros Hh. right. left. exists h. split; [lia|done]. Qed.

(** Above the fork the branches share no block. *)
Lemma apart h j : 0 ≤ h < k → 0 ≤ j ≤ m → a h = b j → h = j ∧ h ≤ f.
Proof.
  intros Hh Hj E. assert (h = j) as <- by (rewrite <-(height_a h), <-(height_b j) by done; by rewrite E).
  split; [done|]. destruct (Z_le_gt_dec h f) as [|Hgt]; [done|exfalso].
  assert (Hdown : ∀ d, f + 1 + Z.of_nat d < k → f + 1 + Z.of_nat d ≤ m → a (f + 1 + Z.of_nat d) = b (f + 1 + Z.of_nat d) → False).
  { pose proof range. induction d as [|d IH]; intros H1 H2 E'.
    - apply (br_split _ _ _ _ _ _ Hbr). rewrite Z.add_0_r in E'. by injection E'.
    - apply IH; [lia|lia|]. injection E' as _ _ Ep.
      rewrite (br_link_a _ _ _ _ _ _ Hbr), (br_link_b _ _ _ _ _ _ Hbr) in Ep by lia.
      replace (f + 1 + Z.of_nat (S d) - 1) with (f + 1 + Z.of_nat d) in Ep by lia.
      apply every_hash; [apply every_a; lia|apply every_b; lia|done]. }
  apply (Hdown (Z.to_nat (h - f - 1))); rewrite Z2Nat.id by lia; replace (f + 1 + (h - f - 1)) with h by lia; [lia|lia|done].
Qed.

(** Only blocks of height [f] or less have two children. *)
Lemma only_children n x y :
  every n → every x → every y → nprev x = nhash n → nprev y = nhash n → ¬ on_a (f + 1) n → x = y.
Proof.
  intros Hn Hx Hy Ex Ey Hne. pose proof range as Hr.
  assert (Hside : ∀ x y, x ∈ side → every y → nprev x = nhash n → nprev y = nhash n → y = x).
  { intros u v Hu Hv Eu Ev. destruct (br_forks _ _ _ _ _ _ Hbr u v Hu (every_in v Hv)) as [?|(h & Hh & E)]; [congruence|done|].
    exfalso. apply Hne. exists h. split; [lia|]. apply every_hash; [done|apply every_a; lia|]. cbn. congruence. }
  pose proof (every_child _ _ Hx Hn Ex) as Zx. pose proof (every_child _ _ Hy Hn Ey) as Zy.
  assert (Hcase : ∀ i j, 0 ≤ i < k → 0 ≤ j ≤ m → nprev (a i) = nhash n → nprev (b j) = nhash n →
    nheight (a i) = nheight n + 1 → nheight (b j) = nheight n + 1 → a i = b j).
  { intros i j Hi Hj Ea Eb Za Zb. rewrite height_a in Za by done. rewrite height_b in Zb by done.
    assert (i = j) as <- by lia. destruct (decide (i ≤ f)) as [|Hif]; [apply (br_same _ _ _ _ _ _ Hbr); lia|exfalso].
    cbn in Ea, Eb. rewrite (br_link_a _ _ _ _ _ _ Hbr) in Ea by lia. rewrite (br_link_b _ _ _ _ _ _ Hbr) in Eb by lia.
    assert (Ena : a (i - 1) = n) by (apply every_hash; [apply every_a; lia|done|done]).
    assert (Enb : b (i - 1) = n) by (apply every_hash; [apply every_b; lia|done|done]).
    destruct (apart (i - 1) (i - 1)) as [_ Hle]; [lia|lia|congruence|]. apply Hne. exists (i - 1). split; [lia|done]. }
  destruct Hx as [(i & Hi & ->)|[(i & Hi & ->)|Hx]]; [..|symmetry; by apply Hside];
    destruct Hy as [(j & Hj & ->)|[(j & Hj & ->)|Hy]]; try (apply Hside; [done|by apply every_a || (apply every_b; lia)|done|done]).
  - rewrite height_a in Zx, Zy by done. repeat f_equal. lia.
  - apply Hcase; [done|lia|done..].
  - symmetry. apply Hcase; [done|lia|done..].
  - rewrite height_b in Zx, Zy by lia. repeat f_equal. lia.
Qed.

(** ** The table *)

(** All of [A] and [side] is stored, and the blocks of [B] at the heights [S]; the main
    chain is [C]. *)
Record forked (S : Z → Prop) (C : node → Prop) (t : block_table) : Prop := {
  fk_ok : table_ok t;
  fk_range : ∀ h, S h → 0 ≤ h ≤ m;
  fk_nodes : ∀ n, n ∈ nodes (rows t) ↔ (on_a k n ∨ n ∈ side) ∨ ∃ h, S h ∧ n = b h;
  fk_canon : ∀ n, canon (rows t) n ↔ C n;
}.

Lemma forked_ext (S S' : Z → Prop) C D t :
  (∀ h, S h ↔ S' h) → (∀ n, C n ↔ D n) → forked S C t → forked S' D t.
Proof.
  intros HS HC [H1 H2 H3 H4]. split; [done|intros h; rewrite <-HS; apply H2| |intros n; by rewrite H4].
  intros n. rewrite H3. by setoid_rewrite HS.
Qed.

Lemma forked_canon_ext S C D t : (∀ n, C n ↔ D n) → forked S C t → forked S D t.
Proof. intros HC. by apply forked_ext. Qed.

Lemma forked_every S C t n : forked S C t → n ∈ nodes (rows t) → every n.
Proof. intros Hf [[?|?]|(h & Hh & ->)]%(fk_nodes _ _ _ Hf); [by left|by right; right|]. apply every_b. by apply Hf. Qed.

Lemma forked_consistent S C t i : forked S C t → 0 ≤ i ≤ m → consistent (b i :: nodes (rows t)).
Proof.
  intros Hf Hi. apply every_consistent. intros n [->|Hn]%elem_of_cons; [by apply every_b|]. by apply (forked_every S C t).
Qed.

Lemma on_a_linked c : c ≤ k → linked (on_a c).
Proof.
  intros Hc x y (i & Hi & ->) (j & Hj & ->). rewrite !height_a by lia. intros Hlt. exists (a (i - 1)).
  split_and!; [exists (i - 1); split; [lia|done]|cbn; by rewrite (br_link_a _ _ _ _ _ _ Hbr) by lia|rewrite height_a; lia].
Qed.

(** The ancestors of a block of [B] lead to the missing block at height
    [s - 1]. *)
Lemma forked_dangles S c t s i :
  forked S (on_a c) t → c ≤ k → f < s - 1 → s ≤ i ≤ m → (∀ h, s ≤ h < i → S h) → ¬ S (s - 1) →
  dangling (nodes (rows t)) (canon (rows t)) (PrevHash (B i)) (i - 1) (s - 1).
Proof.
  intros Hf Hc Hs Hi HS Hno. pose proof range as Hr.
  assert (Hgen : ∀ d, s + Z.of_nat d ≤ i →
    dangling (nodes (rows t)) (canon (rows t)) (PrevHash (B (s + Z.of_nat d))) (s + Z.of_nat d - 1) (s - 1)).
  { induction d as [|d IH]; intros Hd.
    - rewrite Z.add_0_r, (br_link_b _ _ _ _ _ _ Hbr) by lia. apply dangling_missing.
      intros n Hn Hk. assert (En : n = b (s - 1)).
      { apply every_hash; [by apply (forked_every S (on_a c) t)|apply every_b; lia|]. destruct n as [[? ?] ?]. by injection Hk. }
      subst n. apply (fk_nodes _ _ _ Hf) in Hn as [[(h & Hh & E)|Hn]|(h & Hh & E)].
      + destruct (apart h (s - 1)) as [? ?]; [done|lia|done|lia].
      + by apply (side_not_b _ (s - 1)) in Hn; [|lia].
      + pose proof (fk_range _ _ _ Hf h Hh). assert (h = s - 1) as ->; [|done].
        rewrite <-(height_b h), <-(height_b (s - 1)) by lia. by rewrite E.
    - replace (s + Z.of_nat (Datatypes.S d) - 1) with (s + Z.of_nat d) by lia.
      rewrite (br_link_b _ _ _ _ _ _ Hbr) by lia. replace (s + Z.of_nat (Datatypes.S d) - 1) with (s + Z.of_nat d) by lia.
      pose proof (dangling_step (nodes (rows t)) (canon (rows t)) (b (s + Z.of_nat d)) (s - 1)) as Hstep.
      rewrite height_b in Hstep by lia. apply Hstep.
      + apply (fk_nodes _ _ _ Hf). right. exists (s + Z.of_nat d). split; [apply HS; lia|done].
      + intros (h & Hh & E)%(fk_canon _ _ _ Hf). destruct (apart h (s + Z.of_nat d)); [lia|lia|done|lia].
      + apply IH. lia. }
  specialize (Hgen (Z.to_nat (i - s))). rewrite Z2Nat.id in Hgen by lia. replace (s + (i - s)) with i in Hgen by lia.
  apply Hgen. lia.
Qed.

(** A new block of [B] above a missing one. *)
Lemma forked_dangling S c t s i :
  forked S (on_a c) t → f < c ≤ k → f < s - 1 → s ≤ i ≤ m → c ≤ i + 1 →
  (∀ h, s ≤ h < i → S h) → ¬ S (s - 1) → ¬ S i →
  ∃ id t', block_insert (B i) false t = Val (id, t') ∧ forked (fun h => S h ∨ h = i) (on_a (Z.min c (s - 1))) t'.
Proof.
  intros Hf Hc Hs Hi Hci HS Hno Hnew. pose proof range as Hr. pose proof (br_height_b _ _ _ _ _ _ Hbr i ltac:(lia)) as Ei.
  assert (Hnot : b i ∉ nodes (rows t)).
  { intros [[(h & Hh & E)|Hn]|(h & Hh & E)]%(fk_nodes _ _ _ Hf).
    - destruct (apart h i); [done|lia|done|lia].
    - by apply (side_not_b _ i) in Hn; [|lia].
    - pose proof (fk_range _ _ _ Hf h Hh). assert (h = i) as ->; [|done]. rewrite <-(height_b h), <-(height_b i) by lia. by rewrite E. }
  destruct (block_insert_dangling (B i) t (a 0) (s - 1)) as (id & t' & Hins & Hok & Hn & Hcan).
  - apply Hf.
  - apply (linked_ext (on_a c)); [intros n; symmetry; apply (fk_canon _ _ _ Hf)|apply on_a_linked; lia].
  - apply Hbr. lia.
  - by apply (forked_consistent S (on_a c)); [|lia].
  - intros n (h & Hh & ->)%(fk_canon _ _ _ Hf). rewrite height_a, Ei; lia.
  - intros n Hin Hnc x y Hx Hy Ex Ey. assert (Hev : ∀ z, z ∈ b i :: nodes (rows t) → every z).
    { intros z [->|Hz]%elem_of_cons; [apply every_b; lia|by apply (forked_every S (on_a c) t)]. }
    apply (only_children n); [apply Hev; by right|by apply Hev|by apply Hev|done|done|].
    intros (h & Hh & ->). apply Hnc, (fk_canon _ _ _ Hf). exists h. split; [lia|done].
  - intros n Hin Hk. apply Hnot. assert (En : n = b i); [|by rewrite <-En].
    apply every_hash; [by apply (forked_every S (on_a c) t)|apply every_b; lia|]. destruct n as [[? ?] ?]. by injection Hk.
  - apply (fk_canon _ _ _ Hf). exists 0. split; [lia|done].
  - rewrite Ei. apply (forked_dangles S c); [done|lia|done..].
  - exists id, t'. split; [done|]. split; [done| | |].
    + intros h [Hh| ->]; [by apply Hf|lia].
    + intros n. rewrite Hn, (fk_nodes _ _ _ Hf). split.
      * intros [[?|(h & Hh & ->)]| ->]; [by left|right; exists h; auto|right; exists i; auto].
      * intros [?|(h & [Hh| ->] & ->)]; [by left; left|left; right; by exists h|by right].
    + intros n. rewrite Hcan, (fk_canon _ _ _ Hf). split.
      * intros [(h & Hh & ->) Hz]. rewrite height_a in Hz by lia. exists h. split; [lia|done].
      * intros (h & Hh & ->). rewrite height_a by lia. split; [exists h; split; [lia|done]|lia].
Qed.

(** A block of [B] that is stored or follows the main chain. *)
Lemma forked_on_top S C t i :
  forked S C t → 0 ≤ i ≤ m → (∀ n, C n → nheight n ≤ i) → S i ∨ i ≤ f ∨ (0 < i ∧ C (b (i - 1))) →
  ∃ id t', block_insert (B i) false t = Val (id, t') ∧
    forked (fun h => S h ∨ h = i) (fun n => (C n ∧ nheight n ≠ i) ∨ n = b i) t'.
Proof.
  intros Hf Hi Htip Hpar. pose proof range as Hr. pose proof (br_height_b _ _ _ _ _ _ Hbr i Hi) as Ei.
  destruct (block_insert_on_top (B i) t) as (id & t' & Hins & Hok & Hn & Hcan).
  - apply Hf.
  - by apply Hbr.
  - by apply (forked_consistent S C).
  - intros n Hc%(fk_canon _ _ _ Hf). rewrite Ei. by apply Htip.
  - destruct Hpar as [HS|[Hle|[Hpos HC]]].
    + left. apply (fk_nodes _ _ _ Hf). right. by exists i.
    + left. apply (fk_nodes _ _ _ Hf). left. left. exists i. split; [lia|]. symmetry. apply (br_same _ _ _ _ _ _ Hbr). lia.
    + right. exists (b (i - 1)). split_and!; [by apply (fk_canon _ _ _ Hf)|by rewrite (br_link_b _ _ _ _ _ _ Hbr) by lia|].
      rewrite height_b, Ei; lia.
  - exists id, t'. split; [done|]. split; [done| | |].
    + intros h [Hh| ->]; [by apply Hf|done].
    + intros n. rewrite Hn, (fk_nodes _ _ _ Hf). split.
      * intros [[?|(h & Hh & ->)]| ->]; [by left|right; exists h; auto|right; exists i; auto].
      * intros [?|(h & [Hh| ->] & ->)]; [by left; left|left; right; by exists h|by right].
    + intros n. by rewrite Hcan, (fk_canon _ _ _ Hf), Ei.
Qed.

(** ** Rounds *)

Lemma insert_blocks_app l l' t : insert_blocks (l ++ l') t = (t' ← insert_blocks l t; insert_blocks l' t').
Proof.
  revert t. induction l as [|x l IH]; intros t; cbn; [done|]. destruct (block_insert x false t) as [[id t']|e|p|e]; cbn; [apply IH|done..].
Qed.

Lemma dangling_round S s d : ∀ i c t,
  f < s - 1 → ¬ S (s - 1) → (∀ h, s ≤ h < i + Z.of_nat d → ¬ S h) → s ≤ i → i + Z.of_nat d ≤ m + 1 →
  f < c ≤ k → c ≤ i + 1 → forked (fun h => S h ∨ s ≤ h < i) (on_a c) t →
  ∃ t', insert_blocks (map B (seqZ i (Z.of_nat d))) t = Val t' ∧
    forked (fun h => S h ∨ s ≤ h < i + Z.of_nat d) (on_a (if decide (d = O) then c else Z.min c (s - 1))) t'.
Proof.
  induction d as [|d IH]; intros i c t Hs Hno Hnew Hi Hm Hc Hci Hf.
  { exists t. split; [done|]. eapply forked_ext; [| |exact Hf]; [intros h; by rewrite Z.add_0_r|done]. }
  rewrite seqZ_cons by lia. cbn [map insert_blocks]. replace (Z.pred (Z.of_nat (Datatypes.S d))) with (Z.of_nat d) by lia.
  destruct (forked_dangling _ c t s i Hf Hc Hs ltac:(lia) Hci) as (id & t1 & -> & Hf1).
  { intros h Hh. right. lia. }
  { intros [?|?]; [done|lia]. }
  { intros [?|?]; [|lia]. apply (Hnew i); [lia|done]. }
  cbn [mbind gores_bind]. destruct (IH (Z.succ i) (Z.min c (s - 1)) t1) as (t' & Ht & Hf'); [lia|done|intros h Hh; apply Hnew; lia|lia..| |].
  { eapply forked_ext; [| |exact Hf1]; [|done]. intros h. split; [intros [[?|?]| ->]|intros [?|?]]; [by left|right; lia|right; lia|by left; left|].
    destruct (decide (h = i)); [by right|left; right; lia]. }
  exists t'. split; [done|]. eapply forked_ext; [| |exact Hf'].
  - intros h. split; (intros [?|?]; [by left|right; lia]).
  - intros n. replace (if decide (d = O) then Z.min c (s - 1) else Z.min (Z.min c (s - 1)) (s - 1)) with (Z.min c (s - 1)); [done|].
    case_decide; lia.
Qed.

Lemma top_round S d : ∀ i C t,
  0 ≤ i → i + Z.of_nat d ≤ m → (∀ n, C n → nheight n ≤ i) → S i ∨ i ≤ f ∨ (0 < i ∧ C (b (i - 1))) → forked S C t →
  ∃ t', insert_blocks (map B (seqZ i (Z.of_nat d + 1))) t = Val t' ∧
    forked (fun h => S h ∨ i ≤ h < i + Z.of_nat d + 1) (fun n => (C n ∧ nheight n ≠ i) ∨ on_b i (i + Z.of_nat d + 1) n) t'.
Proof.
  revert S. induction d as [|d IH]; intros S i C t Hi Hm Htip Hpar Hf; rewrite seqZ_cons by lia; cbn [map insert_blocks];
    destruct (forked_on_top S C t i Hf ltac:(lia) Htip Hpar) as (id & t1 & -> & Hf1); cbn [mbind gores_bind].
  - rewrite seqZ_nil by lia. exists t1. split; [done|]. eapply forked_ext; [| |exact Hf1].
    + intros h. split; (intros [?|?]; [by left|right; lia]).
    + intros n. split; (intros [?|Hn]; [by left|right]); [exists i; split; [lia|done]|].
      destruct Hn as (h & Hh & ->). assert (h = i) as -> by lia. done.
  - replace (Z.pred (Z.of_nat (Datatypes.S d) + 1)) with (Z.of_nat d + 1) by lia.
    destruct (IH (fun h => S h ∨ h = i) (Z.succ i) (fun n => (C n ∧ nheight n ≠ i) ∨ n = b i) t1) as (t' & Ht & Hf'); [lia|lia| | |done|].
    + intros n [[Hn _]| ->]; [specialize (Htip n Hn); lia|rewrite height_b; lia].
    + right. right. split; [lia|]. right. repeat f_equal. lia.
    + exists t'. split; [done|]. eapply forked_ext; [| |exact Hf'].
      * intros h. split; [intros [[?|?]|?]; [by left|right; lia|right; lia]|intros [?|?]; [by left; left|]].
        destruct (decide (h = i)); [by left; right|right; lia].
      * intros n. split.
        -- intros [[[?|Hn] _]|(h & Hh & ->)]; [by left|right; exists i; split; [lia|done]|right; exists h; split; [lia|done]].
        -- intros [[Hn Hz]|(h & Hh & ->)]; [left; split; [by left|specialize (Htip n Hn); lia]|].
           destruct (decide (h = i)) as [->|]; [left; split; [by right|rewrite height_b; lia]|].
           right. exists h. split; [lia|done].
Qed.

(** A round, from the last block of the main chain to the tip. *)
Lemma announce_heights info st S C n :
  forked S C (blocks st) → C n → (∀ x, C x → nheight x ≤ nheight n) →
  announce B info st =
    (t ← insert_blocks (map B (seqZ (nheight n) (ci_Blocks info + 1 - nheight n))) (blocks st); Val (set_blocks st t)).
Proof.
  intros Hf Hn Hmax. unfold announce. rewrite (LastBlock_canon n); [done|apply Hf|by apply (fk_canon _ _ _ Hf)|].
  intros x Hx%(fk_canon _ _ _ Hf). by apply Hmax.
Qed.

Lemma announce_on_top info st S C n :
  forked S C (blocks st) → C n → (∀ x, C x → nheight x ≤ nheight n) → 0 ≤ nheight n ≤ ci_Blocks info → ci_Blocks info ≤ m →
  S (nheight n) ∨ nheight n ≤ f ∨ (0 < nheight n ∧ C (b (nheight n - 1))) →
  ∃ st', announce B info st = Val st' ∧ forked (fun h => S h ∨ nheight n ≤ h ≤ ci_Blocks info)
    (fun x => (C x ∧ nheight x ≠ nheight n) ∨ on_b (nheight n) (ci_Blocks info + 1) x) (blocks st').
Proof.
  intros Hf Hn Hmax Hrange Hm Hpar. rewrite (announce_heights info st S C n) by done.
  set (d := Z.to_nat (ci_Blocks info - nheight n)).
  destruct (top_round S d (nheight n) C (blocks st)) as (t & Ht & Hft); [lia|lia|done|done|done|].
  replace (ci_Blocks info + 1 - nheight n) with (Z.of_nat d + 1) by lia. rewrite Ht. cbn [mbind gores_bind].
  eexists. split; [done|]. cbn [blocks set_blocks]. eapply forked_ext; [| |exact Hft].
  - intros h. split; (intros [?|?]; [by left|right; lia]).
  - intros x. by replace (nheight n + Z.of_nat d + 1) with (ci_Blocks info + 1) by lia.
Qed.

(** The first round when the fork is more than one block below the tip. *)
Lemma announce_dangling info st :
  forked (fun _ => False) (on_a k) (blocks st) → f < k - 2 → k - 1 ≤ ci_Blocks info ≤ m →
  ∃ st', announce B info st = Val st' ∧ forked (fun h => k - 1 ≤ h ≤ ci_Blocks info) (on_a (k - 2)) (blocks st').
Proof.
  intros Hf Hd Hm. pose proof range as Hr. assert (Ha : on_a k (a (k - 1))) by (exists (k - 1); split; [lia|done]).
  pose proof (height_a (k - 1) ltac:(lia)) as Ek.
  rewrite (announce_heights info st _ _ (a (k - 1)) Hf Ha) by (intros x (h & Hh & ->); rewrite Ek, height_a; lia). rewrite Ek.
  set (d := Z.to_nat (ci_Blocks info + 1 - (k - 1))).
  destruct (dangling_round (fun _ => False) (k - 1) d (k - 1) k (blocks st)) as (t & Ht & Hft); [lia|tauto|tauto|lia..| |].
  { eapply forked_ext; [| |exact Hf]; [|done]. intros h. split; [done|intros [?|?]; [done|lia]]. }
  replace (Z.of_nat d) with (ci_Blocks info + 1 - (k - 1)) in * by lia. rewrite Ht. cbn [mbind gores_bind].
  eexists. split; [done|]. cbn [blocks set_blocks]. eapply forked_ext; [| |exact Hft].
  - intros h. split; [intros [[]|?]; lia|intros ?; right; lia].
  - intros x. rewrite decide_False by lia. replace (Z.min k (k - 1 - 1)) with (k - 2) by lia. done.
Qed.

Lemma on_a_top c x : c ≤ k → on_a c x → nheight x ≤ c - 1.
Proof. intros Hc (h & Hh & ->). rewrite height_a; lia. Qed.

(** With the branches joined at or above the fork, the main chain is [B]. *)
Lemma join_branches i M n :
  0 ≤ i ≤ f + 1 → i ≤ M → (on_a (i + 1) n ∧ nheight n ≠ i) ∨ on_b i (M + 1) n ↔ on_b 0 (M + 1) n.
Proof.
  intros Hi HiM. pose proof range as Hr. split.
  - intros [[(h & Hh & ->) Hz]|(h & Hh & ->)]; [|exists h; split; [lia|done]]. rewrite height_a in Hz by lia.
    exists h. split; [lia|]. apply (br_same _ _ _ _ _ _ Hbr). lia.
  - intros (h & Hh & ->). destruct (decide (h < i)); [left|right; exists h; split; [lia|done]].
    rewrite <-(br_same _ _ _ _ _ _ Hbr) by lia. split; [exists h; split; [lia|done]|rewrite height_a; lia].
Qed.

(** A round that starts at a stored block of [B] extends the main chain. *)
Lemma announce_extends info st S C M :
  forked S C (blocks st) → C (b M) → S M → (∀ x, C x → nheight x ≤ M) → 0 ≤ M ≤ ci_Blocks info → ci_Blocks info ≤ m →
  ∃ st', announce B info st = Val st' ∧
    forked (fun h => S h ∨ M ≤ h ≤ ci_Blocks info) (fun x => C x ∨ on_b M (ci_Blocks info + 1) x) (blocks st').
Proof.
  intros Hf HC HS Hmax HM Hm. pose proof (height_b M ltac:(lia)) as EM.
  destruct (announce_on_top info st S C (b M) Hf HC) as (st' & H & Hf'); rewrite ?EM; [done|lia|lia|by left|].
  exists st'. split; [done|]. rewrite EM in Hf'. eapply forked_canon_ext; [|exact Hf'].
  intros x. split; [intros [[? _]|?]; [by left|by right]|]. intros [Hx|?]; [|by right].
  destruct (decide (nheight x = M)) as [E|]; [right|by left]. exists M. split; [lia|].
  apply (ok_heights _ (fk_ok _ _ _ Hf)); [by apply (fk_canon _ _ _ Hf)..|]. by rewrite E, EM.
Qed.

(** A fork up to three blocks deep: after two rounds the main chain is [B] up to
    the tip of the second. *)
Lemma recovered info1 info2 st :
  k ≤ f + 4 → k - 1 ≤ ci_Blocks info1 ≤ ci_Blocks info2 → ci_Blocks info2 ≤ m →
  forked (fun _ => False) (on_a k) (blocks st) →
  ∃ st1 st2 S, announce B info1 st = Val st1 ∧ announce B info2 st1 = Val st2 ∧
    forked S (on_b 0 (ci_Blocks info2 + 1)) (blocks st2).
Proof.
  intros Hdepth Ht Hm Hf. pose proof range as Hr. destruct (decide (f = k - 2)) as [Hf1|Hf1].
  - pose proof (height_a (k - 1) ltac:(lia)) as Ek.
    destruct (announce_on_top info1 st _ _ (a (k - 1)) Hf) as (st1 & H1 & Hf'); rewrite ?Ek;
      [exists (k - 1); split; [lia|done]|intros x; by apply on_a_top|lia|lia| |].
    { right. right. split; [lia|]. exists (k - 1 - 1). split; [lia|]. symmetry. apply (br_same _ _ _ _ _ _ Hbr). lia. }
    rewrite Ek in Hf'. apply (forked_canon_ext _ _ (on_b 0 (ci_Blocks info1 + 1))) in Hf'.
    2:{ intros n. rewrite <-(join_branches (k - 1) (ci_Blocks info1) n) by lia. by replace (k - 1 + 1) with k by lia. }
    destruct (announce_extends info2 st1 _ _ (ci_Blocks info1) Hf') as (st2 & H2 & Hf2);
      [exists (ci_Blocks info1); split; [lia|done]|right; lia|intros x (h & Hh & ->); rewrite height_b; lia|lia|lia|].
    exists st1, st2. eexists. split_and!; [done|done|]. eapply forked_canon_ext; [|exact Hf2]. intros n. split.
    + intros [(h & Hh & ->)|(h & Hh & ->)]; exists h; (split; [lia|done]).
    + intros (h & Hh & ->). destruct (decide (h < ci_Blocks info1)); [left|right]; exists h; (split; [lia|done]).
  - destruct (announce_dangling info1 st Hf) as (st1 & H1 & Hf'); [lia|lia|].
    pose proof (height_a (k - 3) ltac:(lia)) as Ek.
    destruct (announce_on_top info2 st1 _ _ (a (k - 3)) Hf') as (st2 & H2 & Hf2); rewrite ?Ek;
      [exists (k - 3); split; [lia|done]|intros x Hx; apply on_a_top in Hx; lia|lia|lia| |].
    { destruct (decide (k - 3 ≤ f)); [by right; left|right; right]. split; [lia|]. exists (k - 3 - 1). split; [lia|].
      symmetry. apply (br_same _ _ _ _ _ _ Hbr). lia. }
    exists st1, st2. eexists. split_and!; [done|done|]. eapply forked_canon_ext; [|exact Hf2]. rewrite Ek.
    intros n. rewrite <-(join_branches (k - 3) (ci_Blocks info2) n) by lia. by replace (k - 3 + 1) with (k - 2) by lia.
Qed.

(** The main chain with a gap of three blocks. *)
Definition gapped (M : Z) (n : node) : Prop := on_a (k - 4) n ∨ on_b (k - 1) (M + 1) n.

(** A deeper fork: the second round stores the next two blocks off the main
    chain and puts the blocks above them, which are stored, back on it. *)
Lemma second_round_leaves_gap info1 info st :
  f + 4 < k → k - 1 ≤ ci_Blocks info1 ≤ ci_Blocks info → ci_Blocks info ≤ m →
  forked (fun h => k - 1 ≤ h ≤ ci_Blocks info1) (on_a (k - 2)) (blocks st) →
  ∃ st', announce B info st = Val st' ∧
    forked (fun h => k - 3 ≤ h ≤ ci_Blocks info) (gapped (ci_Blocks info)) (blocks st').
Proof.
  intros Hdepth Ht Hm Hf. pose proof range as Hr. pose proof (height_a (k - 3) ltac:(lia)) as Ek.
  rewrite (announce_heights info st _ _ (a (k - 3)) Hf), Ek;
    [|exists (k - 3); split; [lia|done]|intros x Hx; apply on_a_top in Hx; lia].
  set (d := Z.to_nat (ci_Blocks info - (k - 1))).
  replace (ci_Blocks info + 1 - (k - 3)) with (Z.of_nat 2 + (Z.of_nat d + 1)) by lia.
  rewrite seqZ_app, map_app, insert_blocks_app by lia.
  destruct (dangling_round (fun h => k - 1 ≤ h ≤ ci_Blocks info1) (k - 3) 2 (k - 3) (k - 2) (blocks st)) as (t1 & -> & Hf1); [lia..| |].
  { eapply forked_ext; [| |exact Hf]; [|done]. intros h. split; [by left|intros [?|?]; [done|lia]]. }
  cbn [mbind gores_bind]. rewrite decide_False in Hf1 by done.
  replace (Z.min (k - 2) (k - 3 - 1)) with (k - 4) in Hf1 by lia. replace (k - 3 + Z.of_nat 2) with (k - 1) in Hf1 by lia.
  destruct (top_round (fun h => k - 1 ≤ h ≤ ci_Blocks info1 ∨ k - 3 ≤ h < k - 1) d (k - 1) (on_a (k - 4)) t1) as (t' & Ht' & Hf2);
    [lia|lia|intros x Hx; apply on_a_top in Hx; lia|left; left; lia|done|].
  replace (k - 3 + Z.of_nat 2) with (k - 1) by lia. rewrite Ht'. cbn [mbind gores_bind].
  eexists. split; [done|]. cbn [blocks set_blocks]. eapply forked_ext; [| |exact Hf2].
  - intros h. split; [intros [[?|?]|?]; lia|]. intros ?. destruct (decide (h < k - 1)); [left; right; lia|right; lia].
  - replace (k - 1 + Z.of_nat d + 1) with (ci_Blocks info + 1) by lia.
    intros n. split; [intros [[? _]|?]; [by left|by right]|]. intros [Hn|?]; [left|by right]. split; [done|].
    apply on_a_top in Hn; lia.
Qed.

(** Later rounds do not close the gap. *)
Lemma gap_stays infos : ∀ M S st,
  forked S (gapped M) (blocks st) → S M → k - 1 ≤ M → Sorted Z.le (M :: map ci_Blocks infos) →
  Forall (fun i => ci_Blocks i ≤ m) infos →
  ∃ st' S', announces B infos st = Val st' ∧ forked S' (gapped (foldl (fun _ i => ci_Blocks i) M infos)) (blocks st') ∧
    k - 1 ≤ foldl (fun _ i => ci_Blocks i) M infos ≤ m.
Proof.
  pose proof range as Hr. induction infos as [|i infos IH]; intros M S st Hf HS HM Hsort Hm.
  { exists st, S. split_and!; [done|done|done|]. by apply (fk_range _ _ _ Hf). }
  cbn [map] in Hsort. apply Sorted_inv in Hsort as [Hsort Hle%HdRel_inv]. apply list.Forall_cons in Hm as [Hi Hm].
  destruct (announce_extends i st S (gapped M) M Hf) as (st1 & H1 & Hf1);
    [right; exists M; split; [lia|done]|done| |lia|done|].
  { intros x [Hx|(h & Hh & ->)]; [apply on_a_top in Hx; lia|]. rewrite height_b; [lia|].
    pose proof (fk_range _ _ _ Hf M HS). lia. }
  destruct (IH (ci_Blocks i) (fun h => S h ∨ M ≤ h ≤ ci_Blocks i) st1) as (st' & S' & Ha & Hf' & HM'); [|right; lia|lia|done|done|].
  { eapply forked_canon_ext; [|exact Hf1]. intros n. split.
    - intros [[?|(h & Hh & ->)]|(h & Hh & ->)]; [by left|right; exists h; split; [lia|done]..].
    - intros [?|(h & Hh & ->)]; [by left; left|]. destruct (decide (h < M)); [left; right|right]; exists h; (split; [lia|done]). }
  exists st', S'. cbn [announces]. by rewrite H1.
Qed.

End branches.

(** ** Properties *)

(** The blocks [A] of heights below [k] are the main chain, and besides them the
    blocks [side] are stored. *)
Record holds_branch (A : Z → BlockHeader) (side : list node) (k : Z) (st : store) : Prop := {
  hb_ok : table_ok (blocks st);
  hb_nodes : nodes (rows (blocks st)) ≡ₚ map (fun h => node_of (A h)) (seqZ 0 k) ++ side;
  hb_main : ∀ n, canon (rows (blocks st)) n ↔ n ∈ map (fun h => node_of (A h)) (seqZ 0 k);
}.

Lemma holds_branch_forked A B side k m st :
  holds_branch A side k st → forked A B side k m (fun _ => False) (on_a A k) (blocks st).
Proof.
  intros [Hok Hn Hm]. assert (Hin : ∀ n, n ∈ map (fun h => node_of (A h)) (seqZ 0 k) ↔ on_a A k n).
  { intros n. rewrite list_elem_of_fmap. split.
    - intros (h & -> & Hh%elem_of_seqZ). exists h. split; [lia|done].
    - intros (h & Hh & ->). exists h. split; [done|]. apply elem_of_seqZ. lia. }
  split; [done|done| |].
  - intros n. rewrite Hn, elem_of_app, Hin. split; [by left|]. by intros [?|(h & [] & _)].
  - intros n. by rewrite Hm.
Qed.

(** The blocks [B] of heights below [n], and no others, are read as the main
    chain. *)
Definition serves_branch (B : Z → BlockHeader) (n : Z) (st : store) : Prop :=
  (∀ h, 0 ≤ h < n → ∃ x, GetBlock (ByHeight h) st = Val x ∧ Hash x = Hash (B h) ∧ PrevHash x = PrevHash (B h)) ∧
  (∀ h, n ≤ h → GetBlock (ByHeight h) st = Err (EWrap "failed to get block" ErrNoRows)) ∧
  LastBlock st = Val (Some (Hash (B (n - 1)), n - 1)).

Lemma forked_serves A B side k f m S n st :
  branches A B side k f m → 1 ≤ n ≤ m + 1 → forked A B side k m S (on_b B 0 n) (blocks st) → serves_branch B n st.
Proof.
  intros Hbr Hn Hf. pose proof (height_b A B side k f m Hbr) as Hz. split_and!.
  - intros h Hh. destruct (GetBlock_canon (node_of (B h)) st) as (x & Hx & E & _); [apply Hf|apply (fk_canon _ _ _ _ _ _ _ _ Hf); by exists h|].
    rewrite Hz in Hx by lia. exists x. injection E as E1 _ E3. done.
  - intros h Hh. apply GetBlock_gap. intros x (j & Hj & ->)%(fk_canon _ _ _ _ _ _ _ _ Hf). rewrite Hz; lia.
  - rewrite (LastBlock_canon (node_of (B (n - 1)))); [by rewrite Hz by lia|apply Hf| |].
    + apply (fk_canon _ _ _ _ _ _ _ _ Hf). exists (n - 1). split; [lia|done].
    + intros x (j & Hj & ->)%(fk_canon _ _ _ _ _ _ _ _ Hf). rewrite !Hz; lia.
Qed.


(** From a fork four or more blocks deep the indexer does not recover: after the
    second announcement and every later one, three blocks of the node's branch,
    stored as orphans or not at all, are missing from the main chain, although
    [LastBlock] is the node's tip. *)
Lemma deep_reorg_leaves_gap (A B : Z → BlockHeader) (side : list node) (k f m : Z) (info1 info2 : ChainInfo) (infos : list ChainInfo) (st : store) :
  branches A B side k f m → f + 4 < k → holds_branch A side k st →
  Sorted Z.le (k - 1 :: map ci_Blocks (info1 :: info2 :: infos)) → Forall (fun i => ci_Blocks i ≤ m) (info1 :: info2 :: infos) →
  ∃ st', announces B (info1 :: info2 :: infos) st = Val st' ∧
    (∀ h, k - 4 ≤ h ≤ k - 2 → GetBlock (ByHeight h) st' = Err (EWrap "failed to get block" ErrNoRows)) ∧
    let M := foldl (fun _ i => ci_Blocks i) (ci_Blocks info2) infos in LastBlock st' = Val (Some (Hash (B M), M)).
Proof.
  intros Hbr Hdepth Hst Hsort Hm. pose proof (br_range _ _ _ _ _ _ Hbr) as Hr. cbn [map] in Hsort.
  apply Sorted_inv in Hsort as [Hsort Hle1%HdRel_inv]. apply Sorted_inv in Hsort as [Hsort Hle2%HdRel_inv].
  apply list.Forall_cons in Hm as [Hm1 Hm]. apply list.Forall_cons in Hm as [Hm2 Hm].
  destruct (announce_dangling A B side k f m Hbr info1 st) as (st1 & H1 & Hf1); [by apply holds_branch_forked|lia|lia|].
  destruct (second_round_leaves_gap A B side k f m Hbr info1 info2 st1) as (st2 & H2 & Hf2); [lia..|done|].
  destruct (gap_stays A B side k f m Hbr infos (ci_Blocks info2) _ st2 Hf2) as (st' & S & H3 & Hf3 & HM); [lia|lia|done|done|].
  exists st'. cbn [announces]. rewrite H1. cbn [mbind gores_bind]. rewrite H2. cbn [mbind gores_bind]. split; [done|].
  set (M := foldl _ _ infos) in *. pose proof (height_b A B side k f m Hbr) as Hz.
  assert (Htop : ∀ x, gapped A B k M x → nheight x < k - 4 ∨ k - 1 ≤ nheight x ≤ M).
  { intros x [Hx|(h & Hh & ->)]; [left; eapply on_a_top in Hx; [|done|]; lia|right; rewrite Hz; lia]. }
  split.
  - intros h Hh. apply GetBlock_gap. intros x Hx%(fk_canon _ _ _ _ _ _ _ _ Hf3)%Htop. lia.
  - rewrite (LastBlock_canon (node_of (B M))); [by rewrite Hz by lia|apply Hf3| |].
    + apply (fk_canon _ _ _ _ _ _ _ _ Hf3). right. exists M. split; [lia|done].
    + intros x Hx%(fk_canon _ _ _ _ _ _ _ _ Hf3)%Htop. rewrite Hz; lia.
Qed.

(** ** Concrete branches *)

Definition branch_a (h : Z) : BlockHeader := test_block ("a" ++ Itoa h) h (if h =? 0 then "" else "a" ++ Itoa (h - 1)).

(** A branch that leaves [branch_a] above height [f]. *)
Definition branch_b (f h : Z) : BlockHeader :=
  if h <=? f then branch_a h
  else test_block ("b" ++ Itoa h) h ((if h =? f + 1 then "a" else "b") ++ Itoa (h - 1)).

Definition branch_store (k : Z) : store := set_blocks empty_store (synced (map branch_a (seqZ 0 k))).

(** The same after a reorganisation of one block at height 1 *)
Definition old_orphan : BlockHeader := test_block "o1" 1 "a0".

Definition side_store (k : Z) : store :=
  set_blocks empty_store (synced (branch_a 0 :: old_orphan :: map branch_a (seqZ 1 (k - 1)))).

Definition info_of (h : Z) : ChainInfo := {|
  ci_Chain := "main"; ci_Blocks := h; ci_Headers := h; ci_BestBlockHash := ""; ci_Difficulty := "1"; ci_SizeOnDisk := 0;
  ci_Version := ""; ci_Subversion := ""; ci_ProtocolVersion := ""; ci_Timeoffset := 0; ci_Warnings := "" |}.

Lemma below_case (P : Z → Prop) n : Forall P (seqZ 0 n) → ∀ h, 0 ≤ h < n → P h.
Proof. rewrite list.Forall_forall. intros H h Hh. apply H, elem_of_seqZ. lia. Qed.

(** A fork three blocks below the tip. *)
Lemma test_branches : branches branch_a (branch_b 1) [node_of old_orphan] 5 1 6.
Proof.
  split.
  - lia.
  - done.
  - intros h Hh. unfold branch_b. by destruct (h <=? 1).
  - intros h Hh. apply (below_case (fun h => 0 < h → PrevHash (branch_a h) = Hash (branch_a (h - 1))) 5); [|lia|lia].
    apply (bool_decide_unpack _). vm_compute. exact I.
  - intros h Hh. apply (below_case (fun h => 0 < h → PrevHash (branch_b 1 h) = Hash (branch_b 1 (h - 1))) 7); [|lia|lia].
    apply (bool_decide_unpack _). vm_compute. exact I.
  - intros h Hh. unfold branch_b. by rewrite (proj2 (Z.leb_le h 1)) by lia.
  - by vm_compute.
  - apply consistent_list_ok, (bool_decide_unpack _). vm_compute. exact I.
  - intros n ->%list_elem_of_singleton. apply (bool_decide_unpack _). vm_compute. exact I.
  - intros n x ->%list_elem_of_singleton _ _. right. by exists 0.
  - intros h Hh. apply (below_case (fun h => columns_fit (branch_b 1 h) = true) 7); [|lia].
    apply (bool_decide_unpack _). vm_compute. exact I.
Qed.

Lemma test_holds : holds_branch branch_a [node_of old_orphan] 5 (side_store 5).
Proof.
  split.
  - apply table_ok_list_ok, (bool_decide_unpack _). vm_compute. exact I.
  - apply (bool_decide_unpack _). vm_compute. exact I.
  - intros n. rewrite canon_chain_nodes. by vm_compute (chain_nodes _).
Qed.


(** A fork four blocks deep, and four announcements. *)
Lemma deep_reorg_run :
  (main_chain ∘ blocks) <$> announces (branch_b 1) [info_of 6; info_of 6; info_of 7; info_of 8] (branch_store 6) =
    Val [("a0", 0); ("a1", 1); ("b5", 5); ("b6", 6); ("b7", 7); ("b8", 8)].
Proof. vm_compute. reflexivity. Qed.
