(* ===== verification/Zmq.v ===== *)
(** * Zmq: the announcements of the node

    src/V2/pkg/zmq/zmq.go.  [Connect] opens a socket and subscribes it; [listen]
    receives the messages of the node and hands the hashes to the goroutine of
    [Start], which spawns one goroutine per hash to pass it on to [syncToTip] and
    [getMempoolTxs].  Sockets are github.com/pebbe/zmq4, a parameter; the
    goroutines are a step relation, in which any goroutine that can move may move
    next. *)

From stdpp Require Import base list strings relations numbers.
From Stdlib Require Import ZArith Lia Permutation.
From S2P Require Import Prelude GoStrings Config Utxo.

Local Open Scope Z_scope.

(** ** Sockets *)

(** Package zmq4, of type [SUB] *)
Class Zmq4 (Socket W : Type) := {
  NewSocket : act W Socket;
  SetRcvtimeo : Socket → Z → act W unit;
  SocketConnect : Socket → string → act W unit;
  SetSubscribe : Socket → string → act W unit;
  RecvMessageBytes : Socket → act W (list (list Z));
}.

(** What the code relies on: the calls return, a new socket has no subscription,
    and the other calls add what they say to their socket. *)
Class Zmq4Laws (Socket W : Type) {zmq4 : Zmq4 Socket W} := {
  rcvtimeo : Socket → W → Z;
  endpoints : Socket → W → list string;
  topics : Socket → W → list string;
  NewSocket_spec w :
    match NewSocket w with
    | (Val s, w') => endpoints s w' = [] ∧ topics s w' = []
    | (Err _, _) => True
    | _ => False
    end;
  SetRcvtimeo_spec s d w :
    match SetRcvtimeo s d w with
    | (Val _, w') => rcvtimeo s w' = d ∧ endpoints s w' = endpoints s w ∧ topics s w' = topics s w
    | (Err _, _) => True
    | _ => False
    end;
  SocketConnect_spec s url w :
    match SocketConnect s url w with
    | (Val _, w') => rcvtimeo s w' = rcvtimeo s w ∧ endpoints s w' = endpoints s w ++ [url] ∧ topics s w' = topics s w
    | (Err _, _) => True
    | _ => False
    end;
  SetSubscribe_spec s t w :
    match SetSubscribe s t w with
    | (Val _, w') => rcvtimeo s w' = rcvtimeo s w ∧ endpoints s w' = endpoints s w ∧ topics s w' = topics s w ++ [t]
    | (Err _, _) => True
    | _ => False
    end;
  RecvMessageBytes_spec s w : returned (RecvMessageBytes s w).1;
}.

(** What a node publishes: a topic, a hash and a sequence number of four bytes. *)
Class NodePublishes (Socket W : Type) {zmq4 : Zmq4 Socket W} :=
  node_publishes s w : match RecvMessageBytes s w with
                       | (Val msg, _) => ∃ topic body seq, msg = topic :: body :: seq :: [] ∧ length seq = 4%nat
                       | _ => True
                       end.

(** [type ZMQ struct]; the channels are part of [links] *)
Record client (Socket : Type) := { timeout : Z; subURL : string; subs : list string; sub : option Socket }.
Arguments timeout {Socket} _.
Arguments subURL {Socket} _.
Arguments subs {Socket} _.
Arguments sub {Socket} _.

#[global] Instance client_settable Socket : Settable (client Socket) := fun z =>
  {| timeout := timeout z; subURL := subURL z; subs := subs z; sub := sub z |}.

(** [func New(c *config.Coin, doneChan chan struct{}, errChan chan error) *ZMQ] *)
Definition New {Socket} (c : Coin) : client Socket :=
  {| timeout := zmq_Timeout (c_ZMQ c); subURL := SubURL (c_ZMQ c); subs := Subscriptions (c_ZMQ c); sub := None |}.

(** [time.Second] *)
Definition Second : Z := 1000000000.

Section sockets.
Context {Socket W : Type} {zmq4 : Zmq4 Socket W}.

(** The loop of [Connect] over the topics *)
Fixpoint subscribe (s : Socket) (l : list string) : act W unit :=
  match l with
  | [] => fun w => (Val tt, w)
  | t :: l => act_bind (act_wrap ("failed to subscribe to topic: " ++ t) (SetSubscribe s t)) (fun _ => subscribe s l)
  end.

(** The calls of [Connect] on the socket it makes *)
Definition open_socket (z : client Socket) : act W Socket :=
  act_bind (act_wrap "failed to create new subscription socket" NewSocket) (fun s =>
  act_bind (act_wrap ("failed to to set recv timeout to: " ++ Itoa (timeout z) ++ " seconds")
              (SetRcvtimeo s (int64 (timeout z * Second)))) (fun _ =>
  act_bind (act_wrap ("failed to connect to subscription url: " ++ subURL z) (SocketConnect s (subURL z))) (fun _ =>
  act_bind (subscribe s (subs z)) (fun _ w => (Val s, w))))).

(** [func (z *ZMQ) Connect() error] *)
Definition Connect (z : client Socket) (w : W) : gores unit * client Socket * W :=
  match open_socket z w with
  | (Val s, w) => (Val tt, set_field sub (Some s) z, w)
  | (Err e, w) => (Err e, z, w)
  | (Panic p, w) => (Panic p, z, w)
  | (Exit e, w) => (Exit e, z, w)
  end.

(** ** The goroutines *)

(** A frame of a message *)
Definition frame (msg : list (list Z)) (i : nat) : gores (list Z) :=
  match msg !! i with Some f => Val f | None => Panic IndexOutOfRange end.

(** The topic and the hash of a message; [binary.LittleEndian.Uint32] panics on
    fewer than four bytes. *)
Definition decode_message (msg : list (list Z)) : gores (string * string) :=
  topic ← frame msg 0;
  body ← frame msg 1;
  seq ← frame msg 2;
  if (length seq <? 4)%nat then Panic IndexOutOfRange else Val (of_bytes topic, EncodeToString body).

(** Where [listen] is: at [RecvMessageBytes], or at a send that waits for its
    receiver *)
Inductive position :=
| Receiving
| Signalling                (** [signalMempoolChan <- struct{}{}] *)
| Announcing                (** [blockHashChan <- struct{}{}] *)
| HandBlock (hash : string) (** [blockChan <- body] *)
| HandTx (hash : string).   (** [txChan <- body] *)

(** What [listen] does with a message: whether [blockChan] and [txChan] are closed
    then, and where it goes.  It does not return when [doneChan] is closed. *)
Definition listen_message (done closed : bool) (msg : list (list Z)) : gores (bool * position) :=
  '(topic, body) ← decode_message msg;
  if done then (if closed then Panic CloseOfClosed else Val (true, Receiving))
  else if bool_decide (topic = "hashblock") then Val (closed, HandBlock body)
  else if bool_decide (topic = "hashtx") then Val (closed, HandTx body)
  else Val (closed, Receiving).

(** What is sent on [blockHashChan]: hashes, or the empty struct after a
    reconnection. *)
Inductive announcement := Hashes (l : list string) | Resync.

(** What [listen] got from its socket. *)
Inductive hearing := Heard (topic body : string) | Failed (e : gerror).

(** The goroutines, the channels between them and what left them. *)
Record links := {
  zmq : client Socket;
  world : W;
  listener : position;
  dispatching : bool;           (** the goroutine of [Start] has not returned *)
  block_senders : list string;  (** goroutines of [Start] at [blockHashChan <- []string{hash}] *)
  tx_senders : list MempoolTx;  (** goroutines of [Start] at [mempoolTxChan <- ...] *)
  stopped : bool;               (** [doneChan] is closed *)
  in_closed : bool;             (** [blockChan] and [txChan] are closed *)
  out_closed : bool;            (** [blockHashChan] and [mempoolTxChan] are closed *)
  announced : list announcement;  (** received by [syncToTip] *)
  mempool_txs : list MempoolTx;   (** received by [getMempoolTxs] *)
  signals : nat;                  (** received by [processMempool] *)
  hearings : list hearing;
}.

#[global] Instance links_settable : Settable links := fun s =>
  {| zmq := zmq s; world := world s; listener := listener s; dispatching := dispatching s;
     block_senders := block_senders s; tx_senders := tx_senders s; stopped := stopped s; in_closed := in_closed s;
     out_closed := out_closed s; announced := announced s; mempool_txs := mempool_txs s; signals := signals s;
     hearings := hearings s |}.

Inductive outcome := Running (s : links) | Crashed (p : gopanic).

(** A message or an error reaches [listen]; the result of [z.Connect()] is not
    looked at. *)
Inductive hear (s : links) : outcome → Prop :=
| hear_nil :
    listener s = Receiving → sub (zmq s) = None → hear s (Crashed NilDereference)
| hear_error k e w1 r z w2 :
    listener s = Receiving → sub (zmq s) = Some k → RecvMessageBytes k (world s) = (Err e, w1) →
    Connect (zmq s) w1 = (r, z, w2) → returned r →
    hear s (Running (set_field zmq z (set_field world w2 (set_field listener Signalling
      (set_field hearings (hearings s ++ [Failed e]) s)))))
| hear_message k msg w topic body closed p :
    listener s = Receiving → sub (zmq s) = Some k → RecvMessageBytes k (world s) = (Val msg, w) →
    decode_message msg = Val (topic, body) → listen_message (stopped s) (in_closed s) msg = Val (closed, p) →
    hear s (Running (set_field world w (set_field in_closed closed (set_field listener p
      (set_field hearings (hearings s ++ [Heard topic body]) s)))))
| hear_panic k msg w p :
    listener s = Receiving → sub (zmq s) = Some k → RecvMessageBytes k (world s) = (Val msg, w) →
    listen_message (stopped s) (in_closed s) msg = Panic p → hear s (Crashed p).

(** [func (z *ZMQ) Start(...)] and the sends of [listen] *)
Inductive work (s : links) : outcome → Prop :=
| signal :
    listener s = Signalling →
    work s (Running (set_field listener Announcing (set_field signals (S (signals s)) s)))
| announce :
    listener s = Announcing → out_closed s = false →
    work s (Running (set_field listener Receiving (set_field announced (announced s ++ [Resync]) s)))
| announce_closed :
    listener s = Announcing → out_closed s = true → work s (Crashed SendOnClosed)
| hand_block h :
    listener s = HandBlock h → dispatching s = true →
    work s (Running (set_field listener Receiving (set_field block_senders (block_senders s ++ [h]) s)))
| hand_tx h :
    listener s = HandTx h → dispatching s = true →
    work s (Running (set_field listener Receiving
      (set_field tx_senders (tx_senders s ++ [{| mtx_Hash := h; Fails := 0 |}]) s)))
| receive_closed_block :
    in_closed s = true → dispatching s = true →
    work s (Running (set_field block_senders (block_senders s ++ [""%string]) s))
| receive_closed_tx :
    in_closed s = true → dispatching s = true →
    work s (Running (set_field tx_senders (tx_senders s ++ [{| mtx_Hash := ""; Fails := 0 |}]) s))
| deliver_block l1 h l2 :
    block_senders s = l1 ++ h :: l2 → out_closed s = false →
    work s (Running (set_field block_senders (l1 ++ l2) (set_field announced (announced s ++ [Hashes [h]]) s)))
| deliver_tx l1 m l2 :
    tx_senders s = l1 ++ m :: l2 → out_closed s = false →
    work s (Running (set_field tx_senders (l1 ++ l2) (set_field mempool_txs (mempool_txs s ++ [m]) s)))
| send_block_closed :
    block_senders s ≠ [] → out_closed s = true → work s (Crashed SendOnClosed)
| send_tx_closed :
    tx_senders s ≠ [] → out_closed s = true → work s (Crashed SendOnClosed)
| dispatcher_returns :
    stopped s = true → dispatching s = true →
    work s (Running (set_field out_closed true (set_field dispatching false s))).

(** [close(idxr.doneChan)] of [staySynced] *)
Inductive stop (s : links) : outcome → Prop :=
| close_done : stopped s = false → stop s (Running (set_field stopped true s)).

Definition zstep (s : links) (o : outcome) : Prop := hear s o ∨ work s o ∨ stop s o.

(** The steps between running states *)
Definition runs (R : links → outcome → Prop) (s s' : links) : Prop := R s (Running s').

(** [idxr.mq.Start(...)] *)
Definition zstart (z : client Socket) (w : W) : links :=
  {| zmq := z; world := w; listener := Receiving; dispatching := true; block_senders := []; tx_senders := [];
     stopped := false; in_closed := false; out_closed := false; announced := []; mempool_txs := []; signals := 0;
     hearings := [] |}.

(** ** What is passed on *)

Definition announced_hashes (l : list announcement) : list string :=
  flat_map (fun a => match a with Hashes l => l | Resync => [] end) l.

Definition resyncs (l : list announcement) : nat :=
  length (List.filter (fun a => match a with Resync => true | Hashes _ => false end) l).

(** The hashes heard under a topic, and the errors *)
Definition heard_of (topic : string) (l : list hearing) : list string :=
  omap (fun h => match h with Heard t b => if bool_decide (t = topic) then Some b else None | Failed _ => None end) l.

Definition failures (l : list hearing) : nat :=
  length (List.filter (fun h => match h with Failed _ => true | Heard _ _ => false end) l).

(** What [listen] still has in hand *)
Definition block_in_hand (p : position) : list string := match p with HandBlock h => [h] | _ => [] end.
Definition tx_in_hand (p : position) : list string := match p with HandTx h => [h] | _ => [] end.

Definition fresh_tx (h : string) : MempoolTx := {| mtx_Hash := h; Fails := 0 |}.

Record links_ok (s : links) : Prop := {
  ok_sub : sub (zmq s) ≠ None;
  ok_open : stopped s = false → dispatching s = true ∧ in_closed s = false ∧ out_closed s = false;
  ok_blocks : in_closed s = false →
    announced_hashes (announced s) ++ block_senders s ++ block_in_hand (listener s) ≡ₚ
      heard_of "hashblock" (hearings s);
  ok_txs : in_closed s = false →
    mempool_txs s ++ tx_senders s ++ map fresh_tx (tx_in_hand (listener s)) ≡ₚ
      map fresh_tx (heard_of "hashtx" (hearings s));
  ok_resyncs : (resyncs (announced s) + match listener s with Signalling | Announcing => 1 | _ => 0 end =
    failures (hearings s))%nat;
  ok_signals : (signals s + match listener s with Signalling => 1 | _ => 0 end = failures (hearings s))%nat;
}.

Lemma announced_hashes_app l k : announced_hashes (l ++ k) = announced_hashes l ++ announced_hashes k.
Proof. apply flat_map_app. Qed.
Lemma resyncs_app l k : resyncs (l ++ k) = (resyncs l + resyncs k)%nat.
Proof. unfold resyncs. by rewrite List.filter_app, length_app. Qed.
Lemma heard_of_app t l k : heard_of t (l ++ k) = heard_of t l ++ heard_of t k.
Proof. apply omap_app. Qed.
Lemma failures_app l k : failures (l ++ k) = (failures l + failures k)%nat.
Proof. unfold failures. by rewrite List.filter_app, length_app. Qed.

Create Rewrite HintDb links.
Hint Rewrite announced_hashes_app resyncs_app heard_of_app failures_app map_app app_nil_r : links.

Lemma Connect_sub z w r z' w' : Connect z w = (r, z', w') → sub z ≠ None → sub z' ≠ None.
Proof. unfold Connect. intros E Hs. by destruct (open_socket z w) as [[] ?]; simplify_eq. Qed.

Arguments announced_hashes : simpl never.
Arguments resyncs : simpl never.
Arguments heard_of : simpl never.
Arguments failures : simpl never.

(** The invariant of a state that is a record of changes to another *)
Ltac links_solve :=
  split; cbn; autorewrite with links in *; cbn in *; try done;
  unfold announced_hashes, resyncs, heard_of, failures in *; cbn in *; try lia.

(** Cases of a message that does not crash [listen] *)
Lemma listen_message_inv done closed msg topic body closed' p :
  decode_message msg = Val (topic, body) → listen_message done closed msg = Val (closed', p) →
  (done = true ∧ closed = false ∧ closed' = true ∧ p = Receiving) ∨
  (done = false ∧ closed' = closed ∧
    p = (if bool_decide (topic = "hashblock") then HandBlock body
         else if bool_decide (topic = "hashtx") then HandTx body else Receiving)).
Proof.
  unfold listen_message. intros ->. cbn. destruct done, closed; repeat case_bool_decide; naive_solver.
Qed.

Lemma links_ok_start z w k : sub z = Some k → links_ok (zstart z w).
Proof. intros Hz. by split; cbn; rewrite ?Hz. Qed.

Lemma links_ok_hear s s' : links_ok s → hear s (Running s') → links_ok s'.
Proof.
  intros [Hsub Hopen Hb Ht Hr Hs] H. inversion H as [|k e w1 r z w2 Hl Hk _ Hc _|k msg w topic body closed p Hl Hk _ Hd Hm|];
    subst; clear H; rewrite Hl in *; cbn [block_in_hand tx_in_hand map] in *.
  - links_solve. by eapply Connect_sub.
  - destruct (listen_message_inv _ _ _ _ _ _ _ Hd Hm) as [(E1 & E2 & -> & ->)|(E1 & -> & ->)]; [links_solve; congruence|].
    repeat case_bool_decide; subst; links_solve; repeat case_bool_decide; try done; intros Ei; rewrite ?app_nil_r, ?app_assoc; auto.
    + by apply Permutation_app_tail, Hb.
    + by apply Permutation_app_tail, Ht.
Qed.

Lemma links_ok_work s s' : links_ok s → work s (Running s') → links_ok s'.
Proof.
  intros [Hsub Hopen Hb Ht Hr Hs] H.
  inversion H as [Hl|Hl Ho| |h Hl Hd|h Hl Hd|Hi Hd|Hi Hd|l1 h l2 Hl Ho|l1 m l2 Hl Ho| | |Hst Hd]; subst; clear H;
    rewrite ?Hl in *.
  - links_solve.
  - links_solve.
  - links_solve.
  - links_solve.
  - links_solve; congruence.
  - links_solve; congruence.
  - links_solve. intros Ei. rewrite <-(Hb Ei), <-!app_assoc. cbn [app]. apply Permutation_app_head, Permutation_middle.
  - links_solve. intros Ei. rewrite <-(Ht Ei), <-!app_assoc. cbn [app]. apply Permutation_app_head, Permutation_middle.
  - links_solve; congruence.
Qed.

Lemma links_ok_stop s s' : links_ok s → stop s (Running s') → links_ok s'.
Proof. intros [Hsub Hopen Hb Ht Hr Hs] H. inversion H; subst. links_solve. Qed.

Lemma links_ok_reachable z w k s : sub z = Some k → rtc (runs zstep) (zstart z w) s → links_ok s.
Proof.
  intros Hz H. revert s H. apply (rtc_ind_r (R := runs zstep) (fun s => links_ok s) (zstart z w)); [by eapply links_ok_start|].
  intros x y _ [Hxy|[Hxy|Hxy]] Hok; [by eapply links_ok_hear|by eapply links_ok_work|by eapply links_ok_stop].
Qed.

(** ** Every hash arrives *)

(** The sends that are left *)
Definition unsent (s : links) : nat :=
  match listener s with Receiving => 0 | Announcing => 1 | Signalling | HandBlock _ | HandTx _ => 2 end +
  length (block_senders s) + length (tx_senders s).

Lemma work_unsent s s' :
  links_ok s → stopped s = false → work s (Running s') →
  links_ok s' ∧ stopped s' = false ∧ hearings s' = hearings s ∧ (unsent s' + 1 ≤ unsent s)%nat.
Proof.
  intros Hok Hst H. split; [by eapply links_ok_work|]. destruct (ok_open _ Hok Hst) as (Hd & Hi & Ho).
  unfold unsent. inversion H as [Hl|Hl _| |h Hl _|h Hl _|Hi' _|Hi' _|l1 h l2 Hl _|l1 m l2 Hl _| | |Hst' _]; subst; clear H;
    try congruence; cbn; rewrite Hl, ?length_app; cbn; rewrite ?length_app; (split_and!; [done|done|lia]).
Qed.

Lemma work_steps_unsent n s s' :
  links_ok s → stopped s = false → nsteps (runs work) n s s' →
  links_ok s' ∧ stopped s' = false ∧ hearings s' = hearings s ∧ (unsent s' + n ≤ unsent s)%nat.
Proof.
  intros Hok Hst H. induction H as [|n x y z Hxy _ IH]; [by split_and!; [..|lia]|].
  destruct (work_unsent _ _ Hok Hst Hxy) as (Hok' & Hst' & Hh & Hle).
  destruct (IH Hok' Hst') as (? & ? & Hh' & Hle'). split_and!; [done|done|congruence|lia].
Qed.

(** Before [doneChan] is closed only a send waits *)
Lemma quiet_sent s :
  links_ok s → stopped s = false → (∀ o, ¬ work s o) →
  listener s = Receiving ∧ block_senders s = [] ∧ tx_senders s = [].
Proof.
  intros Hok Hst Hq. destruct (ok_open _ Hok Hst) as (Hd & Hi & Ho). split_and!.
  - destruct (listener s) as [| | |h|h] eqn:Hl; [done|exfalso; eapply Hq..];
      [by apply signal|by apply announce|by eapply hand_block|by eapply hand_tx].
  - destruct (block_senders s) as [|h l] eqn:Hl; [done|]. exfalso. by eapply Hq, (deliver_block s [] h l).
  - destruct (tx_senders s) as [|m l] eqn:Hl; [done|]. exfalso. by eapply Hq, (deliver_tx s [] m l).
Qed.

Lemma no_crash_open {laws : Zmq4Laws Socket W} {publishes : NodePublishes Socket W} s p :
  links_ok s → stopped s = false → ¬ zstep s (Crashed p).
Proof.
  intros Hok Hst. destruct (ok_open _ Hok Hst) as (Hd & Hi & Ho).
  intros [H|[H|H]]; [|by inversion H; congruence|by inversion H].
  inversion H as [Hl Hs|Hl Hs|Hl Hs|k msg w q Hl Hk Hm Hp].
  - by destruct (ok_sub _ Hok).
  - pose proof (node_publishes k (world s)) as Hn. rewrite Hm in Hn. destruct Hn as (topic & body & seq & -> & Hlen).
    revert Hp. rewrite Hst. unfold listen_message, decode_message. cbn. rewrite Hlen. cbn. by repeat case_bool_decide.
Qed.

End sockets.

(** C22. Before [doneChan] is closed every hash heard is passed on: however the
    goroutines take turns, none of them panics; they make finitely many sends
    between two messages; and once no send is left [syncToTip] has received
    exactly the block hashes heard and [getMempoolTxs] exactly the transaction
    hashes, each once and with no fails, and every failure of the socket has led
    to one signal for the mempool and one for the blocks. *)
Theorem hashes_delivered {Socket W} {zmq4 : Zmq4 Socket W} {laws : Zmq4Laws Socket W}
    {publishes : NodePublishes Socket W} (z : client Socket) (w : W) (k : Socket) (s : links) :
  sub z = Some k → rtc (runs zstep) (zstart z w) s → stopped s = false →
  (∀ p, ¬ zstep s (Crashed p)) ∧
  (∀ n s', nsteps (runs work) n s s' → (n ≤ unsent s)%nat) ∧
  (∀ s', rtc (runs work) s s' → (∀ o, ¬ work s' o) →
    listener s' = Receiving ∧ hearings s' = hearings s ∧
    announced_hashes (announced s') ≡ₚ heard_of "hashblock" (hearings s) ∧
    mempool_txs s' ≡ₚ map fresh_tx (heard_of "hashtx" (hearings s)) ∧
    resyncs (announced s') = failures (hearings s) ∧ signals s' = failures (hearings s)).
Proof.
  intros Hz Hrun Hst. pose proof (links_ok_reachable _ _ _ _ Hz Hrun) as Hok. split_and!.
  - intros p. by apply no_crash_open.
  - intros n s' H. destruct (work_steps_unsent _ _ _ Hok Hst H) as (_ & _ & _ & Hle). lia.
  - intros s' [n H]%rtc_nsteps Hq. destruct (work_steps_unsent _ _ _ Hok Hst H) as (Hok' & Hst' & <- & _).
    destruct (quiet_sent _ Hok' Hst' Hq) as (Hl & Hb & Ht). destruct (ok_open _ Hok' Hst') as (_ & Hi & _).
    destruct Hok' as [_ _ Pb Pt Pr Ps]. specialize (Pb Hi). specialize (Pt Hi).
    rewrite Hl in *. rewrite Hb, app_nil_r in Pb. rewrite Ht, app_nil_r in Pt. split_and!; try done; lia.
Qed.

(** ** Connections *)

Section connections.
Context {Socket W : Type} {zmq4 : Zmq4 Socket W} {laws : Zmq4Laws Socket W}.

Lemma subscribe_topics s l w :
  match subscribe s l w with
  | (Val _, w') => rcvtimeo s w' = rcvtimeo s w ∧ endpoints s w' = endpoints s w ∧ topics s w' = topics s w ++ l
  | (Err _, _) => True
  | _ => False
  end.
Proof.
  revert w. induction l as [|t l IH]; intros w; cbn [subscribe]; [by rewrite app_nil_r|].
  unfold act_bind, act_wrap. pose proof (SetSubscribe_spec s t w) as Ht. destruct (SetSubscribe s t w) as [[] w1]; try done.
  cbn. specialize (IH w1). destruct (subscribe s l w1) as [[] w2]; try done. destruct IH as (-> & -> & ->), Ht as (-> & -> & ->).
  by rewrite <-app_assoc.
Qed.

(** [Connect] replaces the socket only by one that has the timeout, is connected
    and is subscribed to every topic; when a call fails the old socket stays. *)
Lemma Connect_subscribes z w :
  match Connect z w with
  | (Val _, z', w') => ∃ s, z' = set_field sub (Some s) z ∧ rcvtimeo s w' = int64 (timeout z * Second) ∧
      endpoints s w' = [subURL z] ∧ topics s w' = subs z
  | (Err _, z', _) => z' = z
  | _ => False
  end.
Proof.
  unfold Connect, open_socket, act_bind, act_wrap.
  pose proof (NewSocket_spec w) as H1. destruct (NewSocket w) as [[s| | |] w1]; try done. cbn.
  pose proof (SetRcvtimeo_spec s (int64 (timeout z * Second)) w1) as H2. destruct (SetRcvtimeo s _ w1) as [[] w2]; try done. cbn.
  pose proof (SocketConnect_spec s (subURL z) w2) as H3. destruct (SocketConnect s _ w2) as [[] w3]; try done. cbn.
  pose proof (subscribe_topics s (subs z) w3) as H4. destruct (subscribe s (subs z) w3) as [[] w4]; try done.
  destruct H1 as (E1 & E2), H2 as (E3 & E4 & E5), H3 as (E6 & E7 & E8), H4 as (E9 & E10 & E11).
  exists s. split_and!; [done|congruence| |]; [by rewrite E10, E7, E4, E1|by rewrite E11, E8, E5, E2].
Qed.

(** After [doneChan] is closed the second message that reaches [listen] panics:
    it closes [blockChan] again. *)
Lemma listen_closes_twice s k msg w1 s1 :
  stopped s = true → listener s = Receiving → sub (zmq s) = Some k →
  RecvMessageBytes k (world s) = (Val msg, w1) → hear s (Running s1) →
  ∀ msg' w2 topic body, RecvMessageBytes k w1 = (Val msg', w2) → decode_message msg' = Val (topic, body) →
  hear s1 (Crashed CloseOfClosed).
Proof.
  intros Hst Hl Hk Hm H msg' w2 topic body Hm' Hd.
  inversion H as [|k' e w1' r z w2' _ Hk' He|k' msg1 w' t b closed p _ Hk' Hm1 Hd1 Hp|]; subst; clear H;
    rewrite Hk in Hk'; injection Hk' as <-; [congruence|]. rewrite Hm in Hm1. injection Hm1 as <- <-.
  destruct (listen_message_inv _ _ _ _ _ _ _ Hd1 Hp) as [(_ & _ & -> & ->)|(E & _)]; [|congruence].
  eapply hear_panic; cbn; [done|exact Hk|exact Hm'|]. unfold listen_message. rewrite Hd. cbn. by rewrite Hst.
Qed.

End connections.

(** ** A scripted socket *)

(** A world with numbered sockets and the messages that are still to come; [None]
    is a timeout. *)
Record script := {
  sockets : list (Z * list string * list string);
  messages : list (option (string * string));
}.

Definition on_socket (i : nat) (f : Z * list string * list string → Z * list string * list string) : act script unit :=
  fun w => match sockets w !! i with
           | Some x => (Val tt, {| sockets := <[i := f x]> (sockets w); messages := messages w |})
           | None => (Err (ENew "not a socket"), w)
           end.

Definition scripted : Zmq4 nat script := {|
  NewSocket := fun w => (Val (length (sockets w)), {| sockets := sockets w ++ [(-1, [], [])]; messages := messages w |});
  SetRcvtimeo := fun i d => on_socket i (fun '(_, es, ts) => (d, es, ts));
  SocketConnect := fun i url => on_socket i (fun '(d, es, ts) => (d, es ++ [url], ts));
  SetSubscribe := fun i t => on_socket i (fun '(d, es, ts) => (d, es, ts ++ [t]));
  RecvMessageBytes := fun _ w =>
    match messages w with
    | Some (topic, body) :: l => (Val [bytes topic; bytes body; [0; 0; 0; 0]], {| sockets := sockets w; messages := l |})
    | None :: l => (Err (ENew "resource temporarily unavailable"), {| sockets := sockets w; messages := l |})
    | [] => (Err (ENew "resource temporarily unavailable"), w)
    end;
|}.

Definition socket_of (i : nat) (w : script) : Z * list string * list string := default (0, [], []) (sockets w !! i).

Lemma on_socket_spec i f w :
  match on_socket i f w with
  | (Val _, w') => socket_of i w' = f (socket_of i w)
  | (Err _, _) => True
  | _ => False
  end.
Proof.
  unfold on_socket, socket_of. destruct (sockets w !! i) as [x|] eqn:E; [|done]. cbn.
  by rewrite list_lookup_insert_eq by (by eapply lookup_lt_Some).
Qed.

Definition scripted_laws : @Zmq4Laws nat script scripted.
Proof.
  refine (@Build_Zmq4Laws _ _ scripted (fun i w => (socket_of i w).1.1) (fun i w => (socket_of i w).1.2)
    (fun i w => (socket_of i w).2) _ _ _ _ _).
  - intros w. cbn. unfold socket_of. cbn. by rewrite lookup_app_r, Nat.sub_diag by lia.
  - intros i d w. cbn. pose proof (on_socket_spec i (fun '(_, es, ts) => (d, es, ts)) w) as H.
    destruct (on_socket _ _ w) as [[] w']; try done. rewrite H. by destruct (socket_of i w) as [[? ?] ?].
  - intros i d w. cbn. pose proof (on_socket_spec i (fun '(t, es, ts) => (t, es ++ [d], ts)) w) as H.
    destruct (on_socket _ _ w) as [[] w']; try done. rewrite H. by destruct (socket_of i w) as [[? ?] ?].
  - intros i d w. cbn. pose proof (on_socket_spec i (fun '(t, es, ts) => (t, es, ts ++ [d])) w) as H.
    destruct (on_socket _ _ w) as [[] w']; try done. rewrite H. by destruct (socket_of i w) as [[? ?] ?].
  - intros i w. cbn. by destruct (messages w) as [|[[]|] ?].
Defined.

Lemma scripted_publishes : @NodePublishes nat script scripted.
Proof. intros i w. cbn. destruct (messages w) as [|[[topic body]|] ?]; try done. by eexists _, _, _. Qed.

(** A block is announced, the node is silent for a while, a transaction follows. *)
Definition test_client : client nat := {| timeout := 30; subURL := "tcp://btc:28332"; subs := ["hashblock"; "hashtx"]; sub := Some 0%nat |}.

Definition test_script : script :=
  {| sockets := [(30 * Second, ["tcp://btc:28332"], ["hashblock"; "hashtx"])];
     messages := [Some ("hashblock", "A"); None; Some ("hashtx", "B")] |}%string.

Definition test_end : @links nat script :=
  {| zmq := set_field sub (Some 1%nat) test_client;
     world := {| sockets := sockets test_script ++ sockets test_script; messages := [] |};
     listener := Receiving; dispatching := true; block_senders := []; tx_senders := []; stopped := false;
     in_closed := false; out_closed := false; announced := [Resync; Hashes ["41"]];
     mempool_txs := [fresh_tx "42"]; signals := 1;
     hearings := [Heard "hashblock" "41"; Failed (ENew "resource temporarily unavailable"); Heard "hashtx" "42"] |}%string.

Lemma test_run : rtc (runs (@zstep _ _ scripted)) (zstart test_client test_script) test_end.
Proof.
  eapply rtc_l; [left; by eapply hear_message|]. cbn.
  eapply rtc_l; [right; left; by eapply hand_block|]. cbn.
  eapply rtc_l; [left; by eapply hear_error|]. cbn.
  eapply rtc_l; [right; left; by eapply signal|]. cbn.
  eapply rtc_l; [right; left; by eapply announce|]. cbn.
  eapply rtc_l; [right; left; by eapply (deliver_block _ [] "41" [])|]. cbn.
  eapply rtc_l; [left; by eapply hear_message|]. cbn.
  eapply rtc_l; [right; left; by eapply hand_tx|]. cbn.
  eapply rtc_l; [right; left; by eapply (deliver_tx _ [] (fresh_tx "42") [])|]. cbn.
  apply rtc_refl.
Qed.

Lemma test_end_quiet o : ¬ @work _ _ test_end o.
Proof. intros H. inversion H as [| | | | | | |l1 h l2 Hl|l1 m l2 Hl| | |]; try discriminate; by destruct l1. Qed.

Lemma hashes_delivered_witness :
  @listener nat script test_end = Receiving ∧ (∀ p, ¬ @zstep _ _ scripted test_end (Crashed p)) ∧
  announced_hashes (announced test_end) ≡ₚ ["41"%string] ∧ resyncs (announced test_end) = 1%nat.
Proof.
  destruct (@hashes_delivered nat script scripted scripted_laws scripted_publishes test_client test_script 0%nat test_end
    eq_refl test_run eq_refl) as (Hc & _ & Hd).
  destruct (Hd test_end (rtc_refl _ _) test_end_quiet) as (Hl & _ & Hb & _ & Hr & _).
  split; [exact Hl|]. split; [exact Hc|]. split; [exact Hb|exact Hr].
Defined.
