(* ===== verification/BlockValidator.v ===== *)
(** * BlockValidator: comparison of the stored chain with the node

    src/V2/cmd/blockvalidator/main.go.  For every height from the last validated
    block the node's block is compared with the stored one; a block that differs
    is written again.  The position is kept in the metadata so that the next
    run starts there. *)

From stdpp Require Import base list strings gmap relations numbers.
From Stdlib Require Import ZArith Lia Permutation.
From S2P Require Import Prelude GoStrings Retry Utxo BlockTable Store Postgres Ledger Indexer Pipeline Sync.

Local Open Scope Z_scope.

(** [revalidateOffset] *)
Definition revalidateOffset (coin : string) : Z :=
  let m : gmap string Z :=
    {[ "bch" := 10; "btc" := 10; "dash" := 50; "dgb" := 250; "doge" := 100; "ltc" := 50 ]} in
  default 0 (m !! ToLower coin).

(** [type blockResult struct] *)
Record blockResult := { dbHash : string; dbTxIds : list string; nodeBlock : Block }.

Definition result_height (r : blockResult) : Z := block_height (nodeBlock r).

(** [func (v *blockValidator) generateBlockHeights() chan int]: [startBlock],
    [totalBlocks] and the heights queued, from what [Get] and [LastBlock] return *)
Definition generateBlockHeights (value : gores string) (last : gores (option Z)) : gores (Z * Z * list Z) :=
  value ← fatal_err value;
  match Atoi value with
  | (_, Some _) => Exit (ENew "failed to convert block")
  | (startBlock, None) =>
      blk ← fatal_err last;
      match blk with
      | None => Panic NilDereference
      | Some endBlock =>
          let totalBlocks := int64 (endBlock - startBlock + 1) in
          if totalBlocks <? 0 then Panic NegativeChanSize
          else Val (startBlock, totalBlocks, seqZ startBlock (endBlock + 1 - startBlock))
      end
  end.

(** [func (v *blockValidator) readBlock(...)]: one node block *)
Definition readBlock {order : RowOrder} (nodeBlock : Block) (st : store) : gores blockResult :=
  dbBlock ← fatal_err (GetBlock (ByHeight (block_height nodeBlock)) st);
  dbTxHashes ← fatal_err (GetTxHashesByBlockHash (Hash dbBlock) None None st);
  Val {| dbHash := Hash dbBlock; dbTxIds := dbTxHashes; nodeBlock := nodeBlock |}.

(** [func (v *blockValidator) orderResults(...)]: the inner loop sends the results
    in line; each round removes one from the map, so its size bounds them *)
Fixpoint send_results (fuel : nat) (nextBlock : Z) (results : gmap Z blockResult) :
    list blockResult * (Z * gmap Z blockResult) :=
  match fuel with
  | O => ([], (nextBlock, results))
  | S fuel =>
      match results !! nextBlock with
      | Some r =>
          let '(sent, st) := send_results fuel (int64 (nextBlock + 1)) (delete nextBlock results) in
          (r :: sent, st)
      | None => ([], (nextBlock, results))
      end
  end.

Definition order_result (st : Z * gmap Z blockResult) (result : blockResult) : list blockResult * (Z * gmap Z blockResult) :=
  let results := <[result_height result := result]> st.2 in
  send_results (size results) st.1 results.

Fixpoint orderResults (st : Z * gmap Z blockResult) (arrivals : list blockResult) :
    list blockResult * (Z * gmap Z blockResult) :=
  match arrivals with
  | [] => ([], st)
  | r :: arrivals =>
      let '(sent, st) := order_result st r in
      let '(more, st) := orderResults st arrivals in
      (sent ++ more, st)
  end.

(** What [checkResult] decides: the block is valid, or is to be repaired. *)
Inductive verdict := ValidBlock | RepairBlock (b : Block).

Definition set_txs (b : Block) (l : list Tx) : Block := {| header := header b; Txs := l |}.

(** The loop that collects [missingTxs] *)
Definition missingTxs (r : blockResult) : list Tx :=
  let txs : gset string := list_to_set (dbTxIds r) in
  filter (fun tx => TxID tx ∉ txs) (Txs (nodeBlock r)).

(** [func (v *blockValidator) checkResult(...)]: one result *)
Definition checkResult (result : blockResult) : verdict :=
  if negb (bool_decide (Hash (header (nodeBlock result)) = dbHash result)) then RepairBlock (nodeBlock result)
  else if negb (length (Txs (nodeBlock result)) =? length (dbTxIds result))%nat
  then RepairBlock (set_txs (nodeBlock result) (missingTxs result))
  else ValidBlock.

(** [type blockValidator struct] *)
Record validator := {
  blocksValidated : Z;
  startBlock : Z;
  totalBlocks : Z;
  done : bool;  (** [doneChan] is closed *)
  vconn : conn;
}.

Section validator.
Context {numbers : JsonNumbers} (attempts : Z) (coin : string).

(** The workers of [repairBlock]: the transactions in the order they are
    inserted; a failure is recorded and the others go on. *)
Fixpoint repair_txs (l : list txResult) (c : conn) : bool * conn :=
  match l with
  | [] => (true, c)
  | r :: l =>
      let '(res, c) := InsertTx attempts (fill_hash (r_tx r)) (r_index r) (r_blockId r) c in
      let '(ok, c) := repair_txs l c in
      (match res with Val _ => ok | _ => false end, c)
  end.

(** [func (v *blockValidator) repairBlock(repairChan chan *utxo.Block)]: one block;
    [false] means it is put back in line.  [schedule] is the order in which the
    workers insert the transactions. *)
Definition repairBlock (schedule : list txResult → list txResult) (nodeBlock : Block) (c : conn) : bool * conn :=
  match InsertBlock attempts (header nodeBlock) true c with
  | (Val blockID, c) => repair_txs (schedule (block_results nodeBlock blockID)) c
  | (_, c) => (false, c)
  end.

(** [func (v *blockValidator) blockValidated()] *)
Definition blockValidated (v : validator) : gores validator :=
  c ← (if blocksValidated v + revalidateOffset coin <=? totalBlocks v then
         match Set_ "validatedBlock" (Itoa (int64 (startBlock v + blocksValidated v))) (vconn v) with
         | (Val _, c) => Val c
         | (Err e, _) => Exit e
         | (Panic p, _) => Panic p
         | (Exit e, _) => Exit e
         end
       else Val (vconn v));
  let n := int64 (blocksValidated v + 1) in
  if n =? totalBlocks v then
    if done v then Panic CloseOfClosed
    else Val {| blocksValidated := n; startBlock := startBlock v; totalBlocks := totalBlocks v; done := true; vconn := c |}
  else Val {| blocksValidated := n; startBlock := startBlock v; totalBlocks := totalBlocks v; done := done v; vconn := c |}.

End validator.

(** ** The order of the results *)

Definition held_results (m : gmap Z blockResult) : list blockResult := (map_to_list m).*2.
Definition keyed (m : gmap Z blockResult) : Prop := ∀ h r, m !! h = Some r → result_height r = h.

Lemma held_results_insert m r :
  m !! result_height r = None → held_results (<[result_height r := r]> m) ≡ₚ r :: held_results m.
Proof. intros H. unfold held_results. by rewrite map_to_list_insert. Qed.

Lemma send_results_spec fuel next m :
  keyed m → (size m ≤ fuel)%nat → (∀ h, is_Some (m !! h) → h < two63 - 1) → in_int64 next →
  let '(sent, (next', m')) := send_results fuel next m in
  held_results m ≡ₚ sent ++ held_results m' ∧ map result_height sent = seqZ next (Z.of_nat (length sent)) ∧
  next' = next + Z.of_nat (length sent) ∧ in_int64 next' ∧ keyed m' ∧ m' !! next' = None ∧
  ∀ h, is_Some (m' !! h) → is_Some (m !! h).
Proof.
  revert next m. induction fuel as [|fuel IH]; intros next m Hk Hs Hb Hn; cbn [send_results].
  - assert (Hm : m = ∅) by (apply map_size_empty_inv; lia). subst m.
    split_and!; try done; cbn; lia.
  - destruct (m !! next) as [r|] eqn:Hr.
    + assert (Hlt : next < two63 - 1) by (apply Hb; eauto).
      rewrite int64_id by (unfold in_int64, two63 in *; lia).
      assert (Hk' : keyed (delete next m)) by (intros h x [_ Hx]%lookup_delete_Some; by apply Hk).
      assert (Hs' : (size (delete next m) ≤ fuel)%nat) by (rewrite map_size_delete, Hr; lia).
      assert (Hb' : ∀ h, is_Some (delete next m !! h) → h < two63 - 1)
        by (intros h [x [_ Hx]%lookup_delete_Some]; apply Hb; eauto).
      specialize (IH (next + 1) (delete next m) Hk' Hs' Hb' ltac:(unfold in_int64, two63 in *; lia)).
      destruct (send_results fuel (next + 1) (delete next m)) as [sent [next' m']].
      destruct IH as (Hp & Hm & -> & Hn' & Hkm & Hnone & Hsub). split_and!; try done.
      * unfold held_results in *. rewrite <-(map_to_list_delete m next r Hr). cbn. by rewrite Hp.
      * cbn [map length]. rewrite Hm, (Hk _ _ Hr), (seqZ_cons next) by lia. f_equal. f_equal; lia.
      * cbn [length]. lia.
      * intros h Hh%Hsub. destruct Hh as [x [_ Hx]%lookup_delete_Some]. eauto.
    + split_and!; try done; cbn; lia.
Qed.

(** The state of [orderResults] after [arrived]. *)
Record results_ordered (start : Z) (arrived sent : list blockResult) (next : Z) (m : gmap Z blockResult) : Prop := {
  ro_run : map result_height sent = seqZ start (Z.of_nat (length sent));
  ro_next : next = start + Z.of_nat (length sent);
  ro_range : in_int64 next;
  ro_perm : sent ++ held_results m ≡ₚ arrived;
  ro_keyed : keyed m;
  ro_gap : m !! next = None;
}.

Lemma order_result_ordered start arrived sent next m r :
  NoDup (map result_height (arrived ++ [r])) → (∀ x, x ∈ arrived ++ [r] → result_height x < two63 - 1) →
  results_ordered start arrived sent next m →
  let '(more, (next', m')) := order_result (next, m) r in
  results_ordered start (arrived ++ [r]) (sent ++ more) next' m'.
Proof.
  intros Hnd Hb [Hrun Hnext Hrange Hperm Hk Hgap]. unfold order_result. cbn [fst snd].
  set (m1 := <[result_height r := r]> m).
  assert (Hfresh : m !! result_height r = None).
  { destruct (m !! result_height r) as [x|] eqn:Hx; [exfalso|done].
    rewrite map_app in Hnd. apply list.NoDup_app in Hnd as (_ & Hdis & _).
    apply (Hdis (result_height r)); [|by apply list_elem_of_singleton].
    rewrite <-(Hk _ _ Hx). apply (list_elem_of_fmap_2 result_height). rewrite <-Hperm. apply elem_of_app. right.
    unfold held_results. apply list_elem_of_fmap. exists (result_height r, x). split; [done|].
    by apply elem_of_map_to_list. }
  assert (Hk1 : keyed m1).
  { intros h x [[<- <-]|[_ Hx]]%lookup_insert_Some; [done|by apply Hk]. }
  assert (Hb1 : ∀ h, is_Some (m1 !! h) → h < two63 - 1).
  { intros h [x Hx]. rewrite <-(Hk1 _ _ Hx). apply Hb, elem_of_app.
    apply lookup_insert_Some in Hx as [[_ <-]|[_ Hx]]; [right; by apply list_elem_of_singleton|left].
    rewrite <-Hperm. apply elem_of_app. right. unfold held_results. apply list_elem_of_fmap. exists (h, x).
    split; [done|]. by apply elem_of_map_to_list. }
  pose proof (send_results_spec (size m1) next m1 Hk1 ltac:(lia) Hb1 Hrange) as H.
  destruct (send_results _ _ _) as [more [next' m']]. destruct H as (Hp & Hm & -> & Hn' & Hk' & Hnone & _).
  split; try done.
  - rewrite map_app, Hrun, Hm, length_app, Nat2Z.inj_add, seqZ_app by lia. by rewrite Hnext.
  - rewrite length_app. lia.
  - rewrite <-app_assoc, <-Hp. unfold m1. rewrite held_results_insert by done.
    rewrite <-Permutation_middle, Hperm. apply Permutation_cons_append.
Qed.

Lemma orderResults_ordered start arrived sent next m arrivals :
  NoDup (map result_height (arrived ++ arrivals)) → (∀ x, x ∈ arrived ++ arrivals → result_height x < two63 - 1) →
  results_ordered start arrived sent next m →
  let '(more, (next', m')) := orderResults (next, m) arrivals in
  results_ordered start (arrived ++ arrivals) (sent ++ more) next' m'.
Proof.
  revert arrived sent next m. induction arrivals as [|r arrivals IH]; intros arrived sent next m Hnd Hb Ho;
    cbn [orderResults]; [by rewrite !app_nil_r|].
  change (r :: arrivals) with ([r] ++ arrivals) in *. rewrite app_assoc in Hnd, Hb |- *.
  assert (Hnd1 : NoDup (map result_height (arrived ++ [r]))).
  { rewrite map_app in Hnd. by apply list.NoDup_app in Hnd as [? _]. }
  pose proof (order_result_ordered start arrived sent next m r Hnd1) as H.
  destruct (order_result (next, m) r) as [s1 [n1 m1]].
  specialize (H ltac:(intros x Hx; apply Hb, elem_of_app; by left) Ho).
  specialize (IH _ _ _ _ Hnd Hb H). destruct (orderResults (n1, m1) arrivals) as [more [n2 m2]].
  by rewrite app_assoc.
Qed.

(** [orderResults] passes the results on by ascending height, each once,
    whatever order the readers deliver them in, and keeps none. *)
Lemma orderResults_restores_order (start n : Z) (arrivals : list blockResult) :
  0 ≤ n → in_int64 start → start + n < two63 → map result_height arrivals ≡ₚ seqZ start n →
  ∃ sent, orderResults (start, ∅) arrivals = (sent, (start + n, ∅)) ∧
    map result_height sent = seqZ start n ∧ sent ≡ₚ arrivals.
Proof.
  intros Hn0 Hs Hn Hp.
  assert (Hin : ∀ x, x ∈ arrivals → start ≤ result_height x < start + n).
  { intros x Hx. apply (list_elem_of_fmap_2 result_height) in Hx. change (result_height <$> ?l) with (map result_height l) in Hx.
    rewrite Hp, elem_of_seqZ in Hx. lia. }
  pose proof (orderResults_ordered start [] [] start ∅ arrivals) as H.
  destruct (orderResults (start, ∅) arrivals) as [sent [next m]]. cbn [app] in H.
  destruct H as [Hrun Hnext _ Hperm Hk Hgap].
  { rewrite Hp. apply NoDup_seqZ. }
  { intros x Hx. specialize (Hin x Hx). lia. }
  { split; try done; cbn; lia. }
  assert (Hm : m = ∅).
  { destruct (decide (next = start + n)) as [Heq|Hne].
    - apply map_size_empty_inv. apply Permutation_length in Hp. rewrite length_map, length_seqZ in Hp.
      apply Permutation_length in Hperm. rewrite length_app in Hperm. unfold held_results in Hperm.
      rewrite length_fmap, length_map_to_list in Hperm. lia.
    - exfalso. assert (Hlt : next < start + n).
      { apply Permutation_length in Hp, Hperm. rewrite length_map, length_seqZ in Hp. rewrite length_app in Hperm. lia. }
      assert (Hnext' : next ∈ map result_height arrivals) by (rewrite Hp, elem_of_seqZ; lia).
      rewrite <-Hperm, map_app, Hrun, elem_of_app, elem_of_seqZ in Hnext'. destruct Hnext' as [|Hh]; [lia|].
      apply list_elem_of_fmap in Hh as (r & Hr & Hin'). unfold held_results in Hin'.
      apply list_elem_of_fmap in Hin' as ([h x] & -> & Hx%elem_of_map_to_list). cbn in Hr.
      pose proof (Hk _ _ Hx) as Hhx. rewrite <-Hr in Hhx. subst h. by rewrite Hgap in Hx. }
  subst m. assert (Hsp : sent ≡ₚ arrivals) by (rewrite <-Hperm; unfold held_results; by rewrite map_to_list_empty, app_nil_r).
  assert (Hlen : Z.of_nat (length sent) = n).
  { rewrite Hsp. apply Permutation_length in Hp. rewrite length_map, length_seqZ in Hp. lia. }
  exists sent. rewrite Hlen in *. by rewrite Hnext.
Qed.

(** ** A run of the validator *)

Definition set_conn (v : validator) (c : conn) : validator :=
  {| blocksValidated := blocksValidated v; startBlock := startBlock v; totalBlocks := totalBlocks v; done := done v;
     vconn := c |}.

(** The results in line for [checkResult], the blocks in line for [repairBlock],
    and the heights counted as validated. *)
Record vstate := {
  v : validator;
  todo : list blockResult;
  repairs : list Block;
  finished : list Z;
}.

Section runs.
Context {numbers : JsonNumbers} (attempts : Z) (coin : string).

Inductive vstep : vstate → vstate → Prop :=
| check_valid r rest v v' repairs finished :
    checkResult r = ValidBlock → blockValidated coin v = Val v' →
    vstep {| v := v; todo := r :: rest; repairs := repairs; finished := finished |}
          {| v := v'; todo := rest; repairs := repairs; finished := finished ++ [result_height r] |}
| check_invalid r rest b v repairs finished :
    checkResult r = RepairBlock b →
    vstep {| v := v; todo := r :: rest; repairs := repairs; finished := finished |}
          {| v := v; todo := rest; repairs := repairs ++ [b]; finished := finished |}
| repaired l1 b l2 schedule c v v' todo finished :
    (∀ l, schedule l ≡ₚ l) → repairBlock attempts schedule b (vconn v) = (true, c) →
    blockValidated coin (set_conn v c) = Val v' →
    vstep {| v := v; todo := todo; repairs := l1 ++ b :: l2; finished := finished |}
          {| v := v'; todo := todo; repairs := l1 ++ l2; finished := finished ++ [block_height b] |}
| not_repaired l1 b l2 schedule c v todo finished :
    (∀ l, schedule l ≡ₚ l) → repairBlock attempts schedule b (vconn v) = (false, c) →
    vstep {| v := v; todo := todo; repairs := l1 ++ b :: l2; finished := finished |}
          {| v := set_conn v c; todo := todo; repairs := l1 ++ l2 ++ [b]; finished := finished |}.

(** [main] after the heights were generated and the results ordered. *)
Definition vstart (start total : Z) (results : list blockResult) (c : conn) : vstate :=
  {| v := {| blocksValidated := 0; startBlock := start; totalBlocks := total; done := false; vconn := c |};
     todo := results; repairs := []; finished := [] |}.

Record vstate_ok (start total : Z) (hs : list Z) (s : vstate) : Prop := {
  vo_fixed : startBlock (v s) = start ∧ totalBlocks (v s) = total;
  vo_count : blocksValidated (v s) = Z.of_nat (length (finished s));
  vo_done : done (v s) = bool_decide (0 < total ∧ Z.of_nat (length (finished s)) = total);
  vo_heights : map result_height (todo s) ++ map block_height (repairs s) ++ finished s ≡ₚ hs;
}.

Lemma checkResult_height r b : checkResult r = RepairBlock b → block_height b = result_height r.
Proof.
  unfold checkResult. destruct (negb _); [by intros [= <-]|]. destruct (negb _); [by intros [= <-]|done].
Qed.

Lemma blockValidated_inv u u' start total k :
  blockValidated coin u = Val u' → startBlock u = start → totalBlocks u = total →
  blocksValidated u = Z.of_nat k → Z.of_nat k < total → total < two63 →
  done u = bool_decide (0 < total ∧ Z.of_nat k = total) →
  startBlock u' = start ∧ totalBlocks u' = total ∧ blocksValidated u' = Z.of_nat (S k) ∧
  done u' = bool_decide (0 < total ∧ Z.of_nat (S k) = total).
Proof.
  intros H E1 E2 E3 Hlt Hmax Hd. unfold blockValidated in H. apply bind_Val in H as (c & _ & H).
  rewrite E3, E2, int64_id in H by (unfold in_int64, two63 in *; lia).
  destruct (Z.eqb_spec (Z.of_nat k + 1) total) as [Heq|Hne].
  - destruct (done u); [done|]. injection H as <-. cbn. split_and!; [done|done|lia|].
    symmetry. apply bool_decide_eq_true. lia.
  - injection H as <-. cbn. split_and!; [done|done|lia|]. rewrite Hd. apply bool_decide_ext. lia.
Qed.

Lemma vstate_ok_step start total hs s s' :
  total = Z.of_nat (length hs) → total < two63 →
  vstate_ok start total hs s → vstep s s' → vstate_ok start total hs s'.
Proof.
  intros Htot Hmax [[E1 E2] Hc Hd Hh] Hstep.
  pose proof (Permutation_length Hh) as Hlen. rewrite !length_app, !length_map in Hlen.
  destruct Hstep as [r rest u u' reps fin Hcheck Hv|r rest b u reps fin Hcheck|l1 b l2 sched c u u' tds fin _ _ Hv|
    l1 b l2 sched c u tds fin _ _]; cbn [v todo repairs finished] in *.
  - apply (blockValidated_inv u u' start total (length fin)) in Hv as (F1 & F2 & F3 & F4); try done;
      [|cbn in Hlen; lia].
    split; cbn [v todo repairs finished]; [done|by rewrite length_app, Nat.add_1_r|by rewrite length_app, Nat.add_1_r|].
    rewrite <-Hh. cbn. rewrite !app_assoc, <-Permutation_cons_append. done.
  - split; cbn [v todo repairs finished]; try done. rewrite <-Hh, map_app. cbn.
    rewrite (checkResult_height _ _ Hcheck), <-app_assoc. cbn.
    by rewrite <-!Permutation_middle.
  - rewrite length_app in Hlen. cbn in Hlen.
    apply (blockValidated_inv (set_conn u c) u' start total (length fin)) in Hv as (F1 & F2 & F3 & F4); try done; [|lia].
    split; cbn [v todo repairs finished]; [done|by rewrite length_app, Nat.add_1_r|by rewrite length_app, Nat.add_1_r|].
    rewrite <-Hh, !map_app. cbn. rewrite <-!app_assoc. apply Permutation_app_head, Permutation_app_head. cbn.
    by rewrite <-Permutation_cons_append, <-Permutation_middle.
  - split; cbn [v todo repairs finished]; try done. rewrite <-Hh, !map_app. cbn. rewrite <-!app_assoc.
    apply Permutation_app_head, Permutation_app_head. cbn. by rewrite <-Permutation_middle.
Qed.

Lemma vstate_ok_reachable start total results c s :
  total = Z.of_nat (length results) → total < two63 →
  rtc vstep (vstart start total results c) s → vstate_ok start total (map result_height results) s.
Proof.
  intros Htot Hmax Hrun.
  assert (Hstart : vstate_ok start total (map result_height results) (vstart start total results c)).
  { split; cbn; try done; [|by rewrite app_nil_r]. symmetry. apply bool_decide_eq_false. lia. }
  revert Hstart. generalize (vstart start total results c) as s0, Hrun. clear Hrun. intros s0 Hrun.
  induction Hrun as [|x y z Hxy _ IH]; intros Hx; [done|]. apply IH. eapply vstate_ok_step; [|done|done|done].
  by rewrite length_map.
Qed.

End runs.

(** ** The position in the metadata *)

(** What a statement keeps, its attempts keep. *)
Lemma exec_preserves {A} (P : store → Prop) msg (stmt : store → gores (A * store)) c :
  (∀ st a st', P st → stmt st = Val (a, st') → P st') → P c.1 → P (exec msg stmt c).2.1.
Proof.
  intros Hk. unfold exec, next_fault. destruct c as [st [|f fs]]; cbn; intros HP.
  - destruct (stmt st) as [[a st']| | |] eqn:Hs; cbn; try done. by eapply Hk.
  - destruct f; try done; destruct (stmt st) as [[a st']| | |] eqn:Hs; cbn; try done; by eapply Hk.
Qed.

Lemma InsertTx_preserves {numbers : JsonNumbers} (P : store → Prop) attempts tx index id c :
  (∀ d st st', P st → transaction_insert id d (Hex tx) index st = Val st' → P st') → P c.1 →
  P (InsertTx attempts tx index id c).2.1.
Proof.
  intros Hk HP. unfold InsertTx. destruct (make_tx tx) as [d| | |]; [|done..].
  match goal with |- context [Simple ?f ?a ?s ?c0] => destruct (Simple f a s c0) as [[r c'] sl] eqn:H end. cbn [fst snd].
  apply (Simple_invariant _ (fun x => P x.1) (fun _ x => P x.1)) in H; [done| |done].
  intros x Hx. match goal with |- context [exec ?m ?s x] => pose proof (exec_preserves P m s x) as He;
    destruct (exec m s x) as [r1 x1] end. cbn [snd] in He.
  assert (Hx1 : P x1.1); [|done]. apply He; [|done].
  intros st u st' HPs (y & Hy & [= _ <-])%bind_Val. by eapply Hk.
Qed.

Lemma InsertBlock_preserves {numbers : JsonNumbers} (P : store → Prop) attempts b recover c :
  (∀ h id st t, P st → block_insert h recover (blocks st) = Val (id, t) → P (set_blocks st t)) → P c.1 →
  P (InsertBlock attempts b recover c).2.1.
Proof.
  intros Hk HP. unfold InsertBlock. destruct (Simple _ _ _ _) as [[r [c' id]] sl] eqn:H. cbn [snd].
  apply (Simple_invariant _ (fun x => P x.1.1) (fun _ x => P x.1.1)) in H; [done| |done].
  intros [x i] Hx. unfold insert_block_once. destruct (sent_header b) as [h| | |]; [|done..].
  match goal with |- context [exec ?m ?s x] => pose proof (exec_preserves P m s x) as He;
    destruct (exec m s x) as [r1 x1] end. cbn [snd] in He.
  assert (Hx1 : P x1.1); [|by destruct r1].
  apply He; [|done]. intros st a st' HPs ([j t] & Hj & [= _ <-])%bind_Val. by eapply Hk.
Qed.

Lemma transaction_insert_metadata {numbers : JsonNumbers} b d raw i st st' :
  transaction_insert b d raw i st = Val st' → metadata st' = metadata st.
Proof.
  unfold transaction_insert. destruct (negb (fits_int32 i)); [done|]. destruct (find _ _).
  - destruct (null_if_minus_one b); [|by intros [= <-]]. destruct (negb _); [done|]. by intros [= <-].
  - by intros (lt & ins & inext & outs & onext & _ & _ & _ & _ & _ & ->)%insert_new_inv.
Qed.

Lemma repairBlock_metadata {numbers : JsonNumbers} attempts schedule b c :
  metadata (repairBlock attempts schedule b c).2.1 = metadata c.1.
Proof.
  set (P := fun st => metadata st = metadata c.1).
  assert (Htxs : ∀ l c, P c.1 → P (repair_txs attempts l c).2.1).
  { induction l as [|r l IH]; intros c0 HP; [done|]. cbn [repair_txs].
    pose proof (InsertTx_preserves P attempts (fill_hash (r_tx r)) (r_index r) (r_blockId r) c0) as H.
    destruct (InsertTx _ _ _ _ c0) as [res c1]. cbn [snd] in H. specialize (IH c1).
    destruct (repair_txs attempts l c1) as [ok c2]. cbn [snd] in *. apply IH, H; [|done].
    unfold P. intros d st st' HPs Ht. by rewrite (transaction_insert_metadata _ _ _ _ _ _ Ht). }
  unfold repairBlock. pose proof (InsertBlock_preserves P attempts (header b) true c) as H.
  destruct (InsertBlock _ _ _ c) as [[id| | |] c1]; cbn [snd] in H; [apply Htxs|..]; by apply H.
Qed.

(** The number written after [k] blocks: it stops [offset] before the end. *)
Definition position (offset start total k : Z) : option Z :=
  if (0 <? k) && (offset <=? total) then Some (start + Z.min (k - 1) (total - offset)) else None.

Lemma blockValidated_metadata {numbers : JsonNumbers} coin u u' :
  blockValidated coin u = Val u' →
  metadata (vconn u').1 !! "validatedBlock" =
  if blocksValidated u + revalidateOffset coin <=? totalBlocks u
  then Some (Itoa (int64 (startBlock u + blocksValidated u)))
  else metadata (vconn u).1 !! "validatedBlock".
Proof.
  unfold blockValidated. intros (c & Hc & H)%bind_Val.
  assert (Hu : vconn u' = c) by (destruct (_ =? _); [destruct (done u); [done|]|]; by injection H as <-).
  rewrite Hu. clear H Hu. destruct (_ <=? _); [|by injection Hc as <-].
  unfold Set_, exec, next_fault in Hc. destruct (vconn u) as [st [|f fs]]; cbn in Hc.
  - injection Hc as <-. cbn. by rewrite lookup_insert_eq.
  - destruct f; [|done..]. injection Hc as <-. cbn. by rewrite lookup_insert_eq.
Qed.

Lemma position_step offset start total k :
  0 ≤ k → 0 ≤ offset →
  position offset start total (k + 1) =
  if k + offset <=? total then Some (start + k) else position offset start total k.
Proof.
  intros Hk Ho. unfold position. rewrite (proj2 (Z.ltb_lt 0 (k + 1))) by lia. cbn [andb].
  destruct (Z.leb_spec (k + offset) total), (Z.leb_spec offset total), (Z.ltb_spec 0 k); cbn [andb]; try lia; try done;
    f_equal; lia.
Qed.

Lemma revalidateOffset_nonneg coin : 0 ≤ revalidateOffset coin.
Proof.
  unfold revalidateOffset. match goal with |- context [?m !! _] => assert (H : map_Forall (fun _ z => 0 ≤ z) m) end.
  { apply (bool_decide_unpack _). vm_compute. exact I. }
  destruct (_ !! ToLower coin) as [z|] eqn:E; [apply (H _ _ E)|cbn; lia].
Qed.

(** What the metadata says after a run. *)
Definition position_written (coin : string) (start total : Z) (c : conn) (s : vstate) : Prop :=
  metadata (vconn (v s)).1 !! "validatedBlock" =
  match position (revalidateOffset coin) start total (Z.of_nat (length (finished s))) with
  | Some p => Some (Itoa p)
  | None => metadata c.1 !! "validatedBlock"
  end.

Lemma position_written_next {numbers : JsonNumbers} coin start total c hs s u u' h tds reps :
  in_int64 start → start + total < two63 → 0 ≤ total →
  vstate_ok start total hs s → position_written coin start total c s →
  blockValidated coin u = Val u' → blocksValidated u = blocksValidated (v s) → startBlock u = start → totalBlocks u = total →
  Z.of_nat (length (finished s)) < total →
  metadata (vconn u).1 = metadata (vconn (v s)).1 →
  position_written coin start total c {| v := u'; todo := tds; repairs := reps; finished := finished s ++ [h] |}.
Proof.
  intros Hs Hb Ht [_ Hc _ _] Hp Hv E1 E2 E3 Hlt Em. unfold position_written in *. cbn [v finished].
  rewrite (blockValidated_metadata _ _ _ Hv), E1, E2, E3, Em, Hp, Hc, length_app, Nat2Z.inj_add. cbn [length].
  rewrite (position_step _ _ _ (Z.of_nat (length (finished s)))) by (lia || apply revalidateOffset_nonneg).
  destruct (_ <=? total); [|done]. rewrite int64_id; [done|]. unfold in_int64, two63 in *. lia.
Qed.

Lemma vstep_position {numbers : JsonNumbers} attempts coin start total c hs s s' :
  in_int64 start → start + total < two63 → total = Z.of_nat (length hs) →
  vstate_ok start total hs s → position_written coin start total c s → vstep attempts coin s s' →
  position_written coin start total c s'.
Proof.
  intros Hs Hb Ht Hok Hp Hstep. pose proof Hok as [[E1 E2] Hc _ Hh].
  pose proof (Permutation_length Hh) as Hlen. rewrite !length_app, !length_map in Hlen.
  destruct Hstep as [r rest u u' reps fin Hcheck Hv|r rest b u reps fin Hcheck|l1 b l2 sched cc u u' tds fin _ Hr Hv|
    l1 b l2 sched cc u tds fin _ Hr]; cbn [v todo repairs finished length] in *; rewrite ?length_app in Hlen; cbn [length] in Hlen.
  - apply (position_written_next coin start total c hs _ u u' (result_height r) rest reps Hs Hb ltac:(lia) Hok Hp Hv);
      cbn; try done; lia.
  - exact Hp.
  - apply (position_written_next coin start total c hs _ (set_conn u cc) u' (block_height b) tds (l1 ++ l2) Hs Hb
      ltac:(lia) Hok Hp Hv); cbn; try done; [lia|]. by rewrite <-(repairBlock_metadata attempts sched b (vconn u)), Hr.
  - unfold position_written in *. cbn [v set_conn vconn finished] in *. rewrite <-Hp.
    by rewrite <-(repairBlock_metadata attempts sched b (vconn u)), Hr.
Qed.

(** ** Properties *)

(** C18. The validator finishes when and only when every block has been dealt
    with: however checks and repairs interleave and however often repairs
    fail, [doneChan] is closed exactly when no result waits for a check and no
    block for a repair, by then every height was counted once, and closing it
    twice cannot happen. *)
Theorem validator_done {numbers : JsonNumbers} (attempts : Z) (coin : string) (start : Z) (results : list blockResult)
    (c : conn) (s : vstate) :
  results ≠ [] → Z.of_nat (length results) < two63 →
  rtc (vstep attempts coin) (vstart start (Z.of_nat (length results)) results c) s →
  (done (v s) = true ↔ todo s = [] ∧ repairs s = []) ∧
  (done (v s) = true → finished s ≡ₚ map result_height results) ∧
  (todo s ≠ [] ∨ repairs s ≠ [] → ∀ c', blockValidated coin (set_conn (v s) c') ≠ Panic CloseOfClosed).
Proof.
  intros Hne Hmax Hrun. apply (vstate_ok_reachable _ _ _ _ _ _ _ eq_refl Hmax) in Hrun as [[E1 E2] Hc Hd Hh].
  pose proof (Permutation_length Hh) as Hlen. rewrite !length_app, !length_map in Hlen.
  assert (Hpos : (0 < length results)%nat) by (destruct results; [done|cbn; lia]).
  assert (Hiff : done (v s) = true ↔ todo s = [] ∧ repairs s = []).
  { rewrite Hd, bool_decide_eq_true. split.
    - intros [_ Heq]. split; apply nil_length_inv; lia.
    - intros [Ht Hr]. rewrite Ht, Hr in Hlen. cbn in Hlen. lia. }
  split_and!; [done| |].
  - intros [Ht Hr]%Hiff. by rewrite Ht, Hr in Hh.
  - intros Hleft c' H. assert (Hopen : done (v s) = false).
    { apply not_true_iff_false. rewrite Hiff. intros [Ht Hr]. by destruct Hleft. }
    unfold blockValidated in H. cbn [set_conn done blocksValidated totalBlocks startBlock vconn] in H. rewrite Hopen in H.
    destruct (_ <=? _); cbn in H.
    + unfold Set_, exec, next_fault in H. destruct c' as [st [|f fs]]; cbn in H; [by destruct (_ =? _)|].
      destruct f; cbn in H; [by destruct (_ =? _)|done|done].
    + by destruct (_ =? _).
Qed.

(** The position the next run starts from: after [k] blocks the metadata
    says [start + k - 1], but never more than [total - offset] above the start,
    so that the last blocks are validated again. *)
Lemma validator_position {numbers : JsonNumbers} (attempts : Z) (coin : string) (start : Z)
    (results : list blockResult) (c : conn) (s : vstate) :
  in_int64 start → start + Z.of_nat (length results) < two63 → Z.of_nat (length results) < two63 →
  rtc (vstep attempts coin) (vstart start (Z.of_nat (length results)) results c) s →
  metadata (vconn (v s)).1 !! "validatedBlock" =
  match position (revalidateOffset coin) start (Z.of_nat (length results)) (Z.of_nat (length (finished s))) with
  | Some p => Some (Itoa p)
  | None => metadata c.1 !! "validatedBlock"
  end.
Proof.
  intros Hs Hb Hmax Hrun. set (total := Z.of_nat (length results)) in *.
  assert (Hgen : ∀ x y, rtc (vstep attempts coin) x y → rtc (vstep attempts coin) (vstart start total results c) x →
    position_written coin start total c x → position_written coin start total c y).
  { clear s Hrun. intros x y Hxy. induction Hxy as [|x y z Hxy _ IH]; intros Hx Hp; [done|].
    apply IH; [by eapply rtc_r|]. eapply vstep_position; [done|done| |by eapply vstate_ok_reachable|done|exact Hxy].
    by rewrite length_map. }
  by apply (Hgen _ _ Hrun (rtc_refl _ _)).
Qed.

(** ** Repairing *)

(** The attempts of [InsertBlock] leave the transactions and the ids of the rows,
    and on success the block's row, whose id is returned, is on the main chain. *)
Record block_attempted (h : BlockHeader) (st st' : store) : Prop := {
  ba_ok : store_ok st';
  ba_consistent : consistent (node_of h :: nodes (rows (blocks st')));
  ba_connected : connected h (rows (blocks st'));
  ba_txs : txs st' = txs st;
  ba_rows : ∀ r, r ∈ rows (blocks st) → ∃ r', r' ∈ rows (blocks st') ∧ row_id r' = row_id r ∧ node_of (row r') = node_of (row r);
}.

Definition block_row_of (h : BlockHeader) (id : Z) (st : store) : Prop :=
  ∃ r, r ∈ rows (blocks st) ∧ row_id r = id ∧ node_of (row r) = node_of h ∧ IsOrphan (row r) = false.

Lemma block_attempted_insert h recover st st1 id t :
  block_attempted h st st1 → block_insert h recover (blocks st1) = Val (id, t) →
  block_attempted h st (set_blocks st1 t) ∧ block_row_of h id (set_blocks st1 t).
Proof.
  intros [Hok Hcon Hconn Htxs Hrows] Hins.
  destruct (block_insert_rows _ _ _ _ _ (ok_blocks _ Hok) Hins) as [Hkeep Hnodes].
  destruct (block_insert_on_chain _ _ _ _ _ (ok_blocks _ Hok) Hcon Hconn Hins) as (r & Hr & Hid & Hn & Ho).
  split; [|by exists r]. split; [by eapply store_ok_block| | |done|].
  - eapply consistent_sub; [|exact Hcon]. intros n [->|Hx]%elem_of_cons; [left|by apply Hnodes].
  - left. rewrite <-Hn. by apply (list_elem_of_fmap_2 (fun r => node_of (row r))).
  - intros x Hx. destruct (Hrows x Hx) as (y & Hy & <- & <-). by apply Hkeep.
Qed.

Lemma InsertBlock_row {numbers : JsonNumbers} attempts b h recover c id c' :
  sent_header b = Val h → block_attempted h c.1 c.1 → InsertBlock attempts b recover c = (Val id, c') →
  block_attempted h c.1 c'.1 ∧ block_row_of h id c'.1.
Proof.
  intros Hh Hc. unfold InsertBlock. destruct (Simple _ _ _ _) as [[r [c1 i]] sl] eqn:H.
  apply (Simple_invariant _ (fun x => block_attempted h c.1 x.1.1)
    (fun r x => match r with Val _ => block_attempted h c.1 x.1.1 ∧ block_row_of h x.2 x.1.1 | _ => True end)) in H; [|clear H|done].
  - destruct r; cbn; [by intros [= <- <-]|done..].
  - intros [x k] Hx. unfold insert_block_once. rewrite Hh. unfold exec, next_fault.
    destruct x as [st [|f fs]]; cbn in Hx |- *;
      [|destruct f]; try (by split); pose proof (block_attempted_insert h recover c.1 st) as Hi;
      destruct (block_insert h recover (blocks st)) as [[j t]| | |]; cbn; try (by split); specialize (Hi j t Hx eq_refl) as [Hi1 Hi2];
      by split.
Qed.

Lemma repair_txs_stores {numbers : JsonNumbers} attempts l st fs st' fs' :
  store_ok st → Forall (fun r => 1 ≤ r_blockId r ∧ 0 ≤ r_index r) l → NoDup (map (fun r => TxID (r_tx r)) l) →
  repair_txs attempts l (st, fs) = (true, (st', fs')) →
  blocks st' = blocks st ∧
  (∀ r, r ∈ l → ∃ t, t ∈ txs st' ∧ t_txid t = TxID (r_tx r) ∧ t_block_id t = Some (r_blockId r) ∧ t_index t = Some (r_index r)) ∧
  ∀ t, t ∈ txs st → t_txid t ∉ map (fun r => TxID (r_tx r)) l → t ∈ txs st'.
Proof.
  revert st fs. induction l as [|r l IH]; intros st fs Hok Hnum Hnd; cbn [repair_txs].
  - intros [= <- <-]. split_and!; [done|by intros r ?%elem_of_nil|done].
  - destruct (InsertTx attempts (fill_hash (r_tx r)) (r_index r) (r_blockId r) (st, fs)) as [res [st1 fs1]] eqn:Hi.
    destruct (repair_txs attempts l (st1, fs1)) as [ok [st2 fs2]] eqn:Hl. intros [= Hres <- <-].
    destruct res as [[]| | |]; [|done..]. subst ok.
    destruct (InsertTx_outcome attempts _ _ _ st st1 fs fs1 (Val tt) Hok Hi) as (d & Hd & Ht).
    pose proof (make_tx_txid _ _ Hd) as Htxid. rewrite fill_hash_txid in Htxid.
    apply list.Forall_cons in Hnum as [[Hb Hx] Hnum]. cbn in Hnd. apply list.NoDup_cons in Hnd as [Hnew Hnd].
    pose proof (store_ok_transaction_insert _ _ _ _ _ _ Hok Ht) as Hok1.
    destruct (transaction_insert_stores _ _ _ _ _ _ Hok Ht) as (Hblk & (t & Hin & E1 & E2 & E3) & Hkeep); [lia..|].
    destruct (IH _ _ Hok1 Hnum Hnd Hl) as (Hblk' & Hall & Hrest). split_and!; [congruence| |].
    + intros r' [->|Hr']%elem_of_cons; [|by apply Hall]. exists t. rewrite E1, Htxid. split; [|done].
      apply Hrest; [done|]. by rewrite E1, Htxid.
    + intros t' Ht' Hno. cbn in Hno. apply not_elem_of_cons in Hno as [Hne Hno]. apply Hrest; [|done].
      apply Hkeep; [done|]. by rewrite Htxid.
Qed.

(** The results of a block, in any order. *)
Lemma block_results_spec b id :
  Forall (fun r => r_blockId r = id ∧ 0 ≤ r_index r) (block_results b id) ∧
  map (fun r => TxID (r_tx r)) (block_results b id) = map TxID (Txs b).
Proof.
  split.
  - apply list.Forall_forall. intros r Hr. unfold block_results in Hr.
    apply elem_of_lookup_imap in Hr as (i & tx & -> & _). cbn. lia.
  - unfold block_results. change (map ?f ?l) with (f <$> l). rewrite fmap_imap, <-(imap_const TxID). by apply imap_ext.
Qed.

(** What [repairBlock] leaves when it reports success: the block's row is on the
    main chain, the transactions of [b] are stored under it, and the other
    transactions are as they were. *)
Lemma repairBlock_stores {numbers : JsonNumbers} attempts schedule b st fs st' fs' :
  store_ok st → consistent (node_of (header b) :: nodes (rows (blocks st))) → connected (header b) (rows (blocks st)) →
  (∀ l, schedule l ≡ₚ l) → NoDup (map TxID (Txs b)) → repairBlock attempts schedule b (st, fs) = (true, (st', fs')) →
  ∃ r, r ∈ rows (blocks st') ∧ node_of (row r) = node_of (header b) ∧ IsOrphan (row r) = false ∧
    (∀ tx, tx ∈ Txs b → ∃ t, t ∈ txs st' ∧ t_txid t = TxID tx ∧ t_block_id t = Some (row_id r)) ∧
    (∀ t, t ∈ txs st → t_txid t ∉ map TxID (Txs b) → t ∈ txs st') ∧
    ∀ x, x ∈ rows (blocks st) → node_of (row x) = node_of (header b) → row_id x = row_id r.
Proof.
  intros Hok Hcon Hconn Hs Hnd Hrep. unfold repairBlock in Hrep.
  destruct (InsertBlock attempts (header b) true (st, fs)) as [[id| | |] [st1 fs1]] eqn:Hins; [|done..].
  destruct (InsertBlock_sent _ _ _ _ _ _ Hins) as [h Hh]. destruct (sent_header_node _ _ Hh) as (Hn & Eh & Ez).
  assert (Hstart : block_attempted h st st).
  { split; [done|by rewrite Hn| |done|by intros r Hr; exists r]. revert Hconn. unfold connected. rewrite Hn, Ez.
    unfold node_of in Hn. injection Hn as _ _ ->. done. }
  destruct (InsertBlock_row attempts (header b) h true (st, fs) id (st1, fs1) Hh Hstart Hins) as [[Hok1 _ _ Htxs Hrows] (r & Hr & Hid & Hrn & Ho)].
  cbn [fst] in *. destruct (block_results_spec b id) as [Hres Hids].
  assert (Hpos : 1 ≤ id).
  { pose proof (ok_next _ (ok_blocks _ Hok1)) as Hnext. rewrite list.Forall_forall in Hnext. specialize (Hnext r Hr). lia. }
  apply repair_txs_stores in Hrep as (Hblk & Hall & Hrest); [|done| |].
  2:{ rewrite (Hs (block_results b id)). eapply Forall_impl; [|exact Hres]. by intros x [-> Hx]. }
  2:{ rewrite (Permutation_map _ (Hs (block_results b id))). by rewrite Hids. }
  exists r. rewrite Hblk, Hrn. split_and!; [done|done|done| | |].
  - intros tx (i & Hi)%list_elem_of_lookup.
    destruct (Hall {| r_tx := tx; r_index := Z.of_nat i; r_blockId := id |}) as (t & H1 & H2 & H3 & _); [|exists t; by rewrite Hid].
    rewrite (Hs (block_results b id)). unfold block_results. apply elem_of_lookup_imap. by exists i, tx.
  - intros t Ht Hno. apply Hrest; [by rewrite Htxs|]. by rewrite (Permutation_map _ (Hs (block_results b id))), Hids.
  - intros x Hx Hxn. destruct (Hrows x Hx) as (x' & Hx' & <- & Hxn'). f_equal.
    apply (row_determines (rows (blocks st1))); [apply (ok_blocks _ Hok1)|done|done|]. congruence.
Qed.

Lemma block_txs_elem hash st t :
  t ∈ block_txs hash st ↔ t ∈ txs st ∧
    ∃ r, r ∈ rows (blocks st) ∧ t_block_id t = Some (row_id r) ∧ Hash (row r) = hash ∧ IsOrphan (row r) = false.
Proof.
  unfold block_txs. rewrite list_elem_of_filter. split.
  - intros [H Ht]. split; [done|]. destruct (t_block_id t) as [id|]; [|done].
    apply existsb_exists in H as (r & Hr%list_elem_of_In & [[E1%Z.eqb_eq E2%bool_decide_eq_true]%andb_true_iff E3]%andb_true_iff).
    exists r. subst. split_and!; try done. by apply negb_true_iff in E3.
  - intros [Ht (r & Hr & -> & Hh & Ho)]. split; [|done]. apply existsb_exists. exists r. split; [by apply list_elem_of_In|].
    unfold has_hash, on_chain. by rewrite Z.eqb_refl, (bool_decide_eq_true_2 _ Hh), Ho.
Qed.

(** What a repair of [result] is asked for: the transactions of the node's block,
    without those that were found under it. *)
Lemma checkResult_repairs result b :
  checkResult result = RepairBlock b →
  header b = header (nodeBlock result) ∧ (NoDup (map TxID (Txs (nodeBlock result))) → NoDup (map TxID (Txs b))) ∧
  ∀ tx, tx ∈ Txs (nodeBlock result) → tx ∈ Txs b ∨
    dbHash result = Hash (header (nodeBlock result)) ∧ TxID tx ∈ dbTxIds result ∧ TxID tx ∉ map TxID (Txs b).
Proof.
  unfold checkResult. destruct (bool_decide _) eqn:Hh; cbn [negb].
  - apply bool_decide_eq_true in Hh. destruct (negb _); [|done]. intros [= <-]. cbn [set_txs Txs header]. split_and!; [done|by apply NoDup_map_filter|].
    intros tx Htx. unfold missingTxs. destruct (decide (TxID tx ∈ dbTxIds result)) as [Hin|Hno]; [right|left].
    + split_and!; [done|done|]. intros (tx' & E & [Hno _]%list_elem_of_filter)%list_elem_of_fmap. apply Hno.
      by rewrite elem_of_list_to_set, <-E.
    + apply list_elem_of_filter. split; [|done]. by rewrite elem_of_list_to_set.
  - intros [= <-]. split_and!; [done|done|by left].
Qed.

(** C19. A repair brings the stored block up to the node's.  Let [readBlock] have
    read the block of the node's height from the database and [checkResult] have
    asked for a repair, and let what was stored under the node's block still be
    there.  When [repairBlock] reports success, then, whatever attempts failed and
    in whatever order its workers ran, the node's block is on the main chain and
    the database lists every transaction of it.  The block must agree with the
    stored ones about heights and parents, and be stored or have ancestors that
    are stored down to the main chain. *)
Theorem repair_completes_block {numbers : JsonNumbers} {order : RowOrder} (attempts : Z) (schedule : list txResult → list txResult)
    (node b : Block) (result : blockResult) (st0 st st' : store) (fs fs' : list fault) :
  store_ok st → (∀ l, schedule l ≡ₚ l) → NoDup (map TxID (Txs node)) →
  consistent (node_of (header node) :: nodes (rows (blocks st))) → connected (header node) (rows (blocks st)) →
  readBlock node st0 = Val result → checkResult result = RepairBlock b →
  (∀ txid, txid ∈ map t_txid (block_txs (Hash (header node)) st0) → txid ∈ map t_txid (block_txs (Hash (header node)) st)) →
  repairBlock attempts schedule b (st, fs) = (true, (st', fs')) →
  canon (rows (blocks st')) (node_of (header node)) ∧
  ∃ txids, GetTxHashesByBlockHash (Hash (header node)) None None st' = Val txids ∧ ∀ tx, tx ∈ Txs node → TxID tx ∈ txids.
Proof.
  intros Hok Hs Hnd Hcon Hconn Hread Hcheck Hstill Hrep.
  apply bind_Val in Hread as (blk & _ & (ids & Hids & [= <-])%bind_Val).
  apply checkResult_repairs in Hcheck as (Hhead & Hndb & Hsub). cbn [nodeBlock dbHash dbTxIds] in *.
  rewrite <-Hhead in Hcon, Hconn. destruct (repairBlock_stores _ _ _ _ _ _ _ Hok Hcon Hconn Hs (Hndb Hnd) Hrep) as (r & Hr & Hrn & Ho & Hall & Hrest & Hid).
  rewrite Hhead in *. pose proof (f_equal nhash Hrn) as Hrh. cbn in Hrh. split; [by exists r|].
  eexists. split; [done|]. intros tx Htx.
  assert (Hgoal : ∀ t, t ∈ txs st' → t_txid t = TxID tx → t_block_id t = Some (row_id r) →
    TxID tx ∈ map t_txid (arrange (TxHashesOf (Hash (header node)) None None) (block_txs (Hash (header node)) st'))).
  { intros t Ht <- Hb. apply (list_elem_of_fmap_2 t_txid), arrange_elem, block_txs_elem. split; [done|]. by exists r. }
  destruct (Hsub tx Htx) as [Hin|(Hh & Hhad & Hno)].
  - destruct (Hall tx Hin) as (t & ? & ? & ?). by apply (Hgoal t).
  - injection Hids as <-. rewrite Hh, arrange_perm in Hhad. apply Hstill, list_elem_of_fmap in Hhad as (t & Et & Ht).
    apply block_txs_elem in Ht as [Ht (x & Hx & Hb & Hxh & _)]. apply (Hgoal t); [apply Hrest; [done|]; by rewrite <-Et|done|].
    rewrite Hb. f_equal. apply Hid; [done|]. apply (hash_unique _ Hcon); [|by left|done].
    right. by apply (list_elem_of_fmap_2 (fun r => node_of (row r))).
Qed.

(** ** A concrete validation *)

(** The database misses the second transaction of [a1]. *)
Definition node_a1 : Block := {| header := a1; Txs := [tx1; tx2] |}.

Definition bad_result : blockResult := {| dbHash := "a1"; dbTxIds := ["t1"]; nodeBlock := node_a1 |}.

Definition bad_block : Block := {| header := a1; Txs := [tx2] |}.

Definition repair_faults : list fault := [NoFault; LostReply].

Definition repaired_conn : conn := (@repairBlock test_numbers 5 (@rev _) bad_block (store1, repair_faults)).2.

Lemma repair_completes_block_witness :
  canon (rows (blocks repaired_conn.1)) (node_of a1) ∧
  ∃ txids, @GetTxHashesByBlockHash reverse_order "a1" None None repaired_conn.1 = Val txids ∧ ∀ tx, tx ∈ [tx1; tx2] → TxID tx ∈ txids.
Proof.
  apply (@repair_completes_block test_numbers reverse_order 5 (@rev _) node_a1 bad_block bad_result store1 store1 repaired_conn.1
    repair_faults repaired_conn.2).
  - apply store1_ok.
  - intros l. symmetry. apply Permutation_rev.
  - apply (bool_decide_unpack _). vm_compute. exact I.
  - apply consistent_list_ok, (bool_decide_unpack _). vm_compute. exact I.
  - left. apply (bool_decide_unpack _). vm_compute. exact I.
  - vm_compute. reflexivity.
  - vm_compute. reflexivity.
  - done.
  - vm_compute. reflexivity.
Defined.

(** The index stored is the one among the missing transactions: [tx2] is the
    second transaction of the block. *)
Lemma repaired_index_is_wrong :
  map (fun t => (t_txid t, t_index t)) (txs repaired_conn.1) = [("t1", Some 0); ("t2", Some 0)].
Proof. vm_compute. reflexivity. Qed.

(** Equal numbers of transactions are taken for equal transactions. *)
Lemma count_is_all_that_is_compared :
  checkResult {| dbHash := "a1"; dbTxIds := ["t1"; "other"]; nodeBlock := {| header := a1; Txs := [tx1; tx2] |} |} = ValidBlock.
Proof. vm_compute. reflexivity. Qed.

(** A block the database does not have ends the process; the comment of
    [readBlock] announces a repair. *)
Lemma readBlock_missing_exits {order : RowOrder} b st :
  (∀ r, r ∈ rows (blocks st) → Height (row r) ≠ block_height b) → ∃ e, readBlock b st = Exit e.
Proof.
  intros H. unfold readBlock, GetBlock. destruct (select _ _) as [r|] eqn:Hs; [exfalso|by eexists].
  apply find_some in Hs as [Hr%list_elem_of_In [E%Z.eqb_eq _]%andb_true_iff]. by apply (H r).
Qed.

(** A stored block like the node's, and one of another branch. *)
Definition same_result (h : Z) : blockResult := {| dbHash := Itoa h; dbTxIds := []; nodeBlock := block_at h |}.
Definition other_result (h : Z) : blockResult := {| dbHash := "other"; dbTxIds := []; nodeBlock := block_at h |}.

Definition validated (coin : string) (u : validator) : validator :=
  match @blockValidated test_numbers coin u with Val u' => u' | _ => u end.

Definition v_start (total : Z) (c : conn) : validator :=
  {| blocksValidated := 0; startBlock := 0; totalBlocks := total; done := false; vconn := c |}.

(** Block 0 waits for its repair while block 1 is counted, and is then repaired. *)
Definition v_waiting : validator := validated "btc" (v_start 2 (empty_store, [LostReply])).
Definition v_repaired : conn := (@repairBlock test_numbers 5 (@rev _) (block_at 0) (vconn v_waiting)).2.
Definition v_end : vstate :=
  {| v := validated "btc" (set_conn v_waiting v_repaired); todo := []; repairs := []; finished := [1; 0] |}.

Lemma v_reaches :
  rtc (@vstep test_numbers 5 "btc") (vstart 0 2 [other_result 0; same_result 1] (empty_store, [LostReply])) v_end.
Proof.
  eapply rtc_l; [apply (check_invalid _ _ _ _ (block_at 0)); vm_compute; reflexivity|].
  eapply rtc_l; [apply (check_valid _ _ _ _ _ v_waiting); vm_compute; reflexivity|].
  eapply rtc_l; [|apply rtc_refl].
  apply (repaired _ _ [] (block_at 0) [] (@rev _) v_repaired);
    [intros l; symmetry; apply Permutation_rev|vm_compute; reflexivity|vm_compute; reflexivity].
Qed.

Lemma validator_done_witness :
  done (v v_end) = true ∧
  ((done (v v_end) = true ↔ todo v_end = [] ∧ repairs v_end = []) ∧
   (done (v v_end) = true → finished v_end ≡ₚ map result_height [other_result 0; same_result 1]) ∧
   (todo v_end ≠ [] ∨ repairs v_end ≠ [] →
    ∀ c', @blockValidated test_numbers "btc" (set_conn (v v_end) c') ≠ Panic CloseOfClosed)).
Proof.
  split; [vm_compute; reflexivity|].
  apply (@validator_done test_numbers 5 "btc" 0 [other_result 0; same_result 1] (empty_store, [LostReply]) v_end).
  - done.
  - cbn. unfold two63. lia.
  - apply v_reaches.
Defined.

(** Twelve results, the first one to be repaired. *)
Definition v_results : list blockResult := other_result 0 :: map same_result (seqZ 1 11).
Definition v_one : validator := validated "btc" (v_start 12 (empty_store, [])).
Definition v_skipped : vstate :=
  {| v := validated "btc" v_one; todo := map same_result (seqZ 3 9); repairs := [block_at 0]; finished := [1; 2] |}.

Lemma v_skips : rtc (@vstep test_numbers 5 "btc") (vstart 0 12 v_results (empty_store, [])) v_skipped.
Proof.
  eapply rtc_l; [apply (check_invalid _ _ _ _ (block_at 0)); vm_compute; reflexivity|].
  eapply rtc_l; [apply (check_valid _ _ (same_result 1) (map same_result (seqZ 2 10)) _ v_one); vm_compute; reflexivity|].
  eapply rtc_l; [|apply rtc_refl].
  apply (check_valid _ _ (same_result 2) (map same_result (seqZ 3 9)) v_one (validated "btc" v_one)); vm_compute; reflexivity.
Qed.

(** The position counts blocks, so it passes a block that is still to be
    repaired: a run that ends now is followed by one that starts at block 1. *)
Lemma position_passes_a_repair :
  rtc (@vstep test_numbers 5 "btc") (vstart 0 12 v_results (empty_store, [])) v_skipped ∧
  metadata (vconn (v v_skipped)).1 !! "validatedBlock" = Some "1" ∧ repairs v_skipped = [block_at 0].
Proof. split_and!; [exact v_skips|vm_compute; reflexivity..]. Qed.

Lemma orderResults_restores_order_witness :
  let arrivals := [same_result 7; same_result 5; other_result 6] in
  (∃ sent, orderResults (5, ∅) arrivals = (sent, (5 + 3, ∅)) ∧ map result_height sent = seqZ 5 3 ∧ sent ≡ₚ arrivals) ∧
  map result_height (orderResults (5, ∅) arrivals).1 = [5; 6; 7].
Proof.
  split; [|vm_compute; reflexivity].
  apply orderResults_restores_order; [lia|unfold in_int64, two63; lia|unfold two63; lia|].
  apply (bool_decide_unpack _). vm_compute. exact I.
Defined.
