(* ===== verification/Monitor.v ===== *)
(** * Monitor: the service that watches the store

    src/V2/cmd/monitor/main.go.  The indexer announces every new block; the
    monitor then removes the transactions of blocks that a reorganisation
    orphaned, when more blocks are orphans than it noted the last time.  Every 30
    seconds it compares the height of the store with the node's. *)

From stdpp Require Import base list strings gmap numbers.
From Stdlib Require Import ZArith Lia.
From S2P Require Import Prelude GoStrings Json Utxo BlockTable Store Retry Postgres.

Local Open Scope Z_scope.

(** ** Operations *)

(** What [compareHeights] logs *)
Inductive report := Failed (e : gerror) | InSync | OutOfSync (db node : Z).

(** [func (m *monitor) compareHeights()] on what [LastBlock] and [GetChainInfo]
    return *)
Definition compareHeights (lb : gores (option (string * Z))) (ci : gores ChainInfo) : gores report :=
  match lb with
  | Err e => Val (Failed e)
  | Panic p => Panic p
  | Exit e => Exit e
  | Val lb =>
      match ci with
      | Err e => Val (Failed e)
      | Panic p => Panic p
      | Exit e => Exit e
      | Val ci =>
          match lb with
          | None => Panic NilDereference
          | Some (_, height) => Val (if negb (height =? ci_Blocks ci) then OutOfSync height (ci_Blocks ci) else InSync)
          end
      end
  end.

(** The body of a notification: [struct {Height int `json:"height"`}] *)
Definition dec_notification (body : option json) : Z * bool :=
  match body with
  | None => (0, false)
  | Some j => dec_struct (fun old kvs => dec_field ["height"%string] "height" dec_int old kvs) 0 j
  end.

Section orphans.
Context {numbers : JsonNumbers} (attempts : Z).

(** [func (m *monitor) handleOrphans()]; an error is one that was logged *)
Definition handleOrphans (c : conn) : gores unit * conn :=
  let checked :=
    value ← Get "orphanCount" c.1;
    orphanCount ← match Atoi value with (n, None) => Val n | (_, Some _) => Err (ENew "strconv.Atoi") end;
    count ← GetOrphanCount c.1;
    Val (orphanCount, count) in
  match checked with
  | Err e => (Err e, c)
  | Panic p => (Panic p, c)
  | Exit e => (Exit e, c)
  | Val (orphanCount, count) =>
      if count >? orphanCount then
        match DeleteOrphans_ attempts c with
        | (Val _, c) => Set_ "orphanCount" (Itoa count) c
        | (r, c) => (r, c)
        end
      else (Val tt, c)
  end.

(** [func (m *monitor) newBlock(w http.ResponseWriter, r *http.Request)]: the
    status of the response, and the run of [handleOrphans] it starts whatever the
    body is *)
Definition newBlock (body : option json) (c : conn) : Z * (gores unit * conn) :=
  let '(_, _) := dec_notification body in (200, handleOrphans c).

(** ** Lemmas *)

(** The store without the transactions of orphaned blocks *)
Definition cleaned (st : store) : store := delete_txs (orphaned st) st.

(** The store with a noted number of orphans *)
Definition noted (n : Z) (st : store) : store := set_metadata st (<["orphanCount"%string := Itoa n]> (metadata st)).

Definition orphan_count (st : store) : Z :=
  Z.of_nat (length (filter (fun r => IsOrphan (row r) = true) (rows (blocks st)))).

Lemma cleaned_orphaned st r : r ∈ txs (cleaned st) → orphaned (cleaned st) r = false.
Proof. intros [Hr _]%list_elem_of_filter. exact Hr. Qed.

Lemma filter_keeps {A} (P : A → Prop) `{!∀ x, Decision (P x)} (l : list A) : (∀ x, x ∈ l → P x) → filter P l = l.
Proof.
  induction l as [|x l IH]; intros Hl; [done|]. rewrite list.filter_cons_True by (apply Hl; by left).
  f_equal. apply IH. intros y Hy. apply Hl. by right.
Qed.

Lemma cleaned_cleaned st : cleaned (cleaned st) = cleaned st.
Proof.
  pose proof (cleaned_orphaned st) as Hno. unfold cleaned at 1, delete_txs.
  assert (Hgone : ∀ id, existsb (fun r => orphaned (cleaned st) r && (t_id r =? id)) (txs (cleaned st)) = false).
  { intros id. apply existsb_false. intros r Hr. by rewrite (Hno r Hr). }
  rewrite !filter_keeps; [done|auto..].
Qed.

Lemma orphan_count_cleaned st : orphan_count (cleaned st) = orphan_count st.
Proof. done. Qed.

Lemma cleaning_repeatable st :
  repeatable (fun st => st' ← execute DeleteOrphans st; Val (tt, st')) st.
Proof.
  intros a st' Hst. cbn in *. rewrite delete_orphans_eq in *. injection Hst as <- <-. do 2 f_equal. apply cleaned_cleaned.
Qed.

(** [DeleteOrphans] cleans the store, or fails before or after it did. *)
Lemma DeleteOrphans_outcome c r c' :
  DeleteOrphans_ attempts c = (r, c') →
  match r with
  | Val _ => c'.1 = cleaned c.1
  | Err _ => c'.1 = c.1 ∨ c'.1 = cleaned c.1
  | _ => c'.1 = c.1
  end.
Proof.
  unfold DeleteOrphans_. match goal with |- (Simple ?f ?a ?s ?c).1 = _ → _ => destruct (Simple f a s c) as [[r' x] sl] eqn:H end.
  cbn [fst]. intros [= -> ->]. apply Simple_exec_outcome in H.
  - unfold outcome, at_most_once in H. cbn in H. rewrite delete_orphans_eq in H. fold (cleaned c.1) in H.
    destruct r; [injection H; congruence| |done..]. destruct H as [H|[a H]]; [by left|right]. injection H. congruence.
  - apply cleaning_repeatable.
Qed.

Lemma Set_outcome n c r c' :
  Set_ "orphanCount" (Itoa n) c = (r, c') →
  match r with
  | Val _ => c'.1 = noted n c.1
  | Err _ => c'.1 = c.1 ∨ c'.1 = noted n c.1
  | _ => c'.1 = c.1
  end.
Proof.
  intros H. apply (exec_outcome _ _ c.1) in H; [| |by left].
  - unfold outcome, at_most_once in H. cbn in H. destruct r; [injection H; unfold noted; congruence| |done..].
    destruct H as [H|[a H]]; [by left|right]. injection H. unfold noted. congruence.
  - intros a st' Hst. cbn in *. injection Hst as <- <-. unfold set_metadata. cbn. by rewrite insert_insert_eq.
Qed.

(** C38. [handleOrphans] on a store in which [saved] orphans are noted.  With no
    more orphans than that it does nothing.  Otherwise, when it succeeds, exactly
    the transactions of orphaned blocks are gone, with their inputs and
    outputs, and the new number is noted; however the connection fails, the store
    is the old one, the cleaned one, or the cleaned one with the number noted, and
    while the number is not noted the next run does the work again. *)
Theorem handleOrphans_cleans (saved : Z) (c c' : conn) r :
  Get "orphanCount" c.1 = Val (Itoa saved) → in_int64 saved → handleOrphans c = (r, c') →
  if orphan_count c.1 <=? saved then r = Val tt ∧ c' = c
  else
    (r = Val tt → c'.1 = noted (orphan_count c.1) (cleaned c.1)) ∧
    (c'.1 = c.1 ∨ c'.1 = cleaned c.1 ∨ c'.1 = noted (orphan_count c.1) (cleaned c.1)) ∧
    (∀ t, t ∈ txs (cleaned c.1) ↔ t ∈ txs c.1 ∧ orphaned c.1 t = false) ∧
    cleaned (noted (orphan_count c.1) (cleaned c.1)) = noted (orphan_count c.1) (cleaned c.1).
Proof.
  intros Hget Hin. unfold handleOrphans. rewrite Hget. cbn [mbind gores_bind]. rewrite (Atoi_Itoa saved Hin).
  cbn [mbind gores_bind GetOrphanCount]. fold (orphan_count c.1). rewrite Z.gtb_ltb, Z.leb_antisym.
  destruct (saved <? orphan_count c.1); cbn [negb]; [|by intros [= <- <-]]. intros H.
  assert (Hall : (r = Val tt → c'.1 = noted (orphan_count c.1) (cleaned c.1)) ∧
    (c'.1 = c.1 ∨ c'.1 = cleaned c.1 ∨ c'.1 = noted (orphan_count c.1) (cleaned c.1))).
  { destruct (DeleteOrphans_ attempts c) as [r1 c1] eqn:Hd. apply DeleteOrphans_outcome in Hd.
    destruct r1 as [u|e|p|e]; [|injection H as <- <-; split; [done|tauto]..].
    rewrite <-Hd. apply Set_outcome in H. destruct r as [[]|e|p|e]; split; try done; tauto. }
  destruct Hall as [H1 H2]. split; [done|]. split; [done|]. split.
  - intros t. cbn. rewrite list_elem_of_filter. tauto.
  - pose proof (cleaned_cleaned c.1) as Hcc. apply (f_equal (noted (orphan_count c.1))) in Hcc. exact Hcc.
Qed.

End orphans.

(** ** Success *)

(** With fewer failures than attempts and a reply to the last statement,
    [handleOrphans] gets through. *)
Lemma handleOrphans_gets_through {numbers : JsonNumbers} attempts saved st pre post :
  Get "orphanCount" st = Val (Itoa saved) → in_int64 saved → saved < orphan_count st →
  in_int64 attempts → attempts ≠ - two63 →
  Forall (fun f => f ≠ NoFault) pre → (length pre < max_attempts attempts)%nat →
  handleOrphans attempts (st, pre ++ NoFault :: NoFault :: post)
    = (Val tt, (noted (orphan_count st) (cleaned st), post)).
Proof.
  intros Hget Hin Hlt Hr Hmin Hpre Hlen. unfold handleOrphans. cbn [fst]. rewrite Hget. cbn [mbind gores_bind].
  rewrite (Atoi_Itoa saved Hin). cbn [mbind gores_bind GetOrphanCount]. fold (orphan_count st).
  rewrite Z.gtb_ltb, (proj2 (Z.ltb_lt _ _) Hlt). unfold DeleteOrphans_, Simple.
  rewrite (Simple_exec_live _ _ st (cleaned st)); [done|apply cleaning_repeatable| |by left|done..].
  cbn. by rewrite delete_orphans_eq.
Qed.

(** ** A fork and back *)

(** [a1] with a transaction is replaced by [b1]. *)
Definition forked : store :=
  @history test_numbers
    [SetMetadata "orphanCount" "0"; BlockInsert a0 false; BlockInsert a1 false;
     TransactionInsert 2 (def_of (test_tx "t1" [test_vin "" (-1)] [test_vout "1" 0 "miner"])) "" 0;
     BlockInsert b1 false] empty_store.

Definition fork_faults : list fault := [LostReply; LostRequest].

Lemma handleOrphans_cleans_witness :
  let run := @handleOrphans test_numbers 5 (forked, fork_faults) in
  if orphan_count forked <=? 0 then run.1 = Val tt ∧ run.2 = (forked, fork_faults)
  else
    (run.1 = Val tt → run.2.1 = noted (orphan_count forked) (cleaned forked)) ∧
    (run.2.1 = forked ∨ run.2.1 = cleaned forked ∨ run.2.1 = noted (orphan_count forked) (cleaned forked)) ∧
    (∀ t, t ∈ txs (cleaned forked) ↔ t ∈ txs forked ∧ orphaned forked t = false) ∧
    cleaned (noted (orphan_count forked) (cleaned forked)) = noted (orphan_count forked) (cleaned forked).
Proof.
  apply (@handleOrphans_cleans test_numbers 5 0 (forked, fork_faults)).
  - vm_compute. reflexivity.
  - unfold in_int64, two63. lia.
  - apply surjective_pairing.
Defined.

(** The run cleaned the store: one orphan, no transaction left *)
Lemma forked_cleaned :
  orphan_count forked = 1 ∧ length (txs forked) = 1%nat ∧
  txs (@handleOrphans test_numbers 5 (forked, fork_faults)).2.1 = [].
Proof. vm_compute. done. Qed.

(** Then [b1] gets its transaction, and [a2] brings [a1] back: there is again one
    orphan, so nothing is done about the transaction of the orphan [b1]. *)
Definition forked_back : store :=
  @history test_numbers
    [TransactionInsert 3 (def_of (test_tx "t2" [test_vin "" (-1)] [test_vout "1" 0 "miner"])) "" 0;
     BlockInsert a2 false] (@handleOrphans test_numbers 5 (forked, fork_faults)).2.1.

Lemma orphans_replaced_stay :
  @handleOrphans test_numbers 5 (forked_back, []) = (Val tt, (forked_back, [])) ∧
  map (orphaned forked_back) (txs forked_back) = [true].
Proof. vm_compute. done. Qed.

(** Before the first block is stored the comparison panics. *)
Lemma compareHeights_empty_panics ci : compareHeights (LastBlock empty_store) (Val ci) = Panic NilDereference.
Proof. done. Qed.
