(* ===== verification/Xpub.v ===== *)
(** * Xpub: the addresses of an extended public key

    src/V2/internal/xpubutil/xpub_util.go.  [GenerateAddrs] lists the addresses
    of an account that occur in the store, on its receiving and its change
    chain, looking at twenty addresses at a time until twenty in a row are
    unused.  Every address that a wallet with the gap limit of BIP 44 uses is
    found. *)

From stdpp Require Import base list strings sorting numbers.
From Stdlib Require Import ZArith Lia Permutation Sorted.
From S2P Require Import Prelude GoStrings Store Postgres InsightTypes Insight.

Local Open Scope Z_scope.

Definition btcPrefix : Z := 0x00.
Definition bchPrefix : Z := 0x00.
Definition ltcPrefix : Z := 0x30.
Definition dogePrefix : Z := 0x1e.
Definition dashPrefix : Z := 0x4c.
Definition receiveIndex : Z := 0.
Definition changeIndex : Z := 1.

(** package hdkeychain: extended keys, their children and the address of a key
    for a version byte *)
Class Hdkeychain := {
  ExtendedKey : Type;
  NewKeyFromString : string → gores ExtendedKey;
  Child : ExtendedKey → Z → gores ExtendedKey;
  key_address : ExtendedKey → Z → gores string;
}.

(** [func p2pkhPrefix(ticker string) byte] *)
Definition p2pkhPrefix (ticker : string) : gores Z :=
  let t := ToUpper ticker in
  if String.eqb t "BTC" then Val btcPrefix
  else if String.eqb t "BCH" then Val bchPrefix
  else if String.eqb t "LTC" then Val ltcPrefix
  else if String.eqb t "DOGE" then Val dogePrefix
  else if String.eqb t "DASH" then Val dashPrefix
  else Exit (ENew "Uknown prefix byte for address derivation for Ticker: %s").

(** [type result struct]; an [Err] ends the process when it is received *)
Record result := { Index : Z; Active : bool; Addr : string }.

(** [log.Fatal] on an error *)
Definition or_exit {A} (m : gores A) : gores A :=
  match m with Err e => Exit e | _ => m end.

Section derive.
Context {hd : Hdkeychain} {S : SortAny}.

(** [func generateChild(ek *hdkeychain.ExtendedKey, n int) *hdkeychain.ExtendedKey] *)
Definition generateChild (ek : ExtendedKey) (n : Z) : gores ExtendedKey :=
  match Child ek (n mod 2 ^ 32) with Err _ => Exit (ENew "Error generating child key") | r => r end.

(** [func xpubToEK(xpub string) ( *hdkeychain.ExtendedKey, error)] *)
Definition xpubToEK (xpub : string) : gores ExtendedKey :=
  match NewKeyFromString xpub with Err _ => Err (ENew "Invalid XPUB: ") | r => r end.

(** [func deriveKeys(xpub string) (accountKey, receivingKey, changeKey *hdkeychain.ExtendedKey)] *)
Definition deriveKeys (xpub : string) : gores (ExtendedKey * ExtendedKey * ExtendedKey) :=
  ek ← or_exit (xpubToEK xpub);
  receivingKey ← generateChild ek receiveIndex;
  changeKey ← generateChild ek changeIndex;
  Val (ek, receivingKey, changeKey).

Section addresses.
Context (arrive : Z → list result → list result) (ek : ExtendedKey) (prefix : Z) (st : store).

(** The goroutine of an index *)
Definition worker (i : Z) : gores result :=
  child ← generateChild ek i;
  addr ← or_exit (key_address child prefix);
  txids ← or_exit (GetTxIDsByAddresses [addr] None None st);
  Val {| Index := i; Active := negb (Z.of_nat (length txids) =? 0); Addr := addr |}.

Definition numWorkers : Z := 20.

(** The loop of [deriveAddresses] from index [i]: the results of a batch arrive in
    some order *)
Fixpoint derive_loop (fuel : nat) (i : Z) (results : list result) : gores (list result) :=
  match fuel with
  | O => Panic FuelExhausted
  | Datatypes.S fuel =>
      os ← mapM worker (seqZ i numWorkers);
      let active := filter (fun o => Active o = true) (arrive i os) in
      match active with
      | [] => Val results
      | _ => derive_loop fuel (i + numWorkers) (results ++ active)
      end
  end.

(** [func deriveAddresses(ek *hdkeychain.ExtendedKey, prefix byte, db *postgres.Database) []string] *)
Definition deriveAddresses (fuel : nat) : gores (list string) :=
  results ← derive_loop fuel 0 [];
  Val (map Addr (sort_any (fun a b => Index a <? Index b) results)).

End addresses.

(** [func GenerateAddrs(xpub string, ticker string, db *postgres.Database) []string] *)
Definition GenerateAddrs (arrive : Z → list result → list result) (fuel : nat) (xpub ticker : string) (st : store) :
    gores (list string) :=
  '(_, rk, ck) ← deriveKeys xpub;
  prefix ← p2pkhPrefix ticker;
  rkAddrs ← deriveAddresses arrive rk prefix st fuel;
  cdAddrs ← deriveAddresses arrive ck prefix st fuel;
  Val (rkAddrs ++ cdAddrs).

End derive.

(** ** Discovery *)

Lemma seqZ_sorted lo n : StronglySorted Z.lt (seqZ lo n).
Proof.
  destruct (Z_le_gt_dec 0 n) as [Hn|]; [|rewrite seqZ_nil by lia; constructor].
  revert lo. pattern n. apply natlike_ind; [..|done].
  - intros lo. rewrite seqZ_nil by lia. constructor.
  - intros x Hx IH lo. rewrite seqZ_cons by lia. rewrite Z.pred_succ. constructor; [done|].
    apply list.Forall_forall. intros j ?%elem_of_seqZ. lia.
Qed.

Lemma StronglySorted_filter {A} (R : A → A → Prop) (P : A → Prop) `{!∀ x, Decision (P x)} l :
  StronglySorted R l → StronglySorted R (filter P l).
Proof.
  induction 1 as [|x l _ IH Hx]; [constructor|]. destruct (decide (P x)).
  - rewrite list.filter_cons_True by done. constructor; [done|]. apply list.Forall_forall.
    intros y [_ Hy]%list_elem_of_filter. by eapply list.Forall_forall in Hx.
  - by rewrite list.filter_cons_False.
Qed.

Section discovery.
Context {hd : Hdkeychain} {S : SortAny} {L : SortAnyLaws S}.
Context (arrive : Z → list result → list result) (ek : ExtendedKey) (prefix : Z) (st : store).

(** The keys below [limit] can be derived; [address] gives their addresses. *)
Context (limit : Z) (address : Z → string).
Context (Hlimit : limit ≤ 2 ^ 31) (Harrive : ∀ i l, arrive i l ≡ₚ l).
Context (Hkeys : ∀ i, 0 ≤ i < limit → ∃ child, Child ek i = Val child ∧ key_address child prefix = Val (address i)).

(** The address of an index has transactions. *)
Definition used (i : Z) : bool :=
  match GetTxIDsByAddresses [address i] None None st with Val (_ :: _) => true | _ => false end.

Definition result_of (i : Z) : result := {| Index := i; Active := used i; Addr := address i |}.

Lemma worker_Val i : 0 ≤ i < limit → worker ek prefix st i = Val (result_of i).
Proof.
  intros Hi. destruct (Hkeys i Hi) as (child & Hc & Ha). unfold worker, generateChild. rewrite Z.mod_small by lia.
  rewrite Hc. cbn. rewrite Ha. cbn. unfold result_of, used. unfold GetTxIDsByAddresses at 1. cbn.
  unfold GetTxIDsByAddresses. cbn. by destruct (map snd _).
Qed.

Lemma workers_Val l : Forall (fun i => 0 ≤ i < limit) l → mapM (worker ek prefix st) l = Val (map result_of l).
Proof. intros H. apply mapM_Val. induction H; constructor; [by apply worker_Val|done]. Qed.

(** The used indices of a range *)
Definition used_in (lo n : Z) : list Z := filter (fun i => used i = true) (seqZ lo n).

Lemma filter_active l :
  filter (fun o => Active o = true) (map result_of l) = map result_of (filter (fun i => used i = true) l).
Proof.
  induction l as [|i l IH]; [done|]. cbn [map]. destruct (used i) eqn:Hi.
  - rewrite !list.filter_cons_True by done. cbn. by rewrite IH.
  - rewrite !list.filter_cons_False by (cbn [result_of Active]; by rewrite Hi). done.
Qed.

Lemma batch_active i : 0 ≤ i → i + numWorkers ≤ limit →
  ∃ os, mapM (worker ek prefix st) (seqZ i numWorkers) = Val os ∧
    filter (fun o => Active o = true) (arrive i os) ≡ₚ map result_of (used_in i numWorkers).
Proof.
  intros Hi Hlim. eexists. split; [apply workers_Val, list.Forall_forall; intros j ?%elem_of_seqZ; lia|].
  rewrite Harrive, filter_active. done.
Qed.

(** No address is used from [bound] on: the loop stops at the first batch of
    which none is. *)
Lemma derive_loop_stops fuel i results bound :
  0 ≤ i → (∀ j, bound ≤ j → used j = false) → bound ≤ i + numWorkers * (Z.of_nat fuel - 1) → (0 < fuel)%nat →
  i + numWorkers * Z.of_nat fuel ≤ limit →
  ∃ k rs, 0 ≤ k ∧ derive_loop arrive ek prefix st fuel i results = Val rs ∧
    rs ≡ₚ results ++ map result_of (used_in i (numWorkers * k)) ∧
    used_in (i + numWorkers * k) numWorkers = [] ∧
    ∀ m, 0 ≤ m < k → used_in (i + numWorkers * m) numWorkers ≠ [].
Proof.
  intros Hi Hused. revert i results Hi. unfold numWorkers. induction fuel as [|fuel IH]; intros i results Hi Hb Hf Hlim; [lia|].
  cbn [derive_loop]. destruct (batch_active i Hi ltac:(unfold numWorkers; lia)) as (os & -> & Hp). cbn. unfold numWorkers in *.
  destruct (filter _ (arrive i os)) as [|o active] eqn:Hact.
  - apply Permutation_nil, map_eq_nil in Hp. exists 0, results. split_and!; [lia|done| |by rewrite Z.mul_0_r, Z.add_0_r|lia].
    by rewrite app_nil_r.
  - assert (Hne : used_in i 20 ≠ []) by (intros Hnil; rewrite Hnil in Hp; by apply Permutation_nil_r in Hp).
    destruct (IH (i + 20) (results ++ o :: active)) as (k & rs & Hk & Hrs & Hperm & Hstop & Hgo); [lia|lia| |lia|].
    { destruct fuel; [|lia]. destruct Hne. apply filter_all_false. intros j ?%elem_of_seqZ. apply Hused. lia. }
    exists (k + 1), rs. split_and!; [lia|done| |by replace (i + 20 * (k + 1)) with (i + 20 + 20 * k) by lia|].
    + rewrite Hperm, Hp, <-app_assoc, <-map_app. unfold used_in.
      by rewrite <-list.filter_app, <-seqZ_app, Z.mul_add_distr_l, Z.mul_1_r, Z.add_comm by lia.
    + intros m Hm. destruct (Z.eq_dec m 0) as [->|]; [by rewrite Z.mul_0_r, Z.add_0_r|].
      replace (i + 20 * m) with (i + 20 + 20 * (m - 1)) by lia. apply Hgo. lia.
Qed.

(** Before [j] there are no twenty unused addresses in a row. *)
Definition within_gap (j : Z) : Prop :=
  ∀ i, 0 ≤ i → i + 20 ≤ j → ∃ m, i ≤ m < i + 20 ∧ used m = true.

Lemma used_in_sorted lo n : StronglySorted (fun a b => Index a ≤ Index b) (map result_of (used_in lo n)).
Proof.
  unfold used_in. pose proof (seqZ_sorted lo n) as Hs. induction Hs as [|i l _ IH Hi]; [constructor|].
  destruct (decide (used i = true)).
  - rewrite list.filter_cons_True by done. cbn [map]. constructor; [done|]. apply list.Forall_forall.
    intros r (j & -> & [_ Hj]%list_elem_of_filter)%list_elem_of_fmap. rewrite list.Forall_forall in Hi.
    specialize (Hi j Hj). cbn. lia.
  - by rewrite list.filter_cons_False.
Qed.

Lemma used_in_distinct lo n : NoDup (map Index (map result_of (used_in lo n))).
Proof.
  rewrite map_map. cbn [result_of Index]. rewrite map_id. apply list.NoDup_filter, NoDup_seqZ.
Qed.

(** The addresses in the order of their indices, up to the first batch without a
    used one *)
Lemma deriveAddresses_used fuel bound :
  (∀ j, bound ≤ j → used j = false) → bound ≤ numWorkers * (Z.of_nat fuel - 1) → (0 < fuel)%nat →
  numWorkers * Z.of_nat fuel ≤ limit →
  ∃ k, 0 ≤ k ∧ deriveAddresses arrive ek prefix st fuel = Val (map address (used_in 0 (numWorkers * k))) ∧
    used_in (numWorkers * k) numWorkers = [].
Proof.
  intros Hused Hb Hf Hlim. destruct (derive_loop_stops fuel 0 [] bound) as (k & rs & Hk & Hrs & Hp & Hstop & _); [lia|done|lia..|].
  exists k. split_and!; [done| |exact Hstop]. unfold deriveAddresses. rewrite Hrs. cbn.
  assert (sort_any (fun a b => Index a <? Index b) rs = map result_of (used_in 0 (numWorkers * k))) as ->.
  { apply (sorted_keys_unique Index); [by apply sort_any_sorted|apply used_in_sorted|by rewrite sort_any_perm, Hp|].
    rewrite sort_any_perm, Hp. apply used_in_distinct. }
  by rewrite map_map.
Qed.

Lemma within_gap_found j k :
  0 ≤ k → 0 ≤ j → used j = true → within_gap j → used_in (numWorkers * k) numWorkers = [] →
  j ∈ used_in 0 (numWorkers * k).
Proof.
  intros Hk Hj Hu Hgap Hnone.
  assert (Hno : ∀ m, numWorkers * k ≤ m < numWorkers * k + 20 → used m = true → False).
  { intros m Hm Hum. assert (Hin : m ∈ used_in (numWorkers * k) numWorkers).
    { apply list_elem_of_filter. split; [done|]. apply elem_of_seqZ. unfold numWorkers in *. lia. }
    rewrite Hnone in Hin. by apply elem_of_nil in Hin. }
  apply list_elem_of_filter. split; [done|]. apply elem_of_seqZ. split; [done|].
  destruct (Z_lt_ge_dec j (numWorkers * k)); [lia|]. exfalso.
  destruct (Z_lt_ge_dec j (numWorkers * k + 20)); [by apply (Hno j); [lia|]|].
  destruct (Hgap (numWorkers * k)) as (m & Hm & Hum); [unfold numWorkers; lia|lia|]. by apply (Hno m).
Qed.

End discovery.

(** ** Properties *)

(** C40. [deriveAddresses] ends when finitely many addresses are used, and returns
    used addresses only, each once and in the order of their indices, whatever
    the order in which its goroutines answer.  It finds every used address that is
    not preceded by twenty unused ones in a row: all that a wallet within the
    gap limit of BIP 44 uses. *)
Theorem deriveAddresses_discovers {hd : Hdkeychain} {S : SortAny} {L : SortAnyLaws S}
    (arrive : Z → list result → list result) (ek : ExtendedKey) (prefix : Z) (st : store)
    (limit bound : Z) (address : Z → string) (fuel : nat) :
  limit ≤ 2 ^ 31 → (∀ i l, arrive i l ≡ₚ l) →
  (∀ i, 0 ≤ i < limit → ∃ child, Child ek i = Val child ∧ key_address child prefix = Val (address i)) →
  (∀ j, bound ≤ j → used st address j = false) → (0 < fuel)%nat →
  bound ≤ numWorkers * (Z.of_nat fuel - 1) → numWorkers * Z.of_nat fuel ≤ limit →
  ∃ indices, deriveAddresses arrive ek prefix st fuel = Val (map address indices) ∧
    StronglySorted Z.lt indices ∧ Forall (fun i => used st address i = true) indices ∧
    ∀ j, 0 ≤ j → used st address j = true → within_gap st address j → j ∈ indices.
Proof.
  intros Hlim Harr Hkeys Hused Hf Hb Hl.
  destruct (deriveAddresses_used arrive ek prefix st limit address Hlim Harr Hkeys fuel bound)
    as (k & Hk & Hd & Hstop); [done..|].
  eexists. split; [exact Hd|]. split_and!.
  - apply StronglySorted_filter, seqZ_sorted.
  - apply list.Forall_forall. by intros i [Hi _]%list_elem_of_filter.
  - intros j Hj Hu Hgap. by apply within_gap_found.
Qed.

(** ** A wallet *)

(** Keys are paths; the addresses 3 and 22 of a path are known to the store. *)
Definition path_address (i : Z) : string :=
  if i =? 3 then "alice" else if i =? 22 then "miner" else "unused".

#[local] Instance paths : Hdkeychain := {|
  ExtendedKey := list Z;
  NewKeyFromString := fun s => if String.eqb s "xpub" then Val [] else Err (ENew "the provided serialized extended key length is invalid");
  Child := fun path i => if i <? 2 ^ 31 then Val (i :: path) else Err (ENew "cannot derive a hardened key from a public key");
  key_address := fun path prefix => Val (match path with i :: _ => path_address i | [] => "account"%string end);
|}.

Definition paid : store :=
  @history test_numbers
    [TransactionInsert (-1) (def_of (test_tx "t1" [test_vin "" (-1)] [test_vout "1" 0 "miner"; test_vout "2" 1 "alice"])) "" (-1)]
    empty_store.

Lemma deriveAddresses_discovers_witness :
  ∃ indices, @deriveAddresses paths merge_any (fun _ => rev (A:=result)) [0] 0 paid 3 = Val (map path_address indices) ∧
    StronglySorted Z.lt indices ∧ Forall (fun i => used paid path_address i = true) indices ∧
    ∀ j, 0 ≤ j → used paid path_address j = true → within_gap paid path_address j → j ∈ indices.
Proof.
  apply (@deriveAddresses_discovers paths merge_any merge_any_laws (fun _ => rev (A:=result)) [0] 0 paid (2 ^ 31) 23 path_address 3).
  - lia.
  - intros _ l. apply Permutation_sym, Permutation_rev.
  - intros i Hi. exists [i; 0]. split; [|done]. cbn. by rewrite (proj2 (Z.ltb_lt i _)) by lia.
  - intros j Hj. unfold used, path_address. rewrite (proj2 (Z.eqb_neq j 3)), (proj2 (Z.eqb_neq j 22)) by lia.
    vm_compute. reflexivity.
  - lia.
  - unfold numWorkers. lia.
  - unfold numWorkers. lia.
Defined.

Lemma GenerateAddrs_example :
  @GenerateAddrs paths merge_any (fun _ => rev (A:=result)) 3 "xpub" "ltc" paid = Val ["alice"; "miner"; "alice"; "miner"]%string.
Proof. vm_compute. reflexivity. Qed.

(** A malformed key or an unknown ticker ends the process of the caller. *)
Lemma GenerateAddrs_exits :
  (∃ e, @GenerateAddrs paths merge_any (fun _ l => l) 3 "zpub" "btc" paid = Exit e) ∧
  (∃ e, @GenerateAddrs paths merge_any (fun _ l => l) 3 "xpub" "eth" paid = Exit e).
Proof. split; eexists; reflexivity. Qed.
