(* ===== verification/Server.v ===== *)
(** * Server: the API server

    src/V2/cmd/api/main.go with src/V2/pkg/api/server/server.go and
    src/V2/internal/middleware: the middlewares, the handler [Info] and the two
    routing tables over the handlers of [InsightApi] and [Etherscan].  The router
    is github.com/go-chi/chi, a parameter; its own middlewares (compression,
    timeouts, throttling, CORS, recovery) pass requests on and are left out. *)

From stdpp Require Import base list strings numbers.
From Stdlib Require Import ZArith Lia Ascii String.
From S2P Require Import Prelude GoStrings Config Json JsonText Rpc Eth Etherscan Utxo BlockTable Store Postgres Indexer InsightTypes Insight InsightApi Node Progress Monitor.

Local Open Scope string_scope.
Local Open Scope Z_scope.
Local Open Scope list_scope.

(** ** Requests and answers *)

(** A request: its method, the path and the query of its URL, a header and the
    text of its body *)
Record request := {
  Method : string;
  Path : string;
  Query : query;
  ContentType : string;
  ReqBody : string;
}.

(** The response of [Info] *)
Record info := {
  in_Version : string;
  in_ChainInfo : ChainInfo;
  in_ChainTips : list (option ChainTip);
  NodeHeight : Z;
  DBHeight : Z;
  Percent : float32;
}.

(** What is written *)
Inductive answer :=
| Written (code : Z) (text : string)
| RefusedWith (code : Z) (e : gerror)
| InfoAnswer (i : info)
| InsightAnswer (r : response)
| EtherAnswer (r : reply).

(** A handler, given the parameters of the path *)
Definition handler (T : Type) : Type := query → request → act T answer.

(** ** Middlewares *)

(** [strings.HasSuffix] *)
Definition HasSuffix (s suffix : string) : bool :=
  HasPrefix (of_bytes (rev (bytes s))) (of_bytes (rev (bytes suffix))).

(** [strings.TrimSuffix(s, suffix)] for a suffix of one byte *)
Definition TrimSuffix (s suffix : string) : string :=
  if HasSuffix s suffix then of_bytes (removelast (bytes s)) else s.

(** [func Auth(h http.Handler) http.Handler] *)
Definition Auth {T} (h : handler T) : handler T := fun ps rq t =>
  if negb (String.eqb (Path rq) "/favicon.ico") && String.eqb (get (Query rq) "apikey") "" then (Val (Written 401 ""), t)
  else h ps rq t.

(** [func APIKeyHarasser(h http.Handler) http.Handler] *)
Definition APIKeyHarasser {T} (h : handler T) : handler T := fun ps rq t =>
  if HasSuffix (get (Query rq) "apikey") "-local" then
    (Val (Written 420 "Please use a distinct 'apikey' for your request and try again"), t)
  else h ps rq t.

(** The status code of an answer; a handler that does not call [WriteHeader] has
    200 ([newStatusWriter]) *)
Definition status (a : answer) : Z :=
  match a with
  | Written c _ | RefusedWith c _ => c
  | InfoAnswer _ => 200
  | InsightAnswer r => code r
  | EtherAnswer (Failure c _) | EtherAnswer (Refused c _) => c
  | EtherAnswer (Respond _) => 200
  end.

(** What [Logger] writes after a request: an error for each status that is not
    200, and once more for 104; nothing for successful pings *)
Inductive log_line := LogError (method : string) (code : Z) | LogReset | LogInfo (method : string) (code : Z).

(** [func Logger(h http.Handler) http.Handler] *)
Definition Logger (rq : request) (code : Z) : list log_line :=
  if negb (code =? 200) then
    LogError (Method rq) code :: (if code =? 104 then [LogReset] else [])
  else if negb (String.eqb (Path rq) "/ping") && negb (String.eqb (Path rq) "/favicon.ico") then [LogInfo (Method rq) code]
  else [].

(** ** Routers *)

(** A part of a pattern: a text or a parameter [{name}] *)
Inductive segment := Lit (s : string) | Var (name : string).

Definition nonempty (s : string) : bool := negb (String.eqb s "").

(** The parts of a pattern such as [/tx/{txid}] *)
Definition segment_of (s : string) : segment :=
  match bytes s with
  | 123 :: l => Var (of_bytes (removelast l))
  | _ => Lit s
  end.

Definition pattern (s : string) : list segment := map segment_of (List.filter nonempty (Split "/" s)).

(** The parameters of a path that fits a pattern *)
Fixpoint fits (p : list segment) (path : list string) : option query :=
  match p, path with
  | [], [] => Some []
  | Lit s :: p, x :: path => if String.eqb s x then fits p path else None
  | Var v :: p, x :: path => (fun ps => (v, x) :: ps) <$> fits p path
  | _, _ => None
  end.

(** A path of parts that are not empty *)
Definition path_of (parts : list string) : string := fold_right (fun s path => String "/" (s ++ path)) "" parts.
Definition plain_part (s : string) : Prop := s ≠ "" ∧ 47 ∉ bytes s.

(** A table: the method and the pattern of each route *)
Definition table : Type := list (string * list segment).

(** Package chi: a router finds the number of the route of a request and the
    parameters by its method and path, and [StripSlashes] removes a slash at the
    end of a path. *)
Class Chi := {
  route : table → string → string → option (nat * query);
  StripSlashes : string → string;
}.

Definition names_part (s x : string) : bool := String.eqb s x.

(** A route is not hidden by another one: where their patterns part, it has a
    text, or a parameter that is not the text of the other. *)
Fixpoint apart (p p' : list segment) (parts : list string) : bool :=
  match p, p', parts with
  | a :: p, b :: p', x :: parts =>
      match a, b with
      | Lit s, Lit s' => if String.eqb s s' then apart p p' parts else true
      | Lit _, Var _ => true
      | Var _, Lit s => negb (names_part s x)
      | Var v, Var v' => String.eqb v v' && apart p p' parts
      end
  | [], [], _ => false
  | _, _, _ => true
  end.

(** What the code relies on: a path is taken to the route it fits, when no other
    route hides it, and a path that fits no route is not found. *)
Class ChiLaws {chi : Chi} := {
  route_found (t : table) m parts i p ps :
    Forall plain_part parts → t !! i = Some (m, p) → fits p parts = Some ps →
    (∀ j m' p', t !! j = Some (m', p') → j ≠ i → apart p p' parts = true) →
    route t m (path_of parts) = Some (i, ps);
  route_none (t : table) m parts :
    Forall plain_part parts → (∀ i m' p, t !! i = Some (m', p) → fits p parts = None) →
    route t m (path_of parts) = None;
  StripSlashes_plain parts : Forall plain_part parts → parts ≠ [] → StripSlashes (path_of parts) = path_of parts;
}.

(** A registered route *)
Record endpoint (T : Type) := { ep_Method : string; ep_Pattern : list segment; ep_Handler : handler T }.
Arguments ep_Method {T} _.
Arguments ep_Pattern {T} _.
Arguments ep_Handler {T} _.

Section routers.
Context {T : Type}.

(** [r.Get], [r.Post], [r.Route] and [r.Use] *)
Definition Get (p : string) (h : handler T) : endpoint T := {| ep_Method := "GET"; ep_Pattern := pattern p; ep_Handler := h |}.
Definition Post (p : string) (h : handler T) : endpoint T := {| ep_Method := "POST"; ep_Pattern := pattern p; ep_Handler := h |}.
Definition Route (p : string) (l : list (endpoint T)) : list (endpoint T) :=
  map (fun e => {| ep_Method := ep_Method e; ep_Pattern := pattern p ++ ep_Pattern e; ep_Handler := ep_Handler e |}) l.
Definition Use (mw : handler T → handler T) (l : list (endpoint T)) : list (endpoint T) :=
  map (fun e => {| ep_Method := ep_Method e; ep_Pattern := ep_Pattern e; ep_Handler := mw (ep_Handler e) |}) l.

Definition table_of (l : list (endpoint T)) : table := map (fun e => (ep_Method e, ep_Pattern e)) l.

(** [(chi.Mux).ServeHTTP]; [missed] answers the requests that no route takes,
    after the middlewares of the routers on their way *)
Definition serve `{Chi} (missed : handler T) (l : list (endpoint T)) : handler T := fun ps rq =>
  match route (table_of l) (Method rq) (Path rq) with
  | Some (i, ps) => match l !! i with Some e => ep_Handler e ps rq | None => missed ps rq end
  | None => missed ps rq
  end.

(** A router with [StripSlashes] *)
Definition strip_slashes `{Chi} (h : handler T) : handler T := fun ps rq =>
  h ps {| Method := Method rq; Path := StripSlashes (Path rq); Query := Query rq; ContentType := ContentType rq;
          ReqBody := ReqBody rq |}.
End routers.

(** ** The servers *)

(** [bc], [db] and the configuration, and what the handlers take from outside *)
Section servers.
Context {sorting : SortAny} {order : RowOrder} {btc : Btcutil} {chi : Chi}.
Context (db_zone local_zone now : Z) (arrive : nat → list arrival → list arrival) (pick : gerror → list gerror → gerror).
Context {T : Type} (Do : http_request → T → gores http_response * T) (draws : T → nat → Z)
  (request_url : string → string → string → gores string) (missed : handler T).

(** [func (i *Server) Info(w http.ResponseWriter, r *http.Request)]; [version] is
    what [ReadFile] reads.  A percentage that is no number cannot be encoded. *)
Definition server_Info (version : option string) (bc : Blockchain) (st : store) : act T answer := fun t =>
  let gv := TrimSuffix (default "" version) (of_bytes [10]) in
  match GetChainInfo Do draws request_url bc t with
  | (Val ci, t) =>
      match GetChainTips Do draws request_url bc t with
      | (Val ct, t) =>
          match LastBlock st with
          | Val (Some (_, height)) =>
              let p := percent height (ci_Blocks ci) in
              (Val match p with
                   | Finite _ _ _ =>
                       InfoAnswer {| in_Version := gv; in_ChainInfo := ci; in_ChainTips := ct; NodeHeight := ci_Blocks ci;
                                     DBHeight := height; Percent := p |}
                   | _ => Written 500 "json: unsupported value"
                   end, t)
          | Val None => (Panic NilDereference, t)
          | Err e => (Val (RefusedWith 404 e), t)
          | Panic p => (Panic p, t)
          | Exit e => (Exit e, t)
          end
      | (Err e, t) => (Val (RefusedWith 404 e), t)
      | (Panic p, t) => (Panic p, t)
      | (Exit e, t) => (Exit e, t)
      end
  | (Err e, t) => (Val (RefusedWith 404 e), t)
  | (Panic p, t) => (Panic p, t)
  | (Exit e, t) => (Exit e, t)
  end.

(** The insight handlers answer with their responses. *)
#[local] Instance answer_replies : Replies (act T answer) := fun r t => (InsightAnswer <$> r, t).
Definition insight (r : act T response) : act T answer := fun t => let '(r, t) := r t in (InsightAnswer <$> r, t).

(** [context.WithValue]: values of the context are kept beside the parameters of
    the path *)
Definition with_value (key value : string) (ps : query) : query := (("context " ++ key)%string, value) :: ps.
Definition value (ps : query) (key : string) : string := get ps ("context " ++ key).

(** The middlewares of the insight API as the routers use them *)
Definition use_CoinCtx (config : Config) (h : handler T) : handler T := fun ps rq =>
  CoinCtx config (get ps "coin") (fun coin => h (with_value "coin" coin ps) rq).
Definition use_AddressesCtx (h : handler T) : handler T := fun ps rq =>
  AddressesCtx (get ps "addrs") (fun addrs => h (with_value "addrs" addrs ps) rq).
Definition use_BCHInterceptor (h : handler T) : handler T := fun ps rq =>
  BCHInterceptor (value ps "coin") (get ps "addrs") (value ps "addrs") (fun addrs => h (with_value "addrs" addrs ps) rq).

(** [func newETHRouter(bc *eth.Blockchain) *chi.Mux] *)
Definition newETHRouter (keccak256 : list Z → list Z) (undefined : string → Z) (bc : Client) : handler T :=
  let ether (r : act T reply) : act T answer := fun t => let '(r, t) := r t in (EtherAnswer <$> r, t) in
  Auth (strip_slashes (serve missed (
    [Get "/favicon.ico" (fun _ _ t => (Val (Written 200 "fav"), t));
     Get "/ping" (fun _ _ t => (Val (Written 200 "pong"), t))] ++
    Route "/api"
      [Get "/" (fun _ rq => ether (ActionRouter Do draws request_url bc keccak256 undefined (Query rq)));
       Get "/info" (fun _ _ => ether (Info Do draws request_url bc))]))).

(** The routes below [/insight/{coin}]; [form] is what [ParseForm] and package
    schema make of the query and the body of a request *)
Definition insight_routes (form : query → string → gores string) (bc : Blockchain) (st : store) : list (endpoint T) :=
  let status : handler T := fun _ rq => replying (Status (get (Query rq) "q") st) in
  let block : handler T := fun ps _ => replying (BlockByBlockHash (get ps "blockHash") st) in
  let tx : handler T := fun ps _ => replying (TxByTxID db_zone local_zone now arrive pick (get ps "txid") st) in
  let rawtx : handler T := fun ps _ => replying (RawTxByTxID (get ps "txid") st) in
  let txs : handler T := fun _ rq =>
    replying (TxsByBlockHash db_zone local_zone now arrive pick (get (Query rq) "block") (get (Query rq) "pageNum") st) in
  let history : handler T := fun ps rq =>
    replying (TxHistoryByAddrs db_zone local_zone now arrive pick (value ps "addrs") (get (Query rq) "from") (get (Query rq) "to") st) in
  let utxos : handler T := fun ps _ => replying (UtxosByAddrs db_zone local_zone now (value ps "addrs") st) in
  let send : handler T := fun _ rq =>
    insight (SendRawTx (decodeRequest (form (Query rq) (ReqBody rq)) (ContentType rq) (ReqBody rq))
      (Node.SendRawTransaction Do draws request_url bc)) in
  [Get "/status" status; Get "/block/{blockHash}" block; Get "/tx/{txid}" tx; Get "/rawtx/{txid}" rawtx; Get "/txs" txs] ++
  Use use_AddressesCtx (Use use_BCHInterceptor [Get "/addrs/{addrs}/txs" history; Get "/addrs/{addrs}/utxo" utxos]) ++
  [Post "/tx/send" send] ++
  (* support kk client redirect from v1 endpoint to cq v2 *)
  [Get "/api/status" status; Get "/api/block/{blockHash}" block; Get "/api/tx/{txid}" tx; Get "/api/txs" txs] ++
  Use use_AddressesCtx (Use use_BCHInterceptor [Get "/api/addrs/{addrs}/txs" history; Get "/api/addrs/{addrs}/utxo" utxos]) ++
  [Post "/api/tx/send" send].

(** The routes of [newUTXORouter] *)
Definition utxo_routes (version : option string) (form : query → string → gores string) (config : Config) (bc : Blockchain) (st : store) :
    list (endpoint T) :=
  [Get "/favicon.ico" (fun _ _ t => (Val (Written 200 "fav"), t));
   Get "/ping" (fun _ _ t => (Val (Written 200 "pong"), t))] ++
  Route "/api"
    (Route "/{coin}" (Use (use_CoinCtx config) [Get "/info" (fun _ _ => server_Info version bc st)]) ++
     Route "/insight" (Route "/{coin}" (Use (use_CoinCtx config) (insight_routes form bc st)))).

(** [r.Mount("/debug", ...)] *)
Definition mount_debug (profiler : handler T) (h : handler T) : handler T := fun ps rq =>
  match Split "/" (Path rq) with
  | a :: b :: _ => if String.eqb a "" && String.eqb b "debug" then profiler ps rq else h ps rq
  | _ => h ps rq
  end.

(** [func newUTXORouter(db *postgres.Database, bc *utxo.Blockchain, c *config.Config) *chi.Mux];
    [environment] is the variable [ENVIRONMENT] *)
Definition newUTXORouter (environment : string) (profiler : handler T) (version : option string)
    (form : query → string → gores string) (config : Config) (bc : Blockchain) (st : store) : handler T :=
  let routes := serve missed (utxo_routes version form config bc st) in
  if String.eqb environment "prod" then strip_slashes routes
  else APIKeyHarasser (mount_debug profiler routes).

End servers.

(** ** Finding routes *)

(** No route of a table hides route [i] with pattern [p] *)
Definition unhidden (t : table) (i : nat) (p : list segment) (parts : list string) : bool :=
  forallb (fun '(j, (_, p')) => Nat.eqb j i || apart p p' parts) (imap pair t).

Lemma numbered_elem {A} (l : list A) j a : In (j, a) (imap pair l) ↔ l !! j = Some a.
Proof.
  rewrite <-list_elem_of_In, list_elem_of_lookup. split.
  - intros (k & Hk). rewrite list_lookup_imap in Hk. destruct (l !! k) as [b|] eqn:E; [|done]. cbn in Hk. by injection Hk as -> ->.
  - intros Hj. exists j. by rewrite list_lookup_imap, Hj.
Qed.

Lemma unhidden_apart t i p parts j m p' :
  unhidden t i p parts = true → t !! j = Some (m, p') → j ≠ i → apart p p' parts = true.
Proof.
  unfold unhidden, table in *. rewrite forallb_forall. intros H Hj Hne. specialize (H (j, (m, p'))). cbn in H.
  rewrite (proj2 (Nat.eqb_neq _ _) Hne) in H. by apply H, numbered_elem.
Qed.

Lemma Split_path_of part parts :
  Forall plain_part (part :: parts) → Split "/" (path_of (part :: parts)) = "" :: part :: parts.
Proof.
  revert part. induction parts as [|x parts IH]; intros part [[_ Hp] H]%list.Forall_cons.
  - cbn. rewrite append_nil_r. by rewrite Split_none.
  - specialize (IH x H). cbn in *. injection IH as IH. by rewrite Split_app, IH.
Qed.

Lemma fits_length p parts ps : fits p parts = Some ps → List.length p = List.length parts.
Proof.
  revert parts ps. induction p as [|[s|v] p IH]; intros [|x parts] ps H; try done; cbn in *; f_equal.
  - destruct (String.eqb s x); [by eapply IH|done].
  - apply fmap_Some in H as (qs & H & _). by eapply IH.
Qed.

Lemma plain_part_closed s : nonempty s && bool_decide (47 ∉ bytes s) = true → plain_part s.
Proof. intros [Hn Hb%bool_decide_eq_true]%andb_true_iff. split; [|done]. by intros ->. Qed.

Section finding.
Context {chi : Chi} {laws : ChiLaws} {T : Type}.

Lemma serve_found missed (l : list (endpoint T)) i e qs rq parts ps :
  l !! i = Some e → fits (ep_Pattern e) parts = Some ps → Forall plain_part parts →
  unhidden (table_of l) i (ep_Pattern e) parts = true → Method rq = ep_Method e → Path rq = path_of parts →
  serve missed l qs rq = ep_Handler e ps rq.
Proof.
  intros He Hf Hp Hu Hm Hpath. unfold serve. rewrite Hm, Hpath.
  rewrite (route_found (table_of l) _ parts i (ep_Pattern e) ps); [by rewrite He|done| |done|].
  - etrans; [exact (list_lookup_fmap (fun e : endpoint T => (ep_Method e, ep_Pattern e)) l i)|by rewrite He].
  - intros j m' p' Hj Hne. by eapply unhidden_apart.
Qed.

Lemma serve_missed missed (l : list (endpoint T)) qs rq parts :
  Forall plain_part parts →
  forallb (fun '(_, p) => negb (Nat.eqb (List.length p) (List.length parts)) || match fits p parts with None => true | _ => false end)
    (table_of l) = true →
  Path rq = path_of parts → serve missed l qs rq = missed qs rq.
Proof.
  intros Hp Hl Hpath. unfold serve. rewrite Hpath, route_none; [done|done|].
  intros i m p Hi%list_elem_of_lookup_2%list_elem_of_In. rewrite forallb_forall in Hl. specialize (Hl _ Hi). cbn in Hl.
  destruct (fits p parts) as [ps|] eqn:Hf; [|done]. by rewrite (fits_length _ _ _ Hf), Nat.eqb_refl in Hl.
Qed.

End finding.

(** ** The insight API under both prefixes *)

(** The routes of a UTXO coin *)
Definition utxo_table : table :=
  let insight (p : list segment) := Lit "api" :: Lit "insight" :: Var "coin" :: p in
  let below (p : list segment) :=
    [("GET", insight (p ++ [Lit "addrs"; Var "addrs"; Lit "txs"])); ("GET", insight (p ++ [Lit "addrs"; Var "addrs"; Lit "utxo"]));
     ("POST", insight (p ++ [Lit "tx"; Lit "send"]))] in
  [("GET", [Lit "favicon.ico"]); ("GET", [Lit "ping"]); ("GET", [Lit "api"; Var "coin"; Lit "info"]);
   ("GET", insight [Lit "status"]); ("GET", insight [Lit "block"; Var "blockHash"]); ("GET", insight [Lit "tx"; Var "txid"]);
   ("GET", insight [Lit "rawtx"; Var "txid"]); ("GET", insight [Lit "txs"])] ++ below [] ++
  [("GET", insight [Lit "api"; Lit "status"]); ("GET", insight [Lit "api"; Lit "block"; Var "blockHash"]);
   ("GET", insight [Lit "api"; Lit "tx"; Var "txid"]); ("GET", insight [Lit "api"; Lit "txs"])] ++ below [Lit "api"].

Section insight_server.
Context {sorting : SortAny} {order : RowOrder} {btc : Btcutil} {chi : Chi} {laws : ChiLaws}.
Context (db_zone local_zone now : Z) (arrive : nat → list arrival → list arrival) (pick : gerror → list gerror → gerror).
Context {T : Type} (Do : http_request → T → gores http_response * T) (draws : T → nat → Z)
  (request_url : string → string → string → gores string) (missed : handler T).
Context (environment : string) (profiler : handler T) (version : option string) (form : query → string → gores string)
  (config : Config) (bc : Blockchain) (st : store).

Local Abbreviation routes := (utxo_routes db_zone local_zone now arrive pick Do draws request_url version form config bc st).
Local Abbreviation router := (newUTXORouter db_zone local_zone now arrive pick Do draws request_url missed environment profiler
  version form config bc st).

(** A request reaches the routes in production, and elsewhere when its key has not
    the suffix that [APIKeyHarasser] refuses. *)
Definition reaches (rq : request) : Prop := environment = "prod" ∨ HasSuffix (get (Query rq) "apikey") "-local" = false.

Lemma router_routes qs rq part parts :
  Path rq = path_of (part :: parts) → Forall plain_part (part :: parts) → part ≠ "debug" →
  reaches rq → router qs rq = serve missed routes qs rq.
Proof.
  intros Hpath Hp Hd Hk. unfold newUTXORouter. destruct (String.eqb_spec environment "prod") as [|Henv].
  - unfold strip_slashes. rewrite Hpath, StripSlashes_plain, <-Hpath by done. by destruct rq.
  - destruct Hk as [?|Hk]; [done|]. unfold APIKeyHarasser, mount_debug. rewrite Hk, Hpath, Split_path_of by done. by rewrite (proj2 (String.eqb_neq _ _) Hd).
Qed.

(** What the insight API answers below [/api/insight/{coin}], and again below
    [/api/insight/{coin}/api] *)
Inductive redirected : string → list string → Prop :=
| to_status : redirected "GET" ["status"]
| to_block h : redirected "GET" ["block"; h]
| to_tx txid : txid ≠ "send" → redirected "GET" ["tx"; txid]
| to_txs : redirected "GET" ["txs"]
| to_history addrs : redirected "GET" ["addrs"; addrs; "txs"]
| to_utxo addrs : redirected "GET" ["addrs"; addrs; "utxo"]
| to_send : redirected "POST" ["tx"; "send"].

Lemma plain_api coin parts :
  plain_part coin → Forall plain_part parts → Forall plain_part ("api" :: "insight" :: coin :: "api" :: parts).
Proof.
  assert (plain_part "api" ∧ plain_part "insight") as [? ?]; [|intros; by repeat (apply List.Forall_cons; [done|])].
  split; apply plain_part_closed; by vm_compute.
Qed.

Lemma routes_table : table_of routes = utxo_table.
Proof. reflexivity. Qed.

Lemma routes_served qs rq i e m p coin parts ps :
  routes !! i = Some e → utxo_table !! i = Some (m, p) → fits p ("api" :: "insight" :: coin :: parts) = Some ps →
  unhidden utxo_table i p ("api" :: "insight" :: coin :: parts) = true →
  Forall plain_part ("api" :: "insight" :: coin :: parts) →
  Method rq = m → Path rq = path_of ("api" :: "insight" :: coin :: parts) →
  reaches rq → router qs rq = ep_Handler e ps rq.
Proof.
  intros He Ht Hf Hu Hp Hm Hpath Hk. rewrite (router_routes qs rq "api" ("insight" :: coin :: parts)) by done.
  assert (E : (m, p) = (ep_Method e, ep_Pattern e)).
  { pose proof (list_lookup_fmap (fun e : endpoint T => (ep_Method e, ep_Pattern e)) routes i) as Hl. rewrite He in Hl.
    apply (inj Some). etrans; [symmetry; exact Ht|]. rewrite <-routes_table. exact Hl. }
  injection E as -> ->. by eapply serve_found.
Qed.

(** Routes [i] and [j] take the request under both prefixes. *)
Ltac serve_both qs rq i j coin parts ps :=
  rewrite (routes_served qs rq i _ _ _ coin ("api" :: parts) ps eq_refl eq_refl eq_refl);
  [rewrite (routes_served qs _ j _ _ _ coin parts ps eq_refl eq_refl eq_refl)|..].

(** The middlewares of the addresses are those of [InsightApi]. *)
Lemma address_middlewares (h : handler T) (k : string → gores response) coin addrs rq t :
  (∀ ps, h ps rq t = (InsightAnswer <$> k (value ps "addrs"), t)) →
  use_CoinCtx config (use_AddressesCtx (use_BCHInterceptor h)) [("coin", coin); ("addrs", addrs)] rq t =
    (InsightAnswer <$> CoinCtx config coin (fun coin => AddressesCtx addrs (fun ctx => BCHInterceptor coin addrs ctx k)), t).
Proof.
  intros Hh. unfold use_CoinCtx, use_AddressesCtx, use_BCHInterceptor, CoinCtx, AddressesCtx, BCHInterceptor.
  change (get [("coin", coin); ("addrs", addrs)] "coin") with coin. destruct (GetCoin config coin); try done.
  assert (Hv : ∀ key v ps, value (with_value key v ps) key = v).
  { intros key v ps. unfold value, with_value, get. cbn [find fst]. by rewrite String.eqb_refl. }
  assert (Ha : ∀ v w, get (with_value "addrs" v (with_value "coin" w [("coin", coin); ("addrs", addrs)])) "addrs" = addrs) by done.
  assert (Hc : ∀ v, value (with_value "addrs" v (with_value "coin" coin [("coin", coin); ("addrs", addrs)])) "coin" = coin) by done.
  assert (Ha' : get (with_value "coin" coin [("coin", coin); ("addrs", addrs)]) "addrs" = addrs) by done.
  rewrite Ha, Hc, Ha', Hv. case_bool_decide; [|by rewrite Hh, Hv].
  by destruct (mapM cash_address (splitAndTrim addrs)); rewrite ?Hh, ?Hv.
Qed.

(** The routes of the addresses are those of [InsightApi]. *)
Lemma router_utxo_route qs rq coin addrs t :
  Forall plain_part ["api"; "insight"; coin; "addrs"; addrs; "utxo"] → reaches rq →
  Method rq = "GET" → Path rq = path_of ["api"; "insight"; coin; "addrs"; addrs; "utxo"] →
  router qs rq t = (InsightAnswer <$> utxo_route db_zone local_zone now config coin addrs st, t).
Proof.
  intros Hp Hk Hm Hpath.
  rewrite (routes_served qs rq 9 _ _ _ coin ["addrs"; addrs; "utxo"] [("coin", coin); ("addrs", addrs)] eq_refl eq_refl eq_refl) by done.
  by apply (address_middlewares _ (fun a => UtxosByAddrs db_zone local_zone now a st)).
Qed.

Lemma router_history_route qs rq coin addrs t :
  Forall plain_part ["api"; "insight"; coin; "addrs"; addrs; "txs"] → reaches rq →
  Method rq = "GET" → Path rq = path_of ["api"; "insight"; coin; "addrs"; addrs; "txs"] →
  router qs rq t = (InsightAnswer <$> history_route db_zone local_zone now arrive pick config coin addrs
    (get (Query rq) "from") (get (Query rq) "to") st, t).
Proof.
  intros Hp Hk Hm Hpath.
  rewrite (routes_served qs rq 8 _ _ _ coin ["addrs"; addrs; "txs"] [("coin", coin); ("addrs", addrs)] eq_refl eq_refl eq_refl) by done.
  by apply (address_middlewares _ (fun a =>
    TxHistoryByAddrs db_zone local_zone now arrive pick a (get (Query rq) "from") (get (Query rq) "to") st)).
Qed.

(** Both requests are refused. *)
Lemma harassed qs rq rq' : ¬ reaches rq → Query rq' = Query rq → router qs rq = router qs rq'.
Proof.
  intros Hr Hq. unfold reaches in Hr. unfold newUTXORouter. destruct (String.eqb_spec environment "prod"); [tauto|].
  unfold APIKeyHarasser. rewrite Hq. destruct (HasSuffix _ _); [done|tauto].
Qed.

(** C28. A client that was redirected from the first version of the service, and
    asks below [/api/insight/{coin}/api], gets the answer, and causes the calls of
    the node, of the same request below [/api/insight/{coin}], in every environment
    and with every key: the status, a block, a transaction, the transactions of a
    block, the history and the unspent outputs of addresses, and sending a
    transaction.  The raw transaction is the exception: no route takes it there,
    and it is answered like any unknown path. *)
Theorem v1_redirect qs rq coin parts :
  plain_part coin → Forall plain_part parts → Path rq = path_of ("api" :: "insight" :: coin :: "api" :: parts) →
  (redirected (Method rq) parts →
   router qs rq = router qs {| Method := Method rq; Path := path_of ("api" :: "insight" :: coin :: parts); Query := Query rq;
                               ContentType := ContentType rq; ReqBody := ReqBody rq |}) ∧
  (∀ txid, parts = ["rawtx"; txid] → reaches rq → router qs rq = missed qs rq).
Proof.
  intros Hc Hp Hpath. pose proof (plain_api coin parts Hc Hp) as Hplain. split.
  - intros Hr. assert (Hk : reaches rq ∨ ¬ reaches rq).
    { unfold reaches. destruct (HasSuffix _ _), (String.eqb_spec environment "prod"); auto. right. by intros [?|?]. }
    destruct Hk as [Hk|Hk]; [|by apply harassed].
    assert (Hplain' : Forall plain_part ("api" :: "insight" :: coin :: parts))
      by (rewrite !list.Forall_cons in Hplain; rewrite !list.Forall_cons; tauto).
    assert (Hs : ∀ txid, txid ≠ "send" → names_part "send" txid = false) by (intros; by apply String.eqb_neq).
    remember (Method rq) as method eqn:Hm. symmetry in Hm. destruct Hr as [|h|txid Ht%Hs| |addrs|addrs|].
    + by serve_both qs rq 11%nat 3%nat coin ["status"] [("coin", coin)].
    + by serve_both qs rq 12%nat 4%nat coin ["block"; h] [("coin", coin); ("blockHash", h)].
    + serve_both qs rq 13%nat 5%nat coin ["tx"; txid] [("coin", coin); ("txid", txid)]; try done;
        cbn -[names_part]; by rewrite Ht.
    + by serve_both qs rq 14%nat 7%nat coin ["txs"] [("coin", coin)].
    + by serve_both qs rq 15%nat 8%nat coin ["addrs"; addrs; "txs"] [("coin", coin); ("addrs", addrs)].
    + by serve_both qs rq 16%nat 9%nat coin ["addrs"; addrs; "utxo"] [("coin", coin); ("addrs", addrs)].
    + by serve_both qs rq 17%nat 10%nat coin ["tx"; "send"] [("coin", coin)].
  - intros txid -> Hk. rewrite (router_routes qs rq "api" ["insight"; coin; "api"; "rawtx"; txid]) by done.
    eapply serve_missed; [exact Hplain| |exact Hpath]. by rewrite routes_table.
Qed.

(** No route takes the path [/tx/send/{rawtx}] of the documentation. *)
Lemma send_path_missed qs rq coin rawtx :
  Forall plain_part ["api"; "insight"; coin; "tx"; "send"; rawtx] → reaches rq →
  Path rq = path_of ["api"; "insight"; coin; "tx"; "send"; rawtx] → router qs rq = missed qs rq.
Proof.
  intros Hp Hk Hpath. rewrite (router_routes qs rq "api" ["insight"; coin; "tx"; "send"; rawtx]) by done.
  eapply serve_missed; [exact Hp| |exact Hpath]. by rewrite routes_table.
Qed.

End insight_server.

(** ** The other handlers *)

Section handlers.
Context {T : Type} (Do : http_request → T → gores http_response * T) (draws : T → nat → Z)
  (request_url : string → string → string → gores string).

(** [Info] reports both heights, and a hundred percent exactly when the store has
    every block of the node. *)
Lemma server_Info_percent version bc st t t1 t2 ci ct hash height :
  GetChainInfo Do draws request_url bc t = (Val ci, t1) → GetChainTips Do draws request_url bc t1 = (Val ct, t2) →
  LastBlock st = Val (Some (hash, height)) → 0 ≤ height ≤ ci_Blocks ci → 0 < ci_Blocks ci < 2 ^ 24 →
  ∃ i, server_Info Do draws request_url version bc st t = (Val (InfoAnswer i), t2) ∧
    NodeHeight i = ci_Blocks ci ∧ DBHeight i = height ∧ (Percent i = hundred ↔ height = ci_Blocks ci).
Proof.
  intros Hci Hct Hlb Hh Hb. unfold server_Info. rewrite Hci, Hct, Hlb.
  pose proof (percent_complete height (ci_Blocks ci) Hh Hb) as Hp.
  destruct (percent_finite height (ci_Blocks ci) Hb) as (s & m & e & E). rewrite E in *. by eexists.
Qed.

(** It panics when no block is stored, and fails when the node has none. *)
Lemma server_Info_empty version bc t t1 t2 ci ct :
  GetChainInfo Do draws request_url bc t = (Val ci, t1) → GetChainTips Do draws request_url bc t1 = (Val ct, t2) →
  server_Info Do draws request_url version bc empty_store t = (Panic NilDereference, t2).
Proof. intros Hci Hct. unfold server_Info. by rewrite Hci, Hct. Qed.

Lemma server_Info_no_blocks version bc st t t1 t2 ci ct hash height :
  GetChainInfo Do draws request_url bc t = (Val ci, t1) → GetChainTips Do draws request_url bc t1 = (Val ct, t2) →
  LastBlock st = Val (Some (hash, height)) → 0 ≤ height < 2 ^ 24 → ci_Blocks ci = 0 →
  server_Info Do draws request_url version bc st t = (Val (Written 500 "json: unsupported value"), t2).
Proof.
  intros Hci Hct Hlb Hh Hb. unfold server_Info. rewrite Hci, Hct, Hlb, Hb, percent_no_blocks by done.
  by destruct (height =? 0).
Qed.

(** Without a key the Ethereum server answers nothing but the icon, the health
    check included, and does not call the node. *)
Lemma eth_needs_key {chi : Chi} missed keccak256 undefined bc qs rq t :
  get (Query rq) "apikey" = "" → Path rq ≠ "/favicon.ico" →
  newETHRouter Do draws request_url missed keccak256 undefined bc qs rq t = (Val (Written 401 ""), t).
Proof. intros Hk Hp. unfold newETHRouter, Auth. by rewrite Hk, (proj2 (String.eqb_neq _ _) Hp). Qed.

(** With a key the action of the query is run. *)
Lemma eth_action {chi : Chi} {laws : ChiLaws} missed keccak256 undefined bc qs rq t :
  get (Query rq) "apikey" ≠ "" → Method rq = "GET" → Path rq = "/api" →
  newETHRouter Do draws request_url missed keccak256 undefined bc qs rq t =
    (let '(r, t) := ActionRouter Do draws request_url bc keccak256 undefined (Query rq) t in (EtherAnswer <$> r, t)).
Proof.
  intros Hk Hm Hp. unfold newETHRouter, Auth. rewrite (proj2 (String.eqb_neq _ _) Hk), andb_false_r. unfold strip_slashes.
  rewrite Hp. assert (Hplain : Forall plain_part ["api"]) by (apply List.Forall_cons; [by apply plain_part_closed|constructor]).
  change "/api" with (path_of ["api"]) in *. rewrite StripSlashes_plain by done.
  match goal with |- serve ?m ?l ?q ?r t = _ => by rewrite (serve_found m l 2 _ q r ["api"] [] eq_refl eq_refl Hplain eq_refl) end.
Qed.

(** The log has one line per request, two for the status 104, and none for a
    health check that succeeds. *)
Lemma Logger_lines rq c :
  List.length (Logger rq c) = (if (c =? 104)%Z then 2
    else if (c =? 200)%Z && (String.eqb (Path rq) "/ping" || String.eqb (Path rq) "/favicon.ico") then 0 else 1)%nat.
Proof.
  unfold Logger. destruct (Z.eqb_spec c 104) as [->|]; [done|]. destruct (c =? 200); [|done]. cbn [negb andb].
  by destruct (String.eqb (Path rq) "/ping"), (String.eqb (Path rq) "/favicon.ico").
Qed.

End handlers.

(** ** The monitor *)

Section monitor.
Context {numbers : JsonNumbers} {chi : Chi} (attempts : Z).

(** The routes of [main] in src/V2/cmd/monitor/main.go; the goroutine [newBlock]
    starts is run to its end *)
Definition monitor_routes : list (endpoint conn) :=
  [Get "/ping" (fun _ _ c => (Val (Written 200 "pong"), c))] ++
  Route "/monitor" (Route "/{coin}" (Route "/notify"
    [Post "/newBlock" (fun _ rq c =>
       let '(status, (_, c)) := newBlock attempts (parse (ReqBody rq)) c in (Val (Written status ""), c))])).

(** The path the indexer notifies runs [handleOrphans], for every coin and body. *)
Lemma monitor_notified {laws : ChiLaws} missed qs rq coin c :
  plain_part coin → Method rq = "POST" → Path rq = ("/monitor/" ++ coin ++ "/notify/newBlock")%string →
  serve missed monitor_routes qs rq c = (Val (Written 200 ""), (handleOrphans attempts c).2).
Proof.
  intros Hc Hm Hp. assert (Hparts : Forall plain_part ["monitor"; coin; "notify"; "newBlock"]).
  { repeat (apply List.Forall_cons; [first [done|by apply plain_part_closed]|]). constructor. }
  rewrite (serve_found missed monitor_routes 1 _ qs rq ["monitor"; coin; "notify"; "newBlock"] [("coin", coin)]
    eq_refl eq_refl Hparts eq_refl Hm Hp).
  cbn -[newBlock parse handleOrphans]. unfold newBlock.
  destruct (dec_notification (parse (ReqBody rq))). by destruct (handleOrphans attempts c).
Qed.

End monitor.

(** ** A router *)

(** The parts of a path, and the route whose pattern they fit and that none hides *)
Definition takes (t : table) (m : string) (parts : list string) (e : nat * (string * list segment)) : bool :=
  let '(j, (m', p)) := e in
  String.eqb m' m && match fits p parts with Some _ => true | None => false end && unhidden t j p parts.

Definition plain_chi : Chi := {|
  route t m path :=
    let parts := tail (Split "/" path) in
    match find (takes t m parts) (imap pair t) with
    | Some (j, (_, p)) => Some (j, default [] (fits p parts))
    | None => None
    end;
  StripSlashes path := match rev (bytes path) with 47 :: a :: l => of_bytes (rev (a :: l)) | _ => path end;
|}.

(** Of two patterns a path fits, one hides the other. *)
Lemma apart_exclusive p p' parts ps ps' :
  fits p parts = Some ps → fits p' parts = Some ps' → apart p p' parts = true → apart p' p parts = true → False.
Proof.
  revert p' parts ps ps'. induction p as [|a p IH]; intros [|b p'] [|x parts] ps ps' H H' Ha Ha'; try done; try (by destruct a); try (by destruct b).
  destruct a as [s|v], b as [s'|v']; cbn in *; unfold names_part in *.
  - destruct (String.eqb_spec s x) as [->|]; [|done]. destruct (String.eqb_spec s' x) as [->|]; [|done].
    rewrite ?String.eqb_refl in *. by eapply IH.
  - by destruct (String.eqb s x).
  - by destruct (String.eqb s' x).
  - apply fmap_Some in H as (qs & H & _), H' as (qs' & H' & _). apply andb_true_iff in Ha as [_ Ha], Ha' as [_ Ha']. by eapply IH.
Qed.

Lemma path_parts parts : Forall plain_part parts → tail (Split "/" (path_of parts)) = parts.
Proof. intros Hp. destruct parts as [|part parts]; [done|]. by rewrite Split_path_of. Qed.

Lemma path_last parts : Forall plain_part parts → parts ≠ [] → ∃ c l, rev (bytes (path_of parts)) = c :: l ∧ c ≠ 47.
Proof.
  induction 1 as [|x parts [Hx Hs] Hp IH]; [done|]. intros _.
  change (path_of (x :: parts)) with (String "/" (x ++ path_of parts)). cbn [bytes]. rewrite bytes_app.
  destruct parts as [|y parts].
  - cbn [path_of fold_right bytes rev]. rewrite app_nil_r. destruct (rev (bytes x)) as [|c l] eqn:E.
    + apply (f_equal (@rev Z)) in E. rewrite rev_involutive in E. by destruct x.
    + eexists c, _. split; [done|]. intros ->. apply Hs. rewrite list_elem_of_In, in_rev, E. by left.
  - destruct (IH ltac:(done)) as (c & l & E & Hc). cbn [rev]. rewrite rev_app_distr, E. by eexists c, _.
Qed.

Lemma plain_chi_laws : @ChiLaws plain_chi.
Proof.
  split.
  - intros t m parts i p ps Hp Hi Hf Ha. cbn [route plain_chi]. rewrite path_parts by done.
    assert (Hin : In (i, (m, p)) (imap pair t)) by (by apply numbered_elem).
    assert (Hu : unhidden t i p parts = true).
    { apply forallb_forall. intros [j [m' p']] Hj%numbered_elem.
      destruct (Nat.eqb_spec j i); [done|]. by eapply Ha. }
    assert (Ht : takes t m parts (i, (m, p)) = true) by (cbn; by rewrite String.eqb_refl, Hf, Hu).
    destruct (find (takes t m parts) (imap pair t)) as [[j [m' p']]|] eqn:E.
    + apply find_some in E as [Hj Hj']. cbn in Hj'. apply andb_true_iff in Hj' as [[_ Hf']%andb_true_iff Hu'].
      destruct (fits p' parts) as [ps'|] eqn:Ef; [|done].
      apply numbered_elem in Hj. unfold table in *.
      destruct (Nat.eq_dec j i) as [->|Hne]; [rewrite Hi in Hj; injection Hj as -> ->; by rewrite Hf in Ef; injection Ef as ->|].
      exfalso. eapply (apart_exclusive p p'); [done|done|by eapply Ha|by eapply unhidden_apart].
    + by rewrite (find_none _ _ E _ Hin) in Ht.
  - intros t m parts Hp Hn. cbn [route plain_chi]. rewrite path_parts by done.
    destruct (find (takes t m parts) (imap pair t)) as [[j [m' p']]|] eqn:E; [|done].
    apply find_some in E as [Hj Hj']. cbn in Hj'. apply andb_true_iff in Hj' as [[_ Hf']%andb_true_iff _].
    apply numbered_elem in Hj. by rewrite (Hn _ _ _ Hj) in Hf'.
  - intros parts Hp Hne. destruct (path_last parts Hp Hne) as (c & l & E & Hc). cbn [StripSlashes plain_chi]. rewrite E.
    destruct c as [|c|c]; try done. repeat (destruct c as [c|c|]; try done).
Qed.

(** A server that cannot reach its node *)
Definition test_router (environment : string) : handler unit :=
  @newUTXORouter merge_any reverse_order test_btcutil plain_chi 0 0 1573776000 (fun _ => rev (A := arrival)) (fun e _ => e) unit
    (fun _ t => (Err (ENew "connection refused"), t)) (fun _ _ => 0) (fun _ _ _ => Err (ENew "no url"))
    (fun _ _ t => (Val (Written 404 "404 page not found"), t)) environment (fun _ _ t => (Val (Written 200 ""), t)) None
    (fun _ _ => Err (ENew "no form")) test_config
    (New (fun _ => None) {| rpc_Base := cfg_RPC test_config; rpc_Coin := {| URL := ""; User := ""; Password := "" |} |} "bch")
    bch_store.

Definition test_request (path : string) : request :=
  {| Method := "GET"; Path := path; Query := [("q", "getLastBlockHash")]; ContentType := ""; ReqBody := "" |}.

Lemma v1_redirect_witness :
  test_router "prod" [] (test_request "/api/insight/bch/api/status") tt =
    (Val (InsightAnswer {| code := 200; content := StatusBody "a1" |}), tt).
Proof.
  assert (Hc : plain_part "bch") by by apply plain_part_closed.
  assert (Hp : Forall plain_part ["status"]) by (apply List.Forall_cons; [by apply plain_part_closed|constructor]).
  unfold test_router.
  rewrite (proj1 (@v1_redirect merge_any reverse_order test_btcutil plain_chi plain_chi_laws _ _ _ _ _ unit _ _ _ _ "prod" _ _ _ _ _ _ []
    (test_request "/api/insight/bch/api/status") "bch" ["status"] Hc Hp eq_refl) to_status).
  by vm_compute.
Defined.
