(* ===== verification/Services.v ===== *)
(** * Services: how the services are put together

    The constructors and [main] functions of src/V2/cmd: the indexer, the API
    server, the two validators and the monitor read the configuration, choose the
    database and the node of their coin and connect to them; an error ends the
    process.  The synchronisation itself is an argument here; it is [Pipeline],
    [Follow] and [Zmq]. *)

From stdpp Require Import base list strings numbers.
From Stdlib Require Import ZArith Lia.
From S2P Require Import Prelude GoStrings Config Json JsonText ConfigJson Rpc Node Connection Zmq.

Local Open Scope Z_scope.

(** The flags of the indexer *)
Record flags := {
  fl_conf : string;
  fl_coin : string;
  fl_start : Z;
  fl_end : Z;
  fl_sync : bool;
  fl_batch : Z;
  fl_recover : bool;
}.

(** [type Indexer struct]; the channels are part of [Zmq.links] and [Pipeline] *)
Record Indexer (Conn Socket : Type) := {
  ix_dbThreads : Z;
  ix_rpcThreads : Z;
  ix_bc : Blockchain;
  ix_db : Database Conn;
  ix_mq : client Socket;
  ix_monitor : Client;
  ix_startBlock : Z;
  ix_endBlock : Z;
  ix_syncTip : bool;
  ix_batchSize : Z;
  ix_recover : bool;
}.
Arguments ix_db {Conn Socket} _.
Arguments ix_bc {Conn Socket} _.
Arguments ix_mq {Conn Socket} _.
Arguments ix_syncTip {Conn Socket} _.
Arguments ix_recover {Conn Socket} _.
Arguments ix_dbThreads {Conn Socket} _.
Arguments ix_rpcThreads {Conn Socket} _.
Arguments ix_monitor {Conn Socket} _.
Arguments ix_startBlock {Conn Socket} _.
Arguments ix_endBlock {Conn Socket} _.
Arguments ix_batchSize {Conn Socket} _.

#[global] Instance indexer_settable Conn Socket : Settable (Indexer Conn Socket) := fun i =>
  {| ix_dbThreads := ix_dbThreads i; ix_rpcThreads := ix_rpcThreads i; ix_bc := ix_bc i; ix_db := ix_db i; ix_mq := ix_mq i;
     ix_monitor := ix_monitor i; ix_startBlock := ix_startBlock i; ix_endBlock := ix_endBlock i; ix_syncTip := ix_syncTip i;
     ix_batchSize := ix_batchSize i; ix_recover := ix_recover i |}.

(** [type monitor struct], [type txValidator struct] and [type blockValidator
    struct]: the parts that are set at the start *)
Record monitor_service (Conn : Type) := { mo_db : Database Conn; mo_bc : Blockchain }.
Record tx_validator (Conn : Type) := { tv_bc : Blockchain; tv_db : Database Conn; tv_dbThreads : Z }.
Record block_validator (Conn : Type) := { bv_bc : Blockchain; bv_db : Database Conn; bv_dbThreads : Z; bv_rpcThreads : Z }.
Arguments mo_db {Conn} _.
Arguments mo_bc {Conn} _.
Arguments tv_db {Conn} _.
Arguments tv_bc {Conn} _.
Arguments bv_db {Conn} _.
Arguments bv_bc {Conn} _.

(** What [main] of the API serves *)
Inductive api_service (Conn : Type) :=
| EthService (bc : Client)
| UtxoService (db : Database Conn) (bc : Blockchain) (c : Config).
Arguments EthService {Conn} _.
Arguments UtxoService {Conn} _ _ _.

(** The choice of the API server *)
Definition is_eth (coin : string) : bool :=
  String.eqb coin "eth" || String.eqb coin "ethrinkeby" || String.eqb coin "ethropsten".

Section services.
Context {Conn Socket W : Type} {sql : Sql Conn W} {zmq4 : Zmq4 Socket W}.
Context (fs : string → file) (parse_url : string → option string).

(** The calls all services begin with: the configuration of the coin and its
    database *)
Definition configure (conf coin : string) : act W (Config * Coin) :=
  act_bind (act_val (fatal_err (Get fs conf))) (fun c =>
  act_bind (act_val (fatal_err (GetCoin c coin))) (fun cc => act_val (Val (c, cc)))).

Definition connect (t : DatabaseType) (c : Config) (cc : Coin) (coin : string) : act W (DB * Database Conn) :=
  act_bind (act_val (fatal_err (GetDBConfig c t cc))) (fun dbConfig =>
  act_bind (act_fatal (Connection.New dbConfig coin)) (fun db => act_val (Val (dbConfig, db)))).

(** [func newIndexer(c *config.Config, cc *config.Coin) *Indexer] *)
Definition newIndexer (fl : flags) (c : Config) (cc : Coin) : act W (Indexer Conn Socket) :=
  act_bind (connect ReadWrite c cc (fl_coin fl)) (fun '(dbConfig, dbConn) =>
    let rpcConfig := GetRPCConfig c cc in
    act_val (Val {| ix_dbThreads := db_Threads (db_BaseDB dbConfig); ix_rpcThreads := rpc_Threads (rpc_Base rpcConfig);
                    ix_bc := Node.New parse_url rpcConfig (fl_coin fl); ix_db := dbConn; ix_mq := Zmq.New cc;
                    ix_monitor := NewClient parse_url
                      {| rpc_Base := {| rpc_Threads := 0; rpc_Timeout := 0; rpc_Retry := {| Attempts := 0; Sleep := 0 |} |};
                         rpc_Coin := {| URL := fl_coin fl ++ "-monitor"; User := ""; Password := "" |} |};
                    ix_startBlock := fl_start fl; ix_endBlock := fl_end fl; ix_syncTip := fl_sync fl;
                    ix_batchSize := fl_batch fl; ix_recover := fl_recover fl |})).

(** [main] of the indexer; [initialSync] and [staySynced] are its methods *)
Definition indexer_main (initialSync staySynced : Indexer Conn Socket → act W unit) (fl : flags) : act W unit :=
  act_bind (configure (fl_conf fl) (fl_coin fl)) (fun '(c, cc) =>
  act_bind (newIndexer fl c cc) (fun idxr =>
  act_bind (initialSync idxr) (fun _ =>
  act_bind
    (if negb (ix_recover idxr) && ix_syncTip idxr then fun w =>
       match Connect (ix_mq idxr) w with
       | (Val _, mq, w) => staySynced (set_field ix_mq mq idxr) w
       | (Err e, _, w) => (Exit e, w)
       | (Panic p, _, w) => (Panic p, w)
       | (Exit e, _, w) => (Exit e, w)
       end
     else act_val (Val tt)) (fun _ =>
  act_fatal (Close (ix_db idxr)))))).

(** [func newMonitor() *monitor] *)
Definition newMonitor (conf coin : string) : act W (monitor_service Conn) :=
  act_bind (configure conf coin) (fun '(c, cc) =>
  act_bind (connect ReadWrite c cc coin) (fun '(_, dbConn) =>
    act_val (Val {| mo_db := dbConn; mo_bc := Node.New parse_url (GetRPCConfig c cc) coin |}))).

(** [func newTxValidator() *txValidator] *)
Definition newTxValidator (conf coin : string) : act W (tx_validator Conn) :=
  act_bind (configure conf coin) (fun '(c, cc) =>
  act_bind (connect ReadWrite c cc coin) (fun '(dbConfig, dbConn) =>
    act_val (Val {| tv_bc := Node.New parse_url (GetRPCConfig c cc) coin; tv_db := dbConn;
                    tv_dbThreads := db_Threads (db_BaseDB dbConfig) |}))).

(** [func newBlockValidator() *blockValidator] *)
Definition newBlockValidator (conf coin : string) : act W (block_validator Conn) :=
  act_bind (configure conf coin) (fun '(c, cc) =>
  act_bind (connect ReadWrite c cc coin) (fun '(dbConfig, dbConn) =>
    let rpcConfig := GetRPCConfig c cc in
    act_val (Val {| bv_bc := Node.New parse_url rpcConfig coin; bv_db := dbConn;
                    bv_dbThreads := db_Threads (db_BaseDB dbConfig); bv_rpcThreads := rpc_Threads (rpc_Base rpcConfig) |}))).

(** [main] of the API server, up to its router *)
Definition api_main (conf coin : string) : act W (api_service Conn) :=
  act_bind (configure conf coin) (fun '(c, cc) =>
    let rpcConfig := GetRPCConfig c cc in
    if is_eth coin then act_val (Val (EthService (NewClient parse_url rpcConfig)))
    else
      act_bind (connect ReadOnly c cc coin) (fun '(_, dbConn) =>
        act_val (Val (UtxoService dbConn (Node.New parse_url rpcConfig coin) c)))).

(** ** Every service has the database and the node of its coin *)

Lemma configure_found conf coin w c cc w' :
  configure conf coin w = (Val (c, cc), w') →
  Get fs conf = Val c ∧ GetCoin c coin = Val cc ∧ coin_Name cc = coin ∧ cc ∈ Coins c ∧ w' = w.
Proof.
  unfold configure, act_bind, act_val. destruct (Get fs conf) as [c'|e|?|?]; cbn [fatal_err]; try done.
  pose proof (GetCoin_listed c' coin) as Hl. destruct (GetCoin c' coin) as [cc'|e|?|?] eqn:Hg; cbn [fatal_err]; try done.
  intros [= -> -> ->]. by destruct Hl.
Qed.

(** The database for a purpose in the configuration of a coin *)
Definition db_uri (t : DatabaseType) (cc : Coin) : string := if t =? ReadOnly then ReadOnly_ (c_DB cc) else ReadWrite_ (c_DB cc).

(** The world after the limits of the connections were set *)
Definition pooled (base : BaseDB) (db : Conn) (w : W) : W :=
  SetPool db (MaxConns base) (Z.quot (MaxConns base) 2) (int64 (MaxConnLifetime base * 1000000000)) w.

(** The database at [uri] was opened from [w] and answered a ping, which left [w'];
    or it could not be opened or did not answer. *)
Definition reached (uri : string) (base : BaseDB) (db : Conn) (w w' : W) : Prop :=
  ∃ w1, sql_Open uri w = (Val db, w1) ∧ sql_Ping db (pooled base db w1) = (Val tt, w').

Definition unreachable (uri : string) (base : BaseDB) (w : W) : Prop :=
  (∃ e w1, sql_Open uri w = (Err e, w1)) ∨
  (∃ db w1 e w2, sql_Open uri w = (Val db, w1) ∧ sql_Ping db (pooled base db w1) = (Err e, w2)).

Context {laws : SqlLaws Conn W}.

Lemma New_reaches dbConfig coin w :
  match Connection.New dbConfig coin w with
  | (Val db, w') => prefix db = schemaFromCoin coin ∧ schemaFromCoin coin ≠ ""%string ∧
      reached (URI dbConfig) (db_BaseDB dbConfig) (conn db) w w'
  | (Err _, _) => schemaFromCoin coin = ""%string ∨ unreachable (URI dbConfig) (db_BaseDB dbConfig) w
  | (Panic p, _) => p = NegativeChanSize ∧ MaxConns (db_BaseDB dbConfig) < 0
  | (Exit _, _) => False
  end.
Proof.
  unfold Connection.New, act_bind, act_wrap, reached, unreachable, pooled. pose proof (sql_Open_spec (URI dbConfig) w) as Ho.
  destruct (sql_Open (URI dbConfig) w) as [[db|e|?|?] w1]; try done; cbn [wrap_err]; [|right; left; by eexists _, _].
  destruct (String.eqb_spec (schemaFromCoin coin) "") as [Hs|Hs]; [by left|].
  set (w2 := SetPool _ _ _ _ w1). pose proof (sql_Ping_returned db w2) as Hp.
  destruct (sql_Ping db w2) as [[[]|e|?|?] w3] eqn:E; try done; cbn [wrap_err].
  - destruct (Z.ltb_spec (MaxConns (db_BaseDB dbConfig)) 0); [done|]. cbn. split_and!; [done|done|]. by exists w1.
  - right. right. by exists db, w1, e, w3.
Qed.

Lemma connect_opened t c cc coin w dbConfig db w' :
  connect t c cc coin w = (Val (dbConfig, db), w') →
  GetDBConfig c t cc = Val dbConfig ∧ prefix db = schemaFromCoin coin ∧ schemaFromCoin coin ≠ ""%string ∧
  reached (URI dbConfig) (db_BaseDB dbConfig) (conn db) w w'.
Proof.
  unfold connect, act_bind, act_val, act_fatal. destruct (GetDBConfig c t cc) as [d|e|?|?]; cbn [fatal_err]; try done.
  pose proof (New_reaches d coin w) as Hn. destruct (Connection.New d coin w) as [[db'|e|?|?] w1]; cbn [fatal_err]; try done.
  intros [= -> -> ->]. by destruct Hn as (Hp & Hne & Hr).
Qed.

(** The database of a service is the one of [t] in the configuration of its coin,
    reached when the service was started from [w] with the limits of the
    configuration, its schema is that of the coin, and the address and the
    credentials of its node are those of the coin. *)
Definition serves_coin (t : DatabaseType) (conf coin : string) (w : W) (db : Database Conn) (bc : Blockchain) (w' : W) : Prop :=
  ∃ c cc, Get fs conf = Val c ∧ GetCoin c coin = Val cc ∧ coin_Name cc = coin ∧
    reached (db_uri t cc) (cfg_DB c) (conn db) w w' ∧ prefix db = schemaFromCoin coin ∧ prefix db ≠ ""%string ∧
    Node.coin bc = coin ∧ BaseURL (Node.client bc) = parse_url (URL (c_RPC cc)) ∧
    cl_User (Node.client bc) = User (c_RPC cc) ∧ cl_Password (Node.client bc) = Password (c_RPC cc).

Lemma GetDBConfig_uri t c cc dbConfig :
  t = ReadOnly ∨ t = ReadWrite → GetDBConfig c t cc = Val dbConfig → URI dbConfig = db_uri t cc ∧ db_BaseDB dbConfig = cfg_DB c.
Proof. intros [->| ->]; cbn; by intros [= <-]. Qed.

Lemma serves_coin_intro t conf coin w c cc w1 dbConfig db w2 :
  t = ReadOnly ∨ t = ReadWrite → configure conf coin w = (Val (c, cc), w1) → connect t c cc coin w1 = (Val (dbConfig, db), w2) →
  serves_coin t conf coin w db (Node.New parse_url (GetRPCConfig c cc) coin) w2.
Proof.
  intros Ht (Hc & Hcc & Hn & _ & ->)%configure_found (Hd & Hp & Hs & Hr)%connect_opened.
  destruct (GetDBConfig_uri _ _ _ _ Ht Hd) as [Hu Hb]. rewrite Hu, Hb in Hr.
  exists c, cc. split_and!; try done. congruence.
Qed.

(** What keeps a service from starting: the configuration cannot be read or does
    not have the coin; ... *)
Definition unconfigured (conf coin : string) : Prop :=
  (∃ e, Get fs conf = Err e) ∨ (∃ c, Get fs conf = Val c ∧ coin ∉ ListCoins c).

(** ... the coin has no schema; or its database is out of reach. *)
Definition unusable (t : DatabaseType) (conf coin : string) (w : W) : Prop :=
  unconfigured conf coin ∨ schemaFromCoin coin = ""%string ∨
  (∃ c cc, Get fs conf = Val c ∧ GetCoin c coin = Val cc ∧ unreachable (db_uri t cc) (cfg_DB c) w).

(** How the start of a service ends: as [P] says, with the end of the process for
    a reason in [bad], or with a panic when the configuration allows a negative
    number of connections *)
Definition starts {A} (conf : string) (bad : Prop) (P : A → W → Prop) (r : gores A * W) : Prop :=
  match r with
  | (Val a, w') => P a w'
  | (Err _, _) => False
  | (Panic p, _) => p = NegativeChanSize ∧ ∃ c, Get fs conf = Val c ∧ MaxConns (cfg_DB c) < 0
  | (Exit _, _) => bad
  end.

Context (Hfs : ∀ path, Prelude.returned (stat (fs path)) ∧ Prelude.returned (opened (fs path)) ∧ Prelude.returned (contents (fs path))).

(** The configuration is read, or the process ends. *)
Lemma configure_starts {A} conf coin bad (P : A → W → Prop) (k : Config * Coin → act W A) w :
  (unconfigured conf coin → bad) →
  (∀ c cc, configure conf coin w = (Val (c, cc), w) → starts conf bad P (k (c, cc) w)) →
  starts conf bad P (act_bind (configure conf coin) k w).
Proof.
  intros Hbad Hk. unfold act_bind. destruct (Hfs conf) as (H1 & H2 & H3). destruct (Get_error fs conf H1 H2 H3) as [Hg _].
  destruct (configure conf coin w) as [r w1] eqn:E. pose proof E as E'. unfold configure, act_bind, act_val in E'.
  destruct (Get fs conf) as [c|e|?|?] eqn:Eg; try done; cbn [fatal_err] in E'.
  2:{ injection E' as <- <-. apply Hbad. left. by exists e. }
  pose proof (GetCoin_listed c coin) as Hl. destruct (GetCoin c coin) as [cc|e|?|?]; try done; cbn [fatal_err] in E';
    injection E' as <- <-; [by apply Hk|]. apply Hbad. right. by exists c.
Qed.

(** The database is reached, or the process ends. *)
Lemma connect_starts {A} t conf c cc coin bad (P : A → W → Prop) (k : DB * Database Conn → act W A) w :
  t = ReadOnly ∨ t = ReadWrite → Get fs conf = Val c →
  (schemaFromCoin coin = ""%string ∨ unreachable (db_uri t cc) (cfg_DB c) w → bad) →
  (∀ dbConfig db w', connect t c cc coin w = (Val (dbConfig, db), w') → starts conf bad P (k (dbConfig, db) w')) →
  starts conf bad P (act_bind (connect t c cc coin) k w).
Proof.
  intros Ht Hc Hbad Hk. unfold act_bind. destruct (connect t c cc coin w) as [r w1] eqn:E. pose proof E as E'.
  unfold connect, act_bind, act_val, act_fatal in E'.
  destruct (GetDBConfig c t cc) as [d|e|?|?] eqn:Hd; [|by destruct Ht as [->| ->]..].
  destruct (GetDBConfig_uri _ _ _ _ Ht Hd) as [Hu Hb]. cbn [fatal_err] in E'. pose proof (New_reaches d coin w) as Hn. rewrite Hu, Hb in Hn.
  destruct (Connection.New d coin w) as [[db|e|p|e] w2]; cbn [fatal_err] in E'; injection E' as <- <-; try done.
  - by apply Hk.
  - by apply Hbad.
  - destruct Hn as [-> Hlt]. split; [done|]. by exists c.
Qed.

(** A service that begins with these calls *)
Lemma service_starts {A} t conf coin (P : A → W → Prop) (k : Config → Coin → DB → Database Conn → A) w :
  t = ReadOnly ∨ t = ReadWrite →
  (∀ c cc dbConfig db w', Get fs conf = Val c → serves_coin t conf coin w db (Node.New parse_url (GetRPCConfig c cc) coin) w' →
     P (k c cc dbConfig db) w') →
  starts conf (unusable t conf coin w) P (act_bind (configure conf coin) (fun '(c, cc) =>
    act_bind (connect t c cc coin) (fun '(dbConfig, db) => act_val (Val (k c cc dbConfig db)))) w).
Proof.
  intros Ht HP. apply configure_starts; [by left|]. intros c cc Hcfg. pose proof (configure_found _ _ _ _ _ _ Hcfg) as (Hg & Hcc & _).
  apply connect_starts; [done|done| |].
  - intros [Hs|Hu]; right; [by left|right]. by exists c, cc.
  - intros dbConfig db w' Hdb. cbn. apply HP; [done|]. by eapply serves_coin_intro.
Qed.

(** ** The indexer *)

Lemma newIndexer_serves fl w c cc w1 idxr w' :
  configure (fl_conf fl) (fl_coin fl) w = (Val (c, cc), w1) → newIndexer fl c cc w1 = (Val idxr, w') →
  serves_coin ReadWrite (fl_conf fl) (fl_coin fl) w (ix_db idxr) (ix_bc idxr) w' ∧ ix_mq idxr = Zmq.New cc ∧
  ix_syncTip idxr = fl_sync fl ∧ ix_recover idxr = fl_recover fl.
Proof.
  unfold newIndexer, act_bind. intros Hcfg H.
  destruct (connect ReadWrite c cc (fl_coin fl) w1) as [[[dbConfig db]|?|?|?] w2] eqn:Hdb; [|done..].
  injection H as <- <-. split; [|done]. eapply serves_coin_intro; [by right|done|done].
Qed.

(** A socket that listens to every topic of the node of the coin *)
Definition listens {zlaws : Zmq4Laws Socket W} (conf coin : string) (mq : client Socket) (w : W) : Prop :=
  ∃ c cc s, Get fs conf = Val c ∧ GetCoin c coin = Val cc ∧ sub mq = Some s ∧
    topics s w = Subscriptions (c_ZMQ cc) ∧ endpoints s w = [SubURL (c_ZMQ cc)].

(** [main] calls [initialSync] with the database and the node of the coin, and
    [staySynced] when it follows the tip and does not recover, with a socket that
    listens: what the methods do otherwise does not matter. *)
Lemma indexer_main_calls {zlaws : Zmq4Laws Socket W} init init' stay stay' fl w :
  let good idxr := ∃ w', serves_coin ReadWrite (fl_conf fl) (fl_coin fl) w (ix_db idxr) (ix_bc idxr) w' in
  (∀ idxr w, good idxr → init idxr w = init' idxr w) →
  (∀ idxr w, good idxr → fl_sync fl = true → fl_recover fl = false → listens (fl_conf fl) (fl_coin fl) (ix_mq idxr) w →
     stay idxr w = stay' idxr w) →
  indexer_main init stay fl w = indexer_main init' stay' fl w.
Proof.
  cbn zeta. intros Hi Hs. unfold indexer_main. unfold act_bind at 1. symmetry. unfold act_bind at 1.
  destruct (configure (fl_conf fl) (fl_coin fl) w) as [[[c cc]|?|?|?] w1] eqn:Hcfg; [|done..].
  unfold act_bind at 1. symmetry. unfold act_bind at 1.
  destruct (newIndexer fl c cc w1) as [[idxr|?|?|?] w2] eqn:Hnew; [|done..].
  destruct (newIndexer_serves _ _ _ _ _ _ _ Hcfg Hnew) as (Hg' & Hmq & Hsync & Hrec).
  assert (Hg : ∃ w', serves_coin ReadWrite (fl_conf fl) (fl_coin fl) w (ix_db idxr) (ix_bc idxr) w') by (by exists w2). clear Hg'.
  unfold act_bind at 1. symmetry. unfold act_bind at 1. rewrite Hi by done. destruct (init' idxr w2) as [[[]|?|?|?] w3]; [|done..].
  rewrite Hsync, Hrec. destruct (fl_recover fl) eqn:Er, (fl_sync fl) eqn:Es; try done.
  unfold act_bind. cbn [negb andb]. pose proof (Connect_subscribes (ix_mq idxr) w3) as Hc.
  destruct (Connect (ix_mq idxr) w3) as [[[[]|?|?|?] mq] w4]; try done. destruct Hc as (s & -> & _ & He & Ht).
  rewrite Hs; [done|done|done|done|]. apply configure_found in Hcfg as (Hget & Hcc & _).
  exists c, cc, s. rewrite Hmq in He, Ht. by split_and!.
Qed.

End services.

(** C39. How the services start.  A service starts only when the database of its
    coin was opened and answered a ping: the indexer, the monitor and the two
    validators have the database for writing, the API server the one for reading
    only, each in the schema of the coin.  The process ends only when the
    configuration cannot be read, the coin is not in it, the coin has no schema, or
    its database is out of reach; only a negative number of connections panics.  An
    Ethereum coin is served without a database.  The node is not contacted: its
    client is given the address and the credentials of the configuration, whether
    or not the address is a URL. *)
Theorem services_start {Conn Socket W} {sql : Sql Conn W} {laws : SqlLaws Conn W} (fs : string → file)
    (parse_url : string → option string) (conf coin : string) (fl : flags) (w : W) :
  (∀ path, Prelude.returned (stat (fs path)) ∧ Prelude.returned (opened (fs path)) ∧ Prelude.returned (contents (fs path))) →
  let serves t conf coin := serves_coin fs parse_url t conf coin w in
  starts fs conf (unusable fs ReadWrite conf coin w) (fun m => serves ReadWrite conf coin (mo_db m) (mo_bc m))
    (newMonitor fs parse_url conf coin w) ∧
  starts fs conf (unusable fs ReadWrite conf coin w) (fun v => serves ReadWrite conf coin (tv_db v) (tv_bc v))
    (newTxValidator fs parse_url conf coin w) ∧
  starts fs conf (unusable fs ReadWrite conf coin w) (fun v => serves ReadWrite conf coin (bv_db v) (bv_bc v))
    (newBlockValidator fs parse_url conf coin w) ∧
  starts fs (fl_conf fl) (unusable fs ReadWrite (fl_conf fl) (fl_coin fl) w)
    (fun i => serves ReadWrite (fl_conf fl) (fl_coin fl) (ix_db i) (ix_bc i))
    (act_bind (configure fs (fl_conf fl) (fl_coin fl)) (fun '(c, cc) => newIndexer (Socket := Socket) parse_url fl c cc) w) ∧
  starts fs conf (if is_eth coin then unconfigured fs conf coin else unusable fs ReadOnly conf coin w)
    (fun s w' => match s with
       | EthService bc => is_eth coin = true ∧ w' = w ∧
           ∃ c cc, Get fs conf = Val c ∧ GetCoin c coin = Val cc ∧ BaseURL bc = parse_url (URL (c_RPC cc))
       | UtxoService db bc c => is_eth coin = false ∧ Get fs conf = Val c ∧ serves ReadOnly conf coin db bc w'
       end) (api_main fs parse_url conf coin w).
Proof.
  intros Hfs. cbn zeta. split_and!; [apply (service_starts fs parse_url Hfs ReadWrite); [by right|by intros]..|].
  unfold api_main. destruct (is_eth coin).
  - apply configure_starts; [done|done|]. intros c cc (Hc & Hcc & _)%configure_found. cbn. split_and!; [done|done|]. by exists c, cc.
  - apply (service_starts fs parse_url Hfs ReadOnly); [by left|]. intros c cc dbConfig db w' Hg Hs. done.
Qed.

(** ** Notifications of the monitor *)

(** [getscheme] of package net/url: whether a URL has a scheme *)
Definition letter (c : Z) : bool := ((97 <=? c) && (c <=? 122)) || ((65 <=? c) && (c <=? 90)).
Definition scheme_rest (c : Z) : bool := letter c || ((48 <=? c) && (c <=? 57)) || (c =? 43) || (c =? 45) || (c =? 46).
Fixpoint scheme_from (l : list Z) : bool :=
  match l with
  | [] => false
  | c :: l => if c =? 58 then true else scheme_rest c && scheme_from l
  end.
Definition has_scheme (url : string) : bool :=
  match bytes url with c :: l => letter c && scheme_from l | [] => false end.

Lemma scheme_from_colon l : 58 ∉ l → scheme_from l = false.
Proof.
  induction l as [|c l IH]; [done|]. intros [Hc Hl]%not_elem_of_cons. cbn. rewrite (proj2 (Z.eqb_neq c 58)) by congruence.
  rewrite IH by done. apply andb_false_r.
Qed.

(** A supported coin has no colon in its name. *)
Lemma supported_no_colon coin : schemaFromCoin coin ≠ ""%string → 58 ∉ bytes coin.
Proof.
  intros Hs Hc. pose proof (schemaFromCoin_coin coin Hs) as E. apply (f_equal bytes) in E. unfold ToUpper in E at 1.
  rewrite bytes_of_bytes in E.
  - assert (H58 : 58 ∈ bytes (ToUpper (schemaFromCoin coin))).
    { rewrite <-E. apply list_elem_of_fmap. by exists 58. }
    revert H58. apply (bool_decide_unpack _). unfold schemaFromCoin in *.
    repeat match goal with |- context [String.eqb ?a ?b] => destruct (String.eqb a b) end; try by vm_compute.
  - apply Forall_map. eapply Forall_impl; [|apply bytes_is_byte]. intros c Hb. unfold is_byte, upper_byte in *.
    destruct ((97 <=? c) && (c <=? 122)) eqn:E'; [|done]. apply andb_true_iff in E' as [?%Z.leb_le ?%Z.leb_le]. lia.
Qed.

Section notifications.
Context {T : Type} (Do : http_request → T → gores http_response * T)
  (request_url : string → string → string → gores string) (parse_url : string → option string).

(** Package net/url keeps the scheme of the base, which a parsed URL has or has
    not, and package net/http refuses a URL without one ("unsupported protocol
    scheme"). *)
Context (Hparse : ∀ s u, parse_url s = Some u → has_scheme u = has_scheme s).
Context (Hurl : ∀ base path key u,
  request_url base path key = Val u → has_scheme path = false → has_scheme u = has_scheme base).
Context (Hurl_returned : ∀ base path key, Prelude.returned (request_url base path key)).
Context (Hdo : ∀ req t, has_scheme (rq_URL req) = false → ∃ e, Do req t = (Err e, t)).

(** The notification of a new block is never sent: the URL of the monitor has no
    scheme. *)
Lemma notification_lost {Conn Socket W} {sql : Sql Conn W} {sqllaws : SqlLaws Conn W} (fl : flags) c cc (w w' : W)
    (idxr : Indexer Conn Socket) block t :
  newIndexer parse_url fl c cc w = (Val idxr, w') → parse_url (fl_coin fl ++ "-monitor") ≠ None →
  ∃ e, exchange Do request_url (ix_monitor idxr) "POST" ("monitor/" ++ fl_coin fl ++ "/notify/newBlock") (Some block) t = (Err e, t).
Proof.
  unfold newIndexer, act_bind. destruct (connect ReadWrite c cc (fl_coin fl) w) as [[[dbConfig db]|?|?|?] w1] eqn:Hdb; [|done..].
  intros [= <- _] Hp. apply connect_opened in Hdb as (_ & _ & Hs & _). pose proof (supported_no_colon _ Hs) as Hc.
  unfold exchange, makeRequest. cbn [ix_monitor NewClient BaseURL rpc_Coin URL].
  destruct (parse_url (fl_coin fl ++ "-monitor")) as [base|] eqn:Hb; [|done].
  assert (Hn : ∀ s, 58 ∉ bytes s → has_scheme s = false).
  { intros s Hs'. unfold has_scheme. destruct (bytes s) as [|a l]; [done|]. apply not_elem_of_cons in Hs' as [_ Hs'].
    by rewrite scheme_from_colon, andb_false_r. }
  assert (Hlit : ∀ s, bool_decide (58 ∉ bytes s) = true → 58 ∉ bytes s) by (intros s; by rewrite bool_decide_eq_true).
  assert (Hbase : has_scheme base = false).
  { rewrite (Hparse _ _ Hb). apply Hn. rewrite bytes_app, not_elem_of_app. split; [done|by apply Hlit]. }
  assert (Hpath : has_scheme ("monitor/" ++ fl_coin fl ++ "/notify/newBlock") = false).
  { apply Hn. rewrite !bytes_app, !not_elem_of_app. split_and!; [by apply Hlit|done|by apply Hlit]. }
  pose proof (Hurl_returned base ("monitor/" ++ fl_coin fl ++ "/notify/newBlock") "") as Hret. cbn [ApiKey NewClient].
  destruct (request_url base _ "") as [u|e|?|?] eqn:Hu; cbn [mbind gores_bind]; [|eexists; reflexivity|done|done].
  destruct (json_Encode block) as [text|]; cbn [mbind gores_bind]; [|eexists; reflexivity]. apply Hdo. cbn [rq_URL].
  by rewrite (Hurl _ _ _ _ Hu Hpath).
Qed.
End notifications.

(** ** A configuration *)

Definition plain_sql : Sql string unit := {|
  sql_Open := fun uri w => (Val uri, w);
  SetPool := fun _ _ _ _ w => w;
  sql_Ping := fun _ w => (Val tt, w);
  sql_Close := fun _ w => (Val tt, w);
  live_tuples := fun _ _ w => (Val 0, w);
|}.

Definition plain_sql_laws : @SqlLaws string unit plain_sql.
Proof. by refine (@Build_SqlLaws string unit plain_sql (fun c => c) _ _). Defined.

(** The text of a configuration with one coin *)
Definition btc_json : json :=
  JObject [("db", JObject [("maxConns", JNumber "4")]);
           ("coins", JArray [JObject [("name", JString "btc"); ("rpc", JObject [("url", JString "http://btc:8332")]);
                                      ("db", JObject [("readonly", JString "replica"); ("readwrite", JString "primary")])]])]%string.

Definition btc_fs (path : string) : file :=
  {| stat := Val tt; opened := Val tt; contents := Val (of_bytes (print btc_json)) |}.

Definition btc_monitor : monitor_service string :=
  {| mo_db := {| conn := "primary"; prefix := "btc"; sem := 4; retry := {| Attempts := 0; Sleep := 0 |}; db_timeout := 0 |};
     mo_bc := {| Node.client := {| BaseURL := Some "http://btc:8332"; cl_User := ""; cl_Password := "";
                                   cl_Retry := {| Attempts := 0; Sleep := 0 |}; ApiKey := "" |}; coin := "btc" |} |}%string.

Lemma services_start_witness :
  @newMonitor string unit plain_sql btc_fs Some "config/local.json" "btc" tt = (Val btc_monitor, tt) ∧
  @serves_coin string unit plain_sql btc_fs Some ReadWrite "config/local.json" "btc" tt (mo_db btc_monitor) (mo_bc btc_monitor) tt.
Proof.
  assert (E : @newMonitor string unit plain_sql btc_fs Some "config/local.json" "btc" tt = (Val btc_monitor, tt)) by (by vm_compute).
  split; [exact E|].
  destruct (@services_start string nat unit plain_sql plain_sql_laws btc_fs Some "config/local.json" "btc"
    {| fl_conf := "config/local.json"; fl_coin := "btc"; fl_start := 0; fl_end := 0; fl_sync := true; fl_batch := 1; fl_recover := false |}
    tt (fun _ => conj I (conj I I))) as [H _].
  rewrite E in H. exact H.
Defined.
