(* ===== verification/AddressAudit.v ===== *)
(** * AddressAudit: the audit of an address

    src/services/blockbuster: the transactions of an address are fetched page by
    page, the details of each by a hundred workers, and a table of them is
    written.  The service that is asked is a parameter: the text of its answer to
    a path, or the failure of the call. *)

From stdpp Require Import base list strings gmap relations numbers.
From Stdlib Require Import ZArith Lia Permutation.
From S2P Require Import Prelude GoStrings Files Csv Json JsonText.

Local Open Scope string_scope.
Local Open Scope Z_scope.
Local Open Scope list_scope.

(** ** Answers *)

(** [type TxDetailsResponse struct] *)
Record TxDetailsResponse := {
  td_Time : Z;
  td_Vins : list string;          (** [Addr] of each *)
  td_Vouts : list (list string);  (** [ScriptPubKey.Addrs] of each *)
}.

(** [type TxIDToEpoch struct] *)
Record TxIDToEpoch := { te_TxID : string; te_Epoch : Z; te_Vin : bool; te_Vout : bool; te_Addresses : list string }.

(** The struct tags *)
Definition dec_transactions : decoder (list string) :=
  dec_struct (fun old kvs => dec_field ["transactions"] "transactions" (dec_list "" dec_string) old kvs).
Definition dec_addr : decoder string := dec_struct (fun old kvs => dec_field ["addr"] "addr" dec_string old kvs).
Definition dec_script : decoder (list string) :=
  dec_struct (fun old kvs => dec_field ["addresses"] "addresses" (dec_list "" dec_string) old kvs).
Definition dec_out : decoder (list string) :=
  dec_struct (fun old kvs => dec_field ["scriptPubKey"] "scriptPubKey" dec_script old kvs).
Definition details_names : list string := ["time"; "vin"; "vout"].
Definition dec_details : decoder TxDetailsResponse :=
  dec_struct (fun old kvs => ap (ap (ap (Build_TxDetailsResponse, true)
    (dec_field details_names "time" dec_int (td_Time old) kvs))
    (dec_field details_names "vin" (dec_list "" dec_addr) (td_Vins old) kvs))
    (dec_field details_names "vout" (dec_list [] dec_out) (td_Vouts old) kvs)).
Definition zero_details : TxDetailsResponse := {| td_Time := 0; td_Vins := []; td_Vouts := [] |}.

(** [json.NewDecoder(res.Body).Decode(&data)], whose error does not stop the
    callers: the data so far, and whether there was an error *)
Definition decode {A} (d : decoder A) (zero : A) (text : string) : A * bool :=
  match parse text with Some j => d zero j | None => (zero, false) end.

(** [AuditAddr] *)
Definition AuditAddr : string := "1NSc6zAdG2NGbjPLQwAjAuqjHSoq5KECT7".

(** [func Contains(slice []string, s string) bool] *)
Fixpoint Contains (slice : list string) (s : string) : bool :=
  match slice with
  | [] => false
  | v :: slice => if String.eqb s v then true else Contains slice s
  end.

Section audit.
(** What the service answers to a path; [None] is a failed call, after which [res]
    is nil *)
Context (get : string → option string) (date : Z → string).

(** [func fetchTx(url string, ch chan<- []string, httpClient *http.Client)] *)
Definition fetchTx (url : string) : gores (list string) :=
  match get url with
  | None => Panic NilDereference
  | Some text => Val (decode dec_transactions [] text).1
  end.

(** The loops of [fetchTxDetails] *)
Definition audit (txID : string) (data : TxDetailsResponse) : TxIDToEpoch :=
  let inVin := Contains (td_Vins data) AuditAddr in
  {| te_TxID := txID; te_Epoch := td_Time data; te_Vin := inVin;
     te_Vout := existsb (fun addrs => Contains addrs AuditAddr) (td_Vouts data);
     te_Addresses := if inVin then concat (td_Vouts data) else [] |}.

(** [func fetchTxDetails(txID string, httpClient *http.Client) TxIDToEpoch], and
    what it adds to the file of failed calls *)
Definition fetchTxDetails (txID : string) : gores (TxIDToEpoch * list string) :=
  match get ("/api/tx/" ++ txID) with
  | None => Panic NilDereference
  | Some text =>
      let '(data, ok) := decode dec_details zero_details text in
      Val (audit txID data, if ok then [] else [txID])
  end.

(** The row of a transaction *)
Definition row (v : TxIDToEpoch) : list string :=
  let bool_text (b : bool) := if b then "true" else "false" in
  [te_TxID v; Itoa (te_Epoch v); date (te_Epoch v); bool_text (te_Vin v); bool_text (te_Vout v)] ++ te_Addresses v.

(** The pages [main] asks for *)
Definition page_url (i : nat) : string :=
  "/api/addr/" ++ AuditAddr ++ "?from=" ++ Itoa (1000 * Z.of_nat i) ++ "&to=" ++ Itoa (1000 * Z.of_nat i + 1000).
Definition pages : list string := map page_url (seq 0 62).

(** The goroutines of [main]: transactions to be handed out, those a worker is
    busy with, the details on their way and the rows *)
Record audit_state := {
  jobs : list string;
  busy : list string;
  details : list TxIDToEpoch;
  rows : list (list string);
  failed : list string;
}.

Inductive astep : audit_state → audit_state → Prop :=
| take_job v js bs ds rs fs :
    (length bs < 100)%nat →
    astep {| jobs := v :: js; busy := bs; details := ds; rows := rs; failed := fs |}
          {| jobs := js; busy := bs ++ [v]; details := ds; rows := rs; failed := fs |}
| fetch_details b1 v b2 r f js ds rs fs :
    fetchTxDetails v = Val (r, f) →
    astep {| jobs := js; busy := b1 ++ v :: b2; details := ds; rows := rs; failed := fs |}
          {| jobs := js; busy := b1 ++ b2; details := ds ++ [r]; rows := rs; failed := fs ++ f |}
| add_row r ds js bs rs fs :
    astep {| jobs := js; busy := bs; details := r :: ds; rows := rs; failed := fs |}
          {| jobs := js; busy := bs; details := ds; rows := rs ++ [row r]; failed := fs |}.

Definition audit_start (txIds : list string) : audit_state :=
  {| jobs := txIds; busy := []; details := []; rows := []; failed := [] |}.

(** [func Generate(data [][]string)] with [checkError]; the writer keeps the
    text until [Flush] *)
Definition csvData (data : list (list string)) : list (list string) :=
  ["Transaction IDs"; "Epoch"; "Date"; "Input"; "Output"; "Addresses"] :: data.
Definition Generate (openable : string → bool) (data : list (list string)) : act disk unit :=
  act_bind (act_fatal (act_wrap "Cannot create file" (os_Create openable "result.csv"))) (fun _ =>
  file_write "result.csv" (of_bytes (concat (map Write (csvData data))))).

(** ** What is written *)

Lemma Contains_spec l s : Contains l s = true ↔ s ∈ l.
Proof.
  induction l as [|v l IH]; cbn; [split; [done|intros H; by apply not_elem_of_nil in H]|]. rewrite elem_of_cons.
  destruct (String.eqb_spec s v) as [->|Hne]; [by split; [left|]|]. rewrite IH. split; [by right|by intros [?|?]].
Qed.

(** The table of a transaction whose answer was read *)
Definition details_of (v : string) : TxIDToEpoch :=
  match fetchTxDetails v with Val (r, _) => r | _ => audit v zero_details end.

Definition failed_of (v : string) : list string := match fetchTxDetails v with Val (_, f) => f | _ => [] end.

Record audit_ok (txIds : list string) (s : audit_state) : Prop := {
  ao_rows : map (fun v => row (details_of v)) (jobs s ++ busy s) ++ map row (details s) ++ rows s ≡ₚ
              map (fun v => row (details_of v)) txIds;
  ao_failed : concat (map failed_of (jobs s ++ busy s)) ++ failed s ≡ₚ concat (map failed_of txIds);
  ao_asked : ∀ v, v ∈ jobs s ++ busy s → v ∈ txIds;
}.

Lemma audit_ok_step txIds s s' : audit_ok txIds s → astep s s' → audit_ok txIds s'.
Proof.
  intros [Hr Hf Ha] H. destruct H as [v js bs ds rs fs _|b1 v b2 r f js ds rs fs Hv|r ds js bs rs fs]; split;
    cbn [jobs busy details rows failed] in *.
  - rewrite <-Hr. apply Permutation_app_tail, Permutation_map. rewrite app_assoc. by rewrite <-Permutation_cons_append.
  - rewrite <-Hf. apply Permutation_app_tail. rewrite app_assoc. by rewrite <-Permutation_cons_append.
  - intros x Hx. apply Ha. rewrite !elem_of_app, list_elem_of_singleton in Hx. rewrite elem_of_app, elem_of_cons. tauto.
  - rewrite <-Hr, !map_app. cbn [map]. assert (details_of v = r) as -> by (unfold details_of; by rewrite Hv).
    rewrite <-!app_assoc. apply Permutation_app_head, Permutation_app_head. cbn [app].
    rewrite (app_assoc _ (map row ds) (row r :: rs)), (app_assoc _ (map row ds) rs). symmetry. apply Permutation_middle.
  - rewrite <-Hf, !map_app. cbn [map]. rewrite !concat_app. cbn [concat].
    assert (failed_of v = f) as -> by (unfold failed_of; by rewrite Hv).
    rewrite <-!app_assoc. apply Permutation_app_head, Permutation_app_head.
    rewrite (Permutation_app_comm fs f), !app_assoc. apply Permutation_app_tail, Permutation_app_comm.
  - intros x Hx. apply Ha. rewrite !elem_of_app in *. rewrite elem_of_cons. tauto.
  - rewrite <-Hr. apply Permutation_app_head. cbn [map app]. rewrite app_assoc. by rewrite <-Permutation_cons_append.
  - done.
  - done.
Qed.

Definition audit_work (s : audit_state) : nat := 3 * length (jobs s) + 2 * length (busy s) + length (details s).

Lemma audit_steps txIds n s :
  nsteps astep n (audit_start txIds) s → audit_ok txIds s ∧ (n + audit_work s = 3 * length txIds)%nat.
Proof.
  intros H. remember (audit_start txIds) as s0 eqn:E. revert E.
  cut (∀ x, nsteps astep n x s → audit_ok txIds x → audit_ok txIds s ∧ (n + audit_work s = audit_work x)%nat).
  { intros Hc ->. destruct (Hc _ H) as [Hok Hn]; [by split; cbn; rewrite ?app_nil_r|]. split; [done|]. rewrite Hn. unfold audit_work. cbn. lia. }
  clear H s0. intros x H. induction H as [|n x y z Hxy _ IH]; intros Hok; [by split; [|lia]|].
  destruct (IH (audit_ok_step _ _ _ Hok Hxy)) as [Hz Hn]. split; [done|].
  assert (S (audit_work y) = audit_work x); [|lia].
  unfold audit_work. destruct Hxy; cbn [jobs busy details rows failed length]; rewrite ?length_app; cbn [length]; rewrite ?length_app; lia.
Qed.

(** However the workers take turns, the audit is finished after three steps per
    transaction, when every call got an answer; then there is one row for each
    transaction, as computed from its answer, and the file of failed calls has
    exactly those whose answer was not read. *)
Lemma audit_complete txIds n s :
  nsteps astep n (audit_start txIds) s →
  (n ≤ 3 * length txIds)%nat ∧
  (Forall (fun v => get ("/api/tx/" ++ v) ≠ None) txIds → (∀ s', ¬ astep s s') →
    n = (3 * length txIds)%nat ∧ rows s ≡ₚ map (fun v => row (details_of v)) txIds ∧ failed s ≡ₚ concat (map failed_of txIds)).
Proof.
  intros H. destruct (audit_steps _ _ _ H) as [[Hr Hf Ha] Hn]. split; [lia|]. intros Hget Hq.
  destruct s as [js bs ds rs fs]. cbn [jobs busy details rows failed] in *.
  destruct ds as [|r ds]; [|by destruct (Hq _ (add_row r ds js bs rs fs))].
  destruct bs as [|v bs].
  - destruct js as [|v js]; [|destruct (Hq _ (take_job v js [] [] rs fs ltac:(cbn; lia)))]. cbn in *. by split_and!; [lia|..].
  - assert (Hv : v ∈ txIds) by (apply Ha; set_solver). rewrite list.Forall_forall in Hget. specialize (Hget v Hv).
    assert (∃ r f, fetchTxDetails v = Val (r, f)) as (r & f & Hfetch).
    { unfold fetchTxDetails. destruct (get _) as [text|]; [|done]. destruct (decode dec_details zero_details text). by eexists _, _. }
    destruct (Hq _ (fetch_details [] v bs r f js [] rs fs Hfetch)).
Qed.

(** A call that fails ends the program, with what was written before: no row and
    no line of the file of failed calls is left for it. *)
Lemma failed_call_panics txID : get ("/api/tx/" ++ txID) = None → fetchTxDetails txID = Panic NilDereference.
Proof. intros H. unfold fetchTxDetails. by rewrite H. Qed.

Lemma row_writable v : forallb no_crlf (map bytes (row v)) = true → writable (map bytes (row v)) = true.
Proof. intros H. unfold row in *. cbn [app map] in *. unfold writable. destruct (bytes (te_TxID v)); exact H. Qed.

(** The file is a table when every transaction has one address. *)
Lemma Generate_reads openable d ts :
  openable "result.csv" = true →
  Forall (fun v => length (te_Addresses v) = 1%nat ∧ forallb no_crlf (map bytes (row v)) = true) ts →
  ∃ text d', Generate openable (map row ts) d = (Val tt, d') ∧ d' !! "result.csv" = Some text ∧
    ReadAll (bytes text) = Some (csvData (map row ts), None).
Proof.
  intros Ho Hts. unfold Generate, act_bind, act_fatal, act_wrap, os_Create, file_write. rewrite Ho. eexists _, _.
  split; [reflexivity|]. rewrite !lookup_insert_eq. split; [reflexivity|].
  change (ReadAll (bytes (of_bytes (concat (map Write (csvData (map row ts)))))) = Some (csvData (map row ts), None)).
  rewrite bytes_of_bytes by apply Write_bytes. apply (ReadAll_Write _ 6). apply list.Forall_cons. split; [done|].
  apply list.Forall_forall. intros r (v & -> & Hv)%list_elem_of_fmap. rewrite list.Forall_forall in Hts.
  destruct (Hts v Hv) as [Ha Hc]. split; [by apply row_writable|]. unfold row. rewrite length_app, Ha. done.
Qed.

(** A row with more addresses, or none, is refused by a reader of the package. *)
Lemma Generate_ragged v ts :
  length (te_Addresses v) ≠ 1%nat → forallb no_crlf (map bytes (row v)) = true → Forall (fun v => forallb no_crlf (map bytes (row v)) = true) ts →
  ReadAll (concat (map Write (csvData (map row (v :: ts))))) =
    Some ([["Transaction IDs"; "Epoch"; "Date"; "Input"; "Output"; "Addresses"]], Some ErrFieldCount).
Proof.
  intros Ha Hv Hts. apply (ReadAll_ragged _ (row v) (map row ts)); [done|by apply row_writable| |].
  - apply list.Forall_forall. intros r (w & -> & Hw)%list_elem_of_fmap. rewrite list.Forall_forall in Hts. exact (Hts w Hw).
  - unfold row. rewrite length_app. cbn [length]. lia.
Qed.

End audit.
