(* ===== verification/Utilities.v ===== *)
(** * Utilities: reporting tools

    src/V2/cmd/util: [syncrate] reports how fast transactions arrive, and
    [blockchairComparer] looks up the transactions of a table of another service.
    The service, the files and the database server are parameters. *)

From stdpp Require Import base list strings gmap numbers.
From Stdlib Require Import ZArith Lia Permutation.
From S2P Require Import Prelude GoStrings Files Csv Config ConfigJson Amounts Progress Store Postgres Connection Services.

Local Open Scope Z_scope.

(** ** syncrate *)

Definition waitSec : Z := 10.
Definition secondsPerHour : Z := 3600.
Definition totalTx : Z := 361000000.

(** What is printed every ten seconds *)
Inductive sync_report :=
| TooMany (txCount : Z)                          (** and the process ends *)
| Idle (txCount : Z)
| Rate (rate txCount : Z) (hours : float32).

(** A round of the loop of [main]: the report and the next [prevCount] *)
Definition sync_round (prevCount txCount : Z) : sync_report * Z :=
  if txCount >? totalTx then (TooMany txCount, prevCount)
  else
    let delta := txCount - prevCount in
    if delta =? 0 then (Idle txCount, prevCount)
    else
      let rate := Z.quot delta waitSec in
      let eta := div32 (div32 (float32_of_int (totalTx - txCount)) (float32_of_int rate)) (float32_of_int secondsPerHour) in
      (Rate rate txCount eta, txCount).

(** The rounds of a run that starts with [prevCount] *)
Fixpoint sync_rounds (prevCount : Z) (counts : list Z) : list sync_report :=
  match counts with
  | [] => []
  | c :: counts =>
      let '(r, prev) := sync_round prevCount c in
      match r with TooMany _ => [r] | _ => r :: sync_rounds prev counts end
  end.

(** A round reports the transactions of the last ten seconds per second, rounded
    towards zero. *)
Lemma sync_round_rate prev c :
  c ≤ totalTx → c ≠ prev → ∃ hours, sync_round prev c = (Rate (Z.quot (c - prev) waitSec) c hours, c).
Proof.
  intros Hc Hne. unfold sync_round. rewrite Z.gtb_ltb, (proj2 (Z.ltb_ge _ _)) by lia.
  rewrite (proj2 (Z.eqb_neq _ _)) by lia. by eexists.
Qed.

(** Fewer than ten transactions in ten seconds have no estimate. *)
Lemma sync_round_slow : sync_round 1000 1009 = (Rate 0 1009 (Infinite false), 1009).
Proof. by vm_compute. Qed.

(** The first report counts all transactions that were there before. *)
Lemma sync_rounds_first : ∃ hours hours', sync_rounds 0 [300000000; 300000100] = [Rate 30000000 300000000 hours; Rate 10 300000100 hours'].
Proof. eexists _, _. vm_compute. reflexivity. Qed.

(** [func main()] of syncrate, with the reports of its first rounds; an error
    of a query ends the process *)
Section syncrate.
Context {Conn W : Type} {sql : Sql Conn W} (fs : string → file).

Fixpoint sync_loop (rounds : nat) (db : Connection.Database Conn) (prevCount : Z) : act W (list sync_report) :=
  match rounds with
  | O => act_val (Val [])
  | S rounds =>
      act_bind (act_fatal (GetNumTransactions db)) (fun txCount =>
        let '(r, prev) := sync_round prevCount txCount in
        match r with
        | TooMany _ => act_val (Exit (ENew "Warning: current transaction count is higher than the max count expected."))
        | _ => act_bind (sync_loop rounds db prev) (fun rs => act_val (Val (r :: rs)))
        end)
  end.

Definition syncrate_main (rounds : nat) (conf coin : string) : act W (list sync_report) :=
  act_bind (configure fs conf coin) (fun '(c, cc) =>
  act_bind (connect ReadOnly c cc coin) (fun '(_, dbConn) => sync_loop rounds dbConn 0)).

(** The counts the queries of the first rounds answer *)
Inductive counts (db : Connection.Database Conn) : list Z → W → W → Prop :=
| counts_nil w : counts db [] w w
| counts_cons c cs w w1 w2 : GetNumTransactions db w = (Val c, w1) → counts db cs w1 w2 → counts db (c :: cs) w w2.

(** Its reports are those of [sync_rounds]. *)
Lemma sync_loop_reports db cs w w' prev :
  counts db cs w w' → Forall (fun c => c ≤ totalTx) cs → sync_loop (length cs) db prev w = (Val (sync_rounds prev cs), w').
Proof.
  intros H. revert prev. induction H as [w|c cs w w1 w2 Hc _ IH]; intros prev Hcs; [done|].
  apply list.Forall_cons in Hcs as [Hle Hcs]. cbn [length sync_loop sync_rounds]. unfold act_bind at 1, act_fatal. rewrite Hc. cbn [fatal_err].
  unfold sync_round. rewrite Z.gtb_ltb, (proj2 (Z.ltb_ge _ _)) by lia. destruct (c - prev =? 0);
    unfold act_bind; rewrite IH by done; done.
Qed.

End syncrate.

(** ** blockchairComparer *)

(** A row of the table: [line[0]] and [line[4]] *)
Definition compared (line : list string) : gores (string * string) :=
  match line !! 0%nat, line !! 4%nat with
  | Some vout, Some vin => Val (vout, vin)
  | _, _ => Panic IndexOutOfRange
  end.

(** The transactions of a row *)
Definition asked (r : string * string) : list string := if String.eqb r.2 "" then [r.1] else [r.1; r.2].

(** The goroutine of a row: what it reports as missing *)
Definition missing {order : RowOrder} (st : store) (r : string * string) : list string :=
  List.filter (fun txid => match GetTxByTxID txid st with Val _ => false | _ => true end) (asked r).

(** The loop of [main] after the header, which reads rows until the end of the
    file: what the goroutines report, one after the other, and [count] *)
Fixpoint compare {order : RowOrder} (st : store) (lines : list (list string)) (count : Z) : gores (list string * Z) :=
  match lines with
  | [] => Val ([], count)
  | line :: lines =>
      r ← compared line;
      '(ms, count) ← compare st lines (if String.eqb r.2 "" then count + 1 else count + 2);
      Val (missing st r ++ ms, count)
  end.

(** It reports exactly the transactions of the rows that are not stored, and
    counts them. *)
Lemma compare_reports {order : RowOrder} st rows rs count :
  mapM compared rows = Val rs →
  compare st rows count =
    Val (List.filter (fun txid => match GetTxByTxID txid st with Val _ => false | _ => true end) (concat (map asked rs)),
         Z.of_nat (length (concat (map asked rs))) + count).
Proof.
  revert rs count. induction rows as [|line rows IH]; intros rs k H; cbn in H.
  - by injection H as <-.
  - destruct (compared line) as [r|?|?|?] eqn:E; try done. cbn in H.
    destruct (mapM compared rows) as [l|?|?|?]; try done. cbn in H. injection H as <-. cbn [compare]. rewrite E. cbn [mbind gores_bind].
    rewrite (IH l _ eq_refl). cbn [mbind gores_bind map concat]. rewrite List.filter_app, length_app. unfold missing, asked.
    do 2 f_equal. destruct (String.eqb r.2 ""); cbn [length]; lia.
Qed.

(** [func readCSVRow(reader *csv.Reader) ([]string, bool)] *)
Definition readCSVRow (r : Reader) : gores (list string * bool) * Reader :=
  match Read r with
  | Some (EOF, r) => (Val ([], true), r)
  | Some (Row line, r) => (Val (line, false), r)
  | Some (Failed _ _, r) => (Exit (ENew "csv"), r)
  | None => (Panic FuelExhausted, r)
  end.

(** The loop of [main] over the reader *)
Fixpoint compare_rows {order : RowOrder} (fuel : nat) (st : store) (r : Reader) (count : Z) : gores (list string * Z) :=
  match fuel with
  | O => Panic FuelExhausted
  | S fuel =>
      let '(row, r) := readCSVRow r in
      '(line, done) ← row;
      if (done : bool) then Val ([], count)
      else
        t ← compared line;
        '(ms, count) ← compare_rows fuel st r (if String.eqb t.2 "" then count + 1 else count + 2);
        Val (missing st t ++ ms, count)
  end.

(** [main] after the connection: the header is read and ignored *)
Definition compare_file {order : RowOrder} (st : store) (text : string) : gores (list string * Z) :=
  let r := NewReader (bytes text) in
  let '(header, r) := readCSVRow r in
  _ ← header;
  compare_rows (S (length (Csv.pending r))) st r 1.

(** [func genAddrURL(addr string) string] *)
Definition genAddrURL (addr : string) : string :=
  ("https://api.blockchair.com/bitcoin/outputs?fields=transaction_hash,index,time,recipient,spending_transaction_hash,spending_index,spending_time&q=recipient("
   ++ addr ++ ")&export=csv")%string.

(** The flags *)
Record compare_flags := {
  cf_download : bool;
  cf_address : string;
  cf_csvPath : string;
  cf_dbServerAddr : string;
  cf_coin : string;
  cf_numDBReaders : Z;
}.

(** The configuration of the database *)
Definition compare_config (fl : compare_flags) : DB := {|
  URI := ("indexer@" ++ cf_dbServerAddr fl ++ ":5432")%string;
  db_BaseDB := {| MaxConns := cf_numDBReaders fl; MaxConnLifetime := 120; db_Threads := cf_numDBReaders fl;
                  db_Retry := {| Attempts := 1; Sleep := 0 |}; db_Timeout := 0 |};
  db_CoinDB := {| ReadOnly_ := ""; ReadWrite_ := "" |};
|}.

Section comparer.
Context {Conn W : Type} {sql : Sql Conn W} (openable : string → bool).
(** [http.Get] and the reading of the body: the text that arrives, and the error
    that ended it *)
Context (http_Get : string → gores (string * option gerror)).

Definition on_disk {A} (m : act disk A) : act (disk * W) A := fun '(d, w) => let '(r, d) := m d in (r, (d, w)).
Definition on_sql {A} (m : act W A) : act (disk * W) A := fun '(d, w) => let '(r, w) := m w in (r, (d, w)).

(** [func downloadFile(filepath string, url string) error] *)
Definition downloadFile (filepath url : string) : act disk unit :=
  act_bind (os_Create openable filepath) (fun _ =>
  act_bind (act_val (http_Get url)) (fun '(body, err) =>
  act_bind (file_write filepath body) (fun _ =>
  act_val (match err with Some e => Err e | None => Val tt end)))).

(** [func main()]; [st] is what the database holds *)
Definition comparer_main {order : RowOrder} (fl : compare_flags) (st : store) : act (disk * W) (list string * Z) :=
  let addrURL := genAddrURL (cf_address fl) in
  act_bind (if cf_download fl then on_disk (act_fatal (downloadFile (cf_csvPath fl) addrURL)) else act_val (Val tt)) (fun _ =>
  act_bind (on_disk (act_fatal (os_Open (cf_csvPath fl)))) (fun csvFile =>
  act_bind (on_sql (act_fatal (Connection.New (compare_config fl) (cf_coin fl)))) (fun _ =>
  act_val (compare_file st csvFile)))).

End comparer.

(** ** What the comparer reports *)

Lemma compare_rows_all {order : RowOrder} st fuel r rows count :
  read_all fuel r = Some (rows, None) → compare_rows fuel st r count = compare st rows count.
Proof.
  revert r rows count. induction fuel as [|fuel IH]; intros r rows count; [done|]. cbn [read_all compare_rows]. unfold readCSVRow.
  destruct (Read r) as [[[|line|line e] r']|]; [by intros [= <-]| |done..].
  destruct (read_all fuel r') as [[rows' e]|] eqn:E; [|done]. cbn [mbind option_bind]. intros [= <- ->].
  cbn [mbind gores_bind compare]. destruct (compared line) as [t|?|?|?]; [|done..]. cbn [mbind gores_bind]. by rewrite (IH r' rows').
Qed.

(** The table of the service, with its header, as a file *)
Lemma comparer_reports {order : RowOrder} st header rows rs n :
  Forall (fun r => writable (map bytes r) = true ∧ length r = n) (header :: rows) → mapM compared rows = Val rs →
  compare_file st (of_bytes (concat (map Write (header :: rows)))) =
    Val (List.filter (fun txid => match GetTxByTxID txid st with Val _ => false | _ => true end) (concat (map asked rs)),
         Z.of_nat (length (concat (map asked rs))) + 1).
Proof.
  intros Hw Hrs. rewrite <-(compare_reports st rows rs 1 Hrs).
  pose proof (ReadAll_Write _ _ Hw) as Hall. unfold compare_file. rewrite bytes_of_bytes by apply Write_bytes.
  unfold ReadAll in Hall. cbn [NewReader Csv.pending] in Hall. cbn [read_all] in Hall. unfold readCSVRow at 1.
  destruct (Read (NewReader (concat (map Write (header :: rows))))) as [[[|line|line e] r']|] eqn:E; try done.
  destruct (read_all _ r') as [[rows' e]|] eqn:E'; [|done]. cbn in Hall. injection Hall as -> -> ->. cbn [mbind gores_bind].
  apply compare_rows_all. by eapply read_all_enough.
Qed.

(** With a download the table of the service is compared, and is left in the
    file. *)
Lemma comparer_main_compares {order : RowOrder} {Conn W} {sql : Sql Conn W} openable http_Get fl st d w body db w' :
  cf_download fl = true → openable (cf_csvPath fl) = true → http_Get (genAddrURL (cf_address fl)) = Val (body, None) →
  Connection.New (compare_config fl) (cf_coin fl) w = (Val db, w') →
  comparer_main openable http_Get fl st (d, w) = (compare_file st body, (<[cf_csvPath fl := body]> d, w')).
Proof.
  intros Hd Ho Hg Hn. unfold comparer_main. rewrite Hd. unfold act_bind, on_disk, on_sql, act_fatal, act_val, downloadFile, os_Create,
    file_write, os_Open, act_bind, act_val. rewrite Ho, Hg. cbn [fatal_err]. rewrite !lookup_insert_eq. cbn [fatal_err]. rewrite Hn.
  cbn [fatal_err]. by rewrite insert_insert_eq.
Qed.

(** When the service does not answer, the file of an earlier download is gone. *)
Lemma comparer_main_fails {order : RowOrder} {Conn W} {sql : Sql Conn W} openable http_Get fl st d w e :
  cf_download fl = true → openable (cf_csvPath fl) = true → http_Get (genAddrURL (cf_address fl)) = Err e →
  comparer_main openable http_Get fl st (d, w) = (Exit e, (<[cf_csvPath fl := ""%string]> d, w)).
Proof.
  intros Hd Ho Hg. unfold comparer_main. rewrite Hd. unfold act_bind, on_disk, act_fatal, downloadFile, os_Create, act_bind, act_val.
  by rewrite Ho, Hg.
Qed.
