(* ===== verification/HealthCheck.v ===== *)
(** * HealthCheck: the services beside the first version

    src/V1/health-check-api: the health checks of a node with its explorer and of
    an Ethereum proxy, and src/V1/serverless/doge-murderer, which stops the oldest
    task of each dogecoin cluster.  The node, the explorer, the proxy and the
    services of AWS are parameters. *)

From stdpp Require Import base list strings sorting numbers.
From Stdlib Require Import ZArith Lia Permutation.
From S2P Require Import Prelude GoStrings Json JsonText Utxo Indexer.

Local Open Scope string_scope.
Local Open Scope Z_scope.
Local Open Scope list_scope.

(** ** Nodes *)

(** What a health check writes *)
Record health := { h_code : Z; h_text : string }.

(** [http.StatusAccepted] *)
Definition StatusAccepted : Z := 202.

(** [func getBlockHeaderCount() int]; [info] is the field [headers] of what
    [GetBlockChainInfo] returns *)
Definition getBlockHeaderCount (info : gores Z) : Z := match info with Val headers => headers | _ => -1 end.

(** The struct tags of [InsightStatus] *)
Definition dec_blocks : decoder Z := dec_struct (fun old kvs => dec_field ["blocks"] "blocks" dec_int old kvs).
Definition dec_insight : decoder Z := dec_struct (fun old kvs => dec_field ["info"] "info" dec_blocks old kvs).

(** [func getInsightBlockCount() int]; [body] is the answer of the explorer *)
Definition getInsightBlockCount (body : gores string) : Z :=
  match body with
  | Val text =>
      match whole text with
      | Some j => match dec_insight 0 j with (blocks, true) => blocks | (_, false) => -1 end
      | None => -1
      end
  | _ => -1
  end.

(** [func healthCheck(w http.ResponseWriter, r *http.Request)] of a UTXO coin *)
Definition healthCheck (info : gores Z) (body : gores string) : health :=
  let blockHeaders := getBlockHeaderCount info in
  let insightCount := getInsightBlockCount body in
  if (insightCount <? blockHeaders) || (blockHeaders =? -1) || (insightCount =? -1) then
    {| h_code := StatusAccepted; h_text := "insight: " ++ Itoa insightCount ++ " < blockchainHeaders: " ++ Itoa blockHeaders |}
  else {| h_code := 200; h_text := Itoa blockHeaders |}.

(** [func getProxySyncing() bool] *)
Definition getProxySyncing (body : gores string) : bool :=
  match body with
  | Val text =>
      match whole text with
      | Some j =>
          match dec_struct (fun old kvs => dec_field ["result"] "result" dec_bool old kvs) false j with
          | (result, true) => result
          | (_, false) => true
          end
      | None => true
      end
  | _ => true
  end.

(** [func healthCheck(w http.ResponseWriter, r *http.Request)] of Ethereum *)
Definition eth_healthCheck (body : gores string) : health :=
  if getProxySyncing body then {| h_code := StatusAccepted; h_text := "NOT SYNCED!" |}
  else {| h_code := 200; h_text := "SYNCED!" |}.

(** A UTXO coin is healthy exactly when its node and its explorer answer, and the
    explorer has as many blocks as the node has headers. *)
Lemma healthCheck_healthy info body :
  (∀ n, info = Val n → 0 ≤ n) →
  h_code (healthCheck info body) = 200 ↔
  ∃ headers text j blocks, info = Val headers ∧ body = Val text ∧ whole text = Some j ∧ dec_insight 0 j = (blocks, true) ∧
    headers ≤ blocks.
Proof.
  intros Hn. unfold healthCheck. split.
  - destruct (_ || _) eqn:E; [done|]. intros _. apply orb_false_iff in E as [[E1%Z.ltb_ge E2%Z.eqb_neq]%orb_false_iff E3%Z.eqb_neq].
    destruct info as [headers|?|?|?]; cbn [getBlockHeaderCount] in *; try done.
    destruct body as [text|?|?|?]; cbn [getInsightBlockCount] in *; try done.
    destruct (whole text) as [j|] eqn:Hw; [|done]. destruct (dec_insight 0 j) as [blocks []] eqn:Hd; [|done].
    by exists headers, text, j, blocks.
  - intros (headers & text & j & blocks & -> & -> & Hw & Hd & Hle). specialize (Hn _ eq_refl).
    cbn [getBlockHeaderCount getInsightBlockCount]. rewrite Hw, Hd.
    by rewrite (proj2 (Z.ltb_ge _ _)), (proj2 (Z.eqb_neq _ _)), (proj2 (Z.eqb_neq _ _)) by lia.
Qed.

(** An Ethereum node that answers [eth_syncing] with its progress, an object, is
    not synced. *)
Lemma eth_healthCheck_progress kvs text :
  whole text = Some (JObject [("result", JObject kvs)]) → eth_healthCheck (Val text) = {| h_code := 202; h_text := "NOT SYNCED!" |}.
Proof. intros H. unfold eth_healthCheck, getProxySyncing. by rewrite H. Qed.

(** ** Tasks *)

(** A task of a cluster *)
Record task := { TaskArn : string; CreatedAt : Z }.

Definition created_before (a b : task) : bool := CreatedAt a <? CreatedAt b.

(** The service ECS: its calls return or fail *)
Record ecs := {
  ListClusters : gores (list string);
  ListTasks : string → gores (list string);
  DescribeTasks : string → list string → gores (list task);
  StopTask : string → string → gores unit;
}.

(** [strings.Contains] *)
Fixpoint contains_bytes (p l : list Z) : bool :=
  bool_decide (take (length p) l = p) || match l with [] => false | _ :: l => contains_bytes p l end.
Definition Contains (s sub : string) : bool := contains_bytes (bytes sub) (bytes s).

Definition is_doge (arn : string) : bool := Contains arn "doge" && Contains arn "prod" && negb (Contains arn "Snapshot").

(** What a list of calls that all return gives *)
Lemma mapM_elem {A B} (f : A → gores B) l k b : mapM f l = Val k → b ∈ k → ∃ a, a ∈ l ∧ f a = Val b.
Proof.
  revert k. induction l as [|a l IH]; intros k H Hb; cbn in H; [injection H as <-; by apply not_elem_of_nil in Hb|].
  destruct (f a) as [b'|?|?|?] eqn:E; try done. cbn in H. destruct (mapM f l) as [k'|?|?|?]; try done. cbn in H. injection H as <-.
  apply elem_of_cons in Hb as [->|Hb]; [by exists a; split; [left|]|].
  destruct (IH k' eq_refl Hb) as (a' & Ha & ?). by exists a'; split; [right|].
Qed.

Section murder.
Context {S : SortSlice task} (svc : ecs).

(** A round of the loop of [Handler]: the task it stops *)
Definition murder (cluster : string) : gores (option (string * string)) :=
  match ListTasks svc cluster with
  | Err _ => Val None
  | Val arns =>
      match DescribeTasks svc cluster arns with
      | Err _ => Val None
      | Val tasks =>
          match sort_slice created_before tasks with
          | t :: _ => Val (Some (cluster, TaskArn t))
          | [] => Panic IndexOutOfRange
          end
      | Panic p => Panic p
      | Exit e => Exit e
      end
  | Panic p => Panic p
  | Exit e => Exit e
  end.

(** [func Handler()]: the calls of [StopTask], whose errors are printed *)
Definition Handler : gores (list (string * string)) :=
  match ListClusters svc with
  | Err _ => Val []
  | Val arns => omap (fun o => o) <$> mapM murder (List.filter is_doge arns)
  | Panic p => Panic p
  | Exit e => Exit e
  end.

(** Each task that is stopped is an oldest one of a dogecoin cluster in production. *)
Lemma Handler_stops_oldest {laws : SortSliceLaws S created_before} stopped cluster arn :
  Handler = Val stopped → (cluster, arn) ∈ stopped →
  ∃ arns tasks t, is_doge cluster = true ∧ ListTasks svc cluster = Val arns ∧ DescribeTasks svc cluster arns = Val tasks ∧
    t ∈ tasks ∧ TaskArn t = arn ∧ Forall (fun u => CreatedAt t ≤ CreatedAt u) tasks.
Proof.
  unfold Handler. destruct (ListClusters svc) as [arns|?|?|?]; try done; [|by intros [= <-] ?%not_elem_of_nil].
  destruct (mapM murder (List.filter is_doge arns)) as [l|?|?|?] eqn:Hm; try done. intros [= <-] Hin.
  apply list_elem_of_omap in Hin as (o & Ho & ->). destruct (mapM_elem _ _ _ _ Hm Ho) as (c & Hc & E).
  apply list_elem_of_In, filter_In in Hc as [_ Hd]. unfold murder in E.
  destruct (ListTasks svc c) as [tasks_arns|?|?|?] eqn:El; try done.
  destruct (DescribeTasks svc c tasks_arns) as [tasks|?|?|?] eqn:Ed; try done.
  pose proof (sort_perm (less := created_before) tasks) as Hp. pose proof (sort_sorted (less := created_before) tasks) as Hs.
  destruct (sort_slice created_before tasks) as [|t ts]; [done|]. injection E as -> <-.
  exists tasks_arns, tasks, t. split_and!; try done.
  - rewrite <-Hp. by left.
  - rewrite <-Hp. inversion Hs as [|? ? _ Hall]; subst. constructor; [lia|].
    eapply Forall_impl; [|exact Hall]. intros u Hu. apply Z.ltb_ge in Hu. lia.
Qed.

(** A cluster without tasks panics. *)
Lemma murder_no_tasks {laws : SortSliceLaws S created_before} cluster arns :
  ListTasks svc cluster = Val arns → DescribeTasks svc cluster arns = Val [] → murder cluster = Panic IndexOutOfRange.
Proof.
  intros El Ed. unfold murder. rewrite El, Ed. pose proof (sort_perm (less := created_before) []) as Hp.
  by apply Permutation_nil_r in Hp as ->.
Qed.

End murder.
