(* ===== verification/Template.v ===== *)
(** * Template: text/template

    What the deployment generator uses of package text/template: texts with
    [{{.}}], [{{.Field}}] and [{{range .Field}} ... {{end}}], over structs of
    strings and of lists of strings. *)

From stdpp Require Import base list strings numbers.
From Stdlib Require Import ZArith Lia.
From S2P Require Import Prelude GoStrings.

Local Open Scope Z_scope.

(** A raw string, in which a backquote stands for the double quote *)
Definition go_raw (s : string) : string := of_bytes (map (fun c => if c =? 96 then 34 else c) (bytes s)).

(** ** Parsing *)

Inductive token :=
| TText (s : string)
| TAction (s : string).

Definition is_blank (c : Z) : bool := (c =? 32) || (c =? 9).

Fixpoint trim_left (l : list Z) : list Z :=
  match l with c :: l' => if is_blank c then trim_left l' else l | [] => [] end.

(** The text of an action without the spaces around it *)
Definition trim (rev_acc : list Z) : list Z := trim_left (reverse (trim_left rev_acc)).

(** Texts and actions; [acc] is what was read of the current one, last first. *)
Fixpoint lex (inside : bool) (acc l : list Z) : option (list token) :=
  match l with
  | [] => if inside then None else Some [TText (of_bytes (reverse acc))]
  | a :: l1 =>
      match l1 with
      | b :: l2 =>
          if inside then
            if (a =? 125) && (b =? 125) then cons (TAction (of_bytes (trim acc))) <$> lex false [] l2
            else lex true (a :: acc) l1
          else
            if (a =? 123) && (b =? 123) then cons (TText (of_bytes (reverse acc))) <$> lex true [] l2
            else lex false (a :: acc) l1
      | [] => lex inside (a :: acc) l1
      end
  end.

Inductive node :=
| Text (s : string)
| Dot
| Field (name : string)
| Range (name : string) (body : list node).

(** A letter, a digit or an underscore *)
Definition is_word (c : Z) : bool :=
  ((48 <=? c) && (c <=? 57)) || ((65 <=? c) && (c <=? 90)) || ((97 <=? c) && (c <=? 122)) || (c =? 95).

(** The name after a point *)
Definition field_name (l : list Z) : option string :=
  match l with
  | 46 :: c :: l' => if forallb is_word (c :: l') then Some (of_bytes (c :: l')) else None
  | _ => None
  end.

(** The nodes; [stack] holds the ranges that are open, each with the nodes
    before it, last first. *)
Fixpoint build (stack : list (string * list node)) (cur : list node) (ts : list token) : option (list node) :=
  match ts with
  | [] => match stack with [] => Some (reverse cur) | _ => None end
  | TText s :: ts => build stack (if String.eqb s "" then cur else Text s :: cur) ts
  | TAction a :: ts =>
      if String.eqb a "." then build stack (Dot :: cur) ts
      else if String.eqb a "end" then
        match stack with
        | (name, before) :: stack => build stack (Range name (reverse cur) :: before) ts
        | [] => None
        end
      else
        match field_name (bytes a) with
        | Some name => build stack (Field name :: cur) ts
        | None =>
            if HasPrefix a "range " then
              match field_name (trim_left (drop 6 (bytes a))) with
              | Some name => build ((name, cur) :: stack) [] ts
              | None => None
              end
            else None
        end
  end.

(** [template.New(name).Parse(text)] *)
Definition Parse (text : string) : option (list node) := lex false [] (bytes text) ≫= build [] [].

(** ** Execution *)

Inductive value :=
| VString (s : string)
| VList (l : list value)
| VStruct (fields : list (string * value)).

Definition get_field (dot : value) (name : string) : option value :=
  match dot with
  | VStruct fields => snd <$> find (fun f => String.eqb f.1 name) fields
  | _ => None
  end.

(** What is written, and whether execution went to the end *)
Definition output : Type := string * bool.

Definition show (v : option value) : output :=
  match v with Some (VString s) => (s, true) | _ => (""%string, false) end.

Definition then_write (o : output) (k : output) : output :=
  if o.2 then ((o.1 ++ k.1)%string, k.2) else o.

(** One after the other, up to the first failure *)
Definition write_all {A} (f : A → output) : list A → output := foldr (fun a k => then_write (f a) k) (""%string, true).

Fixpoint exec (dot : value) (n : node) : output :=
  match n with
  | Text s => (s, true)
  | Dot => show (Some dot)
  | Field name => show (get_field dot name)
  | Range name body =>
      match get_field dot name with
      | Some (VList l) => write_all (fun v => write_all (exec v) body) l
      | _ => (""%string, false)
      end
  end.

(** [func (t *Template) Execute(wr io.Writer, data interface{}) error] *)
Definition Execute (t : list node) (data : value) : output := write_all (exec data) t.
