(* ===== verification/Stack.v ===== *)
(** * Stack: templates of CloudFormation

    The references of a template that CloudFormation resolves: every name that a
    resource, an output or a condition refers to is a parameter, a resource or a
    name of AWS, conditions and mappings are there, and the resources can be
    created one after the other.
    It is shown for a template with holes in its strings and then holds for
    every filling by letters and digits. *)

From stdpp Require Import base list strings gmap numbers.
From Stdlib Require Import ZArith Lia Permutation.
From S2P Require Import Prelude GoStrings Json JsonText JsonHoles Template.

Local Open Scope string_scope.
Local Open Scope Z_scope.

(** The members of a section of a stack, its parameters for instance *)
Definition section_of (name : string) (stack : json) : members :=
  match stack with
  | JObject kvs => match assoc name kvs with Some (JObject m) => m | _ => [] end
  | _ => []
  end.

(** What [get] finds under a key, anywhere in a value *)
Fixpoint uses (key : string) (get : json → list string) (j : json) : list string :=
  match j with
  | JArray l => concat (map (uses key get) l)
  | JObject kvs => concat (map (fun kv => (if String.eqb kv.1 key then get kv.2 else []) ++ uses key get kv.2) kvs)
  | _ => []
  end%list.

Definition the_string (j : json) : list string := match j with JString s => [s] | _ => [] end.
Definition first_string (j : json) : list string := match j with JArray (JString s :: _) => [s] | _ => [] end.

(** The names in [${...}] *)
Fixpoint variables (cur : option (list Z)) (l : list Z) : list string :=
  match l with
  | [] => []
  | c :: l1 =>
      match cur with
      | None =>
          match l1 with
          | d :: l2 => if Z.eqb c 36 && Z.eqb d 123 then variables (Some []) l2 else variables None l1
          | [] => []
          end
      | Some acc => if Z.eqb c 125 then of_bytes (reverse acc) :: variables None l1 else variables (Some (c :: acc)) l1
      end
  end.

Definition substituted (j : json) : list string := match j with JString s => variables None (bytes s) | _ => [] end.

(** The names a resource needs before it can be created *)
Definition needs (j : json) : list string :=
  (uses "Ref" the_string j ++ uses "Fn::Sub" substituted j ++ uses "DependsOn" the_string j)%list.

Definition pseudo_parameters : list string := ["AWS::Region"; "AWS::StackName"].

(** Every resource needs parameters and resources created before it only. *)
Fixpoint creatable (known : list string) (order : members) : Prop :=
  match order with
  | [] => True
  | (name, r) :: order => (∀ x, x ∈ needs r → x ∈ known) ∧ creatable (name :: known) order
  end.

(** A stack whose references are all defined, without a circle.  Conditions are
    decided before any resource is created, so they refer to parameters only. *)
Record deployable (stack : json) : Prop := {
  s_names : NoDup (pseudo_parameters ++ map fst (section_of "Parameters" stack) ++ map fst (section_of "Resources" stack));
  s_resources : ∃ order, order ≡ₚ section_of "Resources" stack ∧
    creatable (pseudo_parameters ++ map fst (section_of "Parameters" stack)) order;
  s_outputs : ∀ x, x ∈ needs (JObject (section_of "Outputs" stack)) →
    x ∈ (pseudo_parameters ++ map fst (section_of "Parameters" stack) ++ map fst (section_of "Resources" stack))%list;
  s_decided : ∀ x, x ∈ needs (JObject (section_of "Conditions" stack)) →
    x ∈ (pseudo_parameters ++ map fst (section_of "Parameters" stack))%list;
  s_conditions : ∀ x, x ∈ uses "Fn::If" first_string stack → x ∈ map fst (section_of "Conditions" stack);
  s_mappings : ∀ x, x ∈ uses "Fn::FindInMap" first_string stack → x ∈ map fst (section_of "Mappings" stack);
}.

(** The parameters without a default *)
Definition required_parameters (stack : json) : list string :=
  omap (fun '(name, p) =>
    match p with
    | JObject kvs => match assoc "Default" kvs with None => Some name | Some _ => None end
    | _ => Some name
    end) (section_of "Parameters" stack).

(** ** Filling the holes of a stack *)

(** Letters and digits *)
Definition is_alnum (c : Z) : bool := is_word c && negb (Z.eqb c 95).
Definition alnum (s : string) : bool := forallb is_alnum (bytes s) && negb (String.eqb s "").

Lemma variables_next c d l :
  variables None (c :: d :: l) = if (c =? 36) && (d =? 123) then variables (Some []) l else variables None (d :: l).
Proof. done. Qed.

Section filling.
Context (t : list Z) (Ht : forallb is_alnum t = true) (Hne : t ≠ []).

Lemma filling_char c : In c t → 48 ≤ c ≤ 122 ∧ c ≠ 92 ∧ c ≠ 96.
Proof. rewrite forallb_forall in Ht. intros H%Ht. unfold is_alnum, is_word in H. lia. Qed.

Lemma variables_solid k : variables None (t ++ k)%list = variables None k.
Proof.
  assert (Hc : Forall (fun c => c ≠ 36) t) by (apply List.Forall_forall; intros c ?%filling_char; lia).
  clear Ht Hne. induction Hc as [|c l Hc _ IH]; [done|]. cbn [app variables]. rewrite <-IH.
  destruct (l ++ k)%list; [done|]. by rewrite (proj2 (Z.eqb_neq c 36)).
Qed.

Lemma variables_inside acc k : variables (Some acc) (t ++ k)%list = variables (Some (reverse t ++ acc)%list) k.
Proof.
  assert (Hc : Forall (fun c => c ≠ 125) t) by (apply List.Forall_forall; intros c ?%filling_char; lia).
  clear Ht Hne. revert acc. induction Hc as [|c l Hc _ IH]; intros acc; [done|]. cbn [app variables].
  rewrite (proj2 (Z.eqb_neq c 125)), IH by done. by rewrite reverse_cons, <-app_assoc.
Qed.

Lemma variables_fill l : Forall is_byte l →
  variables None (fill t l) = map (fill_string t) (variables None l) ∧
  ∀ acc, Forall is_byte acc →
    variables (Some (reverse (fill t (reverse acc)))) (fill t l) = map (fill_string t) (variables (Some acc) l).
Proof.
  induction l as [l IH] using (well_founded_ind (well_founded_ltof _ (@List.length Z))). unfold ltof in IH. intros Hl.
  destruct l as [|c l1]; [done|]. apply list.Forall_cons in Hl as [Hc Hl1].
  destruct (IH l1) as [IHn IHs]; [cbn; lia|done|]. split.
  - destruct (Z.eqb_spec c hole) as [->|Hh].
    + rewrite fill_hole, variables_solid, IHn. by destruct l1.
    + rewrite fill_cons by done. destruct l1 as [|d l2]; [done|]. rewrite variables_next.
      destruct (Z.eqb_spec d hole) as [->|Hd].
      * rewrite andb_false_r, <-IHn, fill_hole. assert (Hx : ∀ x, In x t → x ≠ 123) by (intros x ?%filling_char; lia).
        destruct t as [|x t']; [done|]. cbn [app].
        rewrite variables_next, (proj2 (Z.eqb_neq x 123)), andb_false_r; [done|]. by apply Hx; left.
      * rewrite fill_cons in * by done. rewrite variables_next. destruct ((c =? 36) && (d =? 123)); [|done].
        apply list.Forall_cons in Hl1 as [_ Hl2]. destruct (IH l2) as [_ IH2]; [cbn; lia|done|]. by apply (IH2 []).
  - intros acc Hacc. destruct (Z.eqb_spec c hole) as [->|Hh].
    + rewrite fill_hole, variables_inside. cbn [variables].
      change (hole =? 125) with false. cbv iota. rewrite <-IHs by by constructor.
      rewrite reverse_cons, fill_app, fill_hole. cbn [fill]. by rewrite app_nil_r, reverse_app.
    + rewrite fill_cons by done. cbn [variables]. destruct (c =? 125).
      * cbn [map]. rewrite IHn, reverse_involutive, fill_string_of_bytes by by apply Forall_reverse. done.
      * rewrite <-IHs by by constructor. rewrite reverse_cons, fill_app. cbn [fill]. rewrite (proj2 (Z.eqb_neq c hole)) by done.
        by rewrite reverse_app.
Qed.

Lemma filling_bytes : Forall is_byte t.
Proof. apply List.Forall_forall. intros c ?%filling_char. unfold is_byte. lia. Qed.

(** A key of the template that is not the key we look for never becomes it. *)
Definition key_apart (name k : string) : bool := solid_name k || apart (bytes k) (bytes name).

Fixpoint keys_apart (name : string) (j : json) : bool :=
  match j with
  | JArray l => forallb (keys_apart name) l
  | JObject kvs => forallb (fun kv => key_apart name kv.1 && keys_apart name kv.2) kvs
  | _ => true
  end.

Lemma key_fill name k :
  key_apart name k = true → solid_name name = true → String.eqb (fill_string t k) name = String.eqb k name.
Proof.
  unfold key_apart. intros [Hk|Hk]%orb_true_iff Hname; [by rewrite fill_string_solid|].
  pose proof (apart_fill_string t k name filling_bytes Hk) as Hne'. rewrite (fill_string_solid t name Hname) in Hne'.
  rewrite (proj2 (String.eqb_neq _ _) Hne'), (proj2 (String.eqb_neq k name)); [done|]. intros ->. by rewrite fill_string_solid in Hne'.
Qed.

Lemma uses_fill key get j :
  keys_apart key j = true → solid_name key = true →
  (∀ v, get (fill_json t v) = map (fill_string t) (get v)) →
  uses key get (fill_json t j) = map (fill_string t) (uses key get j).
Proof.
  intros Hk Hkey Hget. revert Hk. induction j as [| | | |l IH|kvs IH] using json_values; try done; cbn [keys_apart uses fill_json].
  - intros Hk. rewrite map_map, concat_map, map_map. f_equal. apply map_ext_in. intros j Hj.
    rewrite List.Forall_forall in IH. rewrite forallb_forall in Hk. auto.
  - intros Hk. rewrite map_map, concat_map, map_map. f_equal. apply map_ext_in. intros [k j] Hj. cbn [fst snd].
    rewrite List.Forall_forall in IH. rewrite forallb_forall in Hk. specialize (Hk _ Hj) as [Hk1 Hk2]%andb_true_iff.
    specialize (IH _ Hj Hk2). cbn [fst snd] in IH, Hk1. rewrite map_app, IH, key_fill by done. destruct (String.eqb k key); [by rewrite Hget|done].
Qed.

Lemma the_string_fill v : the_string (fill_json t v) = map (fill_string t) (the_string v).
Proof. by destruct v. Qed.

Lemma first_string_fill v : first_string (fill_json t v) = map (fill_string t) (first_string v).
Proof. destruct v as [| | | |[|[] l]|]; done. Qed.

Lemma substituted_fill v : substituted (fill_json t v) = map (fill_string t) (substituted v).
Proof.
  destruct v as [| | |s| |]; try done. cbn [fill_json substituted]. rewrite bytes_fill_string by apply filling_bytes.
  apply variables_fill, bytes_is_byte.
Qed.

Definition need_keys : list string := ["Ref"; "Fn::Sub"; "DependsOn"].

Lemma needs_fill j : forallb (fun k => keys_apart k j) need_keys = true → needs (fill_json t j) = map (fill_string t) (needs j).
Proof.
  cbn [forallb need_keys]. intros [H1 [H2 [H3 _]%andb_true_iff]%andb_true_iff]%andb_true_iff. unfold needs. rewrite !map_app.
  rewrite !uses_fill by (done || apply the_string_fill || apply substituted_fill). done.
Qed.

Lemma assoc_fill name kvs :
  solid_name name = true → forallb (fun kv => key_apart name kv.1) kvs = true →
  assoc name (fill_members t kvs) = fill_json t <$> assoc name kvs.
Proof.
  intros Hn. unfold assoc. induction kvs as [|[k j] kvs IH]; [done|]. cbn [forallb fst]. intros [Hk Hkvs]%andb_true_iff.
  cbn [fill_members map find fst]. rewrite key_fill by done. destruct (String.eqb k name); [done|]. by apply IH.
Qed.

Definition sections : list string := ["Parameters"; "Conditions"; "Mappings"; "Resources"; "Outputs"].

Definition sections_apart (stack : json) : bool :=
  match stack with JObject kvs => forallb (fun name => forallb (fun kv => key_apart name kv.1) kvs) sections | _ => true end.

Lemma section_fill name stack :
  sections_apart stack = true → name ∈ sections → section_of name (fill_json t stack) = fill_members t (section_of name stack).
Proof.
  intros Hs Hin. destruct stack as [| | | | |kvs]; try done. cbn [fill_json section_of sections_apart] in *.
  rewrite forallb_forall in Hs. apply list_elem_of_In in Hin. change (map _ kvs) with (fill_members t kvs).
  rewrite assoc_fill; [|by repeat destruct Hin as [<-|Hin]|by apply Hs]. destruct (assoc name kvs) as [[]|]; done.
Qed.

Lemma fst_fill kvs : map fst (fill_members t kvs) = map (fill_string t) (map fst kvs).
Proof. unfold fill_members. by rewrite !map_map. Qed.

Lemma creatable_fill known order :
  forallb (fun kv => forallb (fun k => keys_apart k kv.2) need_keys) order = true →
  creatable known order → creatable (map (fill_string t) known) (fill_members t order).
Proof.
  revert known. induction order as [|[name r] order IH]; intros known; [done|]. cbn [forallb snd]. intros [Hr Ho]%andb_true_iff [H1 H2].
  unfold fill_members. cbn [map creatable fst snd]. split; [|by apply (IH (name :: known))]. rewrite needs_fill by done. intros x (y & -> & Hy)%list_elem_of_fmap.
  by apply (list_elem_of_fmap_2 (fill_string t)), H1.
Qed.

End filling.

(** *** Which resource can be created next *)

Fixpoint next_resource (known : list string) (rs : members) : option (string * json * members) :=
  match rs with
  | [] => None
  | r :: rs =>
      if bool_decide (Forall (fun x => x ∈ known) (needs r.2)) then Some (r, rs)
      else '(r', rest) ← next_resource known rs; Some (r', r :: rest)
  end.

Fixpoint schedule (fuel : nat) (known : list string) (rs : members) : option members :=
  match rs, fuel with
  | [], _ => Some []
  | _, O => None
  | _, S fuel => '(r, rest) ← next_resource known rs; cons r <$> schedule fuel (r.1 :: known) rest
  end.

Lemma next_resource_ok known rs r rest :
  next_resource known rs = Some (r, rest) → rs ≡ₚ r :: rest ∧ ∀ x, x ∈ needs r.2 → x ∈ known.
Proof.
  revert rest. induction rs as [|r' rs IH]; intros rest; [done|]. cbn [next_resource]. case_bool_decide as Hd.
  - intros [= <- <-]. split; [done|]. by rewrite list.Forall_forall in Hd.
  - destruct (next_resource known rs) as [[r1 rest1]|]; [|done]. cbn. intros [= <- <-].
    destruct (IH rest1 eq_refl) as [E H]. split; [|done]. rewrite E. apply Permutation_swap.
Qed.

Lemma schedule_ok fuel known rs order : schedule fuel known rs = Some order → order ≡ₚ rs ∧ creatable known order.
Proof.
  revert known rs order. induction fuel as [|fuel IH]; intros known [|r0 rs] order; cbn [schedule]; try by intros [= <-].
  destruct (next_resource known (r0 :: rs)) as [[[name r] rest]|] eqn:Hn; [|done]. cbn.
  destruct (schedule fuel _ rest) as [o|] eqn:Hs; [|done]. intros [= <-].
  apply next_resource_ok in Hn as [E Hneeds]. apply IH in Hs as [E' Hc]. split; [by rewrite E', E|done].
Qed.

(** *** Stacks *)

Fixpoint pairwise {A} (r : A → A → bool) (l : list A) : bool :=
  match l with [] => true | a :: l => forallb (r a) l && pairwise r l end.

Definition names_of (stack : json) : list string :=
  (pseudo_parameters ++ map fst (section_of "Parameters" stack) ++ map fst (section_of "Resources" stack))%list.

(** The names of the stack stay apart and the keys of the stack are what they
    are, whatever fills the holes. *)
Definition stack_apart (stack : json) : bool :=
  sections_apart stack &&
  pairwise (fun a b => apart (bytes a) (bytes b)) (names_of stack) &&
  forallb (fun kv => forallb (fun k => keys_apart k kv.2) need_keys) (section_of "Resources" stack) &&
  forallb (fun k => keys_apart k (JObject (section_of "Outputs" stack))) need_keys &&
  forallb (fun k => keys_apart k (JObject (section_of "Conditions" stack))) need_keys &&
  keys_apart "Fn::If" stack && keys_apart "Fn::FindInMap" stack && keys_apart "Default" stack.

(** What makes a stack with holes deployable *)
Definition stack_complete (stack : json) : bool :=
  match schedule (length (section_of "Resources" stack))
          (pseudo_parameters ++ map fst (section_of "Parameters" stack))%list (section_of "Resources" stack) with
  | Some _ => true
  | None => false
  end &&
  bool_decide (Forall (fun x => x ∈ names_of stack) (needs (JObject (section_of "Outputs" stack)))) &&
  bool_decide (Forall (fun x => x ∈ pseudo_parameters ++ map fst (section_of "Parameters" stack))%list
    (needs (JObject (section_of "Conditions" stack)))) &&
  bool_decide (Forall (fun x => x ∈ map fst (section_of "Conditions" stack)) (uses "Fn::If" first_string stack)) &&
  bool_decide (Forall (fun x => x ∈ map fst (section_of "Mappings" stack)) (uses "Fn::FindInMap" first_string stack)).

Section stacks.
Context (t : list Z) (Ht : forallb is_alnum t = true) (Hne : t ≠ []).

Lemma pairwise_fill l : pairwise (fun a b => apart (bytes a) (bytes b)) l = true → NoDup (map (fill_string t) l).
Proof.
  induction l as [|a l IH]; [constructor|]. cbn [pairwise map]. intros [Ha Hl]%andb_true_iff. constructor; [|by apply IH].
  rewrite forallb_forall in Ha. intros (b & E & Hb)%list_elem_of_fmap. apply list_elem_of_In in Hb.
  by apply (apart_fill_string t a b (filling_bytes t Ht) (Ha b Hb)).
Qed.

Lemma Forall_fill (P Q : string → Prop) l :
  (∀ x, P x → Q (fill_string t x)) → Forall P l → ∀ x, x ∈ map (fill_string t) l → Q x.
Proof. intros H Hl x (y & -> & Hy)%list_elem_of_fmap. apply H. by rewrite list.Forall_forall in Hl; apply Hl. Qed.

Lemma names_fill stack : sections_apart stack = true → names_of (fill_json t stack) = map (fill_string t) (names_of stack).
Proof.
  intros Hs. unfold names_of. rewrite !section_fill, !fst_fill, !map_app by (done || (cbn; set_solver)). done.
Qed.

Lemma deployable_fill stack :
  stack_apart stack = true → stack_complete stack = true → deployable (fill_json t stack).
Proof.
  unfold stack_apart, stack_complete. rewrite !andb_true_iff. intros (((((((Hs & Hp) & Hr) & Ho) & Hco) & Hif) & Hmap) & _) ((((Hsch & Hout) & Hdec) & Hc) & Hm).
  destruct (schedule _ _ _) as [order|] eqn:E; [|done]. apply schedule_ok in E as [Eo Hord].
  apply bool_decide_eq_true in Hout, Hdec, Hc, Hm.
  split.
  - change (NoDup (names_of (fill_json t stack))). rewrite names_fill by done. by apply pairwise_fill.
  - exists (fill_members t order). rewrite !section_fill by (done || (cbn; set_solver)). split; [by apply Permutation_map|].
    rewrite fst_fill. change pseudo_parameters with (map (fill_string t) pseudo_parameters). rewrite <-map_app.
    apply creatable_fill; [done|done| |done]. rewrite forallb_forall in Hr |- *. intros kv Hkv. apply Hr. by rewrite <-Eo.
  - change (∀ x, x ∈ needs (JObject (section_of "Outputs" (fill_json t stack))) → x ∈ names_of (fill_json t stack)).
    rewrite names_fill, section_fill by (done || (cbn; set_solver)).
    change (JObject (fill_members t ?m)) with (fill_json t (JObject m)). rewrite needs_fill by done.
    apply Forall_fill with (P := fun x => x ∈ names_of stack); [|done]. intros x. apply (list_elem_of_fmap_2 (fill_string t)).
  - rewrite !section_fill, fst_fill by (done || (cbn; set_solver)).
    change pseudo_parameters with (map (fill_string t) pseudo_parameters). rewrite <-map_app.
    change (JObject (fill_members t ?m)) with (fill_json t (JObject m)). rewrite needs_fill by done.
    eapply Forall_fill; [|exact Hdec]. intros x. apply (list_elem_of_fmap_2 (fill_string t)).
  - rewrite section_fill, uses_fill, fst_fill by (done || apply first_string_fill || (cbn; set_solver)).
    eapply Forall_fill; [|exact Hc]. intros x. apply (list_elem_of_fmap_2 (fill_string t)).
  - rewrite section_fill, uses_fill, fst_fill by (done || apply first_string_fill || (cbn; set_solver)).
    eapply Forall_fill; [|exact Hm]. intros x. apply (list_elem_of_fmap_2 (fill_string t)).
Qed.

Lemma required_fill stack :
  sections_apart stack = true → keys_apart "Default" (JObject (section_of "Parameters" stack)) = true →
  required_parameters (fill_json t stack) = map (fill_string t) (required_parameters stack).
Proof.
  intros Hs Hd. unfold required_parameters. rewrite section_fill by (done || (cbn; set_solver)).
  cbn [keys_apart] in Hd. induction (section_of "Parameters" stack) as [|[k j] m IH]; [done|].
  cbn [forallb fst snd] in Hd. apply andb_true_iff in Hd as [[_ Hj]%andb_true_iff Hd]. specialize (IH Hd).
  unfold fill_members. cbn [map fst snd omap list_omap]. destruct j as [| | | | |kvs]; cbn [fill_json]; try (cbn [map]; f_equal; exact IH).
  change (map _ kvs) with (fill_members t kvs). cbn [keys_apart] in Hj.
  rewrite assoc_fill; [|done|done|rewrite forallb_forall in Hj |- *; by intros kv [? _]%Hj%andb_true_iff].
  destruct (assoc "Default" kvs); cbn; [exact IH|f_equal; exact IH].
Qed.

End stacks.
