(* ===== verification/CoinGen.v ===== *)
(** * CoinGen: the deployment generator

    The programs of src/V1/deploy/gen: gen.go adds a coin (the template of its
    stack, a rule of the Makefile, its ticker in coin.go), main.go writes
    deploy-sample.sh for the coins of coin.go.  The files are a map from paths to
    contents, whether a path can be opened is a parameter. *)

From stdpp Require Import base list strings gmap numbers.
From Stdlib Require Import ZArith Lia.
From S2P Require Import Prelude GoStrings Files Json JsonText JsonHoles Template Stack DeployTemplates.

Local Open Scope string_scope.
Local Open Scope Z_scope.

(** ** The programs *)

(** [var Coins = []string{...}] *)
Definition Coins : list string := ["ETH"; "BCH"; "ETHPARITY"; "LTC"; "ZEC"; "BTC"; "DASH"; "BTG"; "DOGE"].

(** [template.Must] *)
Definition Must (t : option (list node)) : gores (list node) :=
  match t with Some t => Val t | None => Panic (PanicError (ENew "template")) end.

Definition coinsTemplate : gores (list node) := Must (Parse (go_raw coinsTemplate_text)).
Definition makefileTemplate : gores (list node) := Must (Parse (go_raw makefileTemplate_text)).
Definition packageTemplate : gores (list node) := Must (Parse (go_raw packageTemplate_text)).
Definition deploySampleDotSh : gores (list node) := Must (Parse (go_raw deploySampleDotSh_text)).

Section programs.
Context (openable : string → bool).

(** [t.Execute(f, data)], with the error ignored *)
Definition execute_to (path : string) (t : list node) (data : value) : act disk unit := file_write path (Execute t data).1.

(** gen.go: [func main()]; the templates are parsed before it starts. *)
Definition gen_coin (unix coinName : string) (coins : list string) : act disk unit :=
  act_bind (act_val coinsTemplate) (fun coins_tmpl =>
  act_bind (act_val makefileTemplate) (fun makefile_tmpl =>
  act_bind (act_val packageTemplate) (fun package_tmpl =>
  let coinTicker := ToUpper coinName in
  let f := "../" ++ coinName ++ ".json" in
  act_bind (act_fatal (os_Create openable f)) (fun _ =>
  act_bind (execute_to f package_tmpl (VStruct [("CoinTicker", VString coinTicker)])) (fun _ =>
  act_bind (act_panic (os_Append openable "../Makefile")) (fun _ =>
  act_bind (execute_to "../Makefile" makefile_tmpl
    (VStruct [("CoinName", VString coinName); ("CoinTicker", VString coinTicker)])) (fun _ =>
  act_bind (act_panic (os_Create openable "../coin/coin.go")) (fun _ =>
  execute_to "../coin/coin.go" coins_tmpl
    (VStruct [("Coins", VList (map VString (coins ++ [coinTicker]))); ("Timestamp", VString unix)]))))))))).

(** main.go: [func main()] *)
Definition gen_deploy (unix : string) (coins : list string) : act disk unit :=
  act_bind (act_val deploySampleDotSh) (fun tmpl =>
  act_bind (act_panic (os_Create openable "../deploy-sample.sh")) (fun _ =>
  execute_to "../deploy-sample.sh" tmpl (VStruct [("Coins", VList (map VString coins)); ("Timestamp", VString unix)]))).

End programs.

(** ** Reading what is generated *)

Definition nl : string := of_bytes [10].
Definition tab : string := of_bytes [9].

Definition joined (l : list string) : string := foldr String.append "" l.
Definition lines (l : list string) : string := joined (map (fun s => s ++ nl) l).

(** The parameters the Makefile passes to the stack of a coin, and where it takes
    them from *)
Definition passed_parameters (ticker : string) : list (string * string) :=
  [(ticker ++ "Image", "$(" ++ ticker ++ "_REPO_IMAGE)"); ("SSLCertificate", "$(REGION_SSL)");
   ("IsProdConditon", go_raw "`$(IS_PROD)`")].

(** The rule that creates the stack of a coin from its template: one command,
    continued over the lines *)
Definition init_rule (name ticker : string) : string := lines (concat [
  [ticker ++ "-init: " ++ name ++ "-image " ++ name ++ "-deploy";
   tab ++ "@aws --region $(REGION) cloudformation create-stack \";
   tab ++ tab ++ "--stack-name $(" ++ ticker ++ "_STACK_NAME) \";
   tab ++ tab ++ "--template-body file://" ++ name ++ ".json \";
   tab ++ tab ++ "--parameters \"];
  map (fun '(p, v) => tab ++ tab ++ tab ++ "ParameterKey=" ++ p ++ ",ParameterValue=" ++ v ++ " \") (passed_parameters ticker);
  [tab ++ tab ++ "--capabilities CAPABILITY_IAM"]]).

(** The variables of a coin and the rules for its image, which come before *)
Definition image_rules (name ticker : string) : string := nl ++ lines
  ["##############################################";
   "############### " ++ ticker ++ " VARIABLES ################";
   "##############################################";
   ticker ++ "_COMMIT=$$(cd ../" ++ ticker ++ " && git rev-parse --short HEAD)";
   ticker ++ "_STACK_NAME = cq-" ++ name ++ "-$(STACK_COUNT)";
   ticker ++ "_NAME = coinquery/" ++ name ++ "-insight";
   ticker ++ "_IMAGE = coinquery/" ++ name ++ "-insight:dev";
   ticker ++ "_REPO_IMAGE = $(ECS_REPO_URI)/$(" ++ ticker ++ "_NAME):$(" ++ ticker ++ "_COMMIT)-" ++ name;
   "############################";
   "#### " ++ ticker ++ " BUILD COMMANDS ####";
   "############################";
   ".PHONY: " ++ name ++ "-image";
   name ++ "-image:";
   tab ++ "@cd ../" ++ ticker ++ " && make " ++ name;
   ".PHONY: " ++ name ++ "-deploy";
   name ++ "-deploy:";
   tab ++ "@$$(aws ecr get-login --no-include-email --region $(REGION))";
   tab ++ "@docker tag $(" ++ ticker ++ "_IMAGE) $(" ++ ticker ++ "_REPO_IMAGE)";
   tab ++ "@docker push $(" ++ ticker ++ "_REPO_IMAGE)";
   ".PHONY: " ++ ticker ++ "-init"].

(** The function of deploy-sample.sh that makes the target of a coin, and the
    branch of its [case] that calls the function *)
Definition deploy_function (coin : string) : string := nl ++ lines
  [coin ++ "(){";
   "    AWS_ACCESS_KEY_ID=$AWS_ACCESS_KEY_ID \ # Remove this if you use aws.config";
   "    AWS_SECRET_ACCESS_KEY=$AWS_SECRET_ACCESS_KEY \ # Remove this if you use aws.config";
   "    make " ++ coin ++ "-init REGION=$REGION ECS_REPO_URI=$ECS_REPO_URI REGION_SSL=$REGION_SSL STACK_COUNT=$STACK_COUNT IS_PROD=$IS_PROD";
   "}"].

Definition deploy_branch (coin : string) : string := nl ++ lines
  ["    (" ++ coin ++ ")"; "     " ++ coin; "    exit 0"; "    ;;"].

(** What is around them *)
Definition script_head (unix : string) : string := lines
  ["#!/bin/bash";
   "### Code (re)generated by go generate; DO NOT EDIT BY HAND;";
   "### ------------------------------------------------------;";
   "### " ++ unix;
   "######################## MAKEFILE PARAMETERS #######################";
   "AWS_ACCESS_KEY_ID= # can delete if you have aws.config setup";
   "AWS_SECRET_ACCESS_KEY= # can delete if you have aws.config setup";
   "REGION= # example) us-east-1 ";
   "ECS_REPO_URI= # example) <redacted>.dkr.ecr.us-east-1.amazonaws.com";
   "REGION_SSL= # example) arn:aws:acm:us-east-1:<redacted>:certificate/<redacted>";
   "STACK_COUNT= # example) 9 (any integer will work)";
   "IS_PROD=false";
   "####################################################################"].

Definition case_head : string := nl ++ go_raw "case `$1` in" ++ nl.

Definition script_tail : string := nl ++ lines
  ["  (" ++ "*)";
   go_raw "    echo `Please use deploy.sh <BCH | ETH | ETHPARITY | ZEC | LTC | BTC | BTG | DASH>`";
   "    exit 0";
   "    ;;"] ++ "esac".

(** The script for a list of coins *)
Definition script (unix : string) (coins : list string) : string :=
  script_head unix ++ joined (map deploy_function coins) ++ case_head ++ joined (map deploy_branch coins) ++ script_tail.

(** The interpreted strings of a Go file; those of coin.go have no escapes. *)
Fixpoint go_strings (cur : option (list Z)) (l : list Z) : list string :=
  match l with
  | [] => []
  | c :: l =>
      match cur with
      | None => go_strings (if Z.eqb c 34 then Some [] else None) l
      | Some acc => if Z.eqb c 34 then of_bytes (reverse acc) :: go_strings None l else go_strings (Some (c :: acc)) l
      end
  end.

(** ** Templates and the characters of their fields *)

(** A text with characters that stand for texts *)
Definition plug (f : Z → list Z) (l : list Z) : list Z := concat (map f l).

Lemma plug_app f l k : plug f (l ++ k)%list = (plug f l ++ plug f k)%list.
Proof. unfold plug. by rewrite map_app, concat_app. Qed.

Lemma fill_plug t l : fill t l = plug (fun c => if c =? hole then t else [c]) l.
Proof. induction l as [|c l IH]; [done|]. cbn. rewrite IH. by destruct (c =? hole). Qed.

(** What is written for [v] is what is written for [w], with the texts put in. *)
Definition plugs (f : Z → list Z) (v w : output) : Prop :=
  v.2 = true ∧ w.2 = true ∧ bytes w.1 = plug f (bytes v.1).

Lemma write_all_cons {A} (g : A → output) a l : write_all g (a :: l) = then_write (g a) (write_all g l).
Proof. done. Qed.

Lemma write_all_plug {A B} f (g : A → output) (h : B → output) l k :
  Forall2 (fun a b => plugs f (g a) (h b)) l k → plugs f (write_all g l) (write_all h k).
Proof.
  induction 1 as [|a b l k (H1 & H2 & H3) _ (IH1 & IH2 & IH3)]; [done|].
  rewrite !write_all_cons. unfold then_write.
  rewrite H1, H2. split_and!; [done|done|]. cbn [fst snd]. by rewrite !bytes_app, plug_app, H3, <-IH3.
Qed.

Lemma string_app_assoc (a b c : string) : (a ++ b) ++ c = a ++ b ++ c.
Proof. induction a as [|x a IH]; [done|]. exact (f_equal (String x) IH). Qed.

Lemma string_app_nil (a : string) : a ++ "" = a.
Proof. induction a as [|x a IH]; [done|]. exact (f_equal (String x) IH). Qed.

(** ** The templates are well formed *)

Definition nodes_of (t : gores (list node)) : list node := match t with Val n => n | _ => [] end.

Lemma nodes_of_Val t : match t with Val _ => true | _ => false end = true → t = Val (nodes_of t).
Proof. by destruct t. Qed.

Ltac parses := apply nodes_of_Val; vm_compute; reflexivity.

Lemma coins_parses : coinsTemplate = Val (nodes_of coinsTemplate).
Proof. parses. Qed.
Lemma makefile_parses : makefileTemplate = Val (nodes_of makefileTemplate).
Proof. parses. Qed.
Lemma package_parses : packageTemplate = Val (nodes_of packageTemplate).
Proof. parses. Qed.
Lemma deploy_parses : deploySampleDotSh = Val (nodes_of deploySampleDotSh).
Proof. parses. Qed.

(** *** The stack *)

Definition one_char (c : Z) : string := of_bytes [c].

Definition ticker_fields (ticker : string) : list (string * value) := [("CoinTicker", VString ticker)].
Definition name_fields (name ticker : string) : list (string * value) :=
  [("CoinName", VString name); ("CoinTicker", VString ticker)].

(** The template with a hole for the ticker *)
Definition stack_text : string := (Execute (nodes_of packageTemplate) (VStruct (ticker_fields (one_char hole)))).1.

Definition value_of (r : option (json * list Z)) : json := match r with Some (j, _) => j | None => JNull end.

Definition stack_template : json := value_of (parse_value 400 (bytes stack_text)).

Lemma stack_parses : parse_value 400 (bytes stack_text) = Some (stack_template, []).
Proof.
  assert (Hv : ∀ r : option (json * list Z), match r with Some (_, []) => true | _ => false end = true → r = Some (value_of r, []))
    by (by intros [[j [|]]|]).
  apply Hv. vm_compute. reflexivity.
Qed.

Lemma stack_fillable : fillable (bytes stack_text) = true.
Proof. vm_compute. reflexivity. Qed.

Lemma stack_long : (400 <=? length (bytes stack_text))%nat = true.
Proof. vm_compute. reflexivity. Qed.

Lemma stack_template_apart : stack_apart stack_template = true.
Proof. vm_compute. reflexivity. Qed.

Lemma stack_template_complete : stack_complete stack_template = true.
Proof. vm_compute. reflexivity. Qed.

(** The characters that stand for the name and the ticker of the coin *)
Definition name_hole : Z := 1.

Definition plug_names (name ticker : string) (c : Z) : list Z :=
  if c =? hole then bytes ticker else if c =? name_hole then bytes name else [c].

Definition no_names (l : list Z) : bool := forallb (fun c => negb (c =? hole) && negb (c =? name_hole)) l.

Lemma plug_no_names name ticker l : no_names l = true → plug (plug_names name ticker) l = l.
Proof.
  induction l as [|c l IH]; [done|]. cbn [no_names forallb]. intros [Hc Hl]%andb_true_iff. unfold plug in *. cbn [map concat].
  rewrite IH by exact Hl. unfold plug_names. destruct (c =? hole), (c =? name_hole); done.
Qed.

Lemma plug_ticker name ticker l :
  forallb (fun c => negb (c =? name_hole)) l = true → plug (plug_names name ticker) l = fill (bytes ticker) l.
Proof.
  intros Hl. rewrite fill_plug. unfold plug. f_equal. apply map_ext_in. intros c Hc. rewrite forallb_forall in Hl.
  specialize (Hl c Hc). unfold plug_names. by destruct (c =? hole), (c =? name_hole).
Qed.

(** Nodes without ranges, over fields of [names] *)
Definition flat (names : list string) (n : node) : bool :=
  match n with
  | Text s => no_names (bytes s)
  | Field f => bool_decide (f ∈ names)
  | _ => false
  end.

Definition plugged (f : Z → list Z) (a b : string * value) : Prop :=
  a.1 = b.1 ∧ ∃ s s', a.2 = VString s ∧ b.2 = VString s' ∧ bytes s' = plug f (bytes s).

Lemma field_plug f fs fs' x :
  Forall2 (plugged f) fs fs' → x ∈ map fst fs → plugs f (show (get_field (VStruct fs) x)) (show (get_field (VStruct fs') x)).
Proof.
  intros H Hx. cbn [get_field]. induction H as [|[k v] [k' v'] fs fs' (E & u & w & Ev & Ew & Eb) _ IH]; [by apply elem_of_nil in Hx|].
  cbn [fst snd] in E, Ev, Ew. subst k' v v'. cbn [find fst]. destruct (String.eqb_spec k x) as [->|Hne]; [done|].
  apply IH. cbn in Hx. by apply elem_of_cons in Hx as [->|Hx].
Qed.

Lemma Execute_plug name ticker nodes fs fs' :
  forallb (flat (map fst fs)) nodes = true → Forall2 (plugged (plug_names name ticker)) fs fs' →
  plugs (plug_names name ticker) (Execute nodes (VStruct fs)) (Execute nodes (VStruct fs')).
Proof.
  intros Hn Hf. apply write_all_plug. induction nodes as [|n nodes IH]; [constructor|]. cbn [forallb] in Hn.
  apply andb_true_iff in Hn as [Hn Hnodes]. constructor; [|by apply IH].
  destruct n as [s| |x|]; [|done| |done]; cbn [flat] in Hn.
  - split_and!; [done|done|]. cbn [exec fst]. by rewrite plug_no_names.
  - apply bool_decide_eq_true in Hn. by apply field_plug.
Qed.

Lemma plugged_char name ticker k c s :
  plug_names name ticker c = bytes s → is_byte c → plugged (plug_names name ticker) (k, VString (one_char c)) (k, VString s).
Proof.
  intros H Hc. split; [done|]. exists (one_char c), s. split_and!; [done|done|]. unfold one_char.
  rewrite bytes_of_bytes by (by constructor). unfold plug. cbn [map concat]. by rewrite H, app_nil_r.
Qed.

Lemma ticker_plugged name ticker :
  Forall2 (plugged (plug_names name ticker)) (ticker_fields (one_char hole)) (ticker_fields ticker).
Proof. repeat constructor; by apply plugged_char. Qed.

Lemma names_plugged name ticker :
  Forall2 (plugged (plug_names name ticker)) (name_fields (one_char name_hole) (one_char hole)) (name_fields name ticker).
Proof. repeat constructor; by apply plugged_char. Qed.

#[local] Opaque coinsTemplate makefileTemplate packageTemplate deploySampleDotSh.

(** The stack of a ticker is the template with its hole filled. *)
Lemma package_flat : forallb (flat (map fst (ticker_fields (one_char hole)))) (nodes_of packageTemplate) = true.
Proof. vm_compute. reflexivity. Qed.

Lemma stack_no_names : forallb (fun c => negb (c =? name_hole)) (bytes stack_text) = true.
Proof. vm_compute. reflexivity. Qed.

Lemma stack_written ticker :
  bytes (Execute (nodes_of packageTemplate) (VStruct (ticker_fields ticker))).1 = fill (bytes ticker) (bytes stack_text).
Proof.
  destruct (Execute_plug "" ticker _ _ _ package_flat (ticker_plugged "" ticker)) as (_ & _ & H).
  fold stack_text in H. rewrite H. apply plug_ticker, stack_no_names.
Qed.

(** *** The rule of the Makefile *)

Definition rule_text : string :=
  (Execute (nodes_of makefileTemplate) (VStruct (name_fields (one_char name_hole) (one_char hole)))).1.

Lemma makefile_flat :
  forallb (flat (map fst (name_fields (one_char name_hole) (one_char hole)))) (nodes_of makefileTemplate) = true.
Proof. vm_compute. reflexivity. Qed.

Lemma rule_written name ticker :
  bytes (Execute (nodes_of makefileTemplate) (VStruct (name_fields name ticker))).1 = plug (plug_names name ticker) (bytes rule_text).
Proof. apply (Execute_plug name ticker _ _ _ makefile_flat (names_plugged name ticker)). Qed.

(** Strings with the names put in *)
Definition plug_string (f : Z → list Z) (s : string) : string := of_bytes (plug f (bytes s)).

Lemma plug_string_app f a b : plug_string f (a ++ b) = plug_string f a ++ plug_string f b.
Proof. unfold plug_string. by rewrite bytes_app, plug_app, of_bytes_app. Qed.

Lemma plug_string_plain name ticker s : no_names (bytes s) = true → plug_string (plug_names name ticker) s = s.
Proof. intros H. unfold plug_string. by rewrite plug_no_names, of_bytes_bytes. Qed.

Lemma plug_string_hole name ticker :
  plug_string (plug_names name ticker) (one_char hole) = ticker ∧ plug_string (plug_names name ticker) (one_char name_hole) = name.
Proof.
  unfold plug_string, plug, one_char. rewrite !bytes_of_bytes by (constructor; [done|constructor]). cbn [map concat].
  change (plug_names name ticker hole) with (bytes ticker). change (plug_names name ticker name_hole) with (bytes name).
  by rewrite !app_nil_r, !of_bytes_bytes.
Qed.

Lemma plug_lines f l : plug_string f nl = nl → plug_string f (lines l) = lines (map (plug_string f) l).
Proof.
  intros Hnl. unfold lines, joined. induction l as [|x l IH]; [done|]. cbn [map foldr].
  by rewrite !plug_string_app, IH, Hnl.
Qed.

(** What is added to the Makefile, for the holes and then for every coin *)
Lemma rule_text_rules :
  rule_text = image_rules (one_char name_hole) (one_char hole) ++ init_rule (one_char name_hole) (one_char hole).
Proof. vm_compute. reflexivity. Qed.

Lemma rules_plug name ticker :
  plug_string (plug_names name ticker) (image_rules (one_char name_hole) (one_char hole) ++ init_rule (one_char name_hole) (one_char hole))
  = image_rules name ticker ++ init_rule name ticker.
Proof.
  destruct (plug_string_hole name ticker) as [Ht Hn]. unfold image_rules, init_rule.
  rewrite !plug_string_app, !plug_lines by by apply plug_string_plain. cbn [map app concat passed_parameters].
  rewrite !plug_string_app, Ht, Hn. by rewrite !plug_string_plain by (vm_compute; reflexivity).
Qed.

Lemma rules_written name ticker :
  (Execute (nodes_of makefileTemplate) (VStruct (name_fields name ticker))).1 = image_rules name ticker ++ init_rule name ticker.
Proof.
  pose proof (rule_written name ticker) as Hw. apply (f_equal of_bytes) in Hw. rewrite of_bytes_bytes in Hw. rewrite Hw.
  change (of_bytes (plug ?f (bytes ?s))) with (plug_string f s). by rewrite rule_text_rules, rules_plug.
Qed.

(** It passes the parameters without a default, and no others. *)
Lemma required_passed : required_parameters stack_template ≡ₚ map fst (passed_parameters (one_char hole)).
Proof. apply (bool_decide_unpack _). vm_compute. exact I. Qed.

Lemma passed_fill ticker : map (fill_string (bytes ticker)) (map fst (passed_parameters (one_char hole))) = map fst (passed_parameters ticker).
Proof.
  cbn [passed_parameters map fst]. repeat f_equal.
  unfold fill_string. rewrite bytes_app, fill_app, of_bytes_app. f_equal. unfold one_char.
  rewrite bytes_of_bytes by (constructor; [done|constructor]). rewrite fill_hole. cbn [fill]. by rewrite app_nil_r, of_bytes_bytes.
Qed.

(** ** Lists of coins *)

Definition list_fields (coins : list string) (unix : string) : list (string * value) :=
  [("Coins", VList (map VString coins)); ("Timestamp", VString unix)].

Lemma write_rows coins body row :
  (∀ coin, write_all (exec (VString coin)) body = (row coin, true)) →
  write_all (fun v => write_all (exec v) body) (map VString coins) = (joined (map row coins), true).
Proof.
  intros H. induction coins as [|c coins IH]; [done|]. cbn [map]. by rewrite write_all_cons, H, IH.
Qed.

(** *** deploy-sample.sh *)

Lemma deploy_nodes : ∃ a b f1 f2 f3 g1 g2 g3,
  nodes_of deploySampleDotSh = [Text a; Field "Timestamp"; Text b; Range "Coins" [Text f1; Dot; Text f2; Dot; Text f3]; Text case_head;
    Range "Coins" [Text g1; Dot; Text g2; Dot; Text g3]; Text script_tail] ∧
  (∀ coin, deploy_function coin = f1 ++ coin ++ f2 ++ coin ++ f3) ∧ (∀ coin, deploy_branch coin = g1 ++ coin ++ g2 ++ coin ++ g3) ∧
  ∀ unix, script_head unix = a ++ unix ++ b.
Proof.
  do 8 eexists. split; [vm_compute; reflexivity|]. split_and!; intros x; unfold deploy_function, deploy_branch, script_head, lines;
    cbn [joined map foldr]; rewrite !string_app_assoc; reflexivity.
Qed.

Lemma script_written coins unix : (Execute (nodes_of deploySampleDotSh) (VStruct (list_fields coins unix))).1 = script unix coins.
Proof.
  destruct deploy_nodes as (a & b & f1 & f2 & f3 & g1 & g2 & g3 & -> & Hf & Hg & Hh). unfold script. rewrite Hh.
  pose proof (write_rows coins [Text f1; Dot; Text f2; Dot; Text f3] deploy_function) as Hrf.
  pose proof (write_rows coins [Text g1; Dot; Text g2; Dot; Text g3] deploy_branch) as Hrg.
  unfold Execute. rewrite !write_all_cons.
  cbn [exec show get_field find list_fields fst snd fmap option_fmap option_map String.eqb Ascii.eqb Bool.eqb].
  rewrite Hrf, Hrg.
  - cbn [then_write fst snd write_all foldr]. by rewrite !string_app_assoc, string_app_nil.
  - intros coin. rewrite !write_all_cons. cbn. by rewrite string_app_nil, Hg.
  - intros coin. rewrite !write_all_cons. cbn. by rewrite string_app_nil, Hf.
Qed.

(** *** coin.go *)

Definition no_quote (l : list Z) : bool := forallb (fun c => negb (c =? 34)) l.

Lemma go_strings_skip l k : no_quote l = true → go_strings None (l ++ k)%list = go_strings None k.
Proof.
  induction l as [|c l IH]; [done|]. cbn [no_quote forallb]. intros [Hc Hl]%andb_true_iff. cbn. apply negb_true_iff in Hc. rewrite Hc. by apply IH.
Qed.

Lemma go_strings_open k : go_strings None (34 :: k) = go_strings (Some []) k.
Proof. done. Qed.

Lemma go_strings_inside l k acc :
  no_quote l = true → go_strings (Some acc) (l ++ 34 :: k)%list = of_bytes (reverse acc ++ l)%list :: go_strings None k.
Proof.
  revert acc. induction l as [|c l IH]; intros acc; [intros _; cbn; by rewrite app_nil_r|]. cbn [no_quote forallb].
  intros [Hc Hl]%andb_true_iff. cbn. apply negb_true_iff in Hc. rewrite Hc, IH by done. by rewrite reverse_cons, <-app_assoc.
Qed.

Lemma rows_strings c d coins k :
  no_quote c = true → no_quote d = true → forallb (fun coin => no_quote (bytes coin)) coins = true →
  go_strings None (concat (map (fun coin => c ++ 34 :: bytes coin ++ 34 :: d) coins) ++ k)%list = (coins ++ go_strings None k)%list.
Proof.
  intros Hc Hd. induction coins as [|x coins IH]; [done|]. cbn [forallb map concat]. intros [Hx Hxs]%andb_true_iff.
  rewrite <-!app_assoc. cbn [app]. rewrite go_strings_skip, go_strings_open by done.
  rewrite <-!app_assoc. cbn [app]. rewrite go_strings_inside, go_strings_skip, IH by done.
  change (reverse [] ++ bytes x)%list with (bytes x). by rewrite of_bytes_bytes.
Qed.

Lemma bytes_foldr l : bytes (foldr String.append "" l) = concat (map bytes l).
Proof. induction l as [|s l IH]; [done|]. cbn [foldr map concat]. by rewrite bytes_app, IH. Qed.

(** The file: a comment with the time, and a line for each coin *)
Definition coin_row (coin : string) : string := go_raw "
    `" ++ coin ++ go_raw "`,
".

Lemma coins_nodes : ∃ a b c d e,
  nodes_of coinsTemplate = [Text a; Field "Timestamp"; Text b; Range "Coins" [Text c; Dot; Text d]; Text e] ∧
  forallb (fun s => no_quote (bytes s)) [a; b; e] = true ∧ ∀ coin, coin_row coin = c ++ coin ++ d.
Proof. do 5 eexists. split; [vm_compute; reflexivity|]. split; [vm_compute; reflexivity|]. intros coin. vm_compute. reflexivity. Qed.

Lemma coin_row_bytes coin : bytes (coin_row coin) = ([10; 32; 32; 32; 32] ++ 34 :: bytes coin ++ 34 :: [44; 10])%list.
Proof. unfold coin_row. rewrite !bytes_app. reflexivity. Qed.

Lemma coins_strings coins unix :
  no_quote (bytes unix) = true → forallb (fun coin => no_quote (bytes coin)) coins = true →
  go_strings None (bytes (Execute (nodes_of coinsTemplate) (VStruct (list_fields coins unix))).1) = coins.
Proof.
  intros Hu Hcs. destruct coins_nodes as (a & b & c & d & e & En & Hq & Hrow). rewrite En.
  assert (E : (Execute [Text a; Field "Timestamp"; Text b; Range "Coins" [Text c; Dot; Text d]; Text e] (VStruct (list_fields coins unix))).1
    = a ++ unix ++ b ++ foldr String.append "" (map coin_row coins) ++ e).
  { pose proof (write_rows coins [Text c; Dot; Text d] coin_row) as Hrows. unfold Execute.
    rewrite !write_all_cons. cbn [exec show get_field find list_fields fst snd fmap option_fmap option_map String.eqb Ascii.eqb Bool.eqb].
    rewrite Hrows.
    - cbn. by rewrite string_app_nil.
    - intros coin. rewrite !write_all_cons. cbn. by rewrite string_app_nil, Hrow. }
  rewrite E, !bytes_app, bytes_foldr, map_map, (map_ext _ _ coin_row_bytes).
  cbn [forallb] in Hq. rewrite !andb_true_iff in Hq. destruct Hq as (Ha & Hb & He & _).
  rewrite !go_strings_skip, rows_strings by done. rewrite <-(app_nil_r (bytes e)), go_strings_skip by done. cbn. by rewrite app_nil_r.
Qed.

(** ** Properties *)

Definition stack_path (name : string) : string := "../" ++ name ++ ".json".

Lemma stack_path_other name path : hd_error (reverse (bytes path)) ≠ Some 110 → stack_path name ≠ path.
Proof. intros H <-. apply H. unfold stack_path. by rewrite !bytes_app, !reverse_app. Qed.

(** What a run leaves in the files *)
Lemma gen_coin_files openable unix name coins d C M P :
  coinsTemplate = Val C → makefileTemplate = Val M → packageTemplate = Val P →
  openable (stack_path name) = true → openable "../Makefile" = true → openable "../coin/coin.go" = true →
  ∃ d', gen_coin openable unix name coins d = (Val tt, d') ∧
    d' !! stack_path name = Some (Execute P (VStruct (ticker_fields (ToUpper name)))).1 ∧
    d' !! "../Makefile" = Some (default "" (d !! "../Makefile") ++
      (Execute M (VStruct (name_fields name (ToUpper name)))).1) ∧
    d' !! "../coin/coin.go" =
      Some (Execute C (VStruct (list_fields (coins ++ [ToUpper name])%list unix))).1.
Proof.
  intros HC HM HP Ho1 Ho2 Ho3. unfold gen_coin. rewrite HC, HM, HP.
  unfold act_bind, act_val, act_fatal, act_panic, os_Create, os_Append. fold (stack_path name). rewrite Ho1. cbn [fatal_err].
  unfold execute_to at 1, file_write at 1. rewrite Ho2. unfold execute_to at 1, file_write at 1. rewrite Ho3. unfold execute_to, file_write.
  assert (H1 : "../Makefile" ≠ stack_path name) by (apply not_eq_sym, stack_path_other; by vm_compute).
  assert (H2 : "../coin/coin.go" ≠ stack_path name) by (apply not_eq_sym, stack_path_other; by vm_compute).
  assert (H3 : "../coin/coin.go" ≠ "../Makefile") by done.
  pose proof (not_eq_sym H1) as H1'. clear Ho1 Ho2 Ho3.
  generalize dependent (stack_path name). intros path **. generalize dependent "../coin/coin.go". intros go **.
  generalize dependent "../Makefile". intros makefile **.
  eexists. split; [reflexivity|]. unfold name_fields, ticker_fields, list_fields. split_and!.
  - rewrite !(lookup_insert_ne _ go path), !(lookup_insert_ne _ makefile path), !lookup_insert_eq by assumption. reflexivity.
  - rewrite !(lookup_insert_ne _ go makefile), !lookup_insert_eq, !(lookup_insert_ne _ path makefile) by assumption. reflexivity.
  - rewrite !lookup_insert_eq. reflexivity.
Qed.

Lemma gen_deploy_files openable unix coins d P :
  deploySampleDotSh = Val P → openable "../deploy-sample.sh" = true →
  ∃ d', gen_deploy openable unix coins d = (Val tt, d') ∧
    d' !! "../deploy-sample.sh" = Some (Execute P (VStruct (list_fields coins unix))).1.
Proof.
  intros HP Ho. unfold gen_deploy. rewrite HP.
  unfold act_bind, act_val, act_panic, os_Create, execute_to, file_write. rewrite Ho. eexists. split; [done|]. by rewrite !lookup_insert_eq.
Qed.

(** When the Makefile cannot be opened the stack is there, but the coin is not
    listed. *)
Lemma gen_coin_panics openable unix name coins d :
  openable (stack_path name) = true → openable "../Makefile" = false →
  ∃ d', gen_coin openable unix name coins d = (Panic (PanicError (open_error "../Makefile")), d') ∧
    is_Some (d' !! stack_path name) ∧ d' !! "../coin/coin.go" = d !! "../coin/coin.go".
Proof.
  intros Ho1 Ho2. unfold gen_coin. rewrite coins_parses, makefile_parses, package_parses.
  unfold act_bind, act_val, act_fatal, act_panic, os_Create, os_Append, execute_to, file_write. fold (stack_path name). rewrite Ho1, Ho2.
  eexists. split; [reflexivity|]. split; [rewrite lookup_insert_eq; by eexists|].
  rewrite !lookup_insert_ne; [reflexivity|apply stack_path_other; by vm_compute..].
Qed.

Lemma alnum_upper s : alnum s = true → alnum (ToUpper s) = true.
Proof.
  unfold alnum, ToUpper. intros [Ha Hn]%andb_true_iff. apply andb_true_iff. split; [|by destruct s].
  rewrite bytes_of_bytes by (apply Forall_map, Forall_upper_byte, bytes_is_byte).
  rewrite forallb_forall in Ha |- *. intros x (c & <- & Hc)%in_map_iff. specialize (Ha c Hc).
  unfold is_alnum, is_word, upper_byte in *. destruct ((97 <=? c) && (c <=? 122)) eqn:E; lia.
Qed.

Lemma alnum_no_quote s : alnum s = true → no_quote (bytes s) = true.
Proof.
  intros [Ha _]%andb_true_iff. unfold no_quote. rewrite forallb_forall in Ha |- *. intros c Hc. specialize (Ha c Hc).
  unfold is_alnum, is_word in Ha. lia.
Qed.

Lemma alnum_plain s : alnum s = true → forallb plain_char (bytes s) = true.
Proof.
  intros [Ha _]%andb_true_iff. rewrite forallb_forall in Ha |- *. intros c Hc. specialize (Ha c Hc).
  unfold is_alnum, is_word in Ha. unfold plain_char, between. lia.
Qed.

Lemma stack_sections_apart : sections_apart stack_template = true.
Proof. vm_compute. reflexivity. Qed.

Lemma stack_defaults_apart : keys_apart "Default" (JObject (section_of "Parameters" stack_template)) = true.
Proof. vm_compute. reflexivity. Qed.

#[local] Opaque stack_text stack_template rule_text.

(** The generated stack *)
Lemma stack_generated ticker :
  alnum ticker = true →
  whole (Execute (nodes_of packageTemplate) (VStruct (ticker_fields ticker))).1 = Some (fill_json (bytes ticker) stack_template) ∧
  deployable (fill_json (bytes ticker) stack_template) ∧
  required_parameters (fill_json (bytes ticker) stack_template) = map (fill_string (bytes ticker)) (required_parameters stack_template).
Proof.
  intros Ht. pose proof Ht as [Ha Hn]%andb_true_iff. assert (Hb : bytes ticker ≠ []) by (by destruct ticker).
  split_and!.
  - pose proof (stack_written ticker) as Hw. apply (f_equal of_bytes) in Hw. rewrite of_bytes_bytes in Hw. rewrite Hw.
    refine (whole_fill (bytes ticker) (alnum_plain _ Ht) stack_text stack_template [] 400 stack_parses eq_refl stack_fillable _).
    pose proof stack_long as Hl%Nat.leb_le. pose proof (length_fill_ge (bytes ticker) (bytes stack_text) Hb) as Hf.
    apply (Nat.le_trans _ _ _ Hl), (Nat.le_trans _ _ _ Hf), Nat.le_add_r.
  - apply deployable_fill; [done|done|apply stack_template_apart|apply stack_template_complete].
  - apply required_fill; [done|done|apply stack_sections_apart|apply stack_defaults_apart].
Qed.

(** C30. Adding a coin: for every name of letters and digits the generator
    leaves a stack that is valid JSON, whose names are distinct, and in which every
    name that a resource, an output or a condition refers to, every condition and
    every mapping is defined, without a circle among the resources; a Makefile to
    which exactly the rules of the coin were added, of which [init_rule] creates the
    stack from that file and passes the parameters without a default and no others;
    and a coin.go that lists the coins with the new ticker.  From that list the
    second program writes exactly [script]: a function for each coin, which makes
    the target of its rule, and a branch for each that calls the function. *)
Theorem coin_generated (openable : string → bool) (unix name : string) (coins : list string) (d : disk) :
  alnum name = true → forallb alnum coins = true → no_quote (bytes unix) = true →
  Forall (fun p => openable p = true) [stack_path name; "../Makefile"; "../coin/coin.go"; "../deploy-sample.sh"] →
  let ticker := ToUpper name in
  let listed := (coins ++ [ticker])%list in
  ∃ d1 text stack coin_go d2,
    gen_coin openable unix name coins d = (Val tt, d1) ∧
    d1 !! stack_path name = Some text ∧ whole text = Some stack ∧ deployable stack ∧
    d1 !! "../Makefile" = Some (default "" (d !! "../Makefile") ++ image_rules name ticker ++ init_rule name ticker) ∧
    map fst (passed_parameters ticker) ≡ₚ required_parameters stack ∧
    d1 !! "../coin/coin.go" = Some coin_go ∧ go_strings None (bytes coin_go) = listed ∧
    gen_deploy openable unix (go_strings None (bytes coin_go)) d1 = (Val tt, d2) ∧
    d2 !! "../deploy-sample.sh" = Some (script unix listed).
Proof.
  intros Hn Hcs Hu Ho. rewrite !list.Forall_cons in Ho. destruct Ho as (Ho1 & Ho2 & Ho3 & Ho4 & _).
  pose proof (alnum_upper name Hn) as Ht. cbn zeta. set (ticker := ToUpper name) in *. set (listed := (coins ++ [ticker])%list).
  destruct (gen_coin_files openable unix name coins d _ _ _ coins_parses makefile_parses package_parses Ho1 Ho2 Ho3)
    as (d1 & Hrun & Hf1 & Hf2 & Hf3). fold ticker listed in Hf1, Hf2, Hf3.
  destruct (stack_generated ticker Ht) as (Hw & Hd & Hreq). rewrite rules_written in Hf2.
  assert (Hgo : go_strings None (bytes (Execute (nodes_of coinsTemplate) (VStruct (list_fields listed unix))).1) = listed).
  { apply coins_strings; [exact Hu|]. unfold listed. rewrite forallb_app. cbn [forallb]. rewrite (alnum_no_quote ticker Ht), andb_true_r.
    rewrite forallb_forall in Hcs |- *. intros c Hc. apply alnum_no_quote, Hcs, Hc. }
  destruct (gen_deploy_files openable unix listed d1 _ deploy_parses Ho4) as (d2 & Hrun2 & Hf4).
  rewrite script_written in Hf4. do 5 eexists. split; [exact Hrun|]. split; [exact Hf1|]. split; [exact Hw|]. split; [exact Hd|]. split; [exact Hf2|].
  split; [|split; [exact Hf3|rewrite Hgo; split; [reflexivity|split; [exact Hrun2|exact Hf4]]]].
  rewrite Hreq, required_passed. by rewrite passed_fill.
Qed.

Lemma coin_generated_witness :
  let listed := (Coins ++ ["XMR"])%list in
  ∃ d1 text stack coin_go d2,
    gen_coin (fun _ => true) "Thu Nov 14 12:00:00 UTC 2019" "xmr" Coins ∅ = (Val tt, d1) ∧
    d1 !! stack_path "xmr" = Some text ∧ whole text = Some stack ∧ deployable stack ∧
    d1 !! "../Makefile" = Some (default "" ((∅ : disk) !! "../Makefile") ++ image_rules "xmr" "XMR" ++ init_rule "xmr" "XMR") ∧
    map fst (passed_parameters "XMR") ≡ₚ required_parameters stack ∧
    d1 !! "../coin/coin.go" = Some coin_go ∧ go_strings None (bytes coin_go) = listed ∧
    gen_deploy (fun _ => true) "Thu Nov 14 12:00:00 UTC 2019" (go_strings None (bytes coin_go)) d1 = (Val tt, d2) ∧
    d2 !! "../deploy-sample.sh" = Some (script "Thu Nov 14 12:00:00 UTC 2019" listed).
Proof.
  apply (coin_generated (fun _ => true) "Thu Nov 14 12:00:00 UTC 2019" "xmr" Coins ∅).
  - reflexivity.
  - reflexivity.
  - reflexivity.
  - repeat constructor.
Defined.
